(* ===== verification/_CoqProject ===== *)
-Q . S2P
Prelude.v
Words.v
Float64.v
Address.v
Errors.v
Bitmap.v
Plane.v
Region.v
Allocator.v
AllocatorInv.v
YPromotionInv.v
AllocatorSpec.v
AllocatorEdge.v
YPromotion.v
Compaction.v
Workers.v
WorkersSpec.v
Gas.v
Sha256.v
Merkle.v
Spatial.v
Registers.v
Instructions.v
MemoryManager.v
VM.v
Progress.v
VMFrame.v
BlockMachine.v
VMMemory.v
VMSpec.v
Typing.v
StaticSafety.v
Refinement.v
VMApi.v
Main.v
