(* ===== verification/Prelude.v ===== *)
(** * Memory3D: a verified model of the three-dimensional memory VM

    ** The program

    Memory3D (Go, under src/) is a virtual machine whose memory is addressed by
    triples: X names a region, Y a plane of the region, Z a byte of the plane.

    - internal/types holds the data: addresses, the bitmap that records which bytes
      of a plane are used, allocation objects, planes, regions and permissions.
    - internal/allocator places and releases blocks: a fast path over recently used
      regions, Y-promotion (a block spread over several planes), new regions.
    - internal/merkle keeps hashes of stored blocks and answers proofs.
    - internal/vm executes programs: decoder, registers, gas, spatial cache, memory
      manager (which finds the block of an address and moves bytes), instruction
      handlers and the execution loop.
    - cmd/vm3d is the command line: it builds a program, runs it and reports.

    A program runs as [Execute -> fetchInstruction -> DecodeInstruction ->
    executeInstruction -> handler]; the handlers call the gas accountant, the
    allocator, the memory manager, the cache and the tree, and the memory manager
    reads and writes plane data through the allocator's regions.

    ** Files

    - Prelude: machine integers, the result type [res] of Go calls (return, panic,
      block for ever), the class [GoRuntime], loops, shared lemmas and tactics.
    - Words, Float64: bit counting and big-endian words; binary64.
    - Address (types/address.go, constants.go), Errors (the errors of all parts).
    - Bitmap (types/bitmap.go): [FindContiguous] word by word as in the source.
    - Plane (types/allocation.go, plane.go): allocation objects live in a heap and
      are shared by reference between plane maps, memory manager and callers.
    - Region (types/region.go, permissions.go) with the region invariant.
    - Allocator (allocator/allocator.go); AllocatorInv, YPromotionInv: its invariant
      and the lemmas of each path; AllocatorSpec, AllocatorEdge: its theorems.
    - Workers (allocator/allocator.go: [startWorkers], [allocWorker], [Allocate],
      [Free], [Shutdown]): the worker goroutines, their bounded request queues, the
      reply channels and the callers as a step relation over one shared allocator.
      WorkersSpec: its theorems.
    - YPromotion (allocator/ypromotion.go): the promotion planner.  Compaction: the
      theorem about the allocator's compaction analysis.
    - Gas (vm/gas.go): sequential operations and a step relation for goroutines.
    - Sha256, Merkle (merkle/tree.go), Spatial (vm/spatial.go), Registers
      (vm/registers.go), Instructions (vm/opcodes.go, instructions.go),
      MemoryManager (vm/memory_manager.go), VM (vm/executor.go, vm.go).
    - Progress: no call of the VM blocks.  VMFrame: what the handlers leave alone,
      fetching, the measure of the loop, gas.
    - BlockMachine: the abstract machine a program is written for: a partial map from
      addresses to blocks of bytes, the registers and the gas left; no planes, bitmaps,
      regions, cache or tree.  It specifies every instruction, its errors included.
    - VMMemory: the invariant between heap, allocator, memory manager and cache, and
      the map of blocks behind it.  VMSpec: each handler simulates its abstract
      instruction.  Refinement: whole programs refine the abstract machine.
    - Typing: the shape of every reachable state and the machine types of its fields.
      StaticSafety: a condition on the text
      of a program under which it stays safe.
    - VMApi (vm/vm.go): the calls a host makes beside [Execute].  Main
      (cmd/vm3d/main.go): the demonstration program and the command.

    Definitions keep the names of the source; where two types have a method of the
    same name the type is put in front ([Plane_Free], [Reg_Get], [VM_Store3D]).
    Records have the fields of the structs with a short prefix.

    ** How the code is translated

    - An integer of width w is a [Z]; every operation that can wrap is followed by
      [u8], [u16], [u32] or [u64] as the types of the source dictate, and the
      subtraction idiom [^uint64(n-1)] is written out.
    - State is passed explicitly; errors are values of the type [error] in Errors;
      a run-time panic is [Panic] and a call that waits for ever is [Hang].
    - What Go leaves open (the clock, the order of [range] over a map) is the class
      [GoRuntime]; theorems hold for every instance, examples use concrete ones, and
      [runtime_along] is an instance for any order of the keys.
    - A call of a mutex-protected method is one atomic step (the theorems about the
      worker pool interleave such steps), except where a function takes a lock its
      caller holds ([AllocateInRegion]).  Gas accounting, which is lock-free, is also
      modelled one atomic operation at a time.
    - Byte slices held by registers, cache and tree are lists: the VM never writes
      into them (a host that overwrites the slice it passed to [Store3D] would change
      the cached copy; such a host is outside the model).  Plane data and allocation objects, which are written, are state.

    ** What is shown

    - Address: the byte and text encodings round-trip, the comparison is the order of
      the encodings, the distance is a metric below the overflow bounds.
    - Bitmap and plane: the word-wise search equals a first-fit reference search while no
      16-bit sum wraps; on full-size planes, what a request does that fits nowhere and
      wraps; exact range updates and counts.
    - Region: access control is exact, with promoted blocks too; counters under removal
      of planes.
    - Allocator: the invariant [alloc_inv] (marked bytes are exactly the bytes of the
      recorded blocks, counters exact) is kept by every operation; each operation's
      result on every branch; the bytes each call takes and gives back; atomicity of
      promotion; histories; and the cases outside the invariant (promoted blocks
      released, empty requests, the lock of [AllocateInRegion]).
    - Worker pool: every history of concurrent [Allocate]s is one of sequential calls
      in an order that agrees with the replies, and whatever the scheduler does, every
      call made before [Shutdown] for a non-empty block, or to release a block of its
      own, is answered.
    - Planner: plans cover the request, and planning leaves its probes behind.
    - Compaction analysis: exact up to its limit.
    - Gas: conservation under every interleaving, linearisation of the interleaved calls
      to a purse that serves one call at a time, exact costs.
    - Merkle, cache, registers, decoder: completeness and limits of proofs (addresses and
      order are not authenticated), refinement of a map, round trips, exactness of the
      decoder.
    - Memory manager: stores and loads of tracked blocks, refusals.
    - VM: every program terminates and its gas is exact; every instruction, and every
      run of a program, does to registers, blocks and gas what the abstract machine
      does, with the same errors; every run keeps the state well formed; a program whose
      requests are not empty and stay under the size of a plane together never meets the
      wrapped search (and a program above it does); store and load by a host.
    - Command line: the output of the demonstration run, computed in full.

    ** Fuel and bounds

    - [scan_word] removes one bit of a 64-bit word per turn: 65 turns are enough, and
      the equality with the reference search depends on it.
    - [exec_loop] consumes at least one program byte per round: length plus one rounds
      are enough, and [execute_terminates] shows that more change nothing.
    - [count_loop] of the prefetcher needs more than 130 turns for a window of 64;
      where it diverges this is shown for every fuel.
    - [run_thread] is bounded by four steps, or the number of buckets plus three.

    ** What is not modelled

    The scheduling of the prefetch goroutine (its body is modelled), log output, the
    profiling server, file and final sleep of the command, the channels and fields that
    no method uses ([freeWorkers]; stack, call stack, halt channel and metrics of the
    VM).  The opcodes that are declared without decoder and executor (jumps, calls,
    stack) have no behaviour to model.

    ** Plan

    Next: several hosts that share one VM; the prefetch goroutine interleaved with the
    cache's other users; hosts that add planes to the regions of a VM, whose blocks
    Y-promotion can spread (programs never add one). *)
From stdpp Require Export base tactics option list list_numbers numbers gmap.
From Stdlib Require Export ZArith Lia.

#[export] Set Default Goal Selector "!".

Declare Scope go_scope.
Delimit Scope go_scope with go.
#[global] Open Scope Z_scope.

(** ** Machine integers *)

Definition u8 (z : Z) : Z := z mod 256.
Definition u16 (z : Z) : Z := z mod 65536.
Definition u32 (z : Z) : Z := z mod 4294967296.
Definition u64 (z : Z) : Z := z mod 18446744073709551616.

(** [int64(x)] of an unsigned 64-bit value: two's complement reading. *)
Definition to_int64 (z : Z) : Z :=
  let w := u64 z in if w <? 9223372036854775808 then w else w - 18446744073709551616.

Definition is_u8 (z : Z) : Prop := 0 <= z < 256.
Definition is_u16 (z : Z) : Prop := 0 <= z < 65536.
Definition is_u32 (z : Z) : Prop := 0 <= z < 4294967296.
Definition is_u64 (z : Z) : Prop := 0 <= z < 18446744073709551616.

#[export] Instance is_u8_dec z : Decision (is_u8 z).
Proof. unfold is_u8. apply _. Defined.
#[export] Instance is_u16_dec z : Decision (is_u16 z).
Proof. unfold is_u16. apply _. Defined.
#[export] Instance is_u32_dec z : Decision (is_u32 z).
Proof. unfold is_u32. apply _. Defined.
#[export] Instance is_u64_dec z : Decision (is_u64 z).
Proof. unfold is_u64. apply _. Defined.

(** [^x] on 64 bits, and [x << n] truncated to 64 bits. *)
Definition not64 (x : Z) : Z := Z.lxor x (Z.ones 64).
Definition shl64 (x n : Z) : Z := u64 (Z.shiftl x n).

(** [atomic.AddUint64(&c, ^uint64(n-1))]: the idiom the code uses to subtract.
    The inner [n-1] is computed at the width of [n] before the conversion, so
    the idiom is only a subtraction when [n] is not zero. *)
Definition sub_idiom16 (c n : Z) : Z := u64 (c + not64 (u16 (n - 1))).
Definition sub_idiom32 (c n : Z) : Z := u64 (c + not64 (u32 (n - 1))).

(** ** Panics *)

(** The outcome of a Go call: it returns, it stops with a run-time panic (index
    out of range, negative shift count, nil dereference, division by zero), or
    it blocks for ever (a lock its own goroutine already holds, a channel nobody
    serves).  Go errors are ordinary return values and live inside [Ret]. *)
Inductive res (A : Type) : Type :=
| Ret (a : A)
| Panic
| Hang.
Arguments Ret {A} a.
Arguments Panic {A}.
Arguments Hang {A}.

#[export] Instance res_ret : MRet res := fun A a => Ret a.
#[export] Instance res_bind : MBind res := fun A B f m =>
  match m with Ret a => f a | Panic => Panic | Hang => Hang end.

#[export] Instance res_eq_dec `{EqDecision A} : EqDecision (res A).
Proof. solve_decision. Defined.

(** Reading through a pointer or an index that may be absent. *)
Definition deref {A} (o : option A) : res A :=
  match o with Some a => Ret a | None => Panic end.

(** ** Loops *)

(** [for i := lo; i < hi; i++ { a = f(a, i) }] *)
Definition for_range {A} (lo hi : Z) (f : A -> Z -> A) (a : A) : A :=
  foldl f a (seqZ lo (hi - lo)).

(** Sum of [f] over a list. *)
Definition sumZ {A} (f : A -> Z) (l : list A) : Z := foldr (fun x s => f x + s) 0 l.

(** ** The Go run time *)

(** What the program observes of the run time: the clock, and the order in
    which a [range] over a map visits its keys.  Both are unspecified by the
    language; [site] separates the occurrences within one call, so that two
    ranges over the same map may disagree.  The one law says that a [range]
    visits every key exactly once. *)
Class GoRuntime := {
  rt_now : nat -> Z;
  rt_range : forall {K V} `{Countable K}, nat -> gmap K V -> list K;
  rt_range_perm : forall {K V} `{Countable K} (site : nat) (m : gmap K V),
    rt_range site m ≡ₚ (map_to_list m).*1;
}.

(** Two concrete run times: keys in the map's internal order, and reversed. *)
Definition runtime_fwd (t : Z) : GoRuntime := {|
  rt_now := fun _ => t;
  rt_range := fun K V _ _ _ m => (map_to_list m).*1;
  rt_range_perm := fun K V _ _ _ m => Permutation_refl _;
|}.

Definition runtime_rev (t : Z) : GoRuntime := {|
  rt_now := fun _ => t;
  rt_range := fun K V _ _ _ m => rev ((map_to_list m).*1);
  rt_range_perm := fun K V _ _ _ m => Permutation_sym (Permutation_rev _);
|}.

(** A run time for any order: the keys whose codes are listed come first, in the order
    of the list. *)
Definition range_along {K V} `{Countable K} (codes : list positive) (m : gmap K V) : list K :=
  let keys := (map_to_list m).*1 in
  let first := filter (fun k => k ∈ keys) (remove_dups (omap decode codes)) in
  first ++ filter (fun k => k ∉ first) keys.

Lemma range_along_perm {K V} `{Countable K} codes (m : gmap K V) : range_along codes m ≡ₚ (map_to_list m).*1.
Proof.
  unfold range_along. set (keys := (map_to_list m).*1). set (first := filter _ (remove_dups _)).
  assert (forall k, k ∈ first -> k ∈ keys) as Hsub by (intros k [? _]%list_elem_of_filter; done).
  assert (NoDup keys) as Hnd by apply NoDup_fst_map_to_list. apply NoDup_Permutation; [| done |].
  - apply NoDup_app. split_and!; [apply NoDup_filter, NoDup_remove_dups | | by apply NoDup_filter].
    intros k Hk [Hn _]%list_elem_of_filter. done.
  - intros k. rewrite elem_of_app, list_elem_of_filter. split; [intros [?|[_ ?]]; auto|].
    intros Hk. destruct (decide (k ∈ first)); auto.
Qed.

Definition runtime_along (t : Z) (codes : list positive) : GoRuntime := {|
  rt_now := fun _ => t;
  rt_range := fun K V _ _ _ m => range_along codes m;
  rt_range_perm := fun K V _ _ _ m => range_along_perm codes m;
|}.

Lemma range_along_keys {K V} `{Countable K} (ks : list K) (m : gmap K V) :
  ks ≡ₚ (map_to_list m).*1 -> range_along (encode <$> ks) m = ks.
Proof.
  intros Hks. unfold range_along. set (keys := (map_to_list m).*1) in *.
  assert (NoDup ks) as Hnd by (rewrite Hks; apply NoDup_fst_map_to_list).
  assert (forall (P : K -> Prop) {HP : forall k, Decision (P k)} (l : list K), (forall k, k ∈ l -> P k) -> filter P l = l) as Hall.
  { intros P HP l. induction l as [|k l IH]; intros Hl; [done|]. rewrite filter_cons_True by (apply Hl; by left).
    f_equal. apply IH. intros; apply Hl; by right. }
  assert (omap (decode (A := K)) (encode <$> ks) = ks) as ->.
  { clear. induction ks as [|k ks IH]; [done|]. cbn. rewrite decode_encode. f_equal. exact IH. }
  assert (forall l : list K, NoDup l -> remove_dups l = l) as Hrd.
  { clear. induction 1 as [|k l Hk _ IH]; [done|]. simpl. destruct (decide_rel _ _ _); [done | by rewrite IH]. }
  rewrite Hrd by done. rewrite (Hall (fun k => k ∈ keys)) by (intros k Hk; by rewrite <- Hks).
  assert (filter (fun k => k ∉ ks) keys = []) as ->; [|apply app_nil_r].
  assert (forall l : list K, (forall k, k ∈ l -> k ∈ ks) -> filter (fun k => k ∉ ks) l = []) as Hno.
  { induction l as [|k l IH]; intros Hl; [done|]. rewrite filter_cons_False by (intros Hn; apply Hn, Hl; by left).
    apply IH. intros; apply Hl; by right. }
  apply Hno. intros k Hk. by rewrite Hks.
Qed.

(** ** Shared lemmas *)

Create HintDb m3d.
#[export] Hint Unfold is_u8 is_u16 is_u32 is_u64 : m3d.

Lemma u16_small z : is_u16 z -> u16 z = z.
Proof. unfold is_u16, u16. intros. by apply Z.mod_small. Qed.
Lemma u32_small z : is_u32 z -> u32 z = z.
Proof. unfold is_u32, u32. intros. by apply Z.mod_small. Qed.
Lemma u64_small z : is_u64 z -> u64 z = z.
Proof. unfold is_u64, u64. intros. by apply Z.mod_small. Qed.
Lemma u16_range z : is_u16 (u16 z).
Proof. unfold is_u16, u16. apply Z.mod_pos_bound; lia. Qed.
Lemma u32_range z : is_u32 (u32 z).
Proof. unfold is_u32, u32. apply Z.mod_pos_bound; lia. Qed.
Lemma u64_range z : is_u64 (u64 z).
Proof. unfold is_u64, u64. apply Z.mod_pos_bound; lia. Qed.
#[export] Hint Resolve u16_range u32_range u64_range : m3d.

Lemma u64_add_l a b : u64 (u64 a + b) = u64 (a + b).
Proof. apply Zplus_mod_idemp_l. Qed.
Lemma u64_add_r a b : u64 (a + u64 b) = u64 (a + b).
Proof. apply Zplus_mod_idemp_r. Qed.

(** Case analysis on the boolean comparisons in the goal or the context. *)
Ltac case_bool :=
  repeat match goal with
  | |- context [?a <? ?b] => destruct (Z.ltb_spec a b)
  | |- context [?a <=? ?b] => destruct (Z.leb_spec a b)
  | |- context [?a =? ?b] => destruct (Z.eqb_spec a b)
  | H : context [?a <? ?b] |- _ => destruct (Z.ltb_spec a b)
  | H : context [?a <=? ?b] |- _ => destruct (Z.leb_spec a b)
  | H : context [?a =? ?b] |- _ => destruct (Z.eqb_spec a b)
  end.

(** Replace the comparisons in the goal whose value [lia] can decide. *)
Ltac solve_bool :=
  repeat match goal with
  | |- context [?a <? ?b] =>
      first [rewrite (proj2 (Z.ltb_lt a b)) by lia | rewrite (proj2 (Z.ltb_ge a b)) by lia]
  | |- context [?a <=? ?b] =>
      first [rewrite (proj2 (Z.leb_le a b)) by lia | rewrite (proj2 (Z.leb_gt a b)) by lia]
  | |- context [?a =? ?b] =>
      first [rewrite (proj2 (Z.eqb_eq a b)) by lia | rewrite (proj2 (Z.eqb_neq a b)) by lia]
  end.

(** Arithmetic on the wrapped integers. *)
Ltac word :=
  unfold is_u8, is_u16, is_u32, is_u64, u8, u16, u32, u64 in *;
  Z.div_mod_to_equations; lia.

Lemma bind_Ret {A B} (a : A) (f : A -> res B) : (Ret a ≫= f) = f a.
Proof. done. Qed.

Lemma bind_Ret_inv {A B} (m : res A) (f : A -> res B) b :
  m ≫= f = Ret b -> exists a, m = Ret a /\ f a = Ret b.
Proof. destruct m; simpl; [eauto | done..]. Qed.

Lemma testbit_u64_high x i : is_u64 x -> 64 <= i -> Z.testbit x i = false.
Proof.
  unfold is_u64. intros Hx Hi. destruct (decide (x = 0)) as [-> | ]; [apply Z.bits_0|].
  apply Z.bits_above_log2; [lia|].
  assert (Z.log2 x < 64); [|lia]. apply Z.log2_lt_pow2; lia.
Qed.

Lemma testbit_not64 x i : 0 <= i < 64 -> Z.testbit (not64 x) i = negb (Z.testbit x i).
Proof.
  intros. unfold not64. rewrite Z.lxor_spec, Z.ones_spec_low by lia.
  by destruct (Z.testbit x i).
Qed.

Lemma not64_sub x : is_u64 x -> not64 x = 18446744073709551615 - x.
Proof.
  intros Hx. assert (Z.ones 64 - x = Z.ldiff (Z.ones 64) x) as Hs.
  { apply Z.sub_nocarry_ldiff, Z.bits_inj'. intros i Hi. rewrite Z.ldiff_spec, Z.bits_0.
    destruct (decide (i < 64)).
    - rewrite Z.ones_spec_low by lia. by destruct (Z.testbit x i).
    - by rewrite testbit_u64_high by (done || lia). }
  change (18446744073709551615 - x) with (Z.ones 64 - x). rewrite Hs.
  apply Z.bits_inj'. intros i Hi. rewrite Z.ldiff_spec. destruct (decide (i < 64)).
  - rewrite testbit_not64, Z.ones_spec_low by lia. done.
  - unfold not64. rewrite Z.lxor_spec, Z.ones_spec_high, testbit_u64_high by (done || lia). done.
Qed.

Lemma not64_range x : is_u64 x -> is_u64 (not64 x).
Proof. intros Hx. rewrite not64_sub by done. unfold is_u64 in *. lia. Qed.

Lemma sub_idiom32_pos c n :
  is_u64 c -> 0 < n < 4294967296 -> n <= c -> sub_idiom32 c n = c - n.
Proof.
  intros Hc Hn Hle. unfold sub_idiom32.
  rewrite u32_small by (unfold is_u32; lia).
  rewrite not64_sub by (unfold is_u64; lia). word.
Qed.

Lemma sub_idiom16_pos c n :
  is_u64 c -> 0 < n < 65536 -> n <= c -> sub_idiom16 c n = c - n.
Proof.
  intros Hc Hn Hle. unfold sub_idiom16. rewrite u16_small by (unfold is_u16; lia).
  rewrite not64_sub by (unfold is_u64; lia). word.
Qed.

(** At zero the 16-bit idiom takes 2^16 instead of nothing. *)
Lemma sub_idiom16_zero c : sub_idiom16 c 0 = u64 (c - 65536).
Proof. unfold sub_idiom16, u64. rewrite (not64_sub (u16 (0 - 1))) by by vm_compute. word. Qed.

Lemma for_range_inv {A} (P : Z -> A -> Prop) lo hi (f : A -> Z -> A) a :
  lo <= hi -> P lo a ->
  (forall i a, lo <= i < hi -> P i a -> P (i + 1) (f a i)) ->
  P hi (for_range lo hi f a).
Proof.
  intros Hle H0 Hstep. unfold for_range.
  assert (forall n k a, k + Z.of_nat n = hi -> lo <= k -> P k a ->
    P hi (foldl f a (seqZ k (Z.of_nat n)))) as Hgen.
  { clear a H0. induction n as [|n IH]; intros k a Hk Hlo HP.
    - rewrite seqZ_nil by lia. simpl. by replace hi with k by lia.
    - rewrite seqZ_cons by lia. simpl.
      replace (Z.pred (Z.of_nat (S n))) with (Z.of_nat n) by lia.
      apply IH; [lia | lia |]. rewrite <- Z.add_1_r. apply Hstep; [lia | done]. }
  replace (hi - lo) with (Z.of_nat (Z.to_nat (hi - lo))) by lia.
  apply Hgen; [lia | lia | done].
Qed.

Lemma for_range_empty {A} lo hi (f : A -> Z -> A) a : hi <= lo -> for_range lo hi f a = a.
Proof. intros. unfold for_range. by rewrite seqZ_nil by lia. Qed.

Section sumZ.
Context {A : Type}.
Implicit Types (f g : A -> Z) (l k : list A).

Lemma sumZ_app f l k : sumZ f (l ++ k) = sumZ f l + sumZ f k.
Proof. induction l; simpl; lia. Qed.

Lemma sumZ_ext f g l : (forall x, x ∈ l -> f x = g x) -> sumZ f l = sumZ g l.
Proof.
  induction l as [|x l IH]; intros H; [done|]. simpl.
  rewrite (H x), IH; [done | | set_solver]. intros; apply H; set_solver.
Qed.

Lemma sumZ_nonneg f l : (forall x, x ∈ l -> 0 <= f x) -> 0 <= sumZ f l.
Proof.
  induction l as [|x l IH]; intros H; simpl; [lia|].
  pose proof (H x ltac:(set_solver)). assert (0 <= sumZ f l); [|lia].
  apply IH. set_solver.
Qed.

Lemma sumZ_le f g l : (forall x, x ∈ l -> f x <= g x) -> sumZ f l <= sumZ g l.
Proof.
  induction l as [|x l IH]; intros H; simpl; [lia|].
  pose proof (H x ltac:(set_solver)). assert (sumZ f l <= sumZ g l); [|lia].
  apply IH. set_solver.
Qed.

Lemma sumZ_add f g l : sumZ (fun x => f x + g x) l = sumZ f l + sumZ g l.
Proof. induction l; simpl; lia. Qed.

Lemma sumZ_const c l : sumZ (fun _ => c) l = c * Z.of_nat (length l).
Proof. induction l; simpl; lia. Qed.

#[export] Instance sumZ_perm f : Proper ((≡ₚ) ==> (=)) (sumZ f).
Proof. induction 1; simpl; lia. Qed.
End sumZ.

Lemma sumZ_insert {A} (f : A -> Z) (l : list A) (i : nat) x y :
  l !! i = Some x -> sumZ f (<[i := y]> l) = sumZ f l - f x + f y.
Proof.
  revert i. induction l as [|z l IH]; intros [|i] H; simplify_eq/=; [lia|].
  rewrite (IH i) by done. lia.
Qed.

Lemma sumZ_delete {A} (f : A -> Z) (l : list A) (i : nat) x :
  l !! i = Some x -> sumZ f (delete i l) = sumZ f l - f x.
Proof. intros Hi. rewrite (delete_Permutation l i x Hi) at 2. simpl. lia. Qed.

Lemma sumZ_pos_elem {A} (f : A -> Z) (l : list A) :
  0 < sumZ f l -> exists x, x ∈ l /\ 0 < f x.
Proof.
  induction l as [|x l IH]; simpl; [lia|]. intros H. destruct (decide (0 < f x)).
  - exists x. split; [by left | done].
  - destruct IH as (y & Hy & ?); [lia|]. exists y. split; [by right | done].
Qed.

Lemma sumZ_seqZ_split f a n m :
  0 <= n -> 0 <= m -> sumZ f (seqZ a (n + m)) = sumZ f (seqZ a n) + sumZ f (seqZ (a + n) m).
Proof. intros. by rewrite seqZ_app, sumZ_app by lia. Qed.

(** The number of integers of [s, e) in [0, n). *)
Lemma sumZ_interval s e n :
  0 <= s <= e -> e <= n -> sumZ (fun q => Z.b2z ((s <=? q) && (q <? e))) (seqZ 0 n) = e - s.
Proof.
  intros Hs He. replace n with (s + ((e - s) + (n - e))) by lia.
  rewrite !sumZ_seqZ_split by lia. simpl.
  rewrite (sumZ_ext _ (fun _ => 0) (seqZ 0 s)), (sumZ_ext _ (fun _ => 1) (seqZ s (e - s))),
    (sumZ_ext _ (fun _ => 0) (seqZ (s + (e - s)) (n - e))).
  - rewrite !sumZ_const, !length_seqZ. lia.
  - intros x Hx%elem_of_seqZ. by solve_bool; rewrite andb_false_r.
  - intros x Hx%elem_of_seqZ. by solve_bool.
  - intros x Hx%elem_of_seqZ. by solve_bool.
Qed.

Lemma sumZ_swap {A B} (f : A -> B -> Z) (l : list A) (k : list B) :
  sumZ (fun x => sumZ (f x) k) l = sumZ (fun y => sumZ (fun x => f x y) l) k.
Proof.
  induction l as [|x l IH]; simpl; [by rewrite sumZ_const|]. rewrite IH, <- sumZ_add. done.
Qed.

Lemma sumZ_lookup_le {A} (f : A -> Z) (l : list A) i x :
  (forall y, y ∈ l -> 0 <= f y) -> l !! i = Some x -> f x <= sumZ f l.
Proof.
  revert i. induction l as [|y l IH]; intros [|i] Hn Hi; simplify_eq/=.
  - assert (0 <= sumZ f l); [|lia]. apply sumZ_nonneg. intros; apply Hn; by right.
  - pose proof (Hn y ltac:(by left)).
    assert (f x <= sumZ f l); [|lia]. apply (IH i); [|done]. intros; apply Hn; by right.
Qed.

(** Two different positions contribute separately. *)
Lemma sumZ_lookup2_le {A} (f : A -> Z) (l : list A) i j x y :
  (forall y, y ∈ l -> 0 <= f y) -> i <> j -> l !! i = Some x -> l !! j = Some y ->
  f x + f y <= sumZ f l.
Proof.
  revert i j. induction l as [|z l IH]; intros i j Hn Hij Hi Hj; [done|].
  assert (forall w, w ∈ l -> 0 <= f w) as Hn' by (intros; apply Hn; by right).
  pose proof (Hn z ltac:(by left)). destruct i as [|i], j as [|j]; simplify_eq/=.
  - pose proof (sumZ_lookup_le f l j y Hn' Hj). lia.
  - pose proof (sumZ_lookup_le f l i x Hn' Hi). lia.
  - pose proof (IH i j Hn' ltac:(congruence) Hi Hj). lia.
Qed.

Lemma list_alter_insert {A} (f : A -> A) (l : list A) i x :
  l !! i = Some x -> alter f i l = <[i := f x]> l.
Proof.
  revert i. induction l as [|y l IH]; intros [|i] Hi; simplify_eq/=; [done|].
  change (y :: alter f i l = y :: <[i := f x]> l). by rewrite IH.
Qed.
