(* ===== verification/Words.v ===== *)
(** * Bits and bytes

    The parts of [math/bits] and [encoding/binary] the program uses, on [Z]:
    [bits.TrailingZeros64], [bits.OnesCount64], and big-endian encoding of
    unsigned integers as lists of bytes ([0 <= b < 256]). *)
From S2P Require Import Prelude.

(** ** math/bits *)

Fixpoint trailing_zeros (n : nat) (w : Z) : Z :=
  match n with
  | O => 0
  | S n => if Z.odd w then 0 else 1 + trailing_zeros n (Z.div2 w)
  end.

Fixpoint ones_count (n : nat) (w : Z) : Z :=
  match n with
  | O => 0
  | S n => Z.b2z (Z.odd w) + ones_count n (Z.div2 w)
  end.

Definition TrailingZeros64 (w : Z) : Z := trailing_zeros 64 w.
Definition OnesCount64 (w : Z) : Z := ones_count 64 w.

(** ** encoding/binary, big endian *)

Fixpoint be_bytes (n : nat) (v : Z) : list Z :=
  match n with
  | O => []
  | S m => u8 (Z.shiftr v (8 * Z.of_nat m)) :: be_bytes m v
  end.

Definition be_val (l : list Z) : Z := foldl (fun acc b => acc * 256 + b) 0 l.

(** The slice [data[lo:hi]] of a byte list that is long enough. *)
Definition slice {A} (lo hi : nat) (l : list A) : list A := take (hi - lo) (drop lo l).

(** ** Lemmas *)

Lemma testbit_div2 w i : 0 <= i -> Z.testbit (Z.div2 w) i = Z.testbit w (i + 1).
Proof. intros. by rewrite Z.div2_spec, Z.shiftr_spec by lia. Qed.

Lemma trailing_zeros_spec n w :
  (exists i, 0 <= i < Z.of_nat n /\ Z.testbit w i = true) ->
  0 <= trailing_zeros n w < Z.of_nat n /\
  Z.testbit w (trailing_zeros n w) = true /\
  (forall i, 0 <= i < trailing_zeros n w -> Z.testbit w i = false).
Proof.
  revert w. induction n as [|n IH]; intros w [i [Hi Hb]]; [lia|]. simpl.
  destruct (Z.odd w) eqn:Hodd.
  { rewrite Z.bit0_odd. split_and!; [lia | lia | done | intros; lia]. }
  assert (i <> 0) by (intros ->; rewrite Z.bit0_odd in Hb; congruence).
  destruct (IH (Z.div2 w)) as (Hr & Ht & Hl).
  { exists (i - 1). split; [lia|]. rewrite testbit_div2 by lia.
    by replace (i - 1 + 1) with i by lia. }
  rewrite testbit_div2 in Ht by lia. rewrite Z.add_comm in Ht.
  split_and!; [lia | lia | done |]. intros j Hj. destruct (decide (j = 0)) as [-> | ].
  { by rewrite Z.bit0_odd. }
  specialize (Hl (j - 1) ltac:(lia)). rewrite testbit_div2 in Hl by lia.
  by replace (j - 1 + 1) with j in Hl by lia.
Qed.

Lemma u64_nonzero_bit w : is_u64 w -> w <> 0 -> exists i, 0 <= i < 64 /\ Z.testbit w i = true.
Proof.
  intros Hw Hne. exists (Z.log2 w). unfold is_u64 in Hw. split.
  - split; [apply Z.log2_nonneg|]. apply Z.log2_lt_pow2; lia.
  - apply Z.bit_log2. lia.
Qed.

Lemma TrailingZeros64_spec w :
  is_u64 w -> w <> 0 ->
  0 <= TrailingZeros64 w < 64 /\ Z.testbit w (TrailingZeros64 w) = true /\
  (forall i, 0 <= i < TrailingZeros64 w -> Z.testbit w i = false).
Proof.
  intros Hw Hne. apply (trailing_zeros_spec 64). by apply u64_nonzero_bit.
Qed.

Lemma ones_count_sum n w :
  ones_count n w = sumZ (fun i => Z.b2z (Z.testbit w i)) (seqZ 0 (Z.of_nat n)).
Proof.
  revert w. induction n as [|n IH]; intros w; [done|].
  rewrite seqZ_cons by lia. simpl. rewrite IH. f_equal.
  replace (Z.pred (Z.of_nat (S n))) with (Z.of_nat n) by lia.
  replace (Z.succ 0) with (1 + 0) by lia. rewrite <- fmap_add_seqZ.
  assert (forall l : list Z, Forall (fun i => 0 <= i) l ->
    sumZ (fun i => Z.b2z (Z.testbit (Z.div2 w) i)) l =
    sumZ (fun i => Z.b2z (Z.testbit w i)) (Z.add 1 <$> l)) as Hl.
  { induction l as [|x l IHl]; intros Hf; [done|].
    apply Forall_cons in Hf as [Hx Hf]. simpl. rewrite testbit_div2 by lia.
    rewrite IHl by done. by replace (x + 1) with (1 + x) by lia. }
  apply Hl, Forall_seqZ. lia.
Qed.

Lemma OnesCount64_sum w :
  OnesCount64 w = sumZ (fun i => Z.b2z (Z.testbit w i)) (seqZ 0 64).
Proof. apply (ones_count_sum 64). Qed.

Lemma testbit_shl1 i j : 0 <= i -> 0 <= j < 64 -> Z.testbit (shl64 1 j) i = (i =? j).
Proof.
  intros Hi Hj. unfold shl64, u64.
  change 18446744073709551616 with (2 ^ 64). rewrite Z.shiftl_1_l.
  rewrite Z.mod_small by (split; [lia|]; apply Z.pow_lt_mono_r; lia).
  rewrite Z.pow2_bits_eqb by lia. apply Z.eqb_sym.
Qed.

(** A word whose bits all lie below 64 is a [uint64]. *)
Lemma u64_of_bits x : 0 <= x -> (forall i, 64 <= i -> Z.testbit x i = false) -> is_u64 x.
Proof.
  intros Hx Hb. split; [done|]. destruct (decide (x = 0)) as [-> | Hne]; [lia|].
  change 18446744073709551616 with (2 ^ 64). apply Z.log2_lt_pow2; [lia|].
  destruct (decide (Z.log2 x < 64)); [done|]. exfalso.
  specialize (Hb (Z.log2 x) ltac:(lia)). rewrite Z.bit_log2 in Hb by lia. done.
Qed.

Lemma land_range x y : is_u64 x -> is_u64 y -> is_u64 (Z.land x y).
Proof.
  intros Hx Hy. apply u64_of_bits.
  - apply Z.land_nonneg. left. apply Hx.
  - intros i Hi. by rewrite Z.land_spec, testbit_u64_high.
Qed.

Lemma lor_range x y : is_u64 x -> is_u64 y -> is_u64 (Z.lor x y).
Proof.
  intros Hx Hy. apply u64_of_bits.
  - apply Z.lor_nonneg. split; [apply Hx | apply Hy].
  - intros i Hi. by rewrite Z.lor_spec, !testbit_u64_high.
Qed.

Lemma ldiff_range x y : is_u64 x -> is_u64 (Z.ldiff x y).
Proof.
  intros Hx. apply u64_of_bits.
  - apply Z.ldiff_nonneg. left. apply Hx.
  - intros i Hi. by rewrite Z.ldiff_spec, testbit_u64_high.
Qed.

(** [x & m] is zero exactly when no bit of the mask is set in [x]. *)
Lemma land_zero_iff x m :
  is_u64 x -> (Z.land x m = 0 <-> forall i, 0 <= i < 64 -> Z.testbit m i = true -> Z.testbit x i = false).
Proof.
  intros Hx. split.
  - intros H0 i Hi Hm. assert (Z.testbit (Z.land x m) i = false) as Hb
      by (rewrite H0; apply Z.bits_0). rewrite Z.land_spec, Hm in Hb.
    by rewrite andb_true_r in Hb.
  - intros H. apply Z.bits_inj'. intros i Hi. rewrite Z.land_spec, Z.bits_0.
    destruct (decide (i < 64)).
    + specialize (H i ltac:(lia)). destruct (Z.testbit m i); [|by rewrite andb_false_r].
      by rewrite H.
    + by rewrite testbit_u64_high by (done || lia).
Qed.

Lemma be_bytes_length n v : length (be_bytes n v) = n.
Proof. induction n; simpl; [done|]. by rewrite IHn. Qed.

Lemma be_bytes_range n v : Forall is_u8 (be_bytes n v).
Proof.
  induction n; simpl; constructor; [|done]. unfold is_u8, u8. apply Z.mod_pos_bound; lia.
Qed.

Lemma be_val_app l k : be_val (l ++ k) = be_val l * 256 ^ Z.of_nat (length k) + be_val k.
Proof.
  unfold be_val. rewrite foldl_app. generalize (foldl (fun acc b => acc * 256 + b) 0 l).
  induction k as [|b k IH] using rev_ind; intros a; simpl; [lia|].
  rewrite !foldl_app, IH. simpl. rewrite length_app. simpl.
  rewrite Nat2Z.inj_add, Z.pow_add_r by lia. simpl. lia.
Qed.

Lemma be_val_cons b l : be_val (b :: l) = b * 256 ^ Z.of_nat (length l) + be_val l.
Proof. change (b :: l) with ([b] ++ l). rewrite be_val_app. done. Qed.

(** Reading back what was written gives the value at the encoded width. *)
Lemma be_val_bytes n v : be_val (be_bytes n v) = v mod 256 ^ Z.of_nat n.
Proof.
  induction n as [|n IH].
  - simpl. by rewrite Z.mod_1_r.
  - simpl be_bytes. rewrite be_val_cons, be_bytes_length, IH. unfold u8.
    rewrite Z.shiftr_div_pow2, Z.pow_mul_r by lia. change (2 ^ 8) with 256.
    replace (Z.of_nat (S n)) with (Z.of_nat n + 1) by lia.
    rewrite Z.pow_add_r, Z.pow_1_r by lia. rewrite Z.rem_mul_r by lia. ring.
Qed.

Lemma be_val_range l : Forall is_u8 l -> 0 <= be_val l < 256 ^ Z.of_nat (length l).
Proof.
  induction 1 as [|b l Hb Hl IH]; [done|]. rewrite be_val_cons. simpl length.
  rewrite Nat2Z.inj_succ, Z.pow_succ_r by lia. unfold is_u8 in Hb.
  set (p := 256 ^ Z.of_nat (length l)) in *. nia.
Qed.

(** Writing back what was read gives the same bytes. *)
Lemma be_bytes_val l : Forall is_u8 l -> be_bytes (length l) (be_val l) = l.
Proof.
  induction 1 as [|b l Hb Hl IH]; [done|]. simpl be_bytes. rewrite be_val_cons.
  pose proof (be_val_range l Hl) as Hr. set (p := 256 ^ Z.of_nat (length l)) in *.
  assert (forall n v w, (n <= length l)%nat -> be_bytes n (w * p + v) = be_bytes n v) as Hhi.
  { induction n as [|n IHn]; intros v w Hn; [done|]. simpl. rewrite IHn by lia. f_equal.
    unfold u8. rewrite !Z.shiftr_div_pow2, !Z.pow_mul_r by lia. change (2 ^ 8) with 256.
    replace p with (256 ^ (Z.of_nat (length l) - Z.of_nat n - 1) * 256 * 256 ^ Z.of_nat n).
    - rewrite !Z.mul_assoc, Z.div_add_l by lia. rewrite Z.add_comm, <- !Z.mul_assoc.
      rewrite !Z.mul_assoc. apply Z.mod_add. lia.
    - unfold p. rewrite <- (Z.pow_1_r 256) at 2. rewrite <- !Z.pow_add_r by lia. f_equal. lia. }
  rewrite Hhi, IH by lia. f_equal. unfold u8, is_u8 in *.
  rewrite Z.shiftr_div_pow2, Z.pow_mul_r by lia. change (2 ^ 8) with 256. fold p.
  rewrite Z.div_add_l, Z.div_small by lia. rewrite Z.mod_small; lia.
Qed.

(** ** Masks *)

Lemma testbit_shl64 x k i :
  0 <= k -> 0 <= i < 64 -> Z.testbit (shl64 x k) i = if k <=? i then Z.testbit x (i - k) else false.
Proof.
  intros Hk Hi. unfold shl64, u64. change 18446744073709551616 with (2 ^ 64).
  rewrite Z.mod_pow2_bits_low, Z.shiftl_spec by lia. case_bool; [done|].
  apply Z.testbit_neg_r. lia.
Qed.

Lemma testbit_not64_0 i : 0 <= i < 64 -> Z.testbit (not64 0) i = true.
Proof. intros. by rewrite testbit_not64, Z.bits_0 by lia. Qed.

Lemma low_mask n : 0 <= n <= 64 -> u64 (shl64 1 n - 1) = Z.ones n.
Proof.
  intros Hn. rewrite Z.ones_equiv. unfold shl64. rewrite Z.shiftl_1_l.
  destruct (decide (n = 64)) as [-> | Hne]; [done|].
  assert (2 ^ n < 2 ^ 64) by (apply Z.pow_lt_mono_r; lia).
  assert (0 < 2 ^ n) by (apply Z.pow_pos_nonneg; lia).
  rewrite (u64_small (2 ^ n)) by (unfold is_u64; lia). rewrite u64_small by (unfold is_u64; lia). lia.
Qed.

Lemma testbit_low_mask n i :
  0 <= n <= 64 -> 0 <= i -> Z.testbit (u64 (shl64 1 n - 1)) i = (i <? n).
Proof.
  intros Hn Hi. rewrite low_mask by done. destruct (Z.ltb_spec i n).
  - apply Z.ones_spec_low. lia.
  - apply Z.ones_spec_high. lia.
Qed.
