(* ===== verification/Float64.v ===== *)
(** * IEEE 754 double precision

    Go's [float64] as the Standard Library's executable specification of IEEE
    arithmetic ([SpecFloat]) at precision 53 and maximal exponent 1024, with
    round to nearest even. *)
From S2P Require Import Prelude.
From Stdlib Require Import SpecFloat.

Notation float64 := spec_float.

Definition f64_of_Z (z : Z) : float64 := binary_normalize 53 1024 z 0 false.
Definition f64_add : float64 -> float64 -> float64 := SFadd 53 1024.
Definition f64_sub : float64 -> float64 -> float64 := SFsub 53 1024.
Definition f64_mul : float64 -> float64 -> float64 := SFmul 53 1024.
Definition f64_div : float64 -> float64 -> float64 := SFdiv 53 1024.
Definition f64_ltb (x y : float64) : bool := SFltb x y.
Definition f64_zero : float64 := S754_zero false.

(** A decimal constant [num/den], rounded to the nearest double. *)
Definition f64_ratio (num den : Z) : float64 := f64_div (f64_of_Z num) (f64_of_Z den).

(** [uint64(f)] of a finite non-negative value below 2^64: truncation. *)
Definition f64_to_u64 (f : float64) : Z :=
  match f with
  | S754_finite false m e => Z.shiftl (Zpos m) e
  | _ => 0
  end.

(** [math.Float64bits]: sign, biased exponent and fraction of a binary64. *)
Definition Float64bits (f : float64) : Z :=
  match f with
  | S754_zero s => if s then 9223372036854775808 else 0
  | S754_infinity s => (if s then 9223372036854775808 else 0) + 9218868437227405312
  | S754_nan => 9221120237041090561
  | S754_finite s m e =>
      (if s then 9223372036854775808 else 0) +
      (if Z.pos m <? 4503599627370496 then Z.pos m else (e + 1075) * 4503599627370496 + (Z.pos m - 4503599627370496))
  end.
