(* ===== verification/Address.v ===== *)
(** * 3D addresses (internal/types/address.go, constants.go)

    [Address3D] with its byte and text encodings, its ordering and its
    weighted distance.  Go strings are lists of runes (code points); the part
    of [fmt.Sscanf] the parser uses is written out below. *)
From S2P Require Import Prelude Words.
From stdpp Require Import countable strings.
#[local] Open Scope Z_scope.

(** ** constants.go *)

Definition MaxXRegions : Z := 256.
Definition MaxYPlanes : Z := 65535.
Definition MaxZOffset : Z := 65534.
Definition PlaneSize : Z := 65535.
Definition GasBaseAllocation : Z := 3.
Definition GasPerByte : Z := 1.
Definition GasYPromotion : Z := 10.
Definition GasRegionChange : Z := 100.

(** ** The address type *)

Record Address3D := NewAddress { aX : Z; aY : Z; aZ : Z }.

#[export] Instance Address3D_eq_dec : EqDecision Address3D.
Proof. solve_decision. Defined.

#[export] Instance Address3D_countable : Countable Address3D.
Proof.
  refine (inj_countable' (fun a => (aX a, aY a, aZ a))
    (fun '(x, y, z) => NewAddress x y z) _). by intros [].
Defined.

#[export] Instance Address3D_inhabited : Inhabited Address3D := populate (NewAddress 0 0 0).

(** The value ranges of the three fields (uint64, uint32, uint16). *)
Definition addr_ok (a : Address3D) : Prop := is_u64 (aX a) /\ is_u32 (aY a) /\ is_u16 (aZ a).

#[export] Instance addr_ok_dec a : Decision (addr_ok a).
Proof. unfold addr_ok. apply _. Defined.

Definition IsValid (a : Address3D) : bool :=
  (aX a <? MaxXRegions) && (aY a <? MaxYPlanes) && (aZ a <? MaxZOffset).

(** ** Byte encoding *)

Definition Bytes (a : Address3D) : list Z :=
  be_bytes 8 (aX a) ++ be_bytes 4 (aY a) ++ be_bytes 2 (aZ a).

(** [None] is the error return "invalid address length". *)
Definition FromBytes (data : list Z) : option Address3D :=
  if decide (length data <> 14%nat) then None
  else Some {| aX := be_val (slice 0 8 data);
               aY := be_val (slice 8 12 data);
               aZ := be_val (slice 12 14 data) |}.

(** ** Text encoding *)

Definition runes (s : String.string) : list Z :=
  (fun c => Z.of_nat (Ascii.nat_of_ascii c)) <$> String.list_ascii_of_string s.

(** [%d] of an unsigned value; 20 digits are enough for a uint64. *)
Fixpoint dec_digits (fuel : nat) (v : Z) : list Z :=
  match fuel with
  | O => []
  | S fuel => if v <? 10 then [48 + v] else dec_digits fuel (v / 10) ++ [48 + v mod 10]
  end.

Definition dec (v : Z) : list Z := dec_digits 20 v.

Definition String_ (a : Address3D) : list Z :=
  runes "[X:"%string ++ dec (aX a) ++ runes ",Y:"%string ++ dec (aY a) ++ runes ",Z:"%string ++ dec (aZ a) ++ runes "]"%string.

(** [strings.Trim(s, "[]")] *)
Definition is_bracket (r : Z) : bool := (r =? 91) || (r =? 93).

Fixpoint trim_left (s : list Z) : list Z :=
  match s with
  | [] => []
  | r :: s' => if is_bracket r then trim_left s' else s
  end.

Definition trim (s : list Z) : list Z := rev (trim_left (rev (trim_left s))).

(** fmt's notion of a space rune. *)
Definition is_space (r : Z) : bool :=
  ((9 <=? r) && (r <=? 13)) || (r =? 32) || (r =? 133) || (r =? 160) || (r =? 5760) ||
  ((8192 <=? r) && (r <=? 8202)) || ((8232 <=? r) && (r <=? 8233)) || (r =? 8239) ||
  (r =? 8287) || (r =? 12288).

(** [SkipSpace] of Sscanf: a newline in the input is an error ([None]). *)
Fixpoint skip_space (s : list Z) : option (list Z) :=
  match s with
  | [] => Some []
  | r :: s' => if r =? 10 then None else if is_space r then skip_space s' else Some s
  end.

Definition is_digit (r : Z) : bool := (48 <=? r) && (r <=? 57).

Fixpoint span_digits (s : list Z) : list Z * list Z :=
  match s with
  | [] => ([], [])
  | r :: s' => if is_digit r then let '(d, k) := span_digits s' in (r :: d, k) else ([], s)
  end.

Definition digits_val (d : list Z) : Z := foldl (fun acc r => acc * 10 + (r - 48)) 0 d.

(** The verb [%d] into a uint64: spaces, at least one digit, no overflow. *)
Definition scan_uint (s : list Z) : option (Z * list Z) :=
  s ← skip_space s;
  match span_digits s with
  | ([], _) => None
  | (d, k) => if digits_val d <? 18446744073709551616 then Some (digits_val d, k) else None
  end.

(** A literal of the format string must match the input rune by rune. *)
Fixpoint scan_lit (lit s : list Z) : option (list Z) :=
  match lit, s with
  | [], _ => Some s
  | r :: lit', c :: s' => if r =? c then scan_lit lit' s' else None
  | _ :: _, [] => None
  end.

Definition ParseAddress (s : list Z) : option Address3D :=
  let s := trim s in
  s ← scan_lit (runes "X:"%string) s; '(x, s) ← scan_uint s;
  s ← scan_lit (runes ",Y:"%string) s; '(y, s) ← scan_uint s;
  s ← scan_lit (runes ",Z:"%string) s; '(z, _) ← scan_uint s;
  Some {| aX := x; aY := u32 y; aZ := u16 z |}.

(** ** Arithmetic and ordering *)

Definition AddZ (a : Address3D) (offset : Z) : Address3D :=
  {| aX := aX a; aY := aY a; aZ := u16 (aZ a + offset) |}.

Definition NextY (a : Address3D) : Address3D :=
  {| aX := aX a; aY := u32 (aY a + 1); aZ := 0 |}.

Definition Compare (a b : Address3D) : Z :=
  if negb (aX a =? aX b) then (if aX a <? aX b then -1 else 1)
  else if negb (aY a =? aY b) then (if aY a <? aY b then -1 else 1)
  else if negb (aZ a =? aZ b) then (if aZ a <? aZ b then -1 else 1)
  else 0.

Definition absDiff64 (a b : Z) : Z := if a >? b then u64 (a - b) else u64 (b - a).
Definition absDiff32 (a b : Z) : Z := if a >? b then u32 (a - b) else u32 (b - a).
Definition absDiff16 (a b : Z) : Z := if a >? b then u16 (a - b) else u16 (b - a).

Definition ManhattanDistance (a b : Address3D) : Z :=
  let dx := absDiff64 (aX a) (aX b) in
  let dy := absDiff32 (aY a) (aY b) in
  let dz := absDiff16 (aZ a) (aZ b) in
  u64 (u64 (u64 (dx * 100) + u64 (dy * 10)) + dz).

(** ** Byte round trip *)

Lemma slice_app_l {A} (l k : list A) n : length l = n -> slice 0 n (l ++ k) = l.
Proof. intros <-. unfold slice. rewrite drop_0, Nat.sub_0_r. apply take_app_length. Qed.

Lemma slice_app_r {A} (l k : list A) n lo hi :
  length l = n -> (n <= lo)%nat -> slice lo hi (l ++ k) = slice (lo - n) (hi - n) k.
Proof.
  intros <- Hle. unfold slice. rewrite drop_app_ge by done. f_equal. lia.
Qed.

Lemma Bytes_length a : length (Bytes a) = 14%nat.
Proof. unfold Bytes. by rewrite !length_app, !be_bytes_length. Qed.

Lemma FromBytes_Bytes a : addr_ok a -> FromBytes (Bytes a) = Some a.
Proof.
  intros (Hx & Hy & Hz). unfold FromBytes. rewrite decide_False by (rewrite Bytes_length; tauto).
  unfold Bytes. rewrite slice_app_l by apply be_bytes_length.
  rewrite (slice_app_r _ _ 8) by (try apply be_bytes_length; lia). simpl Nat.sub.
  rewrite slice_app_l by apply be_bytes_length.
  rewrite (slice_app_r _ _ 8) by (try apply be_bytes_length; lia). simpl Nat.sub.
  rewrite (slice_app_r _ _ 4) by (try apply be_bytes_length; lia). simpl Nat.sub.
  rewrite <- (app_nil_r (be_bytes 2 (aZ a))), slice_app_l by apply be_bytes_length.
  rewrite !be_val_bytes. unfold is_u64, is_u32, is_u16 in *.
  rewrite !Z.mod_small by (change (Z.of_nat 8) with 8; change (Z.of_nat 4) with 4;
    change (Z.of_nat 2) with 2; lia). by destruct a.
Qed.

Lemma length_14_split (d : list Z) :
  length d = 14%nat ->
  exists x y z, d = x ++ y ++ z /\ length x = 8%nat /\ length y = 4%nat /\ length z = 2%nat.
Proof.
  intros Hd. exists (take 8 d), (take 4 (drop 8 d)), (drop 4 (drop 8 d)).
  rewrite !take_drop, !length_take, !length_drop. split_and!; [done | lia..].
Qed.

Lemma Bytes_FromBytes d :
  length d = 14%nat -> Forall is_u8 d ->
  exists a, FromBytes d = Some a /\ addr_ok a /\ Bytes a = d.
Proof.
  intros (x & y & z & -> & Hx & Hy & Hz)%length_14_split [Fx [Fy Fz]%Forall_app]%Forall_app.
  exists (NewAddress (be_val x) (be_val y) (be_val z)).
  assert (addr_ok (NewAddress (be_val x) (be_val y) (be_val z))) as Hok.
  { apply be_val_range in Fx, Fy, Fz. rewrite Hx in Fx. rewrite Hy in Fy. rewrite Hz in Fz.
    unfold addr_ok, is_u64, is_u32, is_u16. simpl in *. lia. }
  assert (Bytes (NewAddress (be_val x) (be_val y) (be_val z)) = x ++ y ++ z) as Hb.
  { unfold Bytes. simpl aX. simpl aY. simpl aZ.
    rewrite <- Hx, <- Hy, <- Hz at 1. by rewrite !be_bytes_val. }
  rewrite <- Hb at 1. by rewrite FromBytes_Bytes.
Qed.

(** ** Text round trip *)

Lemma dec_digits_nonnil n v : (0 < n)%nat -> dec_digits n v <> [].
Proof. destruct n; [lia|]. intros _. simpl. case_bool; [done|]. by destruct (dec_digits n _). Qed.

Lemma dec_digits_are_digits n v : 0 <= v -> Forall (fun r => is_digit r = true) (dec_digits n v).
Proof.
  unfold is_digit. revert v. induction n as [|n IH]; intros v Hv; simpl; [constructor|].
  destruct (Z.ltb_spec v 10).
  - constructor; [|constructor]. apply andb_true_intro. split; apply Z.leb_le; lia.
  - apply Forall_app. split; [apply IH, Z.div_pos; lia|]. constructor; [|constructor].
    pose proof (Z.mod_pos_bound v 10 ltac:(lia)). apply andb_true_intro. split; apply Z.leb_le; lia.
Qed.

Lemma digits_val_snoc d r : digits_val (d ++ [r]) = digits_val d * 10 + (r - 48).
Proof. unfold digits_val. by rewrite foldl_app. Qed.

Lemma digits_val_dec_digits n v : 0 <= v < 10 ^ Z.of_nat n -> digits_val (dec_digits n v) = v.
Proof.
  revert v. induction n as [|n IH]; intros v Hv; [unfold digits_val; simpl in *; lia|].
  simpl dec_digits. destruct (Z.ltb_spec v 10); [unfold digits_val; cbn [foldl]; lia|].
  rewrite digits_val_snoc, IH.
  - pose proof (Z.div_mod v 10 ltac:(lia)). lia.
  - rewrite Nat2Z.inj_succ, Z.pow_succ_r in Hv by lia.
    split; [apply Z.div_pos; lia | apply Z.div_lt_upper_bound; lia].
Qed.

Lemma span_digits_app d k :
  Forall (fun r => is_digit r = true) d ->
  match k with [] => True | r :: _ => is_digit r = false end ->
  span_digits (d ++ k) = (d, k).
Proof.
  induction 1 as [|r d Hr Hd IH]; intros Hk; simpl.
  - destruct k; [done|]. simpl. by rewrite Hk.
  - rewrite Hr, IH by done. done.
Qed.

Lemma skip_space_digit r s : is_digit r = true -> skip_space (r :: s) = Some (r :: s).
Proof.
  unfold is_digit. intros [H1 H2]%andb_prop. apply Z.leb_le in H1, H2. simpl.
  assert (is_space r = false) as -> by (unfold is_space; by solve_bool). by solve_bool.
Qed.

Lemma scan_uint_dec v k :
  is_u64 v -> match k with [] => True | r :: _ => is_digit r = false end ->
  scan_uint (dec v ++ k) = Some (v, k).
Proof.
  intros Hv Hk. unfold scan_uint, dec.
  pose proof (dec_digits_are_digits 20 v ltac:(apply Hv)) as Hd.
  pose proof (dec_digits_nonnil 20 v ltac:(lia)) as Hne.
  pose proof (digits_val_dec_digits 20 v) as Hval.
  destruct (dec_digits 20 v) as [|r d] eqn:E; [done|].
  simpl app. rewrite skip_space_digit by (by inversion Hd). cbn [mbind option_bind].
  change (r :: d ++ k) with ((r :: d) ++ k). rewrite (span_digits_app (r :: d) k) by assumption.
  unfold is_u64 in Hv. rewrite Hval by (simpl; lia). by case_bool; [|lia].
Qed.

Lemma scan_lit_app lit s : scan_lit lit (lit ++ s) = Some s.
Proof. induction lit as [|r lit IH]; [done|]. simpl. by rewrite Z.eqb_refl. Qed.

Lemma trim_brackets m r1 r2 m' m'' :
  m = r1 :: m' -> m = m'' ++ [r2] -> is_bracket r1 = false -> is_bracket r2 = false ->
  trim ([91] ++ m ++ [93]) = m.
Proof.
  intros H1 H2 Hb1 Hb2. unfold trim. simpl trim_left.
  assert (trim_left (m ++ [93]) = m ++ [93]) as ->.
  { rewrite H1. simpl. by rewrite Hb1. }
  rewrite rev_app_distr. simpl.
  assert (trim_left (rev m) = rev m) as ->.
  { rewrite H2, rev_app_distr. simpl. by rewrite Hb2. }
  apply rev_involutive.
Qed.

Lemma dec_snoc v : 0 <= v -> exists d r, dec v = d ++ [r] /\ is_digit r = true.
Proof.
  intros Hv. pose proof (dec_digits_are_digits 20 v Hv) as Hd.
  unfold dec. destruct (dec_digits 20 v) as [|r d _] eqn:E using rev_ind.
  - by apply dec_digits_nonnil in E; [|lia].
  - apply Forall_app in Hd as [_ Hr]. inversion Hr. eauto.
Qed.

Lemma ParseAddress_String a :
  is_u64 (aX a) -> is_u64 (aY a) -> is_u64 (aZ a) ->
  ParseAddress (String_ a) = Some (NewAddress (aX a) (u32 (aY a)) (u16 (aZ a))).
Proof.
  intros Hx Hy Hz. unfold ParseAddress.
  set (body := runes "X:"%string ++ dec (aX a) ++ runes ",Y:"%string ++ dec (aY a) ++
               runes ",Z:"%string ++ dec (aZ a)).
  assert (String_ a = [91] ++ body ++ [93]) as ->.
  { unfold String_, body. rewrite <- !app_assoc. done. }
  destruct (dec_snoc (aZ a)) as (d & r & Hd & Hr); [apply Hz|].
  rewrite (trim_brackets body 88 r _ (runes "X:"%string ++ dec (aX a) ++ runes ",Y:"%string ++
    dec (aY a) ++ runes ",Z:"%string ++ d) eq_refl).
  - unfold body. unfold is_u64, is_u32, is_u16 in *.
    rewrite scan_lit_app. cbn [mbind option_bind].
    rewrite scan_uint_dec by (done || unfold is_u64; lia). cbn [mbind option_bind].
    rewrite scan_lit_app. cbn [mbind option_bind].
    rewrite scan_uint_dec by (done || unfold is_u64; lia). cbn [mbind option_bind].
    rewrite scan_lit_app. cbn [mbind option_bind].
    rewrite <- (app_nil_r (dec (aZ a))), scan_uint_dec by (done || unfold is_u64; lia).
    done.
  - unfold body. rewrite Hd, <- !app_assoc. done.
  - done.
  - unfold is_digit, is_bracket in *. apply andb_prop in Hr as [H1 H2].
    apply Z.leb_le in H1, H2. by solve_bool.
Qed.

(** ** Ordering and distance *)

(** [bytes.Compare]: the lexicographic order of byte strings. *)
Fixpoint bytes_Compare (l k : list Z) : Z :=
  match l, k with
  | [], [] => 0
  | [], _ :: _ => -1
  | _ :: _, [] => 1
  | b :: l', c :: k' => if b <? c then -1 else if c <? b then 1 else bytes_Compare l' k'
  end.

Definition cmp3 (v w : Z) : Z := if v <? w then -1 else if w <? v then 1 else 0.

Lemma bytes_Compare_val l k :
  length l = length k -> Forall is_u8 l -> Forall is_u8 k ->
  bytes_Compare l k = cmp3 (be_val l) (be_val k).
Proof.
  revert k. induction l as [|b l IH]; intros [|c k] Hlen Hl Hk; simplify_eq/=; [done|].
  inversion Hl as [|?? Hb Hl']; inversion Hk as [|?? Hc Hk']; subst.
  rewrite IH by done. rewrite !be_val_cons. rewrite <- Hlen.
  pose proof (be_val_range l Hl'). pose proof (be_val_range k Hk') as H'. rewrite <- Hlen in H'.
  set (p := 256 ^ Z.of_nat (length l)) in *. unfold cmp3, is_u8 in *. case_bool; try done; nia.
Qed.

Lemma Bytes_range a : Forall is_u8 (Bytes a).
Proof. unfold Bytes. rewrite !Forall_app. split_and!; apply be_bytes_range. Qed.

Lemma be_val_Bytes a :
  addr_ok a -> be_val (Bytes a) = (aX a * 4294967296 + aY a) * 65536 + aZ a.
Proof.
  intros (Hx & Hy & Hz). unfold Bytes. rewrite !be_val_app, !be_val_bytes, !length_app, !be_bytes_length.
  unfold is_u64, is_u32, is_u16 in *.
  rewrite !Z.mod_small by (simpl; lia). simpl. lia.
Qed.

(** The unwrapped distance the code approximates. *)
Definition distance (a b : Address3D) : Z :=
  Z.abs (aX a - aX b) * 100 + Z.abs (aY a - aY b) * 10 + Z.abs (aZ a - aZ b).

Lemma absDiff64_abs a b : is_u64 a -> is_u64 b -> absDiff64 a b = Z.abs (a - b).
Proof. unfold absDiff64, is_u64. intros. rewrite Z.gtb_ltb. case_bool; rewrite u64_small; unfold is_u64; lia. Qed.
Lemma absDiff32_abs a b : is_u32 a -> is_u32 b -> absDiff32 a b = Z.abs (a - b).
Proof. unfold absDiff32, is_u32. intros. rewrite Z.gtb_ltb. case_bool; rewrite u32_small; unfold is_u32; lia. Qed.
Lemma absDiff16_abs a b : is_u16 a -> is_u16 b -> absDiff16 a b = Z.abs (a - b).
Proof. unfold absDiff16, is_u16. intros. rewrite Z.gtb_ltb. case_bool; rewrite u16_small; unfold is_u16; lia. Qed.

Lemma ManhattanDistance_mod a b :
  addr_ok a -> addr_ok b -> ManhattanDistance a b = u64 (distance a b).
Proof.
  intros (? & ? & ?) (? & ? & ?). unfold ManhattanDistance, distance.
  rewrite absDiff64_abs, absDiff32_abs, absDiff16_abs by done.
  by rewrite (u64_add_l (_ * 100)), u64_add_r, u64_add_l.
Qed.

(** ** Properties *)

(** C28. Addresses survive serialisation in both directions: decoding an encoded
    address gives it back, every 14-byte string is the encoding of the address
    it decodes to, and any other length is refused. *)
Theorem address_bytes_roundtrip :
  (forall a, addr_ok a -> length (Bytes a) = 14%nat /\ FromBytes (Bytes a) = Some a) /\
  (forall d, length d = 14%nat -> Forall is_u8 d ->
     exists a, FromBytes d = Some a /\ addr_ok a /\ Bytes a = d) /\
  (forall d, length d <> 14%nat -> FromBytes d = None).
Proof.
  split_and!.
  - intros a Ha. split; [apply Bytes_length | by apply FromBytes_Bytes].
  - apply Bytes_FromBytes.
  - intros d Hd. unfold FromBytes. by rewrite decide_True.
Qed.

Lemma address_bytes_roundtrip_witness :
  FromBytes (Bytes (NewAddress 2 7 65000)) = Some (NewAddress 2 7 65000) /\
  FromBytes [1; 2; 3] = None.
Proof.
  destruct address_bytes_roundtrip as (H1 & _ & H3).
  split; [apply H1; vm_compute; intuition congruence | apply H3; done].
Defined.

(** C29. Parsing inverts printing: the text of an address parses to that address.
    For a text with 64-bit numbers that do not fit the fields, the parser accepts it
    all the same and silently truncates Y to 32 and Z to 16 bits. *)
Theorem address_text_roundtrip x y z :
  is_u64 x -> is_u64 y -> is_u64 z ->
  ParseAddress (String_ (NewAddress x y z)) = Some (NewAddress x (u32 y) (u16 z)) /\
  (is_u32 y -> is_u16 z -> ParseAddress (String_ (NewAddress x y z)) = Some (NewAddress x y z)).
Proof.
  intros Hx Hy Hz. rewrite (ParseAddress_String (NewAddress x y z)) by done. simpl.
  split; [done|]. intros Hy' Hz'. by rewrite u32_small, u16_small.
Qed.

Lemma address_text_roundtrip_witness :
  ParseAddress (runes "[X:18446744073709551615,Y:0,Z:65535]"%string) =
    Some (NewAddress 18446744073709551615 0 65535) /\
  ParseAddress (runes "[X:1,Y:4294967301,Z:65543]"%string) = Some (NewAddress 1 5 7).
Proof.
  split.
  - apply (address_text_roundtrip 18446744073709551615 0 65535); by vm_compute.
  - apply (address_text_roundtrip 1 4294967301 65543); by vm_compute.
Defined.

(** C31. [Compare] orders addresses exactly as [bytes.Compare] orders their
    serialised forms. *)
Theorem compare_is_byte_order a b :
  addr_ok a -> addr_ok b -> Compare a b = bytes_Compare (Bytes a) (Bytes b).
Proof.
  intros Ha Hb.
  rewrite bytes_Compare_val by (by rewrite ?Bytes_length || apply Bytes_range).
  rewrite !be_val_Bytes by done. destruct Ha as (? & ? & ?), Hb as (? & ? & ?).
  unfold Compare, cmp3, is_u64, is_u32, is_u16 in *.
  destruct (Z.eqb_spec (aX a) (aX b)) as [Hx|Hx]; simpl; [rewrite Hx|case_bool; lia].
  destruct (Z.eqb_spec (aY a) (aY b)) as [Hy|Hy]; simpl; [rewrite Hy|case_bool; lia].
  destruct (Z.eqb_spec (aZ a) (aZ b)) as [Hz|Hz]; simpl; case_bool; lia.
Qed.

Lemma compare_is_byte_order_witness :
  Compare (NewAddress 1 2 3) (NewAddress 1 2 260) = -1 /\
  bytes_Compare (Bytes (NewAddress 1 2 3)) (Bytes (NewAddress 1 2 260)) = -1.
Proof.
  split; [reflexivity|].
  rewrite <- (compare_is_byte_order (NewAddress 1 2 3) (NewAddress 1 2 260));
    [reflexivity | vm_compute; intuition congruence..].
Defined.

(** On addresses that pass [IsValid] the 64-bit arithmetic of
    [ManhattanDistance] does not wrap and it is a metric: symmetric, zero
    only on equal addresses, and it satisfies the triangle inequality. *)
Theorem manhattan_metric a b c :
  addr_ok a -> addr_ok b -> addr_ok c ->
  IsValid a = true -> IsValid b = true -> IsValid c = true ->
  ManhattanDistance a b = ManhattanDistance b a /\
  (ManhattanDistance a b = 0 <-> a = b) /\
  ManhattanDistance a c <= ManhattanDistance a b + ManhattanDistance b c.
Proof.
  intros Ha Hb Hc Va Vb Vc. rewrite !ManhattanDistance_mod by done.
  unfold IsValid, MaxXRegions, MaxYPlanes, MaxZOffset in *.
  repeat match goal with H : _ && _ = true |- _ => apply andb_prop in H as [? ?] end.
  rewrite ?Z.ltb_lt in *. destruct Ha as (? & ? & ?), Hb as (? & ? & ?), Hc as (? & ? & ?).
  unfold is_u64, is_u32, is_u16 in *.
  rewrite !u64_small by (unfold distance, is_u64; lia). unfold distance. split_and!; [lia | | lia].
  destruct a, b; simpl in *. split; [intros; f_equal; lia | intros [= -> -> ->]; lia].
Qed.

Lemma manhattan_metric_witness :
  ManhattanDistance (NewAddress 1 2 3) (NewAddress 4 1 9) = 316 /\
  ManhattanDistance (NewAddress 1 2 3) (NewAddress 4 1 9) =
    ManhattanDistance (NewAddress 4 1 9) (NewAddress 1 2 3).
Proof.
  split; [reflexivity|].
  apply (manhattan_metric (NewAddress 1 2 3) (NewAddress 4 1 9) (NewAddress 0 0 0));
    vm_compute; intuition congruence.
Defined.
