(* ===== verification/Errors.v ===== *)
(** * The errors the program returns

    One constructor per [fmt.Errorf] of the sources, with the values the message
    is built from; messages without parameters and the prefixes of wrapped errors
    keep their text.  [vm.Store3D] compares an error by its text; the texts of
    different constructors differ, so the comparison is a match here. *)
From S2P Require Import Prelude Address.
From stdpp Require Import strings.
#[local] Open Scope Z_scope.

Inductive error : Type :=
(* allocator *)
| ErrAllocationFailed (size : Z)
| ErrNewPlane
| ErrInsufficientMemory (size : Z)
| ErrAllocateInRegion
| ErrRegionNotFound (x : Z)
| ErrPlaneNotFound (y : Z)
| ErrFreeFailed (addr : Address3D)
(* gas *)
| ErrInsufficientGas
(* memory manager *)
| ErrAddressNotAllocated (addr : Address3D)
| ErrAllocationNotFound (addr : Address3D)
| ErrDestinationOccupied (addr : Address3D)
(* decoder and executor *)
| ErrAddressLength (n : Z)
| ErrUnknownOpcode (opcode : Z)
| ErrUnsupportedOpcode (opcode : Z)
| ErrUnknownQueryType (queryType : Z)
| ErrFetch (pc : Z) (err : error)
| ErrExecution (pc : Z) (err : error)
| ErrText (msg : string)
| ErrWrap (prefix : string) (err : error).

#[export] Instance error_eq_dec : EqDecision error.
Proof. solve_decision. Defined.
