(* ===== verification/Bitmap.v ===== *)
(** * The free map of a plane (internal/types/bitmap.go)

    One bit per byte of a plane, packed in 64-bit words.  The search for a free
    run is modelled with its 16-bit positions and its word masks; it may panic
    (negative shift count, index out of range), so it returns in [res]. *)
From S2P Require Import Prelude Words Float64.

Record Bitmap := mkBitmap { bm_bits : list Z; bm_size : Z }.

#[export] Instance Bitmap_eq_dec : EqDecision Bitmap.
Proof. solve_decision. Defined.

Definition numWords (b : Bitmap) : Z := Z.of_nat (length (bm_bits b)).

Definition NewBitmap (size : Z) : Bitmap :=
  let numUint64 := (size + 63) / 64 in
  {| bm_bits := replicate (Z.to_nat numUint64) 0; bm_size := size |}.

Definition Set_ (b : Bitmap) (pos : Z) : Bitmap :=
  if (bm_size b <=? pos) || (numWords b =? 0) then b
  else let idx := pos / 64 in
  if numWords b <=? idx then b
  else let bit := pos mod 64 in
  {| bm_bits := alter (fun w => Z.lor w (shl64 1 bit)) (Z.to_nat idx) (bm_bits b);
     bm_size := bm_size b |}.

Definition Clear (b : Bitmap) (pos : Z) : Bitmap :=
  if (bm_size b <=? pos) || (numWords b =? 0) then b
  else let idx := pos / 64 in
  if numWords b <=? idx then b
  else let bit := pos mod 64 in
  {| bm_bits := alter (fun w => Z.ldiff w (shl64 1 bit)) (Z.to_nat idx) (bm_bits b);
     bm_size := bm_size b |}.

Definition IsSet (b : Bitmap) (pos : Z) : bool :=
  if (bm_size b <=? pos) || (numWords b =? 0) then false
  else let idx := pos / 64 in
  if numWords b <=? idx then false
  else let bit := pos mod 64 in
  negb (Z.land (bm_bits b !!! Z.to_nat idx) (shl64 1 bit) =? 0).

(** ** FindContiguous *)

(** The mask of the word [wj] for the candidate range [startPos..endPos]. *)
Definition range_mask (startPos endPos startIdx endIdx wj : Z) : res Z :=
  if (wj =? startIdx) && (wj =? endIdx) then
    let startBit := startPos mod 64 in
    let endBit := endPos mod 64 in
    let n := endBit - startBit + 1 in
    if n <? 0 then Panic (* negative shift amount *)
    else Ret (shl64 (u64 (shl64 1 n - 1)) startBit)
  else if wj =? startIdx then Ret (shl64 (not64 0) (startPos mod 64))
  else if wj =? endIdx then Ret (u64 (shl64 1 (endPos mod 64 + 1) - 1))
  else Ret (not64 0).

(** [for wj := startIdx; wj <= endIdx; wj++]: [n] words are left, from [wj]. *)
Fixpoint range_free (bits : list Z) (startPos endPos startIdx endIdx : Z) (n : nat) (wj : Z)
    : res bool :=
  match n with
  | O => Ret true
  | S n =>
      mask ← range_mask startPos endPos startIdx endIdx wj;
      w ← deref (bits !! Z.to_nat wj);
      if negb (Z.land w mask =? 0) then Ret false
      else range_free bits startPos endPos startIdx endIdx n (wj + 1)
  end.

(** What the scan of one word decides: return a position, return "not found",
    or go on with the next word. *)
Inductive scan := Found (start : Z) | Stop | Next.

(** [for freeBits != 0]: each turn removes the lowest set bit, so 64 turns and
    the final test are enough. *)
Fixpoint scan_word (fuel : nat) (b : Bitmap) (size wi freeBits : Z) : res scan :=
  match fuel with
  | O => Ret Next
  | S fuel =>
      if freeBits =? 0 then Ret Next
      else
        let tz := TrailingZeros64 freeBits in
        let startPos := u16 (wi * 64 + tz) in
        if bm_size b <? u16 (startPos + size) then Ret Stop
        else
          let endPos := u16 (startPos + size - 1) in
          let startIdx := startPos / 64 in
          let endIdx := endPos / 64 in
          ok ← range_free (bm_bits b) startPos endPos startIdx endIdx
                 (Z.to_nat (endIdx - startIdx + 1)) startIdx;
          if ok : bool then Ret (Found startPos)
          else scan_word fuel b size wi (Z.ldiff freeBits (shl64 1 tz))
  end.

(** The free bits of word [wi], with the invalid bits of the last word masked out. *)
Definition free_bits (b : Bitmap) (wi word : Z) : Z :=
  let freeBits := not64 word in
  if wi =? numWords b - 1 then
    let remaining := u16 (bm_size b - u16 (wi * 64)) in
    if remaining <? 64 then Z.land freeBits (Z.shiftr (not64 0) (64 - remaining)) else freeBits
  else freeBits.

Fixpoint scan_words (b : Bitmap) (size : Z) (ws : list Z) (wi : Z) : res (Z * bool) :=
  match ws with
  | [] => Ret (0, false)
  | word :: ws =>
      if not64 word =? 0 then scan_words b size ws (wi + 1)
      else
        r ← scan_word 65 b size wi (free_bits b wi word);
        match r with
        | Found s => Ret (s, true)
        | Stop => Ret (0, false)
        | Next => scan_words b size ws (wi + 1)
        end
  end.

Definition FindContiguous (b : Bitmap) (size : Z) : res (Z * bool) :=
  if (size =? 0) || (bm_size b <? size) || (numWords b =? 0) then Ret (0, false)
  else scan_words b size (bm_bits b) 0.

(** ** Ranges and counts *)

Definition SetRange (b : Bitmap) (start end_ : Z) : Bitmap := for_range start end_ Set_ b.
Definition ClearRange (b : Bitmap) (start end_ : Z) : Bitmap := for_range start end_ Clear b.

Definition totalSet (b : Bitmap) : Z := foldl (fun t w => t + OnesCount64 w) 0 (bm_bits b).

Definition FreeBytes (b : Bitmap) : Z := u16 (bm_size b - u16 (totalSet b)).
Definition UsedBytes (b : Bitmap) : Z := u16 (totalSet b).

(** The hole count of [Fragmentation]: the number of maximal free runs. *)
Definition holes (b : Bitmap) : Z :=
  fst (for_range 0 (bm_size b) (fun '(h, inHole) i =>
    if IsSet b i then (h, false)
    else if negb inHole then (h + 1, true) else (h, inHole)) (0, false)).

Definition Fragmentation (b : Bitmap) : float64 :=
  let freeBytes := FreeBytes b in
  if freeBytes =? 0 then f64_zero
  else f64_div (f64_of_Z (holes b - 1)) (f64_of_Z freeBytes).

Definition BitsLen (b : Bitmap) : Z := numWords b.
Definition FirstWord (b : Bitmap) : Z :=
  match bm_bits b with [] => 0 | w :: _ => w end.

(** ** Abstract view: a set of positions *)

(** The bit of position [p], whatever the declared size. *)
Definition bit_at (b : Bitmap) (p : Z) : bool :=
  match bm_bits b !! Z.to_nat (p / 64) with
  | Some w => Z.testbit w (p mod 64)
  | None => false
  end.

(** Representation invariant: enough words, words in range, nothing set past the size. *)
Record bitmap_wf (b : Bitmap) : Prop := {
  wf_size : is_u16 (bm_size b);
  wf_words : numWords b = (bm_size b + 63) / 64;
  wf_range : Forall is_u64 (bm_bits b);
  wf_tail : forall p, bm_size b <= p -> bit_at b p = false;
}.

(** The range [s, s+n) lies in the map and is free. *)
Definition fits (b : Bitmap) (n s : Z) : Prop :=
  0 <= s /\ s + n <= bm_size b /\ forall i, s <= i < s + n -> bit_at b i = false.

(** The request meets no 16-bit wrap-around: either some range fits, or no free
    position is so close to the end that adding the size overflows. *)
Definition find_safe (b : Bitmap) (n : Z) : Prop :=
  (exists s, fits b n s) \/
  (forall p, 0 <= p < bm_size b -> bit_at b p = false -> p + n < 65536).

(** ** Lemmas on single bits *)

Lemma bit_at_word b p w :
  bm_bits b !! Z.to_nat (p / 64) = Some w -> bit_at b p = Z.testbit w (p mod 64).
Proof. unfold bit_at. by intros ->. Qed.

Lemma pos_split p : p = 64 * (p / 64) + p mod 64 /\ 0 <= p mod 64 < 64.
Proof. pose proof (Z.div_mod p 64). pose proof (Z.mod_pos_bound p 64). lia. Qed.

Lemma numWords_pos b p : bitmap_wf b -> 0 <= p < bm_size b -> p / 64 < numWords b /\ 0 < numWords b.
Proof.
  intros Hwf Hp. rewrite (wf_words b Hwf).
  pose proof (pos_split p). pose proof (pos_split (bm_size b + 63)).
  assert (0 <= p / 64) by (apply Z.div_pos; lia). lia.
Qed.

Lemma word_lookup b p :
  bitmap_wf b -> 0 <= p < bm_size b ->
  exists w, bm_bits b !! Z.to_nat (p / 64) = Some w /\ is_u64 w.
Proof.
  intros Hwf Hp. destruct (numWords_pos b p Hwf Hp) as [Hlt _].
  assert (0 <= p / 64) by (apply Z.div_pos; lia).
  destruct (lookup_lt_is_Some_2 (bm_bits b) (Z.to_nat (p / 64))) as [w Hw];
    [unfold numWords in Hlt; lia|].
  exists w. split; [done|]. by eapply Forall_lookup_1; [apply (wf_range b Hwf)|].
Qed.

Lemma IsSet_bit b p : bitmap_wf b -> 0 <= p -> IsSet b p = bit_at b p.
Proof.
  intros Hwf Hp. unfold IsSet. destruct (Z.leb_spec (bm_size b) p) as [Hge|Hlt]; simpl.
  { by rewrite (wf_tail b Hwf). }
  destruct (numWords_pos b p Hwf ltac:(lia)). solve_bool. simpl.
  destruct (word_lookup b p Hwf ltac:(lia)) as (w & Hw & Hr).
  rewrite (bit_at_word b p w Hw). rewrite (list_lookup_total_correct _ _ _ Hw).
  destruct (pos_split p) as [_ Hm].
  destruct (Z.testbit w (p mod 64)) eqn:Ht.
  - apply negb_true_iff, Z.eqb_neq. rewrite land_zero_iff by done. intros Hall.
    rewrite Hall in Ht; [done | done |]. rewrite testbit_shl1 by lia. apply Z.eqb_refl.
  - apply negb_false_iff, Z.eqb_eq. apply land_zero_iff; [done|]. intros i Hi.
    rewrite testbit_shl1 by lia. intros ->%Z.eqb_eq. done.
Qed.

(** Set and Clear through one lemma: [upd] replaces one bit by [v]. *)
Definition upd_bit (b : Bitmap) (pos : Z) (f : Z -> Z) : Bitmap :=
  {| bm_bits := alter f (Z.to_nat (pos / 64)) (bm_bits b); bm_size := bm_size b |}.

Lemma bit_at_upd b pos f v q :
  bitmap_wf b -> 0 <= pos < bm_size b -> 0 <= q ->
  (forall w i, 0 <= i < 64 -> Z.testbit (f w) i = if i =? pos mod 64 then v else Z.testbit w i) ->
  bit_at (upd_bit b pos f) q = if q =? pos then v else bit_at b q.
Proof.
  intros Hwf Hp Hq Hf. unfold bit_at, upd_bit. simpl.
  assert (0 <= pos / 64) by (apply Z.div_pos; lia). assert (0 <= q / 64) by (apply Z.div_pos; lia).
  destruct (pos_split pos), (pos_split q).
  destruct (decide (q / 64 = pos / 64)) as [E|E].
  - rewrite E, list_lookup_alter_eq. destruct (word_lookup b pos Hwf Hp) as (w & Hw & _).
    rewrite Hw. simpl. rewrite Hf by lia. by case_bool; try lia.
  - rewrite list_lookup_alter_ne by lia. by case_bool; [congruence|].
Qed.

Lemma bitmap_wf_upd b pos f v :
  bitmap_wf b -> 0 <= pos < bm_size b ->
  (forall w, is_u64 w -> is_u64 (f w)) ->
  (forall w i, 0 <= i < 64 -> Z.testbit (f w) i = if i =? pos mod 64 then v else Z.testbit w i) ->
  bitmap_wf (upd_bit b pos f).
Proof.
  intros Hwf Hp Hr Hf. constructor.
  - apply (wf_size b Hwf).
  - unfold numWords, upd_bit. simpl. rewrite length_alter. apply (wf_words b Hwf).
  - unfold upd_bit. simpl. apply Forall_alter; [apply (wf_range b Hwf)|]. auto.
  - unfold upd_bit at 1. simpl. intros p Hsz.
    rewrite (bit_at_upd b pos f v) by (done || lia). case_bool; [lia|]. by apply (wf_tail b Hwf).
Qed.

Lemma Set_upd b pos :
  bitmap_wf b -> 0 <= pos < bm_size b ->
  Set_ b pos = upd_bit b pos (fun w => Z.lor w (shl64 1 (pos mod 64))).
Proof.
  intros Hwf Hp. unfold Set_. destruct (numWords_pos b pos Hwf Hp). by solve_bool.
Qed.

Lemma Clear_upd b pos :
  bitmap_wf b -> 0 <= pos < bm_size b ->
  Clear b pos = upd_bit b pos (fun w => Z.ldiff w (shl64 1 (pos mod 64))).
Proof.
  intros Hwf Hp. unfold Clear. destruct (numWords_pos b pos Hwf Hp). by solve_bool.
Qed.

Lemma shl1_range j : 0 <= j < 64 -> is_u64 (shl64 1 j).
Proof. intros. apply u64_range. Qed.

Lemma lor_bit w j i :
  0 <= j < 64 -> 0 <= i -> Z.testbit (Z.lor w (shl64 1 j)) i = if i =? j then true else Z.testbit w i.
Proof.
  intros. rewrite Z.lor_spec, testbit_shl1 by lia. case_bool; [by rewrite orb_true_r | by rewrite orb_false_r].
Qed.

Lemma ldiff_bit w j i :
  0 <= j < 64 -> 0 <= i -> Z.testbit (Z.ldiff w (shl64 1 j)) i = if i =? j then false else Z.testbit w i.
Proof.
  intros. rewrite Z.ldiff_spec, testbit_shl1 by lia. case_bool; [by rewrite andb_false_r | by rewrite andb_true_r].
Qed.

Lemma Set_spec b pos :
  bitmap_wf b -> 0 <= pos < bm_size b ->
  bitmap_wf (Set_ b pos) /\ bm_size (Set_ b pos) = bm_size b /\
  forall q, 0 <= q -> bit_at (Set_ b pos) q = if q =? pos then true else bit_at b q.
Proof.
  intros Hwf Hp. rewrite Set_upd by done. pose proof (pos_split pos) as [_ Hm]. split_and!.
  - apply (bitmap_wf_upd _ _ _ true); [done..| |].
    + intros w Hw. apply lor_range; [done | by apply shl1_range].
    + intros. by apply lor_bit; lia.
  - done.
  - intros q Hq. apply bit_at_upd; [done..|]. intros. by apply lor_bit; lia.
Qed.

Lemma Clear_spec b pos :
  bitmap_wf b -> 0 <= pos < bm_size b ->
  bitmap_wf (Clear b pos) /\ bm_size (Clear b pos) = bm_size b /\
  forall q, 0 <= q -> bit_at (Clear b pos) q = if q =? pos then false else bit_at b q.
Proof.
  intros Hwf Hp. rewrite Clear_upd by done. pose proof (pos_split pos) as [_ Hm]. split_and!.
  - apply (bitmap_wf_upd _ _ _ false); [done..| |].
    + intros w Hw. by apply ldiff_range.
    + intros. by apply ldiff_bit; lia.
  - done.
  - intros q Hq. apply bit_at_upd; [done..|]. intros. by apply ldiff_bit; lia.
Qed.

Lemma Set_out b pos : bm_size b <= pos -> Set_ b pos = b.
Proof. intros. unfold Set_. by solve_bool. Qed.
Lemma Clear_out b pos : bm_size b <= pos -> Clear b pos = b.
Proof. intros. unfold Clear. by solve_bool. Qed.

Lemma NewBitmap_wf size : is_u16 size -> bitmap_wf (NewBitmap size).
Proof.
  intros Hs. constructor; simpl.
  - done.
  - unfold numWords. simpl. rewrite length_replicate. unfold is_u16 in Hs.
    rewrite Z2Nat.id; [done|]. apply Z.div_pos; lia.
  - apply Forall_replicate. by vm_compute.
  - intros p Hp. unfold bit_at. simpl. destruct (replicate _ _ !! _) eqn:E; [|done].
    apply lookup_replicate_1 in E as [-> _]. apply Z.bits_0.
Qed.

Lemma NewBitmap_clear size p : bit_at (NewBitmap size) p = false.
Proof.
  unfold bit_at, NewBitmap. simpl. destruct (replicate _ _ !! _) eqn:E; [|done].
  apply lookup_replicate_1 in E as [-> _]. apply Z.bits_0.
Qed.

(** ** Ranges *)

Lemma range_spec (f : Bitmap -> Z -> Bitmap) (v : bool) b s e :
  (forall b pos, bitmap_wf b -> 0 <= pos < bm_size b ->
     bitmap_wf (f b pos) /\ bm_size (f b pos) = bm_size b /\
     forall q, 0 <= q -> bit_at (f b pos) q = if q =? pos then v else bit_at b q) ->
  (forall b pos, bm_size b <= pos -> f b pos = b) ->
  bitmap_wf b -> 0 <= s ->
  let b' := for_range s e f b in
  bitmap_wf b' /\ bm_size b' = bm_size b /\
  forall q, 0 <= q < bm_size b -> bit_at b' q = if (s <=? q) && (q <? e) then v else bit_at b q.
Proof.
  intros Hf Hout Hwf Hs b'. destruct (decide (s <= e)) as [Hse|Hse]; cycle 1.
  { unfold b'. rewrite for_range_empty by lia. split_and!; [done..|].
    intros q Hq. destruct (Z.leb_spec s q); [|done]. by solve_bool. }
  apply (for_range_inv (fun i b' => bitmap_wf b' /\ bm_size b' = bm_size b /\
    forall q, 0 <= q < bm_size b -> bit_at b' q = if (s <=? q) && (q <? i) then v else bit_at b q));
    [done | |].
  { split_and!; [done..|]. intros q Hq. destruct (Z.leb_spec s q); [|done]. by solve_bool. }
  clear b'. intros i c Hi (Hc & Hsz & Hq). destruct (decide (i < bm_size c)).
  - destruct (Hf c i Hc ltac:(lia)) as (Hc' & Hsz' & Hq'). split_and!; [done | lia |].
    intros q Hqr. rewrite Hq', Hq by lia. by case_bool; try lia.
  - rewrite Hout by lia. split_and!; [done..|]. intros q Hqr. rewrite Hq by lia.
    by case_bool; try lia.
Qed.

Lemma SetRange_spec b s e :
  bitmap_wf b -> 0 <= s ->
  bitmap_wf (SetRange b s e) /\ bm_size (SetRange b s e) = bm_size b /\
  forall q, 0 <= q < bm_size b ->
    bit_at (SetRange b s e) q = if (s <=? q) && (q <? e) then true else bit_at b q.
Proof. apply (range_spec Set_ true); [apply Set_spec | apply Set_out]. Qed.

Lemma ClearRange_spec b s e :
  bitmap_wf b -> 0 <= s ->
  bitmap_wf (ClearRange b s e) /\ bm_size (ClearRange b s e) = bm_size b /\
  forall q, 0 <= q < bm_size b ->
    bit_at (ClearRange b s e) q = if (s <=? q) && (q <? e) then false else bit_at b q.
Proof. apply (range_spec Clear false); [apply Clear_spec | apply Clear_out]. Qed.

(** Two well-formed maps of the same size with the same bits are equal. *)
Lemma bitmap_ext b c :
  bitmap_wf b -> bitmap_wf c -> bm_size b = bm_size c ->
  (forall q, 0 <= q < bm_size b -> bit_at b q = bit_at c q) -> b = c.
Proof.
  intros Hb Hc Hsz Hq.
  assert (length (bm_bits b) = length (bm_bits c)) as Hlen.
  { pose proof (wf_words b Hb). pose proof (wf_words c Hc). unfold numWords in *. rewrite Hsz in *. lia. }
  assert (bm_bits b = bm_bits c) as Hbits.
  { apply (list_eq_same_length _ _ (length (bm_bits c))); [done | done |].
    intros i w1 w2 Hi H1 H2. apply Z.bits_inj'. intros j Hj.
    pose proof (Forall_lookup_1 _ _ _ _ (wf_range b Hb) H1) as Hr1.
    pose proof (Forall_lookup_1 _ _ _ _ (wf_range c Hc) H2) as Hr2.
    destruct (decide (j < 64)); cycle 1. { by rewrite !testbit_u64_high by (done || lia). }
    set (p := 64 * Z.of_nat i + j).
    assert (p / 64 = Z.of_nat i /\ p mod 64 = j) as [Hd Hm] by (pose proof (pos_split p); lia).
    assert (bit_at b p = Z.testbit w1 j) as <-.
    { unfold bit_at. by rewrite Hd, Hm, Nat2Z.id, H1. }
    assert (bit_at c p = Z.testbit w2 j) as <-.
    { unfold bit_at. by rewrite Hd, Hm, Nat2Z.id, H2. }
    destruct (decide (p < bm_size b)); [apply Hq; lia|].
    by rewrite (wf_tail b Hb), (wf_tail c Hc) by lia. }
  destruct b, c; simpl in *. by subst.
Qed.

(** ** Counting *)

(** The number of used positions. *)
Definition used (b : Bitmap) : Z := sumZ (fun p => Z.b2z (bit_at b p)) (seqZ 0 (bm_size b)).

Lemma totalSet_snoc ws w n :
  totalSet (mkBitmap (ws ++ [w]) n) = totalSet (mkBitmap ws n) + OnesCount64 w.
Proof. unfold totalSet. simpl. by rewrite foldl_app. Qed.

Lemma totalSet_bits ws n :
  totalSet (mkBitmap ws n) =
  sumZ (fun p => Z.b2z (bit_at (mkBitmap ws n) p)) (seqZ 0 (64 * Z.of_nat (length ws))).
Proof.
  induction ws as [|w ws IH] using rev_ind; [done|].
  rewrite totalSet_snoc, IH, length_app. simpl.
  replace (64 * Z.of_nat (length ws + 1)) with (64 * Z.of_nat (length ws) + 64) by lia.
  rewrite sumZ_seqZ_split by lia. f_equal.
  - apply sumZ_ext. intros p Hp%elem_of_seqZ. f_equal. unfold bit_at. simpl.
    rewrite lookup_app_l; [done|]. pose proof (pos_split p).
    assert (0 <= p / 64) by (apply Z.div_pos; lia). lia.
  - rewrite OnesCount64_sum. set (o := 64 * Z.of_nat (length ws)).
    replace (0 + o) with (o + 0) by lia. rewrite <- fmap_add_seqZ.
    assert (forall l : list Z, Forall (fun i => 0 <= i < 64) l ->
      sumZ (fun i => Z.b2z (Z.testbit w i)) l =
      sumZ (fun p => Z.b2z (bit_at (mkBitmap (ws ++ [w]) n) p)) (Z.add o <$> l)) as Hl.
    { induction l as [|i l IHl]; intros Hf; [done|]. apply Forall_cons in Hf as [Hi Hf]. simpl.
      rewrite IHl by done. f_equal. f_equal. unfold bit_at. simpl.
      assert ((o + i) / 64 = Z.of_nat (length ws) /\ (o + i) mod 64 = i) as [-> ->]
        by (pose proof (pos_split (o + i)); unfold o in *; lia).
      rewrite Nat2Z.id, list_lookup_middle by done. done. }
    apply Hl, Forall_seqZ. lia.
Qed.

Lemma totalSet_used b : bitmap_wf b -> totalSet b = used b.
Proof.
  intros Hwf. destruct b as [ws n] eqn:E. rewrite <- E in Hwf. rewrite totalSet_bits, <- E. unfold used.
  pose proof (wf_words b Hwf) as Hw. pose proof (wf_size b Hwf) as Hs. unfold numWords, is_u16 in *.
  rewrite E in Hw, Hs. simpl in Hw, Hs. rewrite Hw.
  pose proof (pos_split (n + 63)). replace (bm_size b) with n by (by rewrite E).
  replace (64 * ((n + 63) / 64)) with (n + (64 * ((n + 63) / 64) - n)) by lia.
  rewrite sumZ_seqZ_split by lia. simpl.
  rewrite (sumZ_ext _ (fun _ => 0) (seqZ n _)); [rewrite sumZ_const; lia|].
  intros p Hp%elem_of_seqZ. rewrite (wf_tail b Hwf); [done|]. rewrite E. simpl. lia.
Qed.

Lemma used_range b : bitmap_wf b -> 0 <= used b <= bm_size b.
Proof.
  intros Hwf. pose proof (wf_size b Hwf) as Hs. unfold is_u16 in Hs. unfold used. split.
  - apply sumZ_nonneg. intros x _. by destruct (bit_at b x).
  - etrans; [apply (sumZ_le _ (fun _ => 1))|].
    + intros x _. by destruct (bit_at b x).
    + rewrite sumZ_const, length_seqZ. lia.
Qed.

Lemma UsedBytes_used b : bitmap_wf b -> UsedBytes b = used b.
Proof.
  intros Hwf. unfold UsedBytes. rewrite totalSet_used by done.
  pose proof (used_range b Hwf). pose proof (wf_size b Hwf). apply u16_small. unfold is_u16 in *. lia.
Qed.

Lemma FreeBytes_used b : bitmap_wf b -> FreeBytes b = bm_size b - used b.
Proof.
  intros Hwf. unfold FreeBytes. fold (UsedBytes b). rewrite UsedBytes_used by done.
  pose proof (used_range b Hwf). pose proof (wf_size b Hwf). apply u16_small. unfold is_u16 in *. lia.
Qed.

(** Filling a free range, or clearing a full one, moves the count by its length. *)
Lemma used_range_upd b b' s e (v : bool) :
  bm_size b' = bm_size b -> 0 <= s <= e -> e <= bm_size b ->
  (forall q, s <= q < e -> bit_at b q = negb v) ->
  (forall q, 0 <= q < bm_size b -> bit_at b' q = if (s <=? q) && (q <? e) then v else bit_at b q) ->
  used b' = if v then used b + (e - s) else used b - (e - s).
Proof.
  intros Hsz Hs He Hold Hnew. unfold used. rewrite Hsz, <- (sumZ_interval s e (bm_size b)) by lia.
  assert (forall l, (forall q, q ∈ l -> 0 <= q < bm_size b) ->
    sumZ (fun p => Z.b2z (bit_at b' p)) l =
    if v then sumZ (fun p => Z.b2z (bit_at b p)) l + sumZ (fun q => Z.b2z ((s <=? q) && (q <? e))) l
    else sumZ (fun p => Z.b2z (bit_at b p)) l - sumZ (fun q => Z.b2z ((s <=? q) && (q <? e))) l) as H.
  { induction l as [|q l IH]; intros Hl; [by destruct v|]. simpl.
    rewrite IH by (intros; apply Hl; by right). rewrite Hnew by (apply Hl; by left).
    destruct (Z.leb_spec s q), (Z.ltb_spec q e); simpl;
      try (rewrite (Hold q) by lia); destruct v, (bit_at b q); simpl; lia. }
  apply H. intros q Hq%elem_of_seqZ. lia.
Qed.

(** ** The search *)

Lemma range_mask_spec s e wj :
  0 <= s <= e -> s / 64 <= wj <= e / 64 ->
  exists m, range_mask s e (s / 64) (e / 64) wj = Ret m /\
    forall i, 0 <= i < 64 -> Z.testbit m i = (s <=? wj * 64 + i) && (wj * 64 + i <=? e).
Proof.
  intros Hse Hwj. pose proof (pos_split s) as [Hs Hsm]. pose proof (pos_split e) as [He Hem].
  unfold range_mask. destruct (Z.eqb_spec wj (s / 64)) as [E1|E1]; simpl.
  - destruct (Z.eqb_spec wj (e / 64)) as [E2|E2].
    + assert (s mod 64 <= e mod 64) by lia. solve_bool. eexists; split; [done|]. intros i Hi.
      rewrite testbit_shl64 by lia. destruct (Z.leb_spec (s mod 64) i).
      * rewrite testbit_low_mask by lia. case_bool; done || lia.
      * by solve_bool.
    + eexists; split; [done|]. intros i Hi. rewrite testbit_shl64 by lia.
      destruct (Z.leb_spec (s mod 64) i); [rewrite testbit_not64_0 by lia|]; by solve_bool.
  - destruct (Z.eqb_spec wj (e / 64)) as [E2|E2]; eexists; split; try done; intros i Hi.
    + rewrite testbit_low_mask by lia. case_bool; done || lia.
    + rewrite testbit_not64_0 by lia. by solve_bool.
Qed.

Lemma bit_at_idx b wj i w :
  bm_bits b !! Z.to_nat wj = Some w -> 0 <= wj -> 0 <= i < 64 -> bit_at b (wj * 64 + i) = Z.testbit w i.
Proof.
  intros Hw Hwj Hi. unfold bit_at.
  assert ((wj * 64 + i) / 64 = wj /\ (wj * 64 + i) mod 64 = i) as [-> ->]
    by (pose proof (pos_split (wj * 64 + i)); lia).
  by rewrite Hw.
Qed.

Lemma range_free_spec b s e k wj :
  bitmap_wf b -> 0 <= s <= e -> e / 64 < numWords b -> s / 64 <= wj -> wj + Z.of_nat k = e / 64 + 1 ->
  exists r, range_free (bm_bits b) s e (s / 64) (e / 64) k wj = Ret r /\
    (r = true <-> forall p, Z.max s (wj * 64) <= p <= e -> bit_at b p = false).
Proof.
  intros Hwf Hse He. revert wj. induction k as [|k IH]; intros wj Hlo Hk; simpl.
  { exists true. split; [done|]. split; [|done]. intros _ p Hp. pose proof (pos_split e). lia. }
  destruct (range_mask_spec s e wj) as (m & -> & Hm); [done | lia |]. simpl.
  assert (0 <= wj). { pose proof (pos_split s). lia. }
  destruct (lookup_lt_is_Some_2 (bm_bits b) (Z.to_nat wj)) as [w Hw]; [unfold numWords in He; lia|].
  pose proof (Forall_lookup_1 _ _ _ _ (wf_range b Hwf) Hw) as Hr. rewrite Hw. simpl.
  destruct (Z.eqb_spec (Z.land w m) 0) as [E|E]; simpl.
  - destruct (IH (wj + 1)) as (r & -> & Hiff); [lia | lia |]. exists r. split; [done|].
    rewrite Hiff. split; intros Hall p Hp; [|apply Hall; lia].
    destruct (decide (p < (wj + 1) * 64)); [|apply Hall; lia].
    replace p with (wj * 64 + (p - wj * 64)) by lia. rewrite (bit_at_idx b wj _ w) by (done || lia).
    rewrite land_zero_iff in E by done. apply E; [lia|]. rewrite Hm by lia. by solve_bool.
  - exists false. split; [done|]. split; [done|]. intros Hall. exfalso. apply E.
    apply land_zero_iff; [done|]. intros i Hi. rewrite Hm by lia. intros [H1 H2]%andb_prop.
    rewrite <- (bit_at_idx b wj i w) by done. apply Hall. lia.
Qed.

(** Candidate test: on a range inside the map, the word-wise check decides [fits]. *)
Lemma range_free_fits b n s :
  bitmap_wf b -> 0 <= s -> 0 < n -> s + n <= bm_size b ->
  exists r, range_free (bm_bits b) s (s + n - 1) (s / 64) ((s + n - 1) / 64)
              (Z.to_nat ((s + n - 1) / 64 - s / 64 + 1)) (s / 64) = Ret r /\
            (r = true <-> fits b n s).
Proof.
  intros Hwf Hs Hn Hle.
  destruct (range_free_spec b s (s + n - 1) (Z.to_nat ((s + n - 1) / 64 - s / 64 + 1)) (s / 64))
    as (r & -> & Hr); [done | lia | apply (numWords_pos b); [done | lia] | lia | |].
  { assert (s / 64 <= (s + n - 1) / 64) by (apply Z.div_le_mono; lia). lia. }
  exists r. split; [done|]. rewrite Hr. unfold fits. pose proof (pos_split s). split.
  - intros Hall. split_and!; [done | done |]. intros i Hi. apply Hall. lia.
  - intros (_ & _ & Hall) p Hp. apply Hall. lia.
Qed.

Lemma free_bits_spec b wi w :
  bitmap_wf b -> 0 <= wi -> bm_bits b !! Z.to_nat wi = Some w ->
  is_u64 (free_bits b wi w) /\
  forall i, 0 <= i < 64 ->
    Z.testbit (free_bits b wi w) i = (wi * 64 + i <? bm_size b) && negb (bit_at b (wi * 64 + i)).
Proof.
  intros Hwf Hwi Hw. pose proof (Forall_lookup_1 _ _ _ _ (wf_range b Hwf) Hw) as Hr.
  pose proof (wf_words b Hwf) as Hn. pose proof (wf_size b Hwf) as Hsz. unfold is_u16 in Hsz.
  pose proof (pos_split (bm_size b + 63)) as [Hsp Hspm].
  assert (wi < numWords b). { unfold numWords. apply lookup_lt_Some in Hw. lia. }
  pose proof (not64_range w Hr) as Hnr. unfold free_bits.
  assert (forall i, 0 <= i < 64 -> wi * 64 + i < bm_size b ->
    Z.testbit (not64 w) i = (wi * 64 + i <? bm_size b) && negb (bit_at b (wi * 64 + i))) as Hin.
  { intros i Hi Hlt. rewrite testbit_not64, (bit_at_idx b wi i w) by done. by solve_bool. }
  destruct (Z.eqb_spec wi (numWords b - 1)); cycle 1.
  { split; [done|]. intros i Hi. apply Hin; lia. }
  rewrite (u16_small (wi * 64)), u16_small by (unfold is_u16; lia).
  destruct (Z.ltb_spec (bm_size b - wi * 64) 64); cycle 1.
  { split; [done|]. intros i Hi. apply Hin; lia. }
  split.
  - apply u64_of_bits; [apply Z.land_nonneg; left; apply Hnr|]. intros i Hi.
    by rewrite Z.land_spec, testbit_u64_high.
  - intros i Hi. rewrite Z.land_spec, Z.shiftr_spec by lia.
    destruct (decide (wi * 64 + i < bm_size b)).
    + rewrite testbit_not64_0, andb_true_r by lia. by apply Hin.
    + rewrite (testbit_u64_high (not64 0)) by first [by vm_compute | lia].
      rewrite andb_false_r. by solve_bool.
Qed.

Section Search.
Context (b : Bitmap) (n : Z).
Hypothesis Hwf : bitmap_wf b.
Hypothesis Hn : 0 < n <= bm_size b.

(** Every candidate the search reaches leaves room in 16 bits. *)
Hypothesis Hsafe : forall c, 0 <= c < bm_size b -> bit_at b c = false ->
  (forall p, p < c -> ~ fits b n p) -> c + n < 65536.

Definition scan_post (hi : Z) (r : scan) : Prop :=
  match r with
  | Found s => fits b n s /\ forall p, p < s -> ~ fits b n p
  | Stop => forall p, ~ fits b n p
  | Next => forall p, p < hi -> ~ fits b n p
  end.

Lemma fits_free p : fits b n p -> 0 <= p < bm_size b /\ bit_at b p = false.
Proof. intros (H0 & H1 & H2). split; [lia|]. apply H2. lia. Qed.

Lemma scan_word_spec fuel wi fb :
  0 <= wi -> is_u64 fb ->
  (forall i, 0 <= i < 64 -> Z.testbit fb i = true ->
     65 - Z.of_nat fuel <= i /\ wi * 64 + i < bm_size b /\ bit_at b (wi * 64 + i) = false) ->
  (forall p, p < wi * 64 + 64 -> fits b n p -> wi * 64 <= p /\ Z.testbit fb (p - wi * 64) = true) ->
  exists r, scan_word fuel b n wi fb = Ret r /\ scan_post (wi * 64 + 64) r.
Proof.
  intros Hwi. pose proof (wf_size b Hwf) as Hsz. unfold is_u16 in Hsz.
  revert fb. induction fuel as [|fuel IH]; intros fb Hfb Hcand Hfit; simpl.
  { exists Next. split; [done|]. intros p Hp Hf. destruct (Hfit p Hp Hf) as [Hlo Ht].
    apply Hcand in Ht; [|lia]. lia. }
  destruct (Z.eqb_spec fb 0) as [->|Hne].
  { exists Next. split; [done|]. intros p Hp Hf. destruct (Hfit p Hp Hf) as [_ Ht].
    by rewrite Z.bits_0 in Ht. }
  destruct (TrailingZeros64_spec fb Hfb Hne) as (Htz & Htb & Hlow).
  set (tz := TrailingZeros64 fb) in *. set (c := wi * 64 + tz).
  destruct (Hcand tz Htz Htb) as (Hfu & Hclt & Hcfree). fold c in Hclt, Hcfree.
  assert (forall p, p < c -> ~ fits b n p) as Hbelow.
  { intros p Hp Hf. destruct (Hfit p ltac:(lia) Hf) as [Hlo Ht].
    rewrite Hlow in Ht; [done | lia]. }
  assert (c + n < 65536) by (apply Hsafe; [lia | done | done]).
  rewrite (u16_small c) by (unfold is_u16; lia). rewrite (u16_small (c + n)) by (unfold is_u16; lia).
  destruct (Z.ltb_spec (bm_size b) (c + n)).
  { exists Stop. split; [done|]. intros p Hf. destruct (decide (p < c)); [by apply (Hbelow p)|].
    destruct Hf as (_ & ? & _). lia. }
  rewrite u16_small by (unfold is_u16; lia).
  destruct (range_free_fits b n c) as (r & -> & Hr); [done | lia | lia | lia |]. simpl.
  destruct r.
  { exists (Found c). split; [done|]. split; [by apply Hr | done]. }
  apply IH.
  - by apply ldiff_range.
  - intros i Hi. rewrite ldiff_bit by lia. destruct (Z.eqb_spec i tz) as [|Hit]; [done|]. intros Ht.
    destruct (Hcand i Hi Ht) as (_ & ? & ?). split_and!; [|done..].
    destruct (decide (i < tz)); [|lia]. rewrite Hlow in Ht by lia. done.
  - intros p Hp Hf. destruct (Hfit p Hp Hf) as [Hlo Ht]. split; [done|]. rewrite ldiff_bit by lia.
    destruct (Z.eqb_spec (p - wi * 64) tz); [|done]. exfalso.
    assert (false = true); [|done]. apply Hr. by replace c with p by lia.
Qed.

Lemma full_word_no_fit wi w p :
  0 <= wi -> bm_bits b !! Z.to_nat wi = Some w -> not64 w = 0 ->
  wi * 64 <= p < wi * 64 + 64 -> ~ fits b n p.
Proof.
  intros Hwi Hw H0 Hp [_ Hf]%fits_free.
  replace p with (wi * 64 + (p - wi * 64)) in Hf by lia.
  rewrite (bit_at_idx b wi _ w) in Hf by (done || lia).
  assert (Z.testbit (not64 w) (p - wi * 64) = false) as Hb by (rewrite H0; apply Z.bits_0).
  rewrite testbit_not64, Hf in Hb by lia. done.
Qed.

Lemma scan_words_spec ws wi :
  0 <= wi -> ws = drop (Z.to_nat wi) (bm_bits b) -> (forall p, p < wi * 64 -> ~ fits b n p) ->
  exists s ok, scan_words b n ws wi = Ret (s, ok) /\
    if ok : bool then fits b n s /\ (forall p, p < s -> ~ fits b n p)
    else s = 0 /\ forall p, ~ fits b n p.
Proof.
  revert wi. induction ws as [|w ws IH]; intros wi Hwi Hws Hbelow; cbn [scan_words].
  { exists 0, false. split; [done|]. split; [done|]. intros p Hf.
    destruct (decide (p < wi * 64)) as [|Hge]; [by apply (Hbelow p)|].
    destruct (fits_free p Hf) as [Hp _]. destruct (numWords_pos b p Hwf Hp) as [Hlt _].
    pose proof (pos_split p). apply (f_equal length) in Hws. rewrite length_drop in Hws.
    unfold numWords in Hlt. simpl in Hws. lia. }
  assert (bm_bits b !! Z.to_nat wi = Some w) as Hw.
  { transitivity (drop (Z.to_nat wi) (bm_bits b) !! 0%nat); [|by rewrite <- Hws].
    by rewrite lookup_drop, Nat.add_0_r. }
  assert (ws = drop (Z.to_nat (wi + 1)) (bm_bits b)) as Hws'.
  { replace (Z.to_nat (wi + 1)) with (Z.to_nat wi + 1)%nat by lia.
    by rewrite <- drop_drop, <- Hws. }
  destruct (Z.eqb_spec (not64 w) 0) as [H0|H0].
  { apply IH; [lia | done |]. intros p Hp. destruct (decide (p < wi * 64)); [by apply Hbelow|].
    apply (full_word_no_fit wi w); [done..|lia]. }
  destruct (free_bits_spec b wi w Hwf Hwi Hw) as [Hfb Hbits].
  destruct (scan_word_spec 65 wi (free_bits b wi w)) as (r & -> & Hpost); [done | done | | |].
  { intros i Hi. rewrite Hbits by done. intros [Hlt Hb]%andb_prop.
    apply Z.ltb_lt in Hlt. apply negb_true_iff in Hb. split_and!; [lia | done..]. }
  { intros p Hp Hf. assert (wi * 64 <= p) by (destruct (decide (p < wi * 64)); [by destruct (Hbelow p) | lia]).
    split; [done|]. rewrite Hbits by lia. destruct (fits_free p Hf) as [Hr Hb].
    replace (wi * 64 + (p - wi * 64)) with p by lia. rewrite Hb. by solve_bool. }
  cbn [mbind res_bind]. destruct r as [s| |].
  - by exists s, true.
  - by exists 0, false.
  - apply IH; [lia | done |]. intros p Hp. apply Hpost. lia.
Qed.
End Search.

Lemma FindContiguous_spec b n :
  bitmap_wf b -> 0 <= n -> find_safe b n ->
  exists s ok, FindContiguous b n = Ret (s, ok) /\
    if ok : bool then 0 < n /\ fits b n s /\ (forall p, p < s -> ~ fits b n p)
    else s = 0 /\ (0 < n -> forall p, ~ fits b n p).
Proof.
  intros Hwf Hn Hsafe. unfold FindContiguous. pose proof (wf_size b Hwf) as Hsz. unfold is_u16 in Hsz.
  destruct (Z.eqb_spec n 0); simpl.
  { exists 0, false. split_and!; [done | done | lia]. }
  destruct (Z.ltb_spec (bm_size b) n); simpl.
  { exists 0, false. split_and!; [done | done |]. intros _ p (? & ? & _). lia. }
  destruct (numWords_pos b 0 Hwf ltac:(lia)). solve_bool.
  destruct (scan_words_spec b n Hwf ltac:(lia)) with (ws := bm_bits b) (wi := 0)
    as (s & ok & -> & Hp); [| lia | done | |].
  - intros c Hc Hfree Hbelow. destruct Hsafe as [[s Hs]|Hall]; [|by apply Hall].
    destruct (decide (s < c)); [by destruct (Hbelow s)|]. destruct Hs as (_ & ? & _). lia.
  - intros p Hp (? & _). lia.
  - exists s, ok. split; [done|]. destruct ok; [split; [lia | done]|].
    destruct Hp as [-> Hp]. done.
Qed.

(** ** The search without side condition *)

(** What the loop does with the candidate [c]. *)
Definition candidate (b : Bitmap) (n c : Z) : res scan :=
  if bm_size b <? u16 (c + n) then Ret Stop
  else
    let e := u16 (c + n - 1) in
    ok ← range_free (bm_bits b) c e (c / 64) (e / 64) (Z.to_nat (e / 64 - c / 64 + 1)) (c / 64);
    Ret (if ok : bool then Found c else Next).

Section FirstCandidate.
Context (b : Bitmap) (n p : Z) (r : res scan).
Hypothesis Hwf : bitmap_wf b.
Hypothesis Hn : 0 < n <= bm_size b.
Hypothesis Hp : 0 <= p < bm_size b.
Hypothesis Hfree : bit_at b p = false.
Hypothesis Hbefore : forall q, 0 <= q < p -> bit_at b q = false -> candidate b n q = Ret Next.
Hypothesis Hhere : candidate b n p = r.
Hypothesis Hdecides : r <> Ret Next.

Lemma scan_word_first fuel wi fb :
  0 <= wi -> is_u64 fb ->
  (forall i, 0 <= i < 64 -> Z.testbit fb i = true ->
     65 - Z.of_nat fuel <= i /\ wi * 64 + i < bm_size b /\ bit_at b (wi * 64 + i) = false) ->
  (wi * 64 <= p < wi * 64 + 64 -> Z.testbit fb (p - wi * 64) = true) -> wi * 64 <= p ->
  scan_word fuel b n wi fb = if p <? wi * 64 + 64 then r else Ret Next.
Proof.
  intros Hwi. pose proof (wf_size b Hwf) as Hsz. unfold is_u16 in Hsz.
  revert fb. induction fuel as [|fuel IH]; intros fb Hfb Hcand Hpin Hlo; simpl.
  { destruct (Z.ltb_spec p (wi * 64 + 64)); [|done]. destruct (Hcand (p - wi * 64)) as (? & _); [lia | by apply Hpin | lia]. }
  destruct (Z.eqb_spec fb 0) as [->|Hne].
  { destruct (Z.ltb_spec p (wi * 64 + 64)); [|done]. by rewrite Z.bits_0 in Hpin; discriminate Hpin. }
  destruct (TrailingZeros64_spec fb Hfb Hne) as (Htz & Htb & Hlow).
  set (tz := TrailingZeros64 fb) in *. destruct (Hcand tz Htz Htb) as (Hfu & Hclt & Hcfree).
  rewrite (u16_small (wi * 64 + tz)) by (unfold is_u16; lia). set (c := wi * 64 + tz) in *.
  assert (c <= p) as Hcp.
  { destruct (decide (p < c)); [|lia]. rewrite Hlow in Hpin by lia. assert (false = true) by (apply Hpin; lia). done. }
  assert (scan_word fuel b n wi (Z.ldiff fb (shl64 1 tz)) = (if p <? wi * 64 + 64 then r else Ret Next) \/ c = p) as Hrec.
  { destruct (decide (c = p)); [by right|]. left. apply IH; [by apply ldiff_range | | |done].
    - intros i Hi. rewrite ldiff_bit by lia. destruct (Z.eqb_spec i tz) as [|Hit]; [done|]. intros Ht.
      destruct (Hcand i Hi Ht) as (_ & ? & ?). split_and!; [|done..].
      destruct (decide (i < tz)); [|lia]. by rewrite Hlow in Ht by lia.
    - intros Hin. rewrite ldiff_bit by lia. destruct (Z.eqb_spec (p - wi * 64) tz); [lia | by apply Hpin]. }
  assert (forall k, (if bm_size b <? u16 (c + n) then Ret Stop
    else ok ← range_free (bm_bits b) c (u16 (c + n - 1)) (c / 64) (u16 (c + n - 1) / 64)
           (Z.to_nat (u16 (c + n - 1) / 64 - c / 64 + 1)) (c / 64); if ok : bool then Ret (Found c) else k)
    = match candidate b n c with Ret Next => k | o => o end) as Hunf.
  { intros k. unfold candidate. destruct (bm_size b <? u16 (c + n)); [done|]. cbv zeta.
    destruct (range_free _ _ _ _ _ _ _) as [[]| |]; done. }
  cbv zeta. rewrite Hunf. destruct (decide (c = p)) as [Ecp|Hcne].
  - rewrite Ecp, Hhere. solve_bool. destruct r as [[]| |]; done.
  - rewrite Hbefore by (done || lia). destruct Hrec as [Hrec|?]; [exact Hrec | done].
Qed.

Lemma scan_words_first ws wi :
  0 <= wi -> wi * 64 <= p -> ws = drop (Z.to_nat wi) (bm_bits b) ->
  scan_words b n ws wi = (o ← r; Ret (match o with Found s => (s, true) | _ => (0, false) end)).
Proof.
  revert wi. induction ws as [|w ws IH]; intros wi Hwi Hlo Hws; cbn [scan_words].
  { exfalso. destruct (numWords_pos b p Hwf Hp) as [Hlt _]. pose proof (pos_split p).
    apply (f_equal length) in Hws. rewrite length_drop in Hws. unfold numWords in Hlt. simpl in Hws. lia. }
  assert (bm_bits b !! Z.to_nat wi = Some w) as Hw.
  { transitivity (drop (Z.to_nat wi) (bm_bits b) !! 0%nat); [|by rewrite <- Hws].
    by rewrite lookup_drop, Nat.add_0_r. }
  assert (ws = drop (Z.to_nat (wi + 1)) (bm_bits b)) as Hws'.
  { replace (Z.to_nat (wi + 1)) with (Z.to_nat wi + 1)%nat by lia. by rewrite <- drop_drop, <- Hws. }
  assert (wi * 64 <= p < wi * 64 + 64 -> Z.testbit w (p - wi * 64) = false) as Hpw.
  { intros Hin. rewrite <- (bit_at_idx b wi _ w) by (done || lia). by replace (wi * 64 + (p - wi * 64)) with p by lia. }
  destruct (Z.eqb_spec (not64 w) 0) as [H0|H0].
  { apply IH; [lia | | done]. destruct (decide (wi * 64 + 64 <= p)); [lia|exfalso].
    assert (Z.testbit (not64 w) (p - wi * 64) = false) as Hb by (rewrite H0; apply Z.bits_0).
    rewrite testbit_not64, Hpw in Hb by lia. done. }
  destruct (free_bits_spec b wi w Hwf Hwi Hw) as [Hfb Hbits].
  rewrite (scan_word_first 65 wi (free_bits b wi w)); [|done|done| | |done].
  - destruct (Z.ltb_spec p (wi * 64 + 64)); [by destruct r as [[]| |]|]. cbn [mbind res_bind]. apply IH; [lia | lia | done].
  - intros i Hi. rewrite Hbits by done. intros [Hlt Hb]%andb_prop.
    apply Z.ltb_lt in Hlt. apply negb_true_iff in Hb. split_and!; [lia | done..].
  - intros Hin. rewrite Hbits by lia. replace (wi * 64 + (p - wi * 64)) with p by lia. rewrite Hfree. by solve_bool.
Qed.

Lemma FindContiguous_first :
  FindContiguous b n = (o ← r; Ret (match o with Found s => (s, true) | _ => (0, false) end)).
Proof.
  unfold FindContiguous. destruct (numWords_pos b p Hwf Hp). solve_bool. simpl. apply scan_words_first; [lia | lia | done].
Qed.
End FirstCandidate.

(** On a map of 65535 bytes, a free position from which [n] bytes run past the end
    and wrap on 16 bits, so that the code's test of the end does not see it. *)
Definition past_end (b : Bitmap) (n p : Z) : Prop :=
  0 <= p < bm_size b /\ bit_at b p = false /\
  (65536 < p + n \/ p + n = 65536 /\ forall i, p <= i < bm_size b -> bit_at b i = false).

Section FullSize.
Context (b : Bitmap) (n : Z).
Hypothesis Hwf : bitmap_wf b.
Hypothesis Hsize : bm_size b = 65535.
Hypothesis Hn : 0 < n <= 65535.

(** The last position of the last word is no byte of the map, and clear. *)
Lemma range_free_end c : 0 <= c < 65535 -> c + n = 65536 ->
  exists ok, range_free (bm_bits b) c 65535 (c / 64) (65535 / 64) (Z.to_nat (65535 / 64 - c / 64 + 1)) (c / 64) = Ret ok /\
    (ok = true <-> forall i, c <= i < 65535 -> bit_at b i = false).
Proof.
  intros Hc Hcn. assert (c / 64 <= 65535 / 64) as Hdiv by (apply Z.div_le_mono; lia). pose proof (pos_split c) as Hps.
  destruct (range_free_spec b c 65535 (Z.to_nat (65535 / 64 - c / 64 + 1)) (c / 64)) as (ok & Hok & Hiff);
    [done | lia | rewrite (wf_words b Hwf), Hsize; by vm_compute | lia | lia |].
  exists ok. split; [exact Hok|]. rewrite Hiff. split.
  - intros Hall i Hi. apply Hall. lia.
  - intros Hall i Hi. destruct (decide (i < 65535)); [apply Hall; lia|]. apply (wf_tail b Hwf). lia.
Qed.

Lemma candidate_full c : 0 <= c < 65535 -> bit_at b c = false -> ~ fits b n c -> ~ past_end b n c ->
  candidate b n c = Ret Next.
Proof.
  intros Hc Hf Hno Hnp. unfold candidate. cbv zeta. destruct (decide (c + n <= 65535)).
  - rewrite !u16_small by (unfold is_u16; lia). solve_bool.
    destruct (range_free_fits b n c) as (ok & -> & Hok); [done | lia..|]. cbn [mbind res_bind].
    destruct ok; [by destruct Hno; apply Hok | done].
  - destruct (decide (c + n = 65536)) as [E|]; [|destruct Hnp; split_and!; [lia.. | done | left; lia]].
    rewrite E. change (u16 65536) with 0. change (u16 (65536 - 1)) with 65535. solve_bool.
    destruct (range_free_end c Hc E) as (ok & -> & Hok). cbn [mbind res_bind].
    destruct ok; [|done]. destruct Hnp. split_and!; [lia.. | done|]. right. split; [done|].
    rewrite Hsize. by apply Hok.
Qed.

Lemma candidate_past p : past_end b n p ->
  candidate b n p = if p / 64 =? (p + n - 65537) / 64 then Panic else Ret (Found p).
Proof.
  intros (Hp & Hf & Hcase). rewrite Hsize in Hp. unfold candidate. cbv zeta. destruct Hcase as [Hgt|[E Hall]].
  - assert (u16 (p + n) = p + n - 65536) as -> by (unfold u16; rewrite <- (Z_mod_plus_full _ (-1)); apply Z.mod_small; lia).
    assert (u16 (p + n - 1) = p + n - 65537) as -> by (unfold u16; rewrite <- (Z_mod_plus_full _ (-1)), Z.mod_small; lia).
    solve_bool. assert ((p + n - 65537) / 64 <= p / 64) by (apply Z.div_le_mono; lia).
    destruct (Z.eqb_spec (p / 64) ((p + n - 65537) / 64)) as [E|E].
    + rewrite <- E, Z.sub_diag. change (Z.to_nat (0 + 1)) with 1%nat. cbn [range_free]. unfold range_mask.
      rewrite !Z.eqb_refl. cbn [andb]. pose proof (pos_split p). pose proof (pos_split (p + n - 65537)). by solve_bool.
    + by replace (Z.to_nat ((p + n - 65537) / 64 - p / 64 + 1)) with 0%nat by lia.
  - rewrite E. change (u16 65536) with 0. change (u16 (65536 - 1)) with 65535. solve_bool.
    destruct (range_free_end p Hp E) as (ok & -> & Hok). cbn [mbind res_bind].
    change ((65536 - 65537) / 64) with (-1). assert (0 <= p / 64) by (apply Z.div_pos; lia). solve_bool.
    assert (ok = true) as ->; [|done]. apply Hok. rewrite Hsize in Hall. done.
Qed.

Lemma FindContiguous_past p :
  (forall s, ~ fits b n s) -> past_end b n p -> (forall q, q < p -> ~ past_end b n q) ->
  FindContiguous b n = if p / 64 =? (p + n - 65537) / 64 then Panic else Ret (p, true).
Proof.
  intros Hno Hp Hfirst. pose proof Hp as (Hr & Hf & _). rewrite Hsize in Hr.
  rewrite (FindContiguous_first b n p (candidate b n p)); try done; rewrite ?Hsize; try done.
  - rewrite (candidate_past p Hp). by destruct (_ =? _).
  - intros q Hq Hqf. apply candidate_full; [lia | done | done | apply Hfirst; lia].
  - rewrite (candidate_past p Hp). by destruct (_ =? _).
Qed.
End FullSize.

(** Requests on small maps are always safe. *)
Lemma find_safe_small b n : bm_size b <= 32768 -> n <= bm_size b -> find_safe b n.
Proof. intros. right. intros. lia. Qed.

#[global] Arguments FindContiguous : simpl never.
#[global] Arguments SetRange : simpl never.
#[global] Arguments ClearRange : simpl never.
#[global] Arguments FreeBytes : simpl never.

(** ** Reference search *)

(** First fit, position by position. *)
Definition fitsb (b : Bitmap) (n s : Z) : bool :=
  (s + n <=? bm_size b) && forallb (fun i => negb (IsSet b i)) (seqZ s n).

Definition first_fit (b : Bitmap) (n : Z) : Z * bool :=
  if n =? 0 then (0, false)
  else match List.find (fitsb b n) (seqZ 0 (bm_size b)) with
       | Some s => (s, true)
       | None => (0, false)
       end.

Lemma fitsb_fits b n s : bitmap_wf b -> 0 <= s -> fitsb b n s = true <-> fits b n s.
Proof.
  intros Hwf Hs. unfold fitsb, fits. rewrite andb_true_iff, Z.leb_le, forallb_forall.
  split; [intros [? Hall] | intros (_ & ? & Hall)]; split_and!; try done.
  - intros i Hi. specialize (Hall i). rewrite <- list_elem_of_In, elem_of_seqZ in Hall.
    rewrite <- IsSet_bit by (done || lia). apply negb_true_iff, Hall. lia.
  - intros i. rewrite <- list_elem_of_In, elem_of_seqZ. intros Hi.
    rewrite IsSet_bit, Hall by (done || lia). done.
Qed.

Lemma find_seqZ_least (P : Z -> bool) lo len s :
  0 <= len -> lo <= s < lo + len -> P s = true -> (forall p, lo <= p < s -> P p = false) ->
  List.find P (seqZ lo len) = Some s.
Proof.
  intros Hlen Hs HP Hlow. replace len with ((s - lo) + (lo + len - s)) by lia.
  rewrite seqZ_app by lia. replace (lo + (s - lo)) with s by lia.
  rewrite (seqZ_cons s) by lia.
  assert (forall l k, (forall p, p ∈ l -> P p = false) -> List.find P (l ++ s :: k) = Some s) as H.
  { induction l as [|q l IH]; intros k Hl; simpl; [by rewrite HP|].
    rewrite (Hl q) by (by left). apply IH. intros; apply Hl; by right. }
  apply H. intros p Hp%elem_of_seqZ. apply Hlow. lia.
Qed.

Lemma find_seqZ_none (P : Z -> bool) lo len :
  (forall p, lo <= p < lo + len -> P p = false) -> List.find P (seqZ lo len) = None.
Proof.
  intros H. destruct (List.find P (seqZ lo len)) as [s|] eqn:E; [|done].
  apply List.find_some in E as [Hin HP]. rewrite <- list_elem_of_In, elem_of_seqZ in Hin.
  by rewrite H in HP.
Qed.

(** ** Holes *)

(** Position [i] starts a maximal free run. *)
Definition run_start (b : Bitmap) (i : Z) : bool :=
  negb (IsSet b i) && ((i =? 0) || IsSet b (i - 1)).

Lemma holes_step b n :
  0 <= n ->
  for_range 0 n (fun '(h, inHole) i =>
    if IsSet b i then (h, false)
    else if negb inHole then (h + 1, true) else (h, inHole)) (0, false) =
  (sumZ (fun i => Z.b2z (run_start b i)) (seqZ 0 n), (0 <? n) && negb (IsSet b (n - 1))).
Proof.
  intros Hn. apply (for_range_inv (fun i st => st =
    (sumZ (fun i => Z.b2z (run_start b i)) (seqZ 0 i), (0 <? i) && negb (IsSet b (i - 1)))));
    [done | done |].
  intros i st Hi ->. rewrite (sumZ_seqZ_split _ 0 i 1) by lia. rewrite (seqZ_cons (0 + i)) by lia.
  rewrite (seqZ_nil (Z.succ (0 + i))) by lia. simpl. rewrite Z.add_0_l.
  generalize (sumZ (fun i => Z.b2z (run_start b i)) (seqZ 0 i)). intros t. unfold run_start.
  replace (i + 1 - 1) with i by lia. destruct (IsSet b i); simpl.
  { f_equal; [lia | by rewrite andb_false_r]. }
  destruct (Z.ltb_spec 0 i); simpl.
  - by solve_bool; destruct (IsSet b (i - 1)); simpl; f_equal; lia.
  - by solve_bool; simpl; f_equal; lia.
Qed.

(** ** Properties *)

(** C10. [FindContiguous], with its word masks and 16-bit arithmetic, is first
    fit: whenever some range fits, or no free byte is so close to the end that
    the size added to it overflows 16 bits, it returns (without panicking) the
    same answer as the position-by-position reference. *)
Theorem find_contiguous_first_fit b n :
  bitmap_wf b -> 0 <= n -> find_safe b n -> FindContiguous b n = Ret (first_fit b n).
Proof.
  intros Hwf Hn Hsafe. destruct (FindContiguous_spec b n Hwf Hn Hsafe) as (s & ok & -> & Hr).
  pose proof (wf_size b Hwf) as Hsz. unfold is_u16 in Hsz. f_equal. unfold first_fit. destruct ok.
  - destruct Hr as (? & Hf & Hl). solve_bool. rewrite (find_seqZ_least _ 0 _ s); [done | lia | | |].
    + destruct Hf as (? & ? & _). lia.
    + apply fitsb_fits; [done | apply Hf | done].
    + intros p Hp. apply not_true_is_false. rewrite fitsb_fits by (done || lia). apply Hl. lia.
  - destruct Hr as [-> Hl]. destruct (Z.eqb_spec n 0); [done|].
    rewrite find_seqZ_none; [done|]. intros p Hp. apply not_true_is_false.
    rewrite fitsb_fits by (done || lia). apply Hl. lia.
Qed.

Lemma find_contiguous_first_fit_witness :
  FindContiguous (SetRange (NewBitmap 200) 3 70) 60 = Ret (70, true).
Proof.
  rewrite (find_contiguous_first_fit (SetRange (NewBitmap 200) 3 70) 60).
  - vm_compute. reflexivity.
  - apply SetRange_spec; [apply NewBitmap_wf; vm_compute; intuition congruence | lia].
  - lia.
  - apply find_safe_small; vm_compute; congruence.
Defined.

(** A map of 65535 bytes, the size the virtual machine uses, with one used byte: a
    request that needs more than the bytes behind it fits nowhere, and the positions
    behind it run past the end. *)
Definition one_used : Bitmap := SetRange (NewBitmap 65535) 10 11.

Lemma one_used_bits : bitmap_wf one_used /\ bm_size one_used = 65535 /\
  forall p, 0 <= p < 65535 -> bit_at one_used p = (p =? 10).
Proof.
  destruct (SetRange_spec (NewBitmap 65535) 10 11) as (Hwf & Hsz & Hb); [by apply NewBitmap_wf | lia |].
  split_and!; [done | done |]. intros p Hp. unfold one_used. rewrite Hb by (simpl; lia).
  rewrite NewBitmap_clear. case_bool; try lia; done.
Qed.

Lemma one_used_overflow : (forall s, ~ fits one_used 65525 s) /\ past_end one_used 65525 11 /\
  (forall q, q < 11 -> ~ past_end one_used 65525 q).
Proof.
  destruct one_used_bits as (Hwf & Hsz & Hb). unfold fits, past_end. rewrite Hsz. split_and!.
  - intros s (H0 & H1 & H2). specialize (H2 10 ltac:(lia)). by rewrite Hb in H2 by lia.
  - lia.
  - lia.
  - by rewrite Hb by lia.
  - right. split; [done|]. intros i Hi. rewrite Hb by lia. solve_bool. done.
  - intros q Hq (H0 & _ & [H1|[H1 _]]); lia.
Qed.

(** Setting and clearing a range keep the representation invariant and
    change exactly the bits of the range that lie inside the map. *)
Theorem range_operations b s e q :
  bitmap_wf b -> 0 <= s -> 0 <= q ->
  bitmap_wf (SetRange b s e) /\ bitmap_wf (ClearRange b s e) /\
  IsSet (SetRange b s e) q = ((s <=? q) && (q <? e) && (q <? bm_size b)) || IsSet b q /\
  IsSet (ClearRange b s e) q = negb ((s <=? q) && (q <? e)) && IsSet b q.
Proof.
  intros Hwf Hs Hq. destruct (SetRange_spec b s e Hwf Hs) as (W1 & S1 & B1).
  destruct (ClearRange_spec b s e Hwf Hs) as (W2 & S2 & B2). split_and!; [done..| |];
    rewrite !IsSet_bit by done; (destruct (decide (q < bm_size b)) as [Hlt|Hge];
    [rewrite ?B1, ?B2 by lia | rewrite !wf_tail by (done || lia)]).
  - solve_bool. rewrite andb_true_r. by destruct ((s <=? q) && (q <? e)).
  - solve_bool. by rewrite andb_false_r.
  - by destruct ((s <=? q) && (q <? e)).
  - by rewrite andb_false_r.
Qed.

Lemma range_operations_witness :
  IsSet (SetRange (NewBitmap 100) 60 70) 65 = true /\
  IsSet (ClearRange (NewBitmap 100) 60 70) 65 = false.
Proof.
  destruct (range_operations (NewBitmap 100) 60 70 65) as (_ & _ & -> & ->);
    [apply NewBitmap_wf; vm_compute; intuition congruence | lia | lia |].
  split; reflexivity.
Defined.

(** C32. The popcount-based statistics are exact: [UsedBytes] is the number of
    set positions and [UsedBytes + FreeBytes] is the size; filling a free range
    moves both by its length, and clearing it again restores the map itself. *)
Theorem byte_counts b s e :
  bitmap_wf b -> 0 <= s <= e -> e <= bm_size b ->
  (forall q, s <= q < e -> IsSet b q = false) ->
  UsedBytes b = sumZ (fun p => Z.b2z (IsSet b p)) (seqZ 0 (bm_size b)) /\
  UsedBytes b + FreeBytes b = bm_size b /\
  UsedBytes (SetRange b s e) = UsedBytes b + (e - s) /\
  FreeBytes (SetRange b s e) = FreeBytes b - (e - s) /\
  ClearRange (SetRange b s e) s e = b.
Proof.
  intros Hwf Hse He Hfree. destruct (SetRange_spec b s e Hwf ltac:(lia)) as (W1 & S1 & B1).
  destruct (ClearRange_spec (SetRange b s e) s e W1 ltac:(lia)) as (W2 & S2 & B2).
  assert (forall q, s <= q < e -> bit_at b q = false) as Hb.
  { intros q Hq. rewrite <- IsSet_bit by (done || lia). by apply Hfree. }
  rewrite !UsedBytes_used, !FreeBytes_used by done.
  rewrite (used_range_upd b (SetRange b s e) s e true) by (done || lia). split_and!; try lia.
  - apply sumZ_ext. intros p Hp%elem_of_seqZ. by rewrite IsSet_bit by (done || lia).
  - apply bitmap_ext; [done | done | lia |]. intros q Hq. rewrite B2, B1 by lia.
    destruct (Z.leb_spec s q), (Z.ltb_spec q e); simpl; try done. by rewrite Hb by lia.
Qed.

Lemma byte_counts_witness :
  UsedBytes (SetRange (NewBitmap 100) 60 70) = 10 /\
  FreeBytes (SetRange (NewBitmap 100) 60 70) = 90 /\
  ClearRange (SetRange (NewBitmap 100) 60 70) 60 70 = NewBitmap 100.
Proof.
  destruct (byte_counts (NewBitmap 100) 60 70) as (_ & _ & -> & -> & ->);
    [apply NewBitmap_wf; vm_compute; intuition congruence | lia | simpl; lia | |].
  - intros q Hq. rewrite IsSet_bit;
      [apply NewBitmap_clear | apply NewBitmap_wf; vm_compute; intuition congruence | lia].
  - vm_compute. split_and!; reflexivity.
Defined.
