(* ===== verification/Plane.v ===== *)
(** * Allocations and planes (internal/types/allocation.go, plane.go)

    [Allocation] objects are shared: a plane's map, the memory manager's map and
    the caller hold pointers to the same object.  They live in an explicit
    [Heap]; a pointer is a heap location.  Planes are owned by one region and
    are kept by value. *)
From S2P Require Import Prelude Words Float64 Address Bitmap.

(** ** Allocation *)

Definition FlagContiguous : Z := 1.
Definition FlagShared : Z := 2.
Definition FlagPinned : Z := 4.
Definition FlagExecutable : Z := 8.
Definition FlagAtomic : Z := 16.

Record Fragment := mkFragment {
  fr_PlaneID : Z; fr_StartZ : Z; fr_Size : Z; fr_IsFirst : bool }.

Record Allocation := mkAllocation {
  al_ID : Z;
  al_Address : Address3D;
  al_Size : Z;
  al_RegionType : Z;
  al_Flags : Z;
  al_CreatedAt : Z;
  al_LastUsed : Z;
  al_AccessCount : Z;
  al_GasUsed : Z;
  al_Fragments : list Fragment;
  al_Next : option Z;
}.

#[export] Instance Fragment_eq_dec : EqDecision Fragment.
Proof. solve_decision. Defined.
#[export] Instance Allocation_eq_dec : EqDecision Allocation.
Proof. solve_decision. Defined.

Definition NewAllocation (now id : Z) (addr : Address3D) (size regionType : Z) : Allocation := {|
  al_ID := id; al_Address := addr; al_Size := size; al_RegionType := regionType;
  al_Flags := 0; al_CreatedAt := now; al_LastUsed := now; al_AccessCount := 0; al_GasUsed := 0;
  al_Fragments := []; al_Next := None |}.

Definition with_Flags (f : Z) (a : Allocation) : Allocation := {|
  al_ID := al_ID a; al_Address := al_Address a; al_Size := al_Size a;
  al_RegionType := al_RegionType a; al_Flags := f; al_CreatedAt := al_CreatedAt a;
  al_LastUsed := al_LastUsed a; al_AccessCount := al_AccessCount a; al_GasUsed := al_GasUsed a;
  al_Fragments := al_Fragments a; al_Next := al_Next a |}.

Definition with_Address (addr : Address3D) (a : Allocation) : Allocation := {|
  al_ID := al_ID a; al_Address := addr; al_Size := al_Size a;
  al_RegionType := al_RegionType a; al_Flags := al_Flags a; al_CreatedAt := al_CreatedAt a;
  al_LastUsed := al_LastUsed a; al_AccessCount := al_AccessCount a; al_GasUsed := al_GasUsed a;
  al_Fragments := al_Fragments a; al_Next := al_Next a |}.

Definition AddFragment (a : Allocation) (planeID startZ size : Z) (isFirst : bool) : Allocation := {|
  al_ID := al_ID a; al_Address := al_Address a; al_Size := al_Size a;
  al_RegionType := al_RegionType a; al_Flags := al_Flags a; al_CreatedAt := al_CreatedAt a;
  al_LastUsed := al_LastUsed a; al_AccessCount := al_AccessCount a; al_GasUsed := al_GasUsed a;
  al_Fragments := al_Fragments a ++ [mkFragment planeID startZ size isFirst];
  al_Next := al_Next a |}.

Definition IsYPromoted (a : Allocation) : bool := (1 <? Z.of_nat (length (al_Fragments a))).

Definition Allocation_UpdateAccess (now : Z) (a : Allocation) (gasUsed : Z) : Allocation := {|
  al_ID := al_ID a; al_Address := al_Address a; al_Size := al_Size a;
  al_RegionType := al_RegionType a; al_Flags := al_Flags a; al_CreatedAt := al_CreatedAt a;
  al_LastUsed := now; al_AccessCount := u64 (al_AccessCount a + 1);
  al_GasUsed := u64 (al_GasUsed a + gasUsed);
  al_Fragments := al_Fragments a; al_Next := al_Next a |}.

Definition GetHotnessScore (now : Z) (a : Allocation) : float64 :=
  let timeSinceAccess := f64_div (f64_of_Z (to_int64 (now - al_LastUsed a))) (f64_of_Z 1000000000) in
  let decayFactor := f64_ratio 1 2 in
  let agePenalty := f64_div (f64_of_Z 1) (f64_add (f64_of_Z 1) (f64_mul timeSinceAccess decayFactor)) in
  let freqComponent := f64_div (f64_of_Z (al_AccessCount a)) (f64_of_Z 1000) in
  f64_mul agePenalty freqComponent.

(** ** The heap of allocation objects *)

Notation loc := Z (only parsing).

Record Heap := mkHeap { h_cells : gmap Z Allocation; h_next : loc }.

Definition empty_heap : Heap := {| h_cells := ∅; h_next := 0 |}.

Definition heap_new (h : Heap) (a : Allocation) : Heap * loc :=
  ({| h_cells := <[h_next h := a]> (h_cells h); h_next := h_next h + 1 |}, h_next h).

Definition heap_get (h : Heap) (l : loc) : option Allocation := h_cells h !! l.

Definition heap_set (h : Heap) (l : loc) (a : Allocation) : Heap :=
  {| h_cells := <[l := a]> (h_cells h); h_next := h_next h |}.

(** Locations at or above [h_next] are unused. *)
Definition heap_ok (h : Heap) : Prop := forall l a, heap_get h l = Some a -> l < h_next h.

(** ** Plane *)

Record Plane := mkPlane {
  pl_ID : Z;
  pl_RegionID : Z;
  pl_Data : list Z;
  pl_FreeMap : Bitmap;
  pl_Allocations : gmap Z loc; (* keyed by start Z *)
  pl_Size : Z;
  pl_AccessCount : Z;
}.

Definition with_FreeMap (b : Bitmap) (p : Plane) : Plane := {|
  pl_ID := pl_ID p; pl_RegionID := pl_RegionID p; pl_Data := pl_Data p; pl_FreeMap := b;
  pl_Allocations := pl_Allocations p; pl_Size := pl_Size p; pl_AccessCount := pl_AccessCount p |}.

Definition with_Allocations (m : gmap Z loc) (p : Plane) : Plane := {|
  pl_ID := pl_ID p; pl_RegionID := pl_RegionID p; pl_Data := pl_Data p; pl_FreeMap := pl_FreeMap p;
  pl_Allocations := m; pl_Size := pl_Size p; pl_AccessCount := pl_AccessCount p |}.

Definition with_Data (d : list Z) (p : Plane) : Plane := {|
  pl_ID := pl_ID p; pl_RegionID := pl_RegionID p; pl_Data := d; pl_FreeMap := pl_FreeMap p;
  pl_Allocations := pl_Allocations p; pl_Size := pl_Size p; pl_AccessCount := pl_AccessCount p |}.

Definition with_IDs (id regionID : Z) (p : Plane) : Plane := {|
  pl_ID := id; pl_RegionID := regionID; pl_Data := pl_Data p; pl_FreeMap := pl_FreeMap p;
  pl_Allocations := pl_Allocations p; pl_Size := pl_Size p; pl_AccessCount := pl_AccessCount p |}.

Definition NewPlane (id regionID size : Z) : Plane :=
  let size := if size =? 0 then 65535 else size in
  {| pl_ID := id; pl_RegionID := regionID; pl_Data := replicate (Z.to_nat size) 0;
     pl_FreeMap := NewBitmap size; pl_Allocations := ∅; pl_Size := size; pl_AccessCount := 0 |}.

Definition Plane_Allocate (p : Plane) (size : Z) : res (Plane * Z * bool) :=
  '(start, found) ← FindContiguous (pl_FreeMap p) size;
  if negb found then Ret (p, 0, false)
  else Ret (with_FreeMap (SetRange (pl_FreeMap p) start (u16 (start + size))) p, start, true).

Definition Plane_Free (h : Heap) (p : Plane) (start : Z) : res (Plane * bool) :=
  match pl_Allocations p !! start with
  | None => Ret (p, false)
  | Some l =>
      alloc ← deref (heap_get h l);
      let p := with_FreeMap (ClearRange (pl_FreeMap p) start (u16 (start + u16 (al_Size alloc)))) p in
      Ret (with_Allocations (delete start (pl_Allocations p)) p, true)
  end.

(** The allocation of the first entry, in the order [keys], whose range holds [pos]. *)
Fixpoint containing (h : Heap) (m : gmap Z loc) (pos : Z) (keys : list Z) : res (option loc) :=
  match keys with
  | [] => Ret None
  | start :: keys =>
      l ← deref (m !! start);
      alloc ← deref (heap_get h l);
      if (start <=? pos) && (pos <? u16 (start + u16 (al_Size alloc))) then Ret (Some l)
      else containing h m pos keys
  end.

Definition GetContainingAllocation `{GoRuntime} (h : Heap) (p : Plane) (pos : Z) : res (option loc) :=
  containing h (pl_Allocations p) pos (rt_range 0 (pl_Allocations p)).

Definition IsAllocated `{GoRuntime} (h : Heap) (p : Plane) (pos : Z) : res bool :=
  o ← containing h (pl_Allocations p) pos (rt_range 0 (pl_Allocations p));
  Ret (match o with Some _ => true | None => false end).

Definition Plane_Fragmentation (p : Plane) : float64 := Fragmentation (pl_FreeMap p).
Definition Plane_FreeBytes (p : Plane) : Z := FreeBytes (pl_FreeMap p).
Definition Plane_UsedBytes (p : Plane) : Z := UsedBytes (pl_FreeMap p).

(** ** Extents: the abstract content of a free map *)

(** An extent is a start position and a length. *)
Notation extent := (Z * Z)%type (only parsing).

Definition covers (z : Z) (e : extent) : bool := (e.1 <=? z) && (z <? e.1 + e.2).

(** How many extents of the list cover position [z]. *)
Definition cover (E : list extent) (z : Z) : Z := sumZ (fun e => Z.b2z (covers z e)) E.

(** The free map is exactly the disjoint union of the extents: each extent lies
    inside the map, every used position is covered once and every free position
    not at all. *)
Record tracks (b : Bitmap) (E : list extent) : Prop := {
  tr_wf : bitmap_wf b;
  tr_bounds : Forall (fun e => 0 <= e.1 /\ 0 < e.2 /\ e.1 + e.2 <= bm_size b) E;
  tr_bits : forall z, 0 <= z < bm_size b -> cover E z = Z.b2z (bit_at b z);
}.

#[export] Instance tracks_perm b : Proper ((≡ₚ) ==> iff) (tracks b).
Proof.
  assert (forall E E', E ≡ₚ E' -> tracks b E -> tracks b E') as H.
  { intros E E' HE [Hwf Hb Hz]. constructor; [done | by rewrite <- HE |].
    intros z Hr. rewrite <- Hz by done. unfold cover. by rewrite HE. }
  intros E E' HE. split; by apply H.
Qed.

Lemma cover_nonneg E z : 0 <= cover E z.
Proof. apply sumZ_nonneg. intros e _. by destruct (covers z e). Qed.

Lemma covers_true z e : covers z e = true <-> e.1 <= z < e.1 + e.2.
Proof. unfold covers. rewrite andb_true_iff, Z.leb_le, Z.ltb_lt. done. Qed.

Lemma tracks_new size : is_u16 size -> tracks (NewBitmap size) [].
Proof.
  intros Hs. constructor; [by apply NewBitmap_wf | constructor |].
  intros z _. by rewrite NewBitmap_clear.
Qed.

Lemma tracks_alloc b E n s :
  tracks b E -> 0 < n -> fits b n s -> tracks (SetRange b s (s + n)) ((s, n) :: E).
Proof.
  intros [Hwf Hb Hz] Hn (H0 & H1 & H2).
  destruct (SetRange_spec b s (s + n) Hwf H0) as (W & S & B). constructor; [done | |].
  - rewrite S. constructor; [simpl; lia | done].
  - intros z Hr. rewrite S in Hr. rewrite B by done.
    change (cover ((s, n) :: E) z) with (Z.b2z (covers z (s, n)) + cover E z).
    unfold covers. simpl. rewrite Hz by done.
    destruct (Z.leb_spec s z), (Z.ltb_spec z (s + n)); simpl; try lia. by rewrite H2 by lia.
Qed.

Lemma tracks_free b E n s :
  tracks b ((s, n) :: E) -> tracks (ClearRange b s (s + n)) E.
Proof.
  intros [Hwf Hb Hz]. apply Forall_cons in Hb as [(H0 & Hn & H1) Hb]. simpl in *.
  destruct (ClearRange_spec b s (s + n) Hwf H0) as (W & S & B).
  constructor; [done | by rewrite S |].
  intros z Hr. rewrite S in Hr. rewrite B by done. specialize (Hz z Hr).
  change (cover ((s, n) :: E) z) with (Z.b2z (covers z (s, n)) + cover E z) in Hz.
  unfold covers in Hz. simpl in Hz. pose proof (cover_nonneg E z).
  destruct (Z.leb_spec s z), (Z.ltb_spec z (s + n)); simpl in *; destruct (bit_at b z); simpl in *; lia.
Qed.

(** Clearing a range that was just filled gives back the very same map. *)
Lemma set_clear_id b n s :
  bitmap_wf b -> fits b n s -> 0 <= n -> ClearRange (SetRange b s (s + n)) s (s + n) = b.
Proof.
  intros Hwf (H0 & H1 & H2) Hn. destruct (SetRange_spec b s (s + n) Hwf H0) as (W1 & S1 & B1).
  destruct (ClearRange_spec _ s (s + n) W1 H0) as (W2 & S2 & B2).
  apply bitmap_ext; [done | done | lia |]. intros q Hq. rewrite B2, B1 by lia.
  destruct (Z.leb_spec s q), (Z.ltb_spec q (s + n)); simpl; try done. by rewrite H2 by lia.
Qed.

Lemma tracks_used b E : tracks b E -> used b = sumZ snd E.
Proof.
  intros [Hwf Hb Hz]. pose proof (wf_size b Hwf) as Hs. unfold is_u16 in Hs. unfold used.
  rewrite (sumZ_ext _ (cover E)) by (intros z ?%elem_of_seqZ; symmetry; apply Hz; lia).
  unfold cover. rewrite sumZ_swap. apply sumZ_ext. intros e He.
  rewrite Forall_forall in Hb. specialize (Hb e He). destruct e as [s n]; simpl in *.
  unfold covers. simpl. rewrite sumZ_interval by lia. lia.
Qed.

Lemma tracks_free_bytes b E : tracks b E -> FreeBytes b = bm_size b - sumZ snd E.
Proof. intros H. rewrite FreeBytes_used by apply H. by rewrite (tracks_used b E H). Qed.

(** Different entries of the list do not overlap. *)
Lemma tracks_disjoint b E i j e1 e2 z :
  tracks b E -> i <> j -> E !! i = Some e1 -> E !! j = Some e2 ->
  covers z e1 = true -> covers z e2 = true -> False.
Proof.
  intros [Hwf Hb Hz] Hij H1 H2 C1 C2. rewrite Forall_forall in Hb.
  pose proof (Hb e1 ltac:(by eapply list_elem_of_lookup_2)) as B1.
  pose proof C1 as C1'. apply covers_true in C1'.
  specialize (Hz z ltac:(lia)). unfold cover in Hz.
  pose proof (sumZ_lookup2_le (fun e => Z.b2z (covers z e)) E i j e1 e2) as Hle.
  cbv beta in Hle. rewrite C1, C2 in Hle. simpl in Hle.
  assert (1 + 1 <= sumZ (fun e => Z.b2z (covers z e)) E).
  { apply Hle; [|done..]. intros y _. by destruct (covers z y). }
  destruct (bit_at b z); simpl in *; lia.
Qed.

(** A covered position is not free. *)
Lemma tracks_covered b E e z :
  tracks b E -> e ∈ E -> covers z e = true -> bit_at b z = true.
Proof.
  intros [Hwf Hb Hz] He C. rewrite Forall_forall in Hb. pose proof (Hb e He).
  pose proof C as C'. apply covers_true in C'. specialize (Hz z ltac:(lia)).
  apply list_elem_of_lookup in He as [i Hi].
  pose proof (sumZ_lookup_le (fun e => Z.b2z (covers z e)) E i e) as Hle. cbv beta in Hle. rewrite C in Hle.
  destruct (bit_at b z); [done|]. simpl in *. unfold cover in Hz.
  assert (1 <= sumZ (fun e => Z.b2z (covers z e)) E); [|lia].
  apply Hle; [|done]. intros y _. by destruct (covers z y).
Qed.

(** ** Plane operations against the abstract view *)

Lemma Plane_Allocate_spec p E n :
  tracks (pl_FreeMap p) E -> 0 <= n -> find_safe (pl_FreeMap p) n ->
  exists p' s ok, Plane_Allocate p n = Ret (p', s, ok) /\
    if ok : bool then
      0 < n /\ fits (pl_FreeMap p) n s /\ (forall q, q < s -> ~ fits (pl_FreeMap p) n q) /\
      p' = with_FreeMap (SetRange (pl_FreeMap p) s (s + n)) p /\
      tracks (pl_FreeMap p') ((s, n) :: E)
    else p' = p /\ s = 0 /\ (0 < n -> forall q, ~ fits (pl_FreeMap p) n q).
Proof.
  intros Ht Hn Hsafe. unfold Plane_Allocate.
  destruct (FindContiguous_spec (pl_FreeMap p) n) as (s & ok & -> & Hr); [apply Ht | done | done |].
  cbn [mbind res_bind]. destruct ok; simpl.
  - destruct Hr as (Hpos & Hf & Hl). exists (with_FreeMap (SetRange (pl_FreeMap p) s (s + n)) p), s, true.
    pose proof (wf_size _ (tr_wf _ _ Ht)) as Hsz. pose proof Hf as (? & ? & _).
    rewrite u16_small by (unfold is_u16 in *; lia). split_and!; try done. by apply tracks_alloc.
  - destruct Hr as [-> Hl]. by exists p, 0, false.
Qed.

Lemma Plane_Free_spec h p start l al E :
  pl_Allocations p !! start = Some l -> heap_get h l = Some al ->
  tracks (pl_FreeMap p) ((start, al_Size al) :: E) ->
  exists p', Plane_Free h p start = Ret (p', true) /\
    p' = with_Allocations (delete start (pl_Allocations p))
           (with_FreeMap (ClearRange (pl_FreeMap p) start (start + al_Size al)) p) /\
    tracks (pl_FreeMap p') E.
Proof.
  intros Hl Hal Ht. unfold Plane_Free. rewrite Hl, Hal. cbn [mbind res_bind deref].
  pose proof (wf_size _ (tr_wf _ _ Ht)) as Hsz.
  pose proof (tr_bounds _ _ Ht) as Hb. apply Forall_cons in Hb as [(? & ? & ?) _]. simpl in *.
  rewrite (u16_small (al_Size al)), u16_small by (unfold is_u16 in *; lia).
  eexists. split_and!; [done | done |]. by apply tracks_free.
Qed.

(** A free map is determined by its extents. *)
Lemma tracks_inj b c E : tracks b E -> tracks c E -> bm_size b = bm_size c -> b = c.
Proof.
  intros [Wb _ Hb] [Wc _ Hc] Hsz. apply bitmap_ext; [done..|]. intros q Hq.
  specialize (Hb q Hq). rewrite Hc in Hb by lia. by destruct (bit_at b q), (bit_at c q).
Qed.

(** ** Extents of an allocation *)

(** The plane IDs and extents an allocation occupies: its fragments, or the
    single range at its address. *)
Definition al_extents (al : Allocation) : list (Z * extent) :=
  match al_Fragments al with
  | [] => [(aY (al_Address al), (aZ (al_Address al), al_Size al))]
  | fs => (fun f => (fr_PlaneID f, (fr_StartZ f, fr_Size f))) <$> fs
  end.

(** The extents that lie on plane [y]. *)
Definition on_plane (y : Z) (F : list (Z * extent)) : list extent :=
  omap (fun ye => if ye.1 =? y then Some ye.2 else None) F.

Definition plane_allocs (h : Heap) (p : Plane) : list Allocation :=
  omap (heap_get h) ((map_to_list (pl_Allocations p)).*2).

(** An allocation without multi-plane fragments has one extent. *)
Lemma al_extents_single al :
  al_Fragments al = [] ->
  al_extents al = [(aY (al_Address al), (aZ (al_Address al), al_Size al))].
Proof. unfold al_extents. by intros ->. Qed.

Lemma on_plane_cons_eq y e F : on_plane y ((y, e) :: F) = e :: on_plane y F.
Proof. unfold on_plane. simpl. by rewrite Z.eqb_refl. Qed.

Lemma on_plane_cons_ne y y' e F : y' <> y -> on_plane y ((y', e) :: F) = on_plane y F.
Proof. intros. unfold on_plane. simpl. by solve_bool. Qed.

#[export] Instance on_plane_perm y : Proper ((≡ₚ) ==> (≡ₚ)) (on_plane y).
Proof.
  unfold on_plane. intros F F' HF. induction HF; simpl; [done | | | by etrans]; repeat case_match;
    try done; try (by constructor); by rewrite IHHF.
Qed.

Lemma elem_of_on_plane y e F : e ∈ on_plane y F <-> (y, e) ∈ F.
Proof.
  unfold on_plane. rewrite list_elem_of_omap. split.
  - intros ([y' e'] & Hin & Heq). simpl in Heq. case_bool; by simplify_eq.
  - intros Hin. exists (y, e). split; [done|]. simpl. by rewrite Z.eqb_refl.
Qed.

(** ** Full-size planes *)


