(* ===== verification/Region.v ===== *)
(** * Regions and permissions (internal/types/region.go, permissions.go)

    A region owns a list of planes and keeps running totals of its bytes.  The
    planes of a region are found by scanning for their ID. *)
From S2P Require Import Prelude Words Float64 Address Bitmap Plane.

(** ** Region types and permissions *)

Definition RegionTypeInvalid : Z := 0.
Definition RegionTypeVMControl : Z := 1.
Definition RegionTypeCode : Z := 2.
Definition RegionTypeState : Z := 3.
Definition RegionTypeHeap : Z := 4.
Definition RegionTypeStack : Z := 5.
Definition RegionTypeShared : Z := 6.
Definition RegionTypeTransient : Z := 7.

Record Permissions := mkPermissions {
  Readable : bool; Writable : bool; Executable : bool; Shared : bool; Atomic : bool }.

Definition GetDefaultPermissions (regionType : Z) : Permissions :=
  if regionType =? RegionTypeVMControl then mkPermissions true true false false false
  else if regionType =? RegionTypeCode then mkPermissions true false true false false
  else if regionType =? RegionTypeState then mkPermissions true true false false false
  else if regionType =? RegionTypeHeap then mkPermissions true true false false false
  else if regionType =? RegionTypeStack then mkPermissions true true false false false
  else if regionType =? RegionTypeShared then mkPermissions true true false true false
  else if regionType =? RegionTypeTransient then mkPermissions true true false false false
  else mkPermissions false false false false false.

Definition PermissionRead : Z := 1.
Definition PermissionWrite : Z := 2.
Definition PermissionExecute : Z := 4.
Definition PermissionFree : Z := 8.
Definition PermissionShare : Z := 16.

Definition CheckPermission (p : Permissions) (perm : Z) : bool :=
  if perm =? PermissionRead then Readable p
  else if perm =? PermissionWrite then Writable p
  else if perm =? PermissionExecute then Executable p
  else if perm =? PermissionFree then true
  else if perm =? PermissionShare then Shared p
  else false.

(** ** The region record *)

Record Region := mkRegion {
  rg_ID : Z;
  rg_Type : Z;
  rg_Permissions : Permissions;
  rg_Planes : list Plane;
  rg_MerkleRoot : list Z;
  rg_AllocCount : Z;
  rg_FreeBytes : Z;
  rg_TotalBytes : Z;
  rg_AccessCount : Z;
  rg_LastAccess : Z;
  rg_HotnessScore : float64;
}.

Definition with_Planes (ps : list Plane) (r : Region) : Region := {|
  rg_ID := rg_ID r; rg_Type := rg_Type r; rg_Permissions := rg_Permissions r; rg_Planes := ps;
  rg_MerkleRoot := rg_MerkleRoot r; rg_AllocCount := rg_AllocCount r;
  rg_FreeBytes := rg_FreeBytes r; rg_TotalBytes := rg_TotalBytes r;
  rg_AccessCount := rg_AccessCount r; rg_LastAccess := rg_LastAccess r;
  rg_HotnessScore := rg_HotnessScore r |}.

(** The four atomic statistics at once. *)
Definition with_stats (allocCount freeBytes totalBytes : Z) (r : Region) : Region := {|
  rg_ID := rg_ID r; rg_Type := rg_Type r; rg_Permissions := rg_Permissions r;
  rg_Planes := rg_Planes r; rg_MerkleRoot := rg_MerkleRoot r; rg_AllocCount := allocCount;
  rg_FreeBytes := freeBytes; rg_TotalBytes := totalBytes;
  rg_AccessCount := rg_AccessCount r; rg_LastAccess := rg_LastAccess r;
  rg_HotnessScore := rg_HotnessScore r |}.

Definition NewRegion (now id regionType : Z) : Region := {|
  rg_ID := id; rg_Type := regionType; rg_Permissions := GetDefaultPermissions regionType;
  rg_Planes := []; rg_MerkleRoot := replicate 32 0; rg_AllocCount := 0; rg_FreeBytes := 0;
  rg_TotalBytes := 0; rg_AccessCount := 0; rg_LastAccess := now; rg_HotnessScore := f64_zero |}.

(** ** Planes of a region *)

Definition AddPlane (r : Region) (plane : Plane) : Region :=
  with_stats (rg_AllocCount r) (u64 (rg_FreeBytes r + Plane_FreeBytes plane))
    (u64 (rg_TotalBytes r + pl_Size plane))
    (with_Planes (rg_Planes r ++ [plane]) r).

(** Index of the first plane with the given ID. *)
Fixpoint plane_index (planeID : Z) (ps : list Plane) : option nat :=
  match ps with
  | [] => None
  | p :: ps => if pl_ID p =? planeID then Some O else S <$> plane_index planeID ps
  end.

Definition RemovePlane (r : Region) (planeID : Z) : Region * bool :=
  match plane_index planeID (rg_Planes r) with
  | None => (r, false)
  | Some i =>
      match rg_Planes r !! i with
      | None => (r, false)
      | Some plane =>
          (with_stats (rg_AllocCount r) (sub_idiom16 (rg_FreeBytes r) (Plane_FreeBytes plane))
             (sub_idiom16 (rg_TotalBytes r) (pl_Size plane))
             (with_Planes (delete i (rg_Planes r)) r), true)
      end
  end.

Definition GetPlane (r : Region) (planeID : Z) : option Plane :=
  i ← plane_index planeID (rg_Planes r); rg_Planes r !! i.

Definition Region_UpdateAccess (now : Z) (r : Region) : Region := {|
  rg_ID := rg_ID r; rg_Type := rg_Type r; rg_Permissions := rg_Permissions r;
  rg_Planes := rg_Planes r; rg_MerkleRoot := rg_MerkleRoot r; rg_AllocCount := rg_AllocCount r;
  rg_FreeBytes := rg_FreeBytes r; rg_TotalBytes := rg_TotalBytes r;
  rg_AccessCount := u64 (rg_AccessCount r + 1); rg_LastAccess := now;
  rg_HotnessScore := rg_HotnessScore r |}.

Definition Region_Fragmentation (r : Region) : float64 :=
  match rg_Planes r with
  | [] => f64_zero
  | ps => f64_div (foldl (fun t p => f64_add t (Plane_Fragmentation p)) f64_zero ps)
            (f64_of_Z (Z.of_nat (length ps)))
  end.

Definition UpdateMerkleRoot (r : Region) (root : list Z) : Region := {|
  rg_ID := rg_ID r; rg_Type := rg_Type r; rg_Permissions := rg_Permissions r;
  rg_Planes := rg_Planes r; rg_MerkleRoot := root; rg_AllocCount := rg_AllocCount r;
  rg_FreeBytes := rg_FreeBytes r; rg_TotalBytes := rg_TotalBytes r;
  rg_AccessCount := rg_AccessCount r; rg_LastAccess := rg_LastAccess r;
  rg_HotnessScore := rg_HotnessScore r |}.

Definition Region_GetMerkleRoot (r : Region) : list Z := rg_MerkleRoot r.

(** ** Compaction report *)

Record CompactionReport := mkReport {
  cr_RegionID : Z; cr_TotalBytes : Z; cr_UsedBytes : Z; cr_FreeBytes : Z;
  cr_Fragmentation : float64; cr_AllocationCount : Z; cr_RecommendCompact : bool;
  cr_EstimatedGasSavings : Z }.

Definition GetCompactionReport (r : Region) : CompactionReport :=
  let total := rg_TotalBytes r in
  let used := u64 (rg_TotalBytes r - rg_FreeBytes r) in
  let free := rg_FreeBytes r in
  let frag := Region_Fragmentation r in
  let recommendCompact := f64_ltb (f64_ratio 3 10) frag && (0 <? free) in
  let estimatedSavings :=
    if recommendCompact && (1024 <? free) then u64 (free / 1024 * 50) else 0 in
  {| cr_RegionID := rg_ID r; cr_TotalBytes := total; cr_UsedBytes := used; cr_FreeBytes := free;
     cr_Fragmentation := frag; cr_AllocationCount := u32 (rg_AllocCount r);
     cr_RecommendCompact := recommendCompact; cr_EstimatedGasSavings := estimatedSavings |}.

(** ** Access control *)

Definition CanAccess `{GoRuntime} (h : Heap) (addr : Address3D) (perm : Z) (region : option Region)
    : res bool :=
  match region with
  | None => Ret false
  | Some region =>
      if negb (CheckPermission (rg_Permissions region) perm) then Ret false
      else match GetPlane region (aY addr) with
      | None => Ret false
      | Some plane =>
          if pl_Size plane <=? aZ addr then Ret false
          else if perm =? PermissionWrite then IsAllocated h plane (aZ addr)
          else Ret true
      end
  end.

(** ** The region invariant *)

Definition region_allocs (h : Heap) (ps : list Plane) : list Allocation :=
  ps ≫= plane_allocs h.

Definition extents_on (y : Z) (als : list Allocation) : list extent :=
  als ≫= (fun al => on_plane y (al_extents al)).

(** A plane's sizes agree with each other. *)
Definition plane_shape (p : Plane) : Prop :=
  pl_Size p = bm_size (pl_FreeMap p) /\ 0 < pl_Size p /\
  length (pl_Data p) = Z.to_nat (pl_Size p).

(** What the map entry [z ↦ l] of plane [p] of region [id] must be. *)
Definition entry_ok (h : Heap) (id : Z) (ids : list Z) (p : Plane) (z : Z) (l : loc) : Prop :=
  exists al, heap_get h l = Some al /\
    al_Address al = NewAddress id (pl_ID p) z /\
    (exists n rest, al_extents al = (pl_ID p, (z, n)) :: rest) /\
    sumZ (fun ye => ye.2.2) (al_extents al) = al_Size al /\
    Forall (fun ye => ye.1 ∈ ids) (al_extents al).

Record region_inv (h : Heap) (r : Region) : Prop := {
  ri_nodup : NoDup (pl_ID <$> rg_Planes r);
  ri_shape : Forall plane_shape (rg_Planes r);
  ri_tracks : Forall (fun p => tracks (pl_FreeMap p)
    (extents_on (pl_ID p) (region_allocs h (rg_Planes r)))) (rg_Planes r);
  ri_entries : forall p z l, p ∈ rg_Planes r -> pl_Allocations p !! z = Some l ->
    entry_ok h (rg_ID r) (pl_ID <$> rg_Planes r) p z l;
  ri_free : rg_FreeBytes r = sumZ Plane_FreeBytes (rg_Planes r);
  ri_total : rg_TotalBytes r = sumZ pl_Size (rg_Planes r);
  ri_bound : sumZ pl_Size (rg_Planes r) < 18446744073709551616;
  ri_count : rg_AllocCount r = u64 (Z.of_nat (length (region_allocs h (rg_Planes r))));
}.

(** ** Planes with pending extents *)

Section Pending.
Context (E : Z -> list extent) (ps0 : list Plane).

(** The planes [ps] are [ps0] with the extents [F] marked used on top of the
    extents [E y] of each plane [y], and nothing else changed. *)
Definition pending_planes (F : list (Z * extent)) (ps : list Plane) : Prop :=
  Forall2 (fun p p' =>
    p' = with_FreeMap (pl_FreeMap p') p /\ bm_size (pl_FreeMap p') = bm_size (pl_FreeMap p) /\
    tracks (pl_FreeMap p') (on_plane (pl_ID p) F ++ E (pl_ID p))) ps0 ps.

Record pending (F : list (Z * extent)) (ps : list Plane) : Prop := {
  pd_planes : pending_planes F ps;
  pd_ids : Forall (fun ye => ye.1 ∈ pl_ID <$> ps0) F;
  pd_free : sumZ Plane_FreeBytes ps =
    sumZ Plane_FreeBytes ps0 - sumZ (fun ye => ye.2.2) F;
}.

Lemma with_FreeMap_id p : with_FreeMap (pl_FreeMap p) p = p.
Proof. by destruct p. Qed.

Lemma pending_nil :
  Forall (fun p => tracks (pl_FreeMap p) (E (pl_ID p))) ps0 -> pending [] ps0.
Proof.
  intros Ht. constructor; [| constructor | simpl; lia]. unfold pending_planes.
  induction Ht; constructor; [|done]. by rewrite with_FreeMap_id.
Qed.

Lemma pending_nil_inv ps :
  Forall (fun p => tracks (pl_FreeMap p) (E (pl_ID p))) ps0 -> pending [] ps -> ps = ps0.
Proof.
  intros Ht [Hp _ _]. unfold pending_planes in Hp. revert Ht.
  induction Hp as [|p p' ps1 ps' (Hw & Hsz & Htr) Hp IH]; intros Ht; [done|].
  apply Forall_cons in Ht as [Ht1 Ht]. rewrite IH by done. f_equal.
  rewrite Hw, (tracks_inj _ _ _ Htr Ht1 Hsz). apply with_FreeMap_id.
Qed.

Lemma pending_perm F F' ps : F ≡ₚ F' -> pending F ps -> pending F' ps.
Proof.
  intros HF [Hp Hi Hf]. constructor; [| by rewrite <- HF | by rewrite <- HF].
  eapply Forall2_impl; [exact Hp|]. simpl. intros p p' (? & ? & ?). by rewrite <- HF.
Qed.

Lemma pending_ids F ps : pending F ps -> pl_ID <$> ps = pl_ID <$> ps0.
Proof.
  intros [Hp _ _]. unfold pending_planes in Hp. induction Hp as [|p p' ps1 ps' (Hw & _) Hp IH]; [done|].
  rewrite !fmap_cons, IH, Hw. done.
Qed.

Lemma pending_lookup F ps i p' :
  pending F ps -> ps !! i = Some p' ->
  exists p, ps0 !! i = Some p /\ p' = with_FreeMap (pl_FreeMap p') p /\
    bm_size (pl_FreeMap p') = bm_size (pl_FreeMap p) /\
    tracks (pl_FreeMap p') (on_plane (pl_ID p') F ++ E (pl_ID p')).
Proof.
  intros [Hp _ _] Hi. eapply Forall2_lookup_r in Hp as (p & ? & Hw & ? & ?); [|done].
  exists p. split_and!; [done..|]. by rewrite Hw.
Qed.

(** Replacing the free map of plane [i] only touches the extents of its ID. *)
Lemma pending_planes_update F F' ps i p' b :
  NoDup (pl_ID <$> ps0) -> pending F ps -> ps !! i = Some p' ->
  bm_size b = bm_size (pl_FreeMap p') ->
  tracks b (on_plane (pl_ID p') F' ++ E (pl_ID p')) ->
  (forall y, y <> pl_ID p' -> on_plane y F' = on_plane y F) ->
  pending_planes F' (<[i := with_FreeMap b p']> ps).
Proof.
  intros Hnd Hpd Hi Hsz Ht Hoth.
  destruct (pending_lookup _ _ _ _ Hpd Hi) as (p & Hp0 & Hw & Hsz' & _).
  destruct Hpd as [Hp _ _]. apply Forall2_same_length_lookup.
  apply Forall2_same_length_lookup in Hp as [Hlen Hp].
  split; [by rewrite length_insert|]. intros j q q' Hj Hj'. destruct (decide (i = j)) as [<-|Hne].
  - rewrite list_lookup_insert_eq in Hj' by (by eapply lookup_lt_Some).
    injection Hj' as <-. assert (q = p) as -> by congruence.
    assert (pl_ID p' = pl_ID p) as Hid by (by rewrite Hw). rewrite <- Hid.
    split_and!; [by rewrite Hw | simpl; lia | done].
  - rewrite list_lookup_insert_ne in Hj' by done. destruct (Hp j q q' Hj Hj') as (? & ? & ?).
    split_and!; [done..|]. rewrite Hoth; [done|]. intros Hid. apply Hne.
    eapply (NoDup_lookup (pl_ID <$> ps0)); [done | |].
    + rewrite list_lookup_fmap, Hp0. done.
    + rewrite list_lookup_fmap, Hj. simpl. rewrite Hid, Hw. done.
Qed.

(** Marking one more extent. *)
Lemma pending_alloc F ps i p' n s :
  NoDup (pl_ID <$> ps0) -> pending F ps -> ps !! i = Some p' -> 0 < n -> fits (pl_FreeMap p') n s ->
  pending ((pl_ID p', (s, n)) :: F)
    (<[i := with_FreeMap (SetRange (pl_FreeMap p') s (s + n)) p']> ps).
Proof.
  intros Hnd Hpd Hi Hn Hf. destruct (pending_lookup _ _ _ _ Hpd Hi) as (p & Hp0 & Hw & Hsz & Ht).
  pose proof (tracks_alloc _ _ _ _ Ht Hn Hf) as Ht'.
  destruct (SetRange_spec (pl_FreeMap p') s (s + n)) as (_ & Hsz' & _); [apply Ht | apply Hf |].
  constructor.
  - eapply pending_planes_update; [done..| | ].
    + by rewrite on_plane_cons_eq.
    + intros y Hy. by apply on_plane_cons_ne.
  - constructor; [|apply Hpd]. simpl. rewrite <- (pending_ids F ps Hpd). apply list_elem_of_fmap.
    exists p'. split; [done|]. by eapply list_elem_of_lookup_2.
  - rewrite (sumZ_insert _ _ _ p') by done. rewrite (pd_free _ _ Hpd).
    unfold Plane_FreeBytes. simpl. rewrite (tracks_free_bytes _ _ Ht'), (tracks_free_bytes _ _ Ht).
    rewrite Hsz'. simpl. lia.
Qed.

(** Clearing the last extent marked. *)
Lemma pending_clear F ps i p' n s :
  NoDup (pl_ID <$> ps0) -> pending ((pl_ID p', (s, n)) :: F) ps -> ps !! i = Some p' ->
  pending F (<[i := with_FreeMap (ClearRange (pl_FreeMap p') s (s + n)) p']> ps).
Proof.
  intros Hnd Hpd Hi. destruct (pending_lookup _ _ _ _ Hpd Hi) as (p & Hp0 & Hw & Hsz & Ht).
  rewrite on_plane_cons_eq in Ht. simpl in Ht. pose proof (tracks_free _ _ _ _ Ht) as Ht'.
  pose proof (tr_bounds _ _ Ht) as Hb. apply Forall_cons in Hb as [(? & ? & ?) _]. simpl in *.
  destruct (ClearRange_spec (pl_FreeMap p') s (s + n)) as (_ & Hsz' & _); [apply Ht | done |].
  constructor.
  - eapply pending_planes_update; [done..|]. intros y Hy. by rewrite on_plane_cons_ne.
  - pose proof (pd_ids _ _ Hpd) as Hids. by apply Forall_cons in Hids as [_ ?].
  - rewrite (sumZ_insert _ _ _ p') by done. rewrite (pd_free _ _ Hpd).
    unfold Plane_FreeBytes. simpl. rewrite (tracks_free_bytes _ _ Ht'), (tracks_free_bytes _ _ Ht).
    rewrite Hsz'. simpl. lia.
Qed.
End Pending.

(** ** Allocation lists under heap and map updates *)

Lemma bind_insert_cons {A B} (f : A -> list B) (l : list A) i x y b :
  l !! i = Some x -> f y ≡ₚ b :: f x -> (<[i := y]> l) ≫= f ≡ₚ b :: (l ≫= f).
Proof.
  revert i. induction l as [|a l IH]; intros [|i] Hi Hf; simplify_eq/=.
  - by rewrite Hf.
  - rewrite (IH i) by done. by rewrite Permutation_middle.
Qed.

Lemma plane_allocs_heap h h' p :
  (forall z l, pl_Allocations p !! z = Some l -> heap_get h' l = heap_get h l) ->
  plane_allocs h' p = plane_allocs h p.
Proof.
  intros Hext. unfold plane_allocs.
  assert (forall l, l ∈ (map_to_list (pl_Allocations p)).*2 -> heap_get h' l = heap_get h l) as H.
  { intros l ([z l'] & -> & Hin)%list_elem_of_fmap. apply elem_of_map_to_list in Hin. by eapply Hext. }
  apply list_omap_ext, Forall_Forall2_diag, Forall_forall. exact H.
Qed.

Lemma region_allocs_cons h p ps : region_allocs h (p :: ps) = plane_allocs h p ++ region_allocs h ps.
Proof. done. Qed.

Lemma region_allocs_heap h h' ps :
  (forall p z l, p ∈ ps -> pl_Allocations p !! z = Some l -> heap_get h' l = heap_get h l) ->
  region_allocs h' ps = region_allocs h ps.
Proof.
  intros Hext. induction ps as [|p ps IH]; [done|]. rewrite !region_allocs_cons.
  rewrite (plane_allocs_heap h h' p) by (intros; eapply Hext; [by left | done]).
  rewrite IH by (intros; eapply Hext; [by right | done]). done.
Qed.

Lemma plane_allocs_insert h p z l al :
  pl_Allocations p !! z = None -> heap_get h l = Some al ->
  plane_allocs h (with_Allocations (<[z := l]> (pl_Allocations p)) p) ≡ₚ al :: plane_allocs h p.
Proof.
  intros Hz Hl. unfold plane_allocs. simpl. rewrite map_to_list_insert by done. simpl. by rewrite Hl.
Qed.

Lemma plane_allocs_delete h p z l al :
  pl_Allocations p !! z = Some l -> heap_get h l = Some al ->
  plane_allocs h p ≡ₚ al :: plane_allocs h (with_Allocations (delete z (pl_Allocations p)) p).
Proof.
  intros Hz Hl. unfold plane_allocs. simpl.
  rewrite <- (map_to_list_delete (pl_Allocations p) z l Hz). simpl. by rewrite Hl.
Qed.

(** The locations recorded in a region. *)
Definition plane_locs (p : Plane) : list loc := (map_to_list (pl_Allocations p)).*2.
Definition region_locs (ps : list Plane) : list loc := ps ≫= plane_locs.

Lemma elem_of_region_locs ps l :
  l ∈ region_locs ps <-> exists p z, p ∈ ps /\ pl_Allocations p !! z = Some l.
Proof.
  unfold region_locs, plane_locs. rewrite list_elem_of_bind. split.
  - intros (p & Hl & Hp). apply list_elem_of_fmap in Hl as ([z l'] & -> & Hz).
    apply elem_of_map_to_list in Hz. eauto.
  - intros (p & z & Hp & Hz). exists p. split; [|done]. apply list_elem_of_fmap. exists (z, l).
    split; [done|]. by apply elem_of_map_to_list.
Qed.

Lemma plane_locs_insert p z l :
  pl_Allocations p !! z = None ->
  plane_locs (with_Allocations (<[z := l]> (pl_Allocations p)) p) ≡ₚ l :: plane_locs p.
Proof. intros Hz. unfold plane_locs. simpl. by rewrite map_to_list_insert. Qed.

Lemma plane_locs_delete p z l :
  pl_Allocations p !! z = Some l ->
  plane_locs p ≡ₚ l :: plane_locs (with_Allocations (delete z (pl_Allocations p)) p).
Proof.
  intros Hz. unfold plane_locs. simpl. by rewrite <- (map_to_list_delete (pl_Allocations p) z l Hz).
Qed.

Lemma region_locs_cons p ps : region_locs (p :: ps) = plane_locs p ++ region_locs ps.
Proof. done. Qed.

Lemma plane_allocs_FreeMap h b p : plane_allocs h (with_FreeMap b p) = plane_allocs h p.
Proof. done. Qed.

#[export] Instance extents_on_perm y : Proper ((≡ₚ) ==> (≡ₚ)) (extents_on y).
Proof. intros l l' Hl. unfold extents_on. by rewrite Hl. Qed.

Lemma extents_on_cons y al als : extents_on y (al :: als) = on_plane y (al_extents al) ++ extents_on y als.
Proof. done. Qed.

Lemma pending_allocs E ps0 F ps h : pending E ps0 F ps -> region_allocs h ps = region_allocs h ps0.
Proof.
  intros [Hp _ _]. unfold pending_planes in Hp.
  induction Hp as [|p p' ps1 ps' (Hw & _) Hp IH]; [done|].
  rewrite !region_allocs_cons, IH, Hw. done.
Qed.

Lemma pending_locs E ps0 F ps : pending E ps0 F ps -> region_locs ps = region_locs ps0.
Proof.
  intros [Hp _ _]. unfold pending_planes in Hp.
  induction Hp as [|p p' ps1 ps' (Hw & _) Hp IH]; [done|].
  rewrite !region_locs_cons, IH, Hw. done.
Qed.

Lemma pending_sizes E ps0 F ps : pending E ps0 F ps -> pl_Size <$> ps = pl_Size <$> ps0.
Proof.
  intros [Hp _ _]. unfold pending_planes in Hp.
  induction Hp as [|p p' ps1 ps' (Hw & _) Hp IH]; [done|]. rewrite !fmap_cons, IH, Hw. done.
Qed.

Lemma sumZ_fmap {A} (f : A -> Z) (l : list A) : sumZ f l = sumZ (fun x => x) (f <$> l).
Proof. induction l as [|x l IH]; [done|]. rewrite fmap_cons. simpl. by rewrite IH. Qed.

Lemma heap_new_get h al l : heap_ok h -> is_Some (heap_get h l) ->
  heap_get (heap_new h al).1 l = heap_get h l.
Proof.
  intros Hok [a Ha]. pose proof (Hok l a Ha). unfold heap_get, heap_new in *. simpl.
  by rewrite lookup_insert_ne by lia.
Qed.

Lemma heap_new_self h al : heap_get (heap_new h al).1 (heap_new h al).2 = Some al.
Proof. unfold heap_get, heap_new. simpl. apply lookup_insert_eq. Qed.

Lemma heap_new_ok h al : heap_ok h -> heap_ok (heap_new h al).1.
Proof.
  intros Hok l a. unfold heap_get, heap_new. simpl. intros Hl.
  destruct (decide (l = h_next h)) as [->|Hne]; [lia|].
  rewrite lookup_insert_ne in Hl by done. apply Hok in Hl. lia.
Qed.

(** ** Facts from the invariant *)

(** The extents of the region's allocations on plane [y]. *)
Definition base (h : Heap) (r : Region) (y : Z) : list extent :=
  extents_on y (region_allocs h (rg_Planes r)).

Lemma region_heap_get h r p z l :
  region_inv h r -> p ∈ rg_Planes r -> pl_Allocations p !! z = Some l -> is_Some (heap_get h l).
Proof. intros Hr Hp Hl. destruct (ri_entries h r Hr p z l Hp Hl) as (al & ? & _). eauto. Qed.

Lemma elem_of_plane_allocs h p z l al :
  pl_Allocations p !! z = Some l -> heap_get h l = Some al -> al ∈ plane_allocs h p.
Proof.
  intros Hz Hl. unfold plane_allocs. apply list_elem_of_omap. exists l. split; [|done].
  apply list_elem_of_fmap. exists (z, l). split; [done|]. by apply elem_of_map_to_list.
Qed.

Lemma elem_of_base h r p z l al y e :
  p ∈ rg_Planes r -> pl_Allocations p !! z = Some l -> heap_get h l = Some al ->
  (y, e) ∈ al_extents al -> e ∈ base h r y.
Proof.
  intros Hp Hz Hl He. unfold base, extents_on. apply list_elem_of_bind. exists al. split.
  - by apply elem_of_on_plane.
  - unfold region_allocs. apply list_elem_of_bind. exists p. split; [|done].
    by eapply elem_of_plane_allocs.
Qed.

(** Every object is recorded once: its address determines the entry. *)
Lemma region_locs_nodup h r : region_inv h r -> NoDup (region_locs (rg_Planes r)).
Proof.
  intros Hr. pose proof (ri_nodup h r Hr) as Hnd. pose proof (ri_entries h r Hr) as He.
  assert (forall p z l, p ∈ rg_Planes r -> pl_Allocations p !! z = Some l ->
    exists al, heap_get h l = Some al /\ al_Address al = NewAddress (rg_ID r) (pl_ID p) z) as Hent.
  { intros p z l Hp Hz. destruct (He p z l Hp Hz) as (al & ? & ? & _). eauto. }
  clear He. induction (rg_Planes r) as [|p ps IH]; [constructor|].
  rewrite fmap_cons in Hnd. apply NoDup_cons in Hnd as [Hp Hnd]. rewrite region_locs_cons.
  apply NoDup_app. split_and!.
  - apply NoDup_fmap_2_strong; [|apply NoDup_map_to_list].
    intros [z1 l1] [z2 l2] H1 H2 Heq. apply elem_of_map_to_list in H1, H2. simpl in *. subst l2.
    destruct (Hent p z1 l1 ltac:(by left) H1) as (al1 & Hl1 & Ha1).
    destruct (Hent p z2 l1 ltac:(by left) H2) as (al2 & Hl2 & Ha2). congruence.
  - intros l Hl1 (q & z & Hq & Hz)%elem_of_region_locs. apply Hp.
    apply list_elem_of_fmap in Hl1 as ([z1 l1] & Heq & H1). simpl in Heq. subst l1.
    apply elem_of_map_to_list in H1.
    destruct (Hent p z1 l ltac:(by left) H1) as (al1 & Hl1 & Ha1).
    destruct (Hent q z l ltac:(by right) Hz) as (al2 & Hl2 & Ha2).
    apply list_elem_of_fmap. exists q. split; [congruence | done].
  - apply IH; [done|]. intros q z l Hq. apply Hent. by right.
Qed.

Lemma region_pending_nil h r : region_inv h r -> pending (base h r) (rg_Planes r) [] (rg_Planes r).
Proof. intros Hr. apply pending_nil. apply Hr. Qed.

Lemma region_free_range h r : region_inv h r -> 0 <= rg_FreeBytes r <= rg_TotalBytes r /\ is_u64 (rg_FreeBytes r).
Proof.
  intros Hr. rewrite (ri_free h r Hr), (ri_total h r Hr). pose proof (ri_bound h r Hr).
  assert (forall p, p ∈ rg_Planes r -> 0 <= Plane_FreeBytes p <= pl_Size p) as Hle.
  { intros p Hp. pose proof (ri_tracks h r Hr) as Ht. rewrite Forall_forall in Ht.
    specialize (Ht p Hp). pose proof (ri_shape h r Hr) as Hs. rewrite Forall_forall in Hs.
    destruct (Hs p Hp) as (-> & _ & _). unfold Plane_FreeBytes.
    rewrite FreeBytes_used by apply Ht. pose proof (used_range _ (tr_wf _ _ Ht)). lia. }
  assert (0 <= sumZ Plane_FreeBytes (rg_Planes r)) by (apply sumZ_nonneg; intros; by apply Hle).
  assert (sumZ Plane_FreeBytes (rg_Planes r) <= sumZ pl_Size (rg_Planes r))
    by (apply sumZ_le; intros; by apply Hle).
  unfold is_u64. lia.
Qed.

(** A pending extent starts at a key its plane has no entry for: the entry would
    be an allocation that overlaps it. *)
Lemma pending_key_fresh h r F ps i p z n :
  region_inv h r -> pending (base h r) (rg_Planes r) F ps -> ps !! i = Some p ->
  (pl_ID p, (z, n)) ∈ F -> pl_Allocations p !! z = None.
Proof.
  intros Hr Hpd Hi HF. destruct (pl_Allocations p !! z) as [l0|] eqn:E; [exfalso|done].
  destruct (pending_lookup _ _ _ _ _ _ Hpd Hi) as (p0 & Hp0 & Hw & _ & Ht).
  assert (pl_Allocations p = pl_Allocations p0) as Hall by (by rewrite Hw).
  assert (pl_ID p = pl_ID p0) as Hid by (by rewrite Hw). rewrite Hall in E.
  assert (p0 ∈ rg_Planes r) as Hin by (by eapply list_elem_of_lookup_2).
  destruct (ri_entries h r Hr p0 z l0 Hin E) as (al0 & Hl0 & _ & (n0 & rest0 & He0) & _).
  assert ((z, n0) ∈ base h r (pl_ID p)) as H2.
  { rewrite Hid. eapply elem_of_base; [done..|]. rewrite He0. by left. }
  apply elem_of_on_plane in HF. pose proof (tr_bounds _ _ Ht) as Hb. rewrite Forall_forall in Hb.
  pose proof (Hb (z, n) ltac:(apply elem_of_app; by left)) as B1.
  pose proof (Hb (z, n0) ltac:(apply elem_of_app; by right)) as B2.
  apply list_elem_of_lookup in HF as [i1 H1]. apply list_elem_of_lookup in H2 as [i2 H2].
  eapply (tracks_disjoint _ _ i1 (length (on_plane (pl_ID p) F) + i2) (z, n) (z, n0) z Ht).
  - apply lookup_lt_Some in H1. lia.
  - by apply lookup_app_l_Some.
  - rewrite lookup_app_r by lia. replace (_ + i2 - _)%nat with i2 by lia. done.
  - apply covers_true. simpl in *. lia.
  - apply covers_true. simpl in *. lia.
Qed.

(** Everything of a plane but the contents of its free map and its entries. *)
Definition plane_frame (p : Plane) : Plane :=
  with_Allocations ∅ (with_FreeMap {| bm_bits := []; bm_size := bm_size (pl_FreeMap p) |} p).

(** [r'] is [r] up to what allocation and release change. *)
Definition region_frame (r r' : Region) : Prop :=
  rg_ID r' = rg_ID r /\ rg_Type r' = rg_Type r /\ rg_Permissions r' = rg_Permissions r /\
  plane_frame <$> rg_Planes r' = plane_frame <$> rg_Planes r.

Lemma pending_frame E ps0 F ps : pending E ps0 F ps -> plane_frame <$> ps = plane_frame <$> ps0.
Proof.
  intros [Hp _ _]. unfold pending_planes in Hp.
  induction Hp as [|p p' ps1 ps' (Hw & Hsz & _) Hp IH]; [done|]. rewrite !fmap_cons, IH. f_equal.
  rewrite Hw. unfold plane_frame. simpl. by rewrite Hsz.
Qed.

Lemma plane_frame_insert (ps : list Plane) i p p' :
  ps !! i = Some p -> plane_frame p' = plane_frame p ->
  plane_frame <$> (<[i := p']> ps) = plane_frame <$> ps.
Proof. intros Hi Hf. rewrite list_fmap_insert, Hf. apply list_insert_id. by rewrite list_lookup_fmap, Hi. Qed.

Lemma plane_frame_eq p p' :
  plane_frame p' = plane_frame p -> pl_FreeMap p' = pl_FreeMap p ->
  pl_Allocations p' = pl_Allocations p -> p' = p.
Proof. destruct p, p'. unfold plane_frame, with_Allocations, with_FreeMap. simpl. congruence. Qed.

Lemma plane_frame_ids p p' : plane_frame p' = plane_frame p ->
  pl_ID p' = pl_ID p /\ pl_Size p' = pl_Size p /\ pl_Data p' = pl_Data p /\
  bm_size (pl_FreeMap p') = bm_size (pl_FreeMap p).
Proof. destruct p, p'. unfold plane_frame, with_Allocations, with_FreeMap. simpl. intros [=]. by subst. Qed.

(** The entries of a region determine its planes: two valid states of a region
    with the same frame and the same recorded objects are the same. *)
Section Determined.
Context (h : Heap) (r r' : Region).
Hypothesis Hr : region_inv h r.
Hypothesis Hr' : region_inv h r'.
Hypothesis Hf : region_frame r r'.
Hypothesis Hl : forall l, l ∈ region_locs (rg_Planes r') <-> l ∈ region_locs (rg_Planes r).

Lemma determined_entry (r1 r2 : Region) i p q z l :
  region_inv h r1 -> region_inv h r2 -> rg_ID r1 = rg_ID r2 ->
  (forall l, l ∈ region_locs (rg_Planes r1) -> l ∈ region_locs (rg_Planes r2)) ->
  rg_Planes r1 !! i = Some p -> rg_Planes r2 !! i = Some q -> pl_ID p = pl_ID q ->
  pl_Allocations p !! z = Some l -> pl_Allocations q !! z = Some l.
Proof.
  intros H1 H2 Hid Hsub Hp Hq Hpq Hz.
  assert (l ∈ region_locs (rg_Planes r2)) as Hin.
  { apply Hsub, elem_of_region_locs. exists p, z. split; [by eapply list_elem_of_lookup_2 | done]. }
  apply elem_of_region_locs in Hin as (q' & z' & Hq' & Hz').
  destruct (ri_entries h r1 H1 p z l) as (al & Hal & Ha & _); [by eapply list_elem_of_lookup_2 | done |].
  destruct (ri_entries h r2 H2 q' z' l Hq' Hz') as (al' & Hal' & Ha' & _).
  assert (al' = al) as -> by congruence. rewrite Ha in Ha'. injection Ha' as _ Hy ->.
  apply list_elem_of_lookup in Hq' as [j Hj]. assert (j = i) as ->; [|congruence].
  apply (NoDup_lookup (pl_ID <$> rg_Planes r2) j i (pl_ID q)); [apply H2 | |].
  - rewrite list_lookup_fmap, Hj. simpl. congruence.
  - by rewrite list_lookup_fmap, Hq.
Qed.

Lemma determined_lookup i p p' :
  rg_Planes r !! i = Some p -> rg_Planes r' !! i = Some p' -> plane_frame p' = plane_frame p.
Proof.
  intros Hp Hp'. destruct Hf as (_ & _ & _ & Hfr).
  assert ((plane_frame <$> rg_Planes r') !! i = (plane_frame <$> rg_Planes r) !! i) as E by (by rewrite Hfr).
  rewrite !list_lookup_fmap, Hp, Hp' in E. simpl in E. congruence.
Qed.

Lemma determined_allocs i p p' :
  rg_Planes r !! i = Some p -> rg_Planes r' !! i = Some p' -> pl_Allocations p' = pl_Allocations p.
Proof.
  intros Hp Hp'. destruct (plane_frame_ids _ _ (determined_lookup i p p' Hp Hp')) as (Hid & _).
  destruct Hf as (Hrid & _). apply map_eq. intros z.
  destruct (pl_Allocations p !! z) as [l|] eqn:E.
  - eapply (determined_entry r r' i p p'); try done. intros l0. by rewrite Hl.
  - destruct (pl_Allocations p' !! z) as [l|] eqn:E'; [|done]. rewrite <- E. symmetry.
    eapply (determined_entry r' r i p' p); try done. intros l0. by rewrite Hl.
Qed.

Lemma determined_length : length (rg_Planes r') = length (rg_Planes r).
Proof. destruct Hf as (_ & _ & _ & Hfr). apply (f_equal length) in Hfr. by rewrite !length_fmap in Hfr. Qed.

Lemma determined_region_allocs : region_allocs h (rg_Planes r') = region_allocs h (rg_Planes r).
Proof.
  assert (plane_allocs h <$> rg_Planes r' = plane_allocs h <$> rg_Planes r) as E.
  { apply list_eq. intros i. rewrite !list_lookup_fmap.
    destruct (rg_Planes r !! i) as [p|] eqn:Hp.
    - assert (i < length (rg_Planes r'))%nat as Hlt by (rewrite determined_length; by eapply lookup_lt_Some).
      destruct (lookup_lt_is_Some_2 _ _ Hlt) as [p' Hp']. rewrite Hp'. simpl. f_equal.
      unfold plane_allocs. by rewrite (determined_allocs i p p' Hp Hp').
    - rewrite lookup_ge_None_2; [done|]. rewrite determined_length. by apply lookup_ge_None. }
  unfold region_allocs.
  assert (forall qs, qs ≫= plane_allocs h = concat (plane_allocs h <$> qs)) as Hb.
  { intros qs. induction qs as [|q qs IH]; [done|]. rewrite fmap_cons. simpl. by rewrite <- IH. }
  by rewrite !Hb, E.
Qed.

Lemma region_determined :
  rg_Planes r' = rg_Planes r /\ rg_FreeBytes r' = rg_FreeBytes r /\
  rg_TotalBytes r' = rg_TotalBytes r /\ rg_AllocCount r' = rg_AllocCount r.
Proof.
  assert (rg_Planes r' = rg_Planes r) as E.
  { apply list_eq. intros i. destruct (rg_Planes r !! i) as [p|] eqn:Hp; cycle 1.
    { apply lookup_ge_None_2. rewrite determined_length. by apply lookup_ge_None. }
    assert (i < length (rg_Planes r'))%nat as Hlt by (rewrite determined_length; by eapply lookup_lt_Some).
    destruct (lookup_lt_is_Some_2 _ _ Hlt) as [p' Hp']. rewrite Hp'. f_equal.
    pose proof (determined_lookup i p p' Hp Hp') as Hfr.
    destruct (plane_frame_ids _ _ Hfr) as (Hid & _ & _ & Hsz).
    apply plane_frame_eq; [done | | by apply (determined_allocs i)].
    pose proof (ri_tracks h r Hr) as Ht. pose proof (ri_tracks h r' Hr') as Ht'.
    rewrite Forall_lookup in Ht, Ht'. specialize (Ht i p Hp). specialize (Ht' i p' Hp').
    rewrite determined_region_allocs, Hid in Ht'. by eapply tracks_inj. }
  rewrite (ri_free h r' Hr'), (ri_total h r' Hr'), (ri_count h r' Hr').
  rewrite (ri_free h r Hr), (ri_total h r Hr), (ri_count h r Hr). by rewrite E.
Qed.
End Determined.

(** ** Recording an allocation *)

Section Commit.
Context (h : Heap) (r : Region) (F : list (Z * extent)) (ps : list Plane).
Context (i : nat) (p : Plane) (al : Allocation) (z n : Z) (rest : list (Z * extent)).
Hypothesis Hr : region_inv h r.
Hypothesis Hok : heap_ok h.
Hypothesis Hpd : pending (base h r) (rg_Planes r) F ps.
Hypothesis Hi : ps !! i = Some p.
Hypothesis Hext : al_extents al ≡ₚ F.
Hypothesis Hfirst : al_extents al = (pl_ID p, (z, n)) :: rest.
Hypothesis Haddr : al_Address al = NewAddress (rg_ID r) (pl_ID p) z.
Hypothesis Hsum : sumZ (fun ye => ye.2.2) F = al_Size al.
Hypothesis Hsize : 0 < al_Size al < 4294967296.

Let h' := (heap_new h al).1.
Let l := (heap_new h al).2.
Let ps' := <[i := with_Allocations (<[z := l]> (pl_Allocations p)) p]> ps.

(** The statistics after recording an allocation of [al_Size al] bytes. *)
Let r' := with_stats (u64 (rg_AllocCount r + 1)) (sub_idiom32 (rg_FreeBytes r) (al_Size al))
            (rg_TotalBytes r) (with_Planes ps' r).

Lemma commit_plane0 : exists p0, rg_Planes r !! i = Some p0 /\ pl_ID p = pl_ID p0 /\
  pl_Allocations p = pl_Allocations p0.
Proof.
  destruct (pending_lookup _ _ _ _ _ _ Hpd Hi) as (p0 & ? & Hw & _). exists p0.
  rewrite Hw. done.
Qed.

Lemma commit_key_fresh : pl_Allocations p !! z = None.
Proof.
  apply (pending_key_fresh h r F ps i p z n Hr Hpd Hi). rewrite <- Hext, Hfirst. by left.
Qed.

Lemma commit_heap q k l0 :
  q ∈ rg_Planes r -> pl_Allocations q !! k = Some l0 -> heap_get h' l0 = heap_get h l0.
Proof. intros Hq Hk. apply heap_new_get; [done|]. by eapply region_heap_get. Qed.

Lemma commit_allocs : region_allocs h' ps' ≡ₚ al :: region_allocs h (rg_Planes r).
Proof.
  rewrite <- (region_allocs_heap h h' (rg_Planes r)) by apply commit_heap.
  rewrite <- (pending_allocs _ _ _ _ h' Hpd).
  apply (bind_insert_cons (plane_allocs h') ps i p); [done|].
  apply plane_allocs_insert; [apply commit_key_fresh | apply heap_new_self].
Qed.

Lemma commit_locs : region_locs ps' ≡ₚ l :: region_locs (rg_Planes r).
Proof.
  rewrite <- (pending_locs _ _ _ _ Hpd).
  apply (bind_insert_cons plane_locs ps i p); [done|]. apply plane_locs_insert, commit_key_fresh.
Qed.

Lemma commit_ids : pl_ID <$> ps' = pl_ID <$> rg_Planes r.
Proof.
  unfold ps'. rewrite list_fmap_insert. simpl. rewrite <- (pending_ids _ _ _ _ Hpd).
  apply list_insert_id. by rewrite list_lookup_fmap, Hi.
Qed.

Lemma commit_frame : region_frame r r'.
Proof.
  unfold region_frame, r'. simpl. split_and!; [done..|]. unfold ps'.
  rewrite (plane_frame_insert _ _ p) by done. by eapply pending_frame.
Qed.

(** A plane of the new list, next to the plane of the old region at that index. *)
Lemma commit_lookup q : q ∈ ps' -> exists j q0, rg_Planes r !! j = Some q0 /\
  pl_ID q = pl_ID q0 /\ pl_Size q = pl_Size q0 /\ pl_Data q = pl_Data q0 /\
  bm_size (pl_FreeMap q) = bm_size (pl_FreeMap q0) /\
  tracks (pl_FreeMap q) (on_plane (pl_ID q) F ++ base h r (pl_ID q)) /\
  (pl_Allocations q = pl_Allocations q0 \/
   pl_ID q = pl_ID p /\ pl_Allocations q = <[z := l]> (pl_Allocations q0)).
Proof.
  intros [j Hj]%list_elem_of_lookup. unfold ps' in Hj. destruct (decide (i = j)) as [<-|Hne].
  - rewrite list_lookup_insert_eq in Hj by (by eapply lookup_lt_Some). injection Hj as <-.
    destruct (pending_lookup _ _ _ _ _ _ Hpd Hi) as (p0 & ? & Hw & ? & ?). exists i, p0.
    simpl. split_and!; try done; [by rewrite Hw..|]. right. split; [done|]. by rewrite Hw.
  - rewrite list_lookup_insert_ne in Hj by done.
    destruct (pending_lookup _ _ _ _ _ _ Hpd Hj) as (q0 & ? & Hw & ? & ?). exists j, q0.
    split_and!; try done; [by rewrite Hw..|]. left. by rewrite Hw.
Qed.

Lemma commit_entries q k l0 :
  q ∈ ps' -> pl_Allocations q !! k = Some l0 ->
  entry_ok h' (rg_ID r) (pl_ID <$> rg_Planes r) q k l0.
Proof.
  intros Hq Hk. destruct (commit_lookup q Hq) as (j & q0 & Hj & Hid & _ & _ & _ & _ & Hall).
  assert (q0 ∈ rg_Planes r) as Hin by (by eapply list_elem_of_lookup_2).
  assert (pl_Allocations q0 !! k = Some l0 \/ pl_ID q = pl_ID p /\ k = z /\ l0 = l) as [Hold|Hnew].
  { destruct Hall as [Hall|[Hidp Hall]]; rewrite Hall in Hk; [by left|].
    destruct (decide (k = z)) as [->|]; [rewrite lookup_insert_eq in Hk|rewrite lookup_insert_ne in Hk by done].
    - right. split_and!; [done..|]. congruence.
    - by left. }
  - destruct (ri_entries h r Hr q0 k l0 Hin Hold) as (al0 & Hl0 & Ha & Hf & Hs & Hi0).
    exists al0. rewrite (commit_heap q0 k l0 Hin Hold), Hid. done.
  - destruct Hnew as (Hidq & -> & ->). exists al. split; [apply heap_new_self|]. rewrite Hidq.
    split; [done|]. split; [eauto|]. rewrite Hext. split; [done|]. apply Hpd.
Qed.

Lemma commit_size_le : al_Size al <= rg_FreeBytes r.
Proof.
  rewrite (ri_free h r Hr). pose proof (pd_free _ _ _ _ Hpd) as Hf. rewrite Hsum in Hf.
  assert (0 <= sumZ Plane_FreeBytes ps); [|lia]. apply sumZ_nonneg. intros q [j Hj]%list_elem_of_lookup.
  destruct (pending_lookup _ _ _ _ _ _ Hpd Hj) as (_ & _ & _ & _ & Ht).
  unfold Plane_FreeBytes. rewrite FreeBytes_used by apply Ht.
  pose proof (used_range _ (tr_wf _ _ Ht)). lia.
Qed.

Lemma region_commit : region_inv h' r'.
Proof.
  assert (sumZ pl_Size ps' = sumZ pl_Size (rg_Planes r)) as Hsz.
  { unfold ps'. rewrite (sumZ_insert _ _ _ p) by done. simpl.
    rewrite (sumZ_fmap _ ps), (pending_sizes _ _ _ _ Hpd), <- sumZ_fmap. lia. }
  constructor; unfold r'; simpl.
  - rewrite commit_ids. apply Hr.
  - apply Forall_forall. intros q Hq.
    destruct (commit_lookup q Hq) as (j & q0 & Hj & _ & Hs & Hd & Hb & _).
    pose proof (ri_shape h r Hr) as Hsh. rewrite Forall_forall in Hsh.
    specialize (Hsh q0 ltac:(by eapply list_elem_of_lookup_2)). unfold plane_shape in *.
    by rewrite Hs, Hd, Hb.
  - apply Forall_forall. intros q Hq. rewrite commit_allocs, extents_on_cons, Hext.
    by destruct (commit_lookup q Hq) as (j & q0 & _ & _ & _ & _ & _ & Ht & _).
  - rewrite commit_ids. apply commit_entries.
  - rewrite sub_idiom32_pos; [| by eapply region_free_range | lia | apply commit_size_le].
    unfold ps'. rewrite (sumZ_insert _ _ _ p) by done.
    rewrite (pd_free _ _ _ _ Hpd), Hsum, (ri_free h r Hr).
    unfold Plane_FreeBytes. simpl. lia.
  - by rewrite Hsz, (ri_total h r Hr).
  - rewrite Hsz. apply Hr.
  - rewrite commit_allocs. simpl. rewrite (ri_count h r Hr), u64_add_l. f_equal. lia.
Qed.
End Commit.

(** ** Releasing an allocation *)

Section Release.
Context (h : Heap) (r : Region) (i : nat) (p : Plane) (z l : Z) (al : Allocation).
Hypothesis Hr : region_inv h r.
Hypothesis Hi : rg_Planes r !! i = Some p.
Hypothesis Hz : pl_Allocations p !! z = Some l.
Hypothesis Hl : heap_get h l = Some al.
Hypothesis Hsingle : IsYPromoted al = false.

Let p' := with_Allocations (delete z (pl_Allocations p))
            (with_FreeMap (ClearRange (pl_FreeMap p) z (z + al_Size al)) p).
Let ps' := <[i := p']> (rg_Planes r).
Let r' := with_stats (u64 (rg_AllocCount r + not64 0)) (u64 (rg_FreeBytes r + al_Size al))
            (rg_TotalBytes r) (with_Planes ps' r).

Lemma release_extents : al_extents al = [(pl_ID p, (z, al_Size al))].
Proof.
  destruct (ri_entries h r Hr p z l) as (al0 & Hl0 & Ha & (n & rest & He) & Hs & _);
    [by eapply list_elem_of_lookup_2 | done |]. assert (al0 = al) as -> by congruence.
  unfold IsYPromoted in Hsingle. apply Z.ltb_ge in Hsingle.
  unfold al_extents in *. destruct (al_Fragments al) as [|f [|g fs]].
  - by rewrite Ha.
  - injection He as ? ? ? <-. simpl in *. simpl in Hs. repeat f_equal; [done..|lia].
  - simpl in Hsingle. lia.
Qed.

Lemma release_allocs : region_allocs h (rg_Planes r) ≡ₚ al :: region_allocs h ps'.
Proof.
  assert (rg_Planes r = <[i := p]> ps') as Heq.
  { unfold ps'. rewrite list_insert_insert_eq. by rewrite list_insert_id. }
  rewrite Heq. apply (bind_insert_cons (plane_allocs h) ps' i p').
  - apply list_lookup_insert_eq. by eapply lookup_lt_Some.
  - exact (plane_allocs_delete h p z l al Hz Hl).
Qed.

Lemma release_locs : region_locs (rg_Planes r) ≡ₚ l :: region_locs ps'.
Proof.
  assert (rg_Planes r = <[i := p]> ps') as Heq.
  { unfold ps'. rewrite list_insert_insert_eq. by rewrite list_insert_id. }
  rewrite Heq. apply (bind_insert_cons plane_locs ps' i p').
  - apply list_lookup_insert_eq. by eapply lookup_lt_Some.
  - exact (plane_locs_delete p z l Hz).
Qed.

Lemma release_base y : base h r y ≡ₚ on_plane y (al_extents al) ++ extents_on y (region_allocs h ps').
Proof. unfold base. by rewrite release_allocs. Qed.

Lemma release_tracks_old :
  tracks (pl_FreeMap p) ((z, al_Size al) :: extents_on (pl_ID p) (region_allocs h ps')).
Proof.
  pose proof (ri_tracks h r Hr) as Ht. rewrite Forall_forall in Ht.
  specialize (Ht p ltac:(by eapply list_elem_of_lookup_2)).
  fold (base h r (pl_ID p)) in Ht. rewrite release_base, release_extents, on_plane_cons_eq in Ht. done.
Qed.

Lemma release_plane : Plane_Free h p z = Ret (p', true) /\
  tracks (pl_FreeMap p') (extents_on (pl_ID p) (region_allocs h ps')).
Proof.
  destruct (Plane_Free_spec h p z l al _ Hz Hl release_tracks_old) as (q & -> & -> & Ht). done.
Qed.

Lemma release_lookup q : q ∈ ps' -> exists j q0, rg_Planes r !! j = Some q0 /\
  pl_ID q = pl_ID q0 /\ plane_shape q /\
  tracks (pl_FreeMap q) (extents_on (pl_ID q) (region_allocs h ps')) /\
  (forall k l0, pl_Allocations q !! k = Some l0 -> pl_Allocations q0 !! k = Some l0).
Proof.
  intros [j Hj]%list_elem_of_lookup. unfold ps' in Hj.
  pose proof (ri_shape h r Hr) as Hs. rewrite Forall_forall in Hs.
  destruct (decide (i = j)) as [<-|Hne].
  - rewrite list_lookup_insert_eq in Hj by (by eapply lookup_lt_Some). injection Hj as <-.
    exists i, p. simpl. split_and!; [done | done | | apply release_plane |].
    + specialize (Hs p ltac:(by eapply list_elem_of_lookup_2)). unfold plane_shape in *. simpl.
      destruct (ClearRange_spec (pl_FreeMap p) z (z + al_Size al)) as (_ & -> & _); [| |done].
      * apply release_tracks_old.
      * pose proof (tr_bounds _ _ release_tracks_old) as Hb. by apply Forall_cons in Hb as [(? & _) _].
    + intros k l0. rewrite lookup_delete_Some. tauto.
  - rewrite list_lookup_insert_ne in Hj by done. exists j, q.
    assert (q ∈ rg_Planes r) as Hq by (by eapply list_elem_of_lookup_2).
    split_and!; [done | done | by apply Hs | | done].
    pose proof (ri_tracks h r Hr) as Ht. rewrite Forall_forall in Ht. specialize (Ht q Hq).
    fold (base h r (pl_ID q)) in Ht. rewrite release_base, release_extents in Ht.
    rewrite on_plane_cons_ne in Ht; [done|]. intros Hid. apply Hne.
    eapply (NoDup_lookup (pl_ID <$> rg_Planes r)); [apply Hr | |].
    + rewrite list_lookup_fmap, Hi. done.
    + rewrite list_lookup_fmap, Hj. simpl. by rewrite Hid.
Qed.

Lemma release_frame : region_frame r r'.
Proof.
  unfold region_frame, r'. simpl. split_and!; [done..|]. unfold ps'.
  apply (plane_frame_insert _ _ p); [done|]. unfold plane_frame, p'. simpl.
  destruct (ClearRange_spec (pl_FreeMap p) z (z + al_Size al)) as (_ & -> & _); [| |done].
  - apply release_tracks_old.
  - pose proof (tr_bounds _ _ release_tracks_old) as Hb. by apply Forall_cons in Hb as [(? & _) _].
Qed.

Lemma release_free_bytes : Plane_FreeBytes p' = Plane_FreeBytes p + al_Size al.
Proof.
  unfold Plane_FreeBytes. rewrite (tracks_free_bytes _ _ release_tracks_old).
  rewrite (tracks_free_bytes _ _ (proj2 release_plane)). simpl.
  destruct (ClearRange_spec (pl_FreeMap p) z (z + al_Size al)) as (_ & -> & _).
  - apply release_tracks_old.
  - pose proof (tr_bounds _ _ release_tracks_old) as Hb. by apply Forall_cons in Hb as [(? & _) _].
  - lia.
Qed.

Lemma region_release : region_inv h r'.
Proof.
  assert (pl_ID <$> ps' = pl_ID <$> rg_Planes r) as Hids.
  { unfold ps'. rewrite list_fmap_insert. simpl. apply list_insert_id. by rewrite list_lookup_fmap, Hi. }
  assert (sumZ pl_Size ps' = sumZ pl_Size (rg_Planes r)) as Hsz.
  { unfold ps'. rewrite (sumZ_insert _ _ _ p) by done. simpl. lia. }
  assert (sumZ Plane_FreeBytes ps' = rg_FreeBytes r + al_Size al) as Hfree.
  { unfold ps'. rewrite (sumZ_insert _ _ _ p), (ri_free h r Hr), release_free_bytes by done. lia. }
  constructor; unfold r'; simpl.
  - rewrite Hids. apply Hr.
  - apply Forall_forall. intros q Hq. by destruct (release_lookup q Hq) as (? & ? & ? & ? & ? & _).
  - apply Forall_forall. intros q Hq. by destruct (release_lookup q Hq) as (? & ? & ? & ? & ? & ? & _).
  - rewrite Hids. intros q k l0 Hq Hk. destruct (release_lookup q Hq) as (j & q0 & Hj & Hid & _ & _ & Hsub).
    destruct (ri_entries h r Hr q0 k l0) as (al0 & ?); [by eapply list_elem_of_lookup_2 | by apply Hsub|].
    exists al0. by rewrite Hid.
  - rewrite Hfree, u64_small; [done|].
    assert (0 <= sumZ Plane_FreeBytes ps' <= sumZ pl_Size ps').
    { split; [apply sumZ_nonneg | apply sumZ_le]; intros q Hq;
        destruct (release_lookup q Hq) as (_ & _ & _ & _ & (Hs & _) & Ht & _);
        unfold Plane_FreeBytes; rewrite FreeBytes_used by apply Ht;
        pose proof (used_range _ (tr_wf _ _ Ht)); lia. }
    pose proof (ri_bound h r Hr). unfold is_u64. lia.
  - by rewrite Hsz, (ri_total h r Hr).
  - rewrite Hsz. apply Hr.
  - rewrite (ri_count h r Hr). pose proof (Permutation_length release_allocs) as Hlen.
    rewrite Hlen. simpl length. rewrite u64_add_l. rewrite not64_sub by by vm_compute. word.
Qed.
End Release.

(** ** Adding and removing planes *)

Lemma plane_index_Some y ps i :
  plane_index y ps = Some i -> exists p, ps !! i = Some p /\ pl_ID p = y.
Proof.
  revert i. induction ps as [|p ps IH]; intros i H; simplify_eq/=. case_bool; simplify_eq/=; [eauto|].
  destruct (plane_index y ps) as [j|] eqn:E; simplify_eq/=. apply (IH j eq_refl).
Qed.

Lemma plane_index_lookup y ps i p :
  NoDup (pl_ID <$> ps) -> ps !! i = Some p -> pl_ID p = y -> plane_index y ps = Some i.
Proof.
  revert i. induction ps as [|q ps IH]; intros i Hnd Hi <-; [done|].
  rewrite fmap_cons in Hnd. apply NoDup_cons in Hnd as [Hq Hnd]. destruct i as [|i]; simplify_eq/=.
  - by rewrite Z.eqb_refl.
  - rewrite (IH i) by done. destruct (Z.eqb_spec (pl_ID q) (pl_ID p)) as [E|]; [|done].
    destruct Hq. rewrite E. apply list_elem_of_fmap. exists p. split; [done|].
    by eapply list_elem_of_lookup_2.
Qed.

Lemma plane_index_None y ps : plane_index y ps = None <-> y ∉ pl_ID <$> ps.
Proof.
  induction ps as [|p ps IH]; [set_solver|]. rewrite fmap_cons, not_elem_of_cons. simpl.
  destruct (Z.eqb_spec (pl_ID p) y); [split; [done|intros [? _]; congruence]|]. rewrite <- IH.
  destruct (plane_index y ps); simpl; (split; [done || by split | by intros [_ ?]]).
Qed.

Lemma NewPlane_shape id rid size : is_u16 size -> plane_shape (NewPlane id rid size).
Proof.
  intros Hs. unfold plane_shape, NewPlane. simpl. rewrite length_replicate.
  unfold is_u16 in Hs. case_bool; lia.
Qed.

Lemma NewPlane_tracks id rid size : is_u16 size -> tracks (pl_FreeMap (NewPlane id rid size)) [].
Proof. intros Hs. apply tracks_new. case_bool; [by vm_compute | done]. Qed.

Lemma NewRegion_inv h now id t : region_inv h (NewRegion now id t).
Proof.
  constructor; simpl; try done; try by constructor.
  intros p z l Hp. by apply not_elem_of_nil in Hp.
Qed.

Lemma AddPlane_inv h r p :
  region_inv h r -> plane_shape p -> tracks (pl_FreeMap p) [] -> pl_Allocations p = ∅ ->
  pl_ID p ∉ pl_ID <$> rg_Planes r -> sumZ pl_Size (rg_Planes r) + pl_Size p < 18446744073709551616 ->
  region_inv h (AddPlane r p).
Proof.
  intros Hr Hs Ht He Hid Hb.
  assert (region_allocs h (rg_Planes r ++ [p]) = region_allocs h (rg_Planes r)) as Hal.
  { unfold region_allocs. rewrite bind_app. simpl. unfold plane_allocs at 2. rewrite He.
    rewrite map_to_list_empty. simpl. by rewrite app_nil_r. }
  assert (forall q, q ∈ rg_Planes r -> pl_ID q <> pl_ID p) as Hne.
  { intros q Hq E. apply Hid. rewrite <- E. apply list_elem_of_fmap. eauto. }
  assert (extents_on (pl_ID p) (region_allocs h (rg_Planes r)) = []) as Hnil.
  { destruct (extents_on _ _) as [|e es] eqn:E; [done|]. exfalso. apply Hid.
    assert (e ∈ extents_on (pl_ID p) (region_allocs h (rg_Planes r))) as He' by (rewrite E; by left).
    apply list_elem_of_bind in He' as (al & Hon & (q & Hal' & Hq)%list_elem_of_bind).
    apply list_elem_of_omap in Hal' as (l & Hin & Hl).
    apply list_elem_of_fmap in Hin as ([z l'] & -> & Hzl).
    apply elem_of_map_to_list in Hzl. simpl in *.
    destruct (ri_entries h r Hr q z l' Hq Hzl) as (al0 & Hl0 & _ & _ & _ & Hids).
    assert (al0 = al) as -> by congruence. rewrite Forall_forall in Hids.
    apply elem_of_on_plane in Hon. apply (Hids _ Hon). }
  pose proof (region_free_range h r Hr) as [Hfr _].
  pose proof (ri_total h r Hr) as Htot. pose proof (ri_free h r Hr) as Hfree.
  destruct Hs as (Hsz & Hpos & Hlen).
  assert (0 <= Plane_FreeBytes p <= pl_Size p) as Hpf.
  { unfold Plane_FreeBytes. rewrite FreeBytes_used by apply Ht.
    pose proof (used_range _ (tr_wf _ _ Ht)). lia. }
  constructor; simpl.
  - rewrite fmap_app. apply NoDup_app. split_and!; [apply Hr | | apply NoDup_singleton].
    intros x Hx ->%list_elem_of_singleton. done.
  - apply Forall_app. split; [apply Hr|]. by repeat constructor.
  - rewrite Hal. apply Forall_app. split; [apply Hr|]. constructor; [|constructor].
    by rewrite Hnil.
  - intros q z l Hq Hl. rewrite fmap_app. apply elem_of_app in Hq as [Hq| ->%list_elem_of_singleton].
    + destruct (ri_entries h r Hr q z l Hq Hl) as (al & ? & ? & ? & ? & Hids). exists al.
      split_and!; try done. eapply Forall_impl; [exact Hids|]. intros ye. rewrite elem_of_app. by left.
    + by rewrite He, lookup_empty in Hl.
  - rewrite sumZ_app. simpl. rewrite <- Hfree, u64_small; [lia|]. unfold is_u64. lia.
  - rewrite sumZ_app. simpl. rewrite <- Htot, u64_small; [lia|]. unfold is_u64. lia.
  - rewrite sumZ_app. simpl. lia.
  - rewrite Hal. apply Hr.
Qed.

(** ** Looking up the allocation that holds a byte *)

Lemma containing_spec h (m : gmap Z loc) pos keys :
  Forall (fun k => exists l al, m !! k = Some l /\ heap_get h l = Some al) keys ->
  exists o, containing h m pos keys = Ret o /\
    match o with
    | Some l => exists k al, k ∈ keys /\ m !! k = Some l /\ heap_get h l = Some al /\
        k <= pos < u16 (k + u16 (al_Size al))
    | None => forall k l al, k ∈ keys -> m !! k = Some l -> heap_get h l = Some al ->
        ~ (k <= pos < u16 (k + u16 (al_Size al)))
    end.
Proof.
  induction 1 as [|k keys (l & al & Hk & Hl) Hks (o & Ho & Hpost)].
  { exists None. split; [done|]. intros k l al Hk. by apply not_elem_of_nil in Hk. }
  cbn [containing]. rewrite Hk, Ho. cbn [deref mbind res_bind]. rewrite Hl. cbn [deref mbind res_bind].
  destruct (Z.leb_spec k pos), (Z.ltb_spec pos (u16 (k + u16 (al_Size al)))); cbn [andb];
    [exists (Some l); split; [done|]; exists k, al; split_and!; [by left|done..|lia] | exists o; split; [done|] ..];
    (destruct o as [l1|];
      [ destruct Hpost as (k1 & al1 & ? & ?); exists k1, al1; split; [by right | done]
      | intros k1 l1 al1 [->|Hin]%elem_of_cons Hk1 Hl1; [simplify_eq; lia | by eapply Hpost] ]).
Qed.

(** No block of the region is Y-promoted. *)
Definition region_single (h : Heap) (r : Region) : Prop :=
  forall p z l al, p ∈ rg_Planes r -> pl_Allocations p !! z = Some l -> heap_get h l = Some al ->
    IsYPromoted al = false.

(** The bytes of the entry [z ↦ l], as the code computes them. *)
Lemma entry_range h r p z l al :
  region_inv h r -> p ∈ rg_Planes r -> pl_Allocations p !! z = Some l ->
  heap_get h l = Some al -> IsYPromoted al = false ->
  0 <= z /\ 0 < al_Size al /\ z + al_Size al <= pl_Size p /\ pl_Size p < 65536 /\
  u16 (z + u16 (al_Size al)) = z + al_Size al /\ (z, al_Size al) ∈ base h r (pl_ID p).
Proof.
  intros Hr Hp Hz Hl Hy. apply list_elem_of_lookup in Hp as [i Hi].
  pose proof (release_extents h r i p z l al Hr Hi Hz Hl Hy) as He.
  pose proof (release_tracks_old h r i p z l al Hr Hi Hz Hl Hy) as Ht.
  pose proof (tr_bounds _ _ Ht) as Hb. apply Forall_cons in Hb as [(B1 & B2 & B3) _]. simpl in *.
  pose proof (ri_shape h r Hr) as Hsh. rewrite Forall_lookup in Hsh. destruct (Hsh i p Hi) as (Hsz & _ & _).
  pose proof (wf_size _ (tr_wf _ _ Ht)) as Hu. unfold is_u16 in Hu.
  rewrite (u16_small (al_Size al)), u16_small by (unfold is_u16; lia).
  split_and!; [lia..|]. eapply elem_of_base; [by eapply list_elem_of_lookup_2 | done..|]. rewrite He. by left.
Qed.

(** A marked byte belongs to an entry of its own plane. *)
Lemma marked_entry h r p pos :
  region_inv h r -> region_single h r -> p ∈ rg_Planes r -> 0 <= pos < pl_Size p ->
  bit_at (pl_FreeMap p) pos = true ->
  exists z l al, pl_Allocations p !! z = Some l /\ heap_get h l = Some al /\ z <= pos < z + al_Size al.
Proof.
  intros Hr Hs Hp Hpos Hbit. pose proof (ri_tracks h r Hr) as Ht. rewrite Forall_forall in Ht.
  specialize (Ht p Hp). pose proof (ri_shape h r Hr) as Hsh. rewrite Forall_forall in Hsh.
  destruct (Hsh p Hp) as (Hsz & _ & _). pose proof (tr_bits _ _ Ht pos ltac:(lia)) as Hc. rewrite Hbit in Hc.
  destruct (sumZ_pos_elem _ _ ltac:(unfold cover in Hc; by rewrite Hc)) as (e & He & Hcov).
  apply list_elem_of_bind in He as (al & Hon & (q & Hal & Hq)%list_elem_of_bind).
  apply list_elem_of_omap in Hal as (l & Hin & Hl). apply list_elem_of_fmap in Hin as ([z l'] & -> & Hz).
  apply elem_of_map_to_list in Hz. simpl in Hl. apply list_elem_of_lookup in Hq as [j Hj].
  pose proof (release_extents h r j q z l' al Hr Hj Hz Hl
    (Hs q z l' al ltac:(by eapply list_elem_of_lookup_2) Hz Hl)) as Hext.
  apply elem_of_on_plane in Hon. rewrite Hext in Hon. apply list_elem_of_singleton in Hon as [= Hid ->].
  assert (q = p) as ->.
  { apply list_elem_of_lookup in Hp as [i Hi]. assert (i = j) as ->; [|congruence].
    apply (NoDup_lookup (pl_ID <$> rg_Planes r) i j (pl_ID p)); [apply Hr | |].
    - by rewrite list_lookup_fmap, Hi.
    - rewrite list_lookup_fmap, Hj. simpl. congruence. }
  exists z, l', al. split_and!; [done..| |]; destruct (covers pos (z, al_Size al)) eqn:C; try (simpl in Hcov; lia);
    apply covers_true in C; simpl in C; lia.
Qed.

Lemma range_keys `{GoRuntime} h r p :
  region_inv h r -> p ∈ rg_Planes r ->
  Forall (fun k => exists l al, pl_Allocations p !! k = Some l /\ heap_get h l = Some al)
    (rt_range 0 (pl_Allocations p)).
Proof.
  intros Hr Hp. apply Forall_forall. intros k. rewrite rt_range_perm.
  intros ([k' l] & -> & Hk)%list_elem_of_fmap. apply elem_of_map_to_list in Hk. simpl.
  destruct (ri_entries h r Hr p k' l Hp Hk) as (al & Hal & _). eauto.
Qed.

Lemma elem_of_range `{GoRuntime} (m : gmap Z loc) k l : m !! k = Some l -> k ∈ rt_range 0 m.
Proof.
  intros Hk. rewrite rt_range_perm. apply list_elem_of_fmap. exists (k, l).
  split; [done|]. by apply elem_of_map_to_list.
Qed.

(** The lookup finds the one entry whose range holds the byte. *)
Lemma GetContaining_spec `{GoRuntime} h r p pos z l al :
  region_inv h r -> region_single h r -> p ∈ rg_Planes r ->
  pl_Allocations p !! z = Some l -> heap_get h l = Some al -> z <= pos < z + al_Size al ->
  GetContainingAllocation h p pos = Ret (Some l).
Proof.
  intros Hr Hs Hp Hz Hl Hpos. unfold GetContainingAllocation.
  destruct (containing_spec h (pl_Allocations p) pos _ (range_keys h r p Hr Hp)) as (o & -> & Ho).
  destruct (entry_range h r p z l al Hr Hp Hz Hl (Hs p z l al Hp Hz Hl)) as (E1 & E2 & E3 & E4 & E5 & E6).
  destruct o as [l'|]; cycle 1.
  { exfalso. apply (Ho z l al); [by eapply elem_of_range | done | done | lia]. }
  destruct Ho as (k & al' & _ & Hk & Hl' & Hpos').
  destruct (entry_range h r p k l' al' Hr Hp Hk Hl' (Hs p k l' al' Hp Hk Hl')) as (F1 & F2 & F3 & F4 & F5 & F6). rewrite F5 in Hpos'.
  destruct (decide (k = z)) as [->|Hne]; [congruence|exfalso].
  pose proof (ri_tracks h r Hr) as Ht. rewrite Forall_forall in Ht. specialize (Ht p Hp).
  fold (base h r (pl_ID p)) in Ht.
  apply list_elem_of_lookup in E6 as [i Hi]. apply list_elem_of_lookup in F6 as [j Hj].
  eapply (tracks_disjoint _ _ i j _ _ pos Ht); [|exact Hi|exact Hj|..].
  - intros ->. congruence.
  - apply covers_true. simpl. lia.
  - apply covers_true. simpl. lia.
Qed.

(** The byte lies in the range of an entry of the plane's map, computed on 16 bits from
    the whole size of the block. *)
Definition in_entry (h : Heap) (p : Plane) (pos : Z) : Prop :=
  exists z l al, pl_Allocations p !! z = Some l /\ heap_get h l = Some al /\ z <= pos < u16 (z + u16 (al_Size al)).

Lemma IsAllocated_entry `{GoRuntime} h r p pos :
  region_inv h r -> p ∈ rg_Planes r ->
  exists ok, IsAllocated h p pos = Ret ok /\ (ok = true <-> in_entry h p pos).
Proof.
  intros Hr Hp. unfold IsAllocated.
  destruct (containing_spec h (pl_Allocations p) pos _ (range_keys h r p Hr Hp)) as (o & -> & Ho).
  cbn [mbind res_bind]. eexists. split; [done|]. destruct o as [l|].
  - split; [|done]. intros _. destruct Ho as (k & al & _ & Hk & Hl & Hin). by exists k, l, al.
  - split; [done|]. intros (z & l & al & Hz & Hl & Hin). exfalso. apply (Ho z l al); [by eapply elem_of_range | done..].
Qed.

(** Without promoted blocks these are the marked bytes. *)
Lemma in_entry_marked h r p pos :
  region_inv h r -> region_single h r -> p ∈ rg_Planes r -> 0 <= pos < pl_Size p ->
  in_entry h p pos <-> bit_at (pl_FreeMap p) pos = true.
Proof.
  intros Hr Hs Hp Hpos. split.
  - intros (k & l & al & Hk & Hl & Hin).
    destruct (entry_range h r p k l al Hr Hp Hk Hl (Hs p k l al Hp Hk Hl)) as (F1 & F2 & F3 & F4 & F5 & F6). rewrite F5 in Hin.
    pose proof (ri_tracks h r Hr) as Ht. rewrite Forall_forall in Ht.
    eapply (tracks_covered _ _ _ _ (Ht p Hp) F6). apply covers_true. simpl. lia.
  - intros E. destruct (marked_entry h r p pos Hr Hs Hp Hpos E) as (z & l & al & Hz & Hl & Hin).
    exists z, l, al. split; [done|]. split; [done|].
    by destruct (entry_range h r p z l al Hr Hp Hz Hl (Hs p z l al Hp Hz Hl)) as (_ & _ & _ & _ & -> & _).
Qed.

(** ** Theorems *)

(** A region with one plane of 64 bytes and nothing allocated. *)
Definition fresh_region : Region := AddPlane (NewRegion 0 7 RegionTypeHeap) (NewPlane 0 7 64).

Lemma fresh_region_inv h : region_inv h fresh_region.
Proof.
  apply AddPlane_inv; try done; [apply NewRegion_inv | by apply NewPlane_tracks |].
  simpl. apply not_elem_of_nil.
Qed.

(** C34. Removing a plane takes exactly its size from the region's total; it takes
    exactly its free bytes from the free counter when it has some, but 65536 when
    the plane is full, since the subtraction is done on 16 bits. *)
Theorem remove_plane_counters h r y p :
  region_inv h r -> GetPlane r y = Some p ->
  exists i r', rg_Planes r !! i = Some p /\ RemovePlane r y = (r', true) /\
    rg_Planes r' = delete i (rg_Planes r) /\ rg_TotalBytes r' = sumZ pl_Size (rg_Planes r') /\
    rg_FreeBytes r' = if 0 <? Plane_FreeBytes p then sumZ Plane_FreeBytes (rg_Planes r')
                      else u64 (sumZ Plane_FreeBytes (rg_Planes r') - 65536).
Proof.
  intros Hr Hp. unfold GetPlane in Hp. destruct (plane_index y (rg_Planes r)) as [i|] eqn:Ei; [|done].
  simpl in Hp. unfold RemovePlane. rewrite Ei, Hp. eexists i, _. split; [done|]. split; [done|].
  simpl. rewrite !(sumZ_delete _ _ i p) by done. rewrite <- (ri_free h r Hr), <- (ri_total h r Hr).
  destruct (region_free_range h r Hr) as [Hfr Hu].
  pose proof (ri_shape h r Hr) as Hsh. rewrite Forall_lookup in Hsh. destruct (Hsh i p Hp) as (Hsz & Hpos & _).
  pose proof (ri_tracks h r Hr) as Ht. rewrite Forall_lookup in Ht. specialize (Ht i p Hp).
  pose proof (wf_size _ (tr_wf _ _ Ht)) as Hw. unfold is_u16 in Hw.
  assert (0 <= Plane_FreeBytes p <= pl_Size p) as Hfb.
  { unfold Plane_FreeBytes. rewrite FreeBytes_used by apply Ht. pose proof (used_range _ (tr_wf _ _ Ht)). lia. }
  assert (Plane_FreeBytes p <= rg_FreeBytes r /\ pl_Size p <= rg_TotalBytes r) as [L1 L2].
  { rewrite (ri_free h r Hr), (ri_total h r Hr). split; apply (sumZ_lookup_le _ _ i); try done.
    - intros q [j Hj]%list_elem_of_lookup. pose proof (ri_tracks h r Hr) as Htr. rewrite Forall_lookup in Htr.
      specialize (Htr j q Hj). unfold Plane_FreeBytes. rewrite FreeBytes_used by apply Htr.
      pose proof (used_range _ (tr_wf _ _ Htr)). lia.
    - intros q [j Hj]%list_elem_of_lookup. destruct (Hsh j q Hj) as (_ & ? & _). lia. }
  split_and!; [done | |].
  - apply sub_idiom16_pos; [|lia|done]. pose proof (ri_bound h r Hr) as Hb. rewrite (ri_total h r Hr).
    split; [|done]. rewrite <- (ri_total h r Hr). lia.
  - destruct (Z.ltb_spec 0 (Plane_FreeBytes p)); [apply sub_idiom16_pos; [done|lia|done]|].
    assert (Plane_FreeBytes p = 0) as -> by lia. rewrite sub_idiom16_zero. f_equal. lia.
Qed.

Lemma remove_plane_counters_witness :
  exists r', RemovePlane fresh_region 0 = (r', true) /\ rg_FreeBytes r' = 0.
Proof.
  destruct (remove_plane_counters empty_heap fresh_region 0 (NewPlane 0 7 64)) as (i & r' & _ & Hrm & Hps & _ & Hf).
  - apply fresh_region_inv.
  - vm_compute. reflexivity.
  - exists r'. split; [exact Hrm|]. injection Hrm as <-. vm_compute. reflexivity.
Defined.
