(* ===== verification/Allocator.v ===== *)
(** * The 3D allocator (internal/allocator/allocator.go)

    Regions are kept in a map by ID; the LRU list, which holds region pointers
    in the code, holds their IDs here (a region is never removed from the map,
    nor replaced under its ID).  Every operation takes the heap of allocation
    objects and returns it.  Here a
    call is seen by itself: a request either reaches a worker, which runs
    [doAllocate], or is served by the caller when the queue is full; the worker
    goroutines and their channels are in Workers.v. *)
From S2P Require Import Prelude Words Float64 Address Errors Bitmap Plane Region.

Record Config := mkConfig {
  cf_PlaneSize : Z; cf_MaxYPlanes : Z; cf_MaxYPromotions : Z; cf_WorkerCount : Z;
  cf_EnableConcurrent : bool; cf_EnablePooling : bool }.

Record Stats := mkStats {
  st_Allocations : Z; st_Frees : Z; st_YPromotions : Z; st_Fragmentation : float64;
  st_CacheHits : Z; st_CacheMisses : Z }.

Record Allocator3D := mkAllocator {
  ac_regions : gmap Z Region;
  ac_config : Config;
  ac_stats : Stats;
  ac_regionLRU : list Z;
  ac_nextRegionID : Z;
  ac_nextAllocID : Z;
}.

(** ** Field updates *)

Definition with_regions (m : gmap Z Region) (a : Allocator3D) : Allocator3D :=
  {| ac_regions := m; ac_config := ac_config a; ac_stats := ac_stats a;
     ac_regionLRU := ac_regionLRU a; ac_nextRegionID := ac_nextRegionID a;
     ac_nextAllocID := ac_nextAllocID a |}.

Definition with_lru (l : list Z) (a : Allocator3D) : Allocator3D :=
  {| ac_regions := ac_regions a; ac_config := ac_config a; ac_stats := ac_stats a;
     ac_regionLRU := l; ac_nextRegionID := ac_nextRegionID a;
     ac_nextAllocID := ac_nextAllocID a |}.

Definition with_next (regionID allocID : Z) (a : Allocator3D) : Allocator3D :=
  {| ac_regions := ac_regions a; ac_config := ac_config a; ac_stats := ac_stats a;
     ac_regionLRU := ac_regionLRU a; ac_nextRegionID := regionID;
     ac_nextAllocID := allocID |}.

Definition with_counts (frees yPromotions : Z) (a : Allocator3D) : Allocator3D :=
  {| ac_regions := ac_regions a; ac_config := ac_config a;
     ac_stats := {| st_Allocations := st_Allocations (ac_stats a); st_Frees := frees;
       st_YPromotions := yPromotions; st_Fragmentation := st_Fragmentation (ac_stats a);
       st_CacheHits := st_CacheHits (ac_stats a); st_CacheMisses := st_CacheMisses (ac_stats a) |};
     ac_regionLRU := ac_regionLRU a; ac_nextRegionID := ac_nextRegionID a;
     ac_nextAllocID := ac_nextAllocID a |}.

Definition set_region (r : Region) (a : Allocator3D) : Allocator3D :=
  with_regions (<[rg_ID r := r]> (ac_regions a)) a.

(** ** Construction *)

Definition NewAllocator3D (config : Config) : Allocator3D :=
  {| ac_regions := ∅; ac_config := config;
     ac_stats := mkStats 0 0 0 f64_zero 0 0;
     ac_regionLRU := []; ac_nextRegionID := 1; ac_nextAllocID := 1 |}.

Definition GetRegion (a : Allocator3D) (x : Z) : option Region := ac_regions a !! x.

Definition IsConcurrent (a : Allocator3D) : bool := cf_EnableConcurrent (ac_config a).

(** Nothing is ever put into the plane pool, so [Get] always calls its [New]. *)
Definition getPlaneFromPool (a : Allocator3D) (id regionID : Z) : Plane :=
  if cf_EnablePooling (ac_config a) then
    with_IDs id regionID (NewPlane 0 0 (cf_PlaneSize (ac_config a)))
  else NewPlane id regionID (cf_PlaneSize (ac_config a)).

Definition min (a b : Z) : Z := if a <? b then a else b.

(** ** The LRU list of regions *)

Fixpoint remove_first (id : Z) (l : list Z) : list Z :=
  match l with
  | [] => []
  | x :: l => if x =? id then l else x :: remove_first id l
  end.

Definition promoteRegionLRU (a : Allocator3D) (regionID : Z) : Allocator3D :=
  let l := remove_first regionID (ac_regionLRU a) in
  match ac_regions a !! regionID with
  | None => with_lru l a
  | Some _ =>
      let l := regionID :: l in
      with_lru (if (100 <? Z.of_nat (length l)) then removelast l else l) a
  end.

(** ** Fast path *)

(** The first plane with enough free bytes whose search succeeds: its index,
    its new state and the start of the range. *)
Fixpoint alloc_in_planes (size : Z) (ps : list Plane) : res (option (nat * Plane * Z)) :=
  match ps with
  | [] => Ret None
  | plane :: ps =>
      let next :=
        r ← alloc_in_planes size ps;
        Ret (match r with Some (i, p, z) => Some (S i, p, z) | None => None end) in
      if size <=? Plane_FreeBytes plane then
        '(plane', startZ, ok) ← Plane_Allocate plane (u16 size);
        if ok : bool then Ret (Some (O, plane', startZ)) else next
      else next
  end.

(** Create the allocation object, enter it in the plane's map and update the
    region's counters: the block shared by the three single-plane paths. *)
Definition record_allocation (now : Z) (h : Heap) (a : Allocator3D) (r : Region)
    (i : nat) (plane : Plane) (startZ size regionType flags : Z) : Heap * Allocator3D * loc :=
  let allocID := u64 (ac_nextAllocID a + 1) in
  let addr := {| aX := rg_ID r; aY := pl_ID plane; aZ := startZ |} in
  let '(h, l) := heap_new h (with_Flags flags (NewAllocation now allocID addr size regionType)) in
  let plane := with_Allocations (<[startZ := l]> (pl_Allocations plane)) plane in
  let r := with_stats (u64 (rg_AllocCount r + 1)) (sub_idiom32 (rg_FreeBytes r) size)
             (rg_TotalBytes r) (with_Planes (<[i := plane]> (rg_Planes r)) r) in
  (h, promoteRegionLRU (set_region r (with_next (ac_nextRegionID a) allocID a)) (rg_ID r), l).

Fixpoint fast_lru (now : Z) (h : Heap) (a : Allocator3D) (size regionType : Z) (lru : list Z)
    : res (option (Heap * Allocator3D * loc)) :=
  match lru with
  | [] => Ret None
  | id :: lru =>
      region ← deref (ac_regions a !! id);
      if negb (rg_Type region =? regionType) then fast_lru now h a size regionType lru
      else if rg_FreeBytes region <? size then fast_lru now h a size regionType lru
      else
        found ← alloc_in_planes size (rg_Planes region);
        match found with
        | Some (i, plane, startZ) =>
            Ret (Some (record_allocation now h a region i plane startZ size regionType 0))
        | None => fast_lru now h a size regionType lru
        end
  end.

Definition tryFastAllocation `{GoRuntime} (h : Heap) (a : Allocator3D) (size regionType : Z)
    : res (option (Heap * Allocator3D * loc)) :=
  fast_lru (rt_now 0) h a size regionType (ac_regionLRU a).

(** ** Y-promotion *)

(** Free bytes of a region summed over its planes, and how many planes have some. *)
Definition free_summary (ps : list Plane) : Z * Z :=
  foldl (fun '(totalFree, planesWithFree) plane =>
    if 0 <? Plane_FreeBytes plane
    then (u64 (totalFree + Plane_FreeBytes plane), planesWithFree + 1)
    else (totalFree, planesWithFree)) (0, 0) ps.

(** The region with the most free space that can host the request; the regions
    are visited in the order of the run time's map iteration. *)
Fixpoint best_region (m : gmap Z Region) (size regionType planesNeeded : Z) (keys : list Z)
    (best : option Z) (bestFree : Z) : res (option Z) :=
  match keys with
  | [] => Ret best
  | k :: keys =>
      region ← deref (m !! k);
      if negb (rg_Type region =? regionType)
      then best_region m size regionType planesNeeded keys best bestFree
      else
        let '(totalFree, planesWithFree) := free_summary (rg_Planes region) in
        if (size <=? totalFree) && (planesNeeded <=? u32 planesWithFree) && (bestFree <? totalFree)
        then best_region m size regionType planesNeeded keys (Some k) totalFree
        else best_region m size regionType planesNeeded keys best bestFree
  end.

(** Indices of the planes that have free bytes, in order. *)
Definition candidates (ps : list Plane) : list nat :=
  List.filter (fun i => match ps !! i with Some p => 0 <? Plane_FreeBytes p | None => false end)
    (seq 0 (length ps)).

(** The fragment loop: planes, fragments so far, bytes still missing. *)
Fixpoint alloc_fragments (ps : list Plane) (cands : list nat) (fragments : list Fragment)
    (remaining : Z) : res (list Plane * list Fragment * Z) :=
  match cands with
  | [] => Ret (ps, fragments, remaining)
  | i :: cands =>
      if remaining =? 0 then Ret (ps, fragments, remaining)
      else
        plane ← deref (ps !! i);
        let allocSize := u16 (min (Plane_FreeBytes plane) remaining) in
        if allocSize =? 0 then alloc_fragments ps cands fragments remaining
        else
          '(plane', startZ, ok) ← Plane_Allocate plane allocSize;
          if negb ok then alloc_fragments ps cands fragments remaining
          else
            let fragment := {| fr_PlaneID := pl_ID plane; fr_StartZ := startZ; fr_Size := allocSize;
                               fr_IsFirst := match fragments with [] => true | _ => false end |} in
            alloc_fragments (<[i := plane']> ps) cands (fragments ++ [fragment])
              (u32 (remaining - allocSize))
  end.

(** Undo the fragments of a failed attempt, one after the other. *)
Definition rollback_fragment (ps : list Plane) (frag : Fragment) : list Plane :=
  match plane_index (fr_PlaneID frag) ps with
  | None => ps
  | Some i =>
      alter (fun p => with_Allocations (delete (fr_StartZ frag) (pl_Allocations p))
        (with_FreeMap (ClearRange (pl_FreeMap p) (fr_StartZ frag)
           (u16 (fr_StartZ frag + fr_Size frag))) p)) i ps
  end.

Definition rollback (ps : list Plane) (frags : list Fragment) : list Plane :=
  foldl rollback_fragment ps frags.

(** The plane, offset and address recorded for the first fragment; the zero
    values of the variables when there is none. *)
Definition first_fragment (regionID : Z) (fragments : list Fragment) : Z * Z * Address3D :=
  match fragments with
  | [] => (0, 0, NewAddress 0 0 0)
  | f :: _ => (fr_PlaneID f, fr_StartZ f, NewAddress regionID (fr_PlaneID f) (fr_StartZ f))
  end.

Definition tryYPromotion `{GoRuntime} (h : Heap) (a : Allocator3D) (size regionType flags : Z)
    : res (Heap * Allocator3D * option loc) :=
  let planeSize := cf_PlaneSize (ac_config a) in
  if planeSize =? 0 then Panic (* integer divide by zero *)
  else
  let planesNeeded := u32 (u32 (size + planeSize) - 1) / planeSize in
  if cf_MaxYPromotions (ac_config a) <? planesNeeded then Ret (h, a, None)
  else
  best ← best_region (ac_regions a) size regionType planesNeeded (rt_range 0 (ac_regions a)) None 0;
  match best with
  | None => Ret (h, a, None)
  | Some k =>
      bestRegion ← deref (ac_regions a !! k);
      '(ps, fragments, remaining) ←
        alloc_fragments (rg_Planes bestRegion) (candidates (rg_Planes bestRegion)) [] size;
      if 0 <? remaining then
        Ret (h, set_region (with_Planes (rollback ps fragments) bestRegion) a, None)
      else
        let '(firstPlaneID, firstStartZ, firstAllocAddr) := first_fragment (rg_ID bestRegion) fragments in
        let allocID := u64 (ac_nextAllocID a + 1) in
        let alloc := {| al_ID := allocID; al_Address := firstAllocAddr; al_Size := size;
          al_RegionType := regionType; al_Flags := flags; al_CreatedAt := rt_now 0;
          al_LastUsed := rt_now 1; al_AccessCount := 0; al_GasUsed := 0;
          al_Fragments := fragments; al_Next := None |} in
        let '(h, l) := heap_new h alloc in
        let ps := match plane_index firstPlaneID ps with
          | None => ps
          | Some i => alter (fun p => with_Allocations (<[firstStartZ := l]> (pl_Allocations p)) p) i ps
          end in
        let r := with_stats (u64 (rg_AllocCount bestRegion + 1))
                   (sub_idiom32 (rg_FreeBytes bestRegion) size) (rg_TotalBytes bestRegion)
                   (with_Planes ps bestRegion) in
        let a := promoteRegionLRU (set_region r (with_next (ac_nextRegionID a) allocID a))
                   (rg_ID bestRegion) in
        Ret (h, with_counts (st_Frees (ac_stats a)) (u64 (st_YPromotions (ac_stats a) + 1)) a, Some l)
  end.

(** ** A new region *)

Definition allocateNewRegion `{GoRuntime} (h : Heap) (a : Allocator3D) (size regionType flags : Z)
    : res (Heap * Allocator3D * (error + loc)) :=
  let regionID := u64 (ac_nextRegionID a + 1) in
  let a := with_next regionID (ac_nextAllocID a) a in
  let region := NewRegion (rt_now 2) regionID regionType in
  let plane := getPlaneFromPool a 0 regionID in
  let region := AddPlane region plane in
  let a := with_regions (<[regionID := region]> (ac_regions a)) a in
  if size <=? Plane_FreeBytes plane then
    '(plane, startZ, ok) ← Plane_Allocate plane (u16 size);
    if negb ok then Ret (h, a, inl ErrNewPlane)
    else
      let '(h, a, l) := record_allocation (rt_now 3) h a region 0 plane startZ size regionType flags in
      Ret (h, a, inr l)
  else Ret (h, a, inl (ErrInsufficientMemory size)).

(** ** Allocate *)

Definition allocateSync `{GoRuntime} (h : Heap) (a : Allocator3D) (size regionType flags : Z)
    : res (Heap * Allocator3D * (error + loc)) :=
  fast ← tryFastAllocation h a size regionType;
  match fast with
  | Some (h, a, l) => Ret (h, a, inr l)
  | None =>
      '(h, a, promoted) ← tryYPromotion h a size regionType flags;
      match promoted with
      | Some l => Ret (h, a, inr l)
      | None => allocateNewRegion h a size regionType flags
      end
  end.

(** What a worker sends back for a request. *)
Definition doAllocate `{GoRuntime} (h : Heap) (a : Allocator3D) (size regionType flags : Z)
    : res (Heap * Allocator3D * (error + loc)) :=
  allocateSync h a size regionType flags.

(** The request queue is full (and the caller allocates itself), or a worker
    takes the request; without workers the caller waits for ever. *)
Definition allocateConcurrent `{GoRuntime} (queueFull : bool) (h : Heap) (a : Allocator3D)
    (size regionType flags : Z) : res (Heap * Allocator3D * (error + loc)) :=
  if queueFull then allocateSync h a size regionType flags
  else if cf_WorkerCount (ac_config a) <=? 0 then Hang
  else doAllocate h a size regionType flags.

Definition Allocate `{GoRuntime} (queueFull : bool) (h : Heap) (a : Allocator3D)
    (size regionType flags : Z) : res (Heap * Allocator3D * (error + loc)) :=
  if cf_EnableConcurrent (ac_config a) then allocateConcurrent queueFull h a size regionType flags
  else allocateSync h a size regionType flags.

(** ** Free *)

(** Free the fragments of a promoted allocation; a plane that is missing or
    refuses is skipped. *)
Fixpoint free_fragments (h : Heap) (ps : list Plane) (frags : list Fragment) : res (list Plane) :=
  match frags with
  | [] => Ret ps
  | f :: frags =>
      match plane_index (fr_PlaneID f) ps with
      | None => free_fragments h ps frags
      | Some i =>
          plane ← deref (ps !! i);
          '(plane', _) ← Plane_Free h plane (fr_StartZ f);
          free_fragments h (<[i := plane']> ps) frags
      end
  end.

(** The common end of [freeSync]. *)
Definition free_stats (a : Allocator3D) (r : Region) (ps : list Plane) (size : Z) : Allocator3D :=
  let r := with_stats (u64 (rg_AllocCount r + not64 0)) (u64 (rg_FreeBytes r + size))
             (rg_TotalBytes r) (with_Planes ps r) in
  let a := set_region r a in
  with_counts (u64 (st_Frees (ac_stats a) + 1)) (st_YPromotions (ac_stats a)) a.

Definition freeSync (h : Heap) (a : Allocator3D) (l : loc) : res (Allocator3D * option error) :=
  alloc ← deref (heap_get h l);
  let addr := al_Address alloc in
  match ac_regions a !! aX addr with
  | None => Ret (a, Some (ErrRegionNotFound (aX addr)))
  | Some region =>
      if IsYPromoted alloc then
        ps ← free_fragments h (rg_Planes region) (al_Fragments alloc);
        Ret (free_stats a region ps (al_Size alloc), None)
      else match plane_index (aY addr) (rg_Planes region) with
      | None => Ret (a, Some (ErrPlaneNotFound (aY addr)))
      | Some i =>
          plane ← deref (rg_Planes region !! i);
          '(plane', ok) ← Plane_Free h plane (aZ addr);
          if negb ok then Ret (a, Some (ErrFreeFailed addr))
          else Ret (free_stats a region (<[i := plane']> (rg_Planes region)) (al_Size alloc), None)
      end
  end.

Definition freeConcurrent (h : Heap) (a : Allocator3D) (l : loc) : res (Allocator3D * option error) :=
  freeSync h a l.

Definition Free (h : Heap) (a : Allocator3D) (l : loc) : res (Allocator3D * option error) :=
  if cf_EnableConcurrent (ac_config a) then freeConcurrent h a l else freeSync h a l.

(** ** Allocation in a given region *)

(** The comment asks the caller to hold the region's write lock; [AddPlane]
    takes that lock itself, and Go's locks are not reentrant.  [locked] says
    whether the caller does hold it. *)
Definition AllocateInRegion `{GoRuntime} (locked : bool) (h : Heap) (a : Allocator3D)
    (size : Z) (k : Z) (flags : Z) : res (Heap * Allocator3D * (error + loc)) :=
  region ← deref (ac_regions a !! k);
  found ← alloc_in_planes size (rg_Planes region);
  match found with
  | Some (i, plane, startZ) =>
      let '(h, a, l) :=
        record_allocation (rt_now 0) h a region i plane startZ size (rg_Type region) flags in
      Ret (h, a, inr l)
  | None =>
      let newPlaneID := u32 (Z.of_nat (length (rg_Planes region))) in
      let plane := getPlaneFromPool a newPlaneID (rg_ID region) in
      if locked then Hang
      else
        let i := length (rg_Planes region) in
        let region := AddPlane region plane in
        let a := set_region region a in
        if size <=? Plane_FreeBytes plane then
          '(plane, startZ, ok) ← Plane_Allocate plane (u16 size);
          if ok : bool then
            let '(h, a, l) :=
              record_allocation (rt_now 1) h a region i plane startZ size (rg_Type region) flags in
            Ret (h, a, inr l)
          else Ret (h, a, inl ErrAllocateInRegion)
        else Ret (h, a, inl ErrAllocateInRegion)
  end.

(** ** Compaction analysis *)

Definition Allocator_GetCompactionReport (a : Allocator3D) : gmap Z CompactionReport :=
  map_fold (fun _ region report => <[rg_ID region := GetCompactionReport region]> report)
    ∅ (ac_regions a).

Record CompactionConfig := mkCompactionConfig {
  cc_FragmentationThreshold : float64;
  cc_MaxAllocationsToMove : Z;
  cc_GasRefundPercentage : float64 }.

Definition DefaultCompactionConfig : CompactionConfig :=
  {| cc_FragmentationThreshold := f64_ratio 3 10; cc_MaxAllocationsToMove := 10;
     cc_GasRefundPercentage := f64_ratio 1 2 |}.

(** The allocations of one plane, in iteration order; [true] when the limit is reached. *)
Fixpoint movable_in_plane (h : Heap) (max : Z) (m : gmap Z loc) (keys : list Z) (acc : list Z)
    : res (list Z * bool) :=
  match keys with
  | [] => Ret (acc, false)
  | k :: keys =>
      l ← deref (m !! k);
      alloc ← deref (heap_get h l);
      if negb (Z.land (al_Flags alloc) FlagPinned =? 0) || IsYPromoted alloc
      then movable_in_plane h max m keys acc
      else
        let acc := acc ++ [al_ID alloc] in
        if max <=? Z.of_nat (length acc) then Ret (acc, true)
        else movable_in_plane h max m keys acc
  end.

Fixpoint movable_in_planes `{GoRuntime} (h : Heap) (max : Z) (ps : list Plane) (acc : list Z)
    : res (list Z * bool) :=
  match ps with
  | [] => Ret (acc, false)
  | p :: ps =>
      '(acc, stop) ← movable_in_plane h max (pl_Allocations p) (rt_range 1 (pl_Allocations p)) acc;
      if stop : bool then Ret (acc, true) else movable_in_planes h max ps acc
  end.

Fixpoint movable_in_regions `{GoRuntime} (h : Heap) (a : Allocator3D) (config : CompactionConfig)
    (keys : list Z) (acc : list Z) : res (list Z) :=
  match keys with
  | [] => Ret acc
  | k :: keys =>
      region ← deref (ac_regions a !! k);
      let report := GetCompactionReport region in
      if negb (cr_RecommendCompact report) ||
         f64_ltb (cr_Fragmentation report) (cc_FragmentationThreshold config)
      then movable_in_regions h a config keys acc
      else
        '(acc, stop) ← movable_in_planes h (cc_MaxAllocationsToMove config) (rg_Planes region) acc;
        if stop : bool then Ret acc else movable_in_regions h a config keys acc
  end.

Definition AnalyzeCompaction `{GoRuntime} (h : Heap) (a : Allocator3D) (config : CompactionConfig)
    : res (list Z) :=
  movable_in_regions h a config (rt_range 0 (ac_regions a)) [].
