(* ===== verification/AllocatorInv.v ===== *)
(** * Correctness of the allocator

    The invariant of the whole allocator state, its preservation by allocation
    and release, and what each operation does to the live allocations. *)
From S2P Require Import Prelude Words Float64 Address Errors Bitmap Plane Region Allocator.

(** ** The invariant *)

Record alloc_inv (h : Heap) (a : Allocator3D) : Prop := {
  ai_heap : heap_ok h;
  ai_regions : forall k r, ac_regions a !! k = Some r -> rg_ID r = k /\ region_inv h r;
  ai_next : forall k r, ac_regions a !! k = Some r -> k <= ac_nextRegionID a;
  ai_lru_live : Forall (fun k => is_Some (ac_regions a !! k)) (ac_regionLRU a);
  ai_lru_nodup : NoDup (ac_regionLRU a);
  ai_lru_len : (length (ac_regionLRU a) <= 100)%nat;
  ai_config : 0 < cf_PlaneSize (ac_config a) < 65536;
}.

(** No search for at most [size] bytes meets a 16-bit wrap-around. *)
Definition alloc_safe (a : Allocator3D) (size : Z) : Prop :=
  forall k r p n, ac_regions a !! k = Some r -> p ∈ rg_Planes r ->
    0 < n <= size -> n <= bm_size (pl_FreeMap p) -> find_safe (pl_FreeMap p) n.

(** The region counter can still grow. *)
Definition ids_left (a : Allocator3D) : Prop := 0 <= ac_nextRegionID a < 18446744073709551615.

(** [l] is recorded in the map of a plane of some region. *)
Definition live (a : Allocator3D) (l : loc) : Prop :=
  exists k r, ac_regions a !! k = Some r /\ l ∈ region_locs (rg_Planes r).

(** With planes of at most 32 KiB no request can wrap. *)
Lemma alloc_safe_small a size :
  (forall k r p, ac_regions a !! k = Some r -> p ∈ rg_Planes r -> bm_size (pl_FreeMap p) <= 32768) ->
  alloc_safe a size.
Proof. intros H k r p n Hk Hp Hn Hle. apply find_safe_small; [by eapply H | done]. Qed.

(** ** Heap extension *)

(** [h'] has every object of [h], unchanged. *)
Definition heap_extends (h h' : Heap) : Prop :=
  forall l, is_Some (heap_get h l) -> heap_get h' l = heap_get h l.

Lemma heap_extends_refl h : heap_extends h h.
Proof. by intros l _. Qed.

Lemma heap_extends_new h al : heap_ok h -> heap_extends h (heap_new h al).1.
Proof. intros Hok l Hl. by apply heap_new_get. Qed.

Lemma region_inv_heap h h' r : region_inv h r -> heap_extends h h' -> region_inv h' r.
Proof.
  intros Hr Hext.
  assert (region_allocs h' (rg_Planes r) = region_allocs h (rg_Planes r)) as Hal.
  { apply region_allocs_heap. intros p z l Hp Hl. apply Hext. by eapply region_heap_get. }
  constructor; rewrite ?Hal; try apply Hr.
  intros p z l Hp Hl. destruct (ri_entries h r Hr p z l Hp Hl) as (al & Hal' & ?).
  exists al. rewrite Hext; eauto.
Qed.

(** ** The LRU list *)

Lemma remove_first_elem id x l : x ∈ remove_first id l -> x ∈ l.
Proof.
  induction l as [|y l IH]; simpl; [done|]. case_bool; [by right|].
  rewrite !elem_of_cons. tauto.
Qed.

Lemma remove_first_nodup id l : NoDup l -> NoDup (remove_first id l) /\ id ∉ remove_first id l.
Proof.
  induction 1 as [|y l Hy Hl [IH1 IH2]]; simpl; [split; [constructor | apply not_elem_of_nil]|].
  case_bool; [subst; done|]. split.
  - constructor; [|done]. by intros ?%remove_first_elem.
  - rewrite not_elem_of_cons. split; [congruence | done].
Qed.

Lemma remove_first_length id l : (length (remove_first id l) <= length l)%nat.
Proof. induction l as [|y l IH]; simpl; [done|]. case_bool; simpl; lia. Qed.

Lemma removelast_sub {A} (l : list A) x : x ∈ removelast l -> x ∈ l.
Proof.
  induction l as [|y [|z l] IH]; [done | by intros ?%not_elem_of_nil |].
  change (removelast (y :: z :: l)) with (y :: removelast (z :: l)).
  rewrite !elem_of_cons in *. intros [?|?%IH]; tauto.
Qed.

Lemma removelast_nodup {A} (l : list A) : NoDup l -> NoDup (removelast l).
Proof.
  induction 1 as [|y [|z l] Hy Hl IH]; [constructor | constructor |].
  change (removelast (y :: z :: l)) with (y :: removelast (z :: l)).
  constructor; [|done]. by intros ?%removelast_sub.
Qed.

Lemma removelast_length {A} (l : list A) : length (removelast l) = pred (length l).
Proof.
  induction l as [|y [|z l] IH]; [done..|].
  change (removelast (y :: z :: l)) with (y :: removelast (z :: l)). simpl in *. by rewrite IH.
Qed.

(** The list after a promotion, for a region that exists. *)
Definition promoted_lru (l : list Z) (id : Z) : list Z :=
  let l := id :: remove_first id l in
  if (100 <? Z.of_nat (length l)) then removelast l else l.

Lemma promote_eq a id :
  is_Some (ac_regions a !! id) ->
  promoteRegionLRU a id = with_lru (promoted_lru (ac_regionLRU a) id) a.
Proof. intros [r Hr]. unfold promoteRegionLRU. by rewrite Hr. Qed.

Lemma promoted_lru_spec l id :
  NoDup l -> (length l <= 100)%nat ->
  NoDup (promoted_lru l id) /\ (length (promoted_lru l id) <= 100)%nat /\
  (forall x, x ∈ promoted_lru l id -> x = id \/ x ∈ l) /\ head (promoted_lru l id) = Some id.
Proof.
  intros Hnd Hlen. destruct (remove_first_nodup id l Hnd) as [Hn Hid].
  pose proof (remove_first_length id l). unfold promoted_lru.
  assert (NoDup (id :: remove_first id l)) by (by constructor).
  assert (forall x, x ∈ id :: remove_first id l -> x = id \/ x ∈ l) as Hsub.
  { intros x [->|?%remove_first_elem]%elem_of_cons; tauto. }
  cbv zeta. destruct (Z.ltb_spec 100 (Z.of_nat (length (id :: remove_first id l)))) as [Hgt|Hle].
  - split_and!; [by apply removelast_nodup | rewrite removelast_length; simpl in *; lia | |].
    + intros x ?%removelast_sub. by apply Hsub.
    + destruct (remove_first id l) eqn:E; [simpl in Hgt; lia | done].
  - split_and!; [done | lia | done | done].
Qed.

Lemma promote_inv h a id :
  alloc_inv h a -> is_Some (ac_regions a !! id) -> alloc_inv h (promoteRegionLRU a id).
Proof.
  intros [H1 H2 H3 H4 H5 H6 H7] Hid. rewrite promote_eq by done.
  destruct (promoted_lru_spec (ac_regionLRU a) id H5 H6) as (? & ? & Hsub & _).
  constructor; try done. simpl. apply Forall_forall. intros x [->|Hx]%Hsub; [done|].
  rewrite Forall_forall in H4. by apply H4.
Qed.

(** ** Changing one region *)

Lemma set_region_inv h h' a r k r0 :
  alloc_inv h a -> heap_ok h' -> heap_extends h h' ->
  ac_regions a !! k = Some r0 -> rg_ID r = k -> region_inv h' r ->
  alloc_inv h' (set_region r a).
Proof.
  intros [H1 H2 H3 H4 H5 H6 H7] Hok Hext Hk Hid Hr. constructor; simpl; try done.
  - intros k' r'. rewrite Hid. destruct (decide (k' = k)) as [->|Hne].
    + rewrite lookup_insert_eq. intros [= <-]. done.
    + rewrite lookup_insert_ne by done. intros Hk'. destruct (H2 k' r' Hk') as [? ?].
      split; [done|]. by eapply region_inv_heap.
  - intros k' r'. rewrite Hid. destruct (decide (k' = k)) as [->|Hne].
    + intros _. by eapply H3.
    + rewrite lookup_insert_ne by done. apply H3.
  - apply Forall_forall. intros x Hx. rewrite Forall_forall in H4. specialize (H4 x Hx).
    destruct (decide (x = rg_ID r)) as [->|]; [rewrite lookup_insert_eq; eauto|].
    by rewrite lookup_insert_ne.
Qed.

Lemma with_next_alloc_inv h a n : alloc_inv h a -> alloc_inv h (with_next (ac_nextRegionID a) n a).
Proof. by intros [H1 H2 H3 H4 H5 H6 H7]. Qed.

Lemma with_counts_inv h a f y : alloc_inv h a -> alloc_inv h (with_counts f y a).
Proof. by intros [H1 H2 H3 H4 H5 H6 H7]. Qed.

(** ** What a successful allocation does *)

(** Every region of [a] is still there, with the same planes and data. *)
Definition frame (a a' : Allocator3D) : Prop :=
  forall k r, ac_regions a !! k = Some r ->
    exists r', ac_regions a' !! k = Some r' /\ region_frame r r'.

Lemma frame_refl a a' : ac_regions a' = ac_regions a -> frame a a'.
Proof. intros E k r Hk. exists r. by rewrite E. Qed.

Lemma frame_trans a1 a2 a3 : frame a1 a2 -> frame a2 a3 -> frame a1 a3.
Proof.
  intros H12 H23 k r Hk. destruct (H12 k r Hk) as (r2 & Hk2 & A1 & A2 & A3 & A4).
  destruct (H23 k r2 Hk2) as (r3 & Hk3 & B1 & B2 & B3 & B4). exists r3. split; [done|].
  unfold region_frame. split_and!; congruence.
Qed.

Lemma frame_set_region a r k r0 :
  ac_regions a !! k = Some r0 -> rg_ID r = k -> region_frame r0 r -> frame a (set_region r a).
Proof.
  intros Hk Hid Hf k' r' Hk'. simpl. rewrite Hid. destruct (decide (k' = k)) as [->|Hne].
  - exists r. rewrite lookup_insert_eq. split; [done|]. by simplify_eq.
  - exists r'. by rewrite lookup_insert_ne.
Qed.

Record alloc_result (h : Heap) (a : Allocator3D) (h' : Heap) (a' : Allocator3D) (l : loc)
    (size regionType : Z) : Prop := {
  ar_inv : alloc_inv h' a';
  ar_ext : heap_extends h h';
  ar_fresh : heap_get h l = None;
  ar_obj : exists al, heap_get h' l = Some al /\ al_Size al = size /\
    al_RegionType al = regionType /\ sumZ (fun ye => ye.2.2) (al_extents al) = size;
  ar_live : forall l0, live a' l0 <-> l0 = l \/ live a l0;
  ar_next : ac_nextRegionID a <= ac_nextRegionID a' <= ac_nextRegionID a + 1;
  ar_config : ac_config a' = ac_config a;
  ar_frame : frame a a';
  ar_new : forall k r', ac_regions a' !! k = Some r' -> ac_regions a !! k = None ->
    length (rg_Planes r') = 1%nat /\
    Forall (fun p => bm_size (pl_FreeMap p) = cf_PlaneSize (ac_config a)) (rg_Planes r');
}.

Lemma live_set_region_cons a r k r0 l l0 :
  ac_regions a !! k = Some r0 -> rg_ID r = k ->
  region_locs (rg_Planes r) ≡ₚ l :: region_locs (rg_Planes r0) ->
  live (set_region r a) l0 <-> l0 = l \/ live a l0.
Proof.
  intros Hk Hid Hl. unfold live. simpl. rewrite Hid. split.
  - intros (k' & r' & Hk' & Hin). destruct (decide (k' = k)) as [->|Hne].
    + rewrite lookup_insert_eq in Hk'. injection Hk' as <-. rewrite Hl in Hin.
      apply elem_of_cons in Hin as [->|Hin]; [by left|]. right. eauto.
    + rewrite lookup_insert_ne in Hk' by done. right. eauto.
  - intros [->|(k' & r' & Hk' & Hin)].
    + exists k, r. rewrite lookup_insert_eq, Hl. split; [done|]. by left.
    + destruct (decide (k' = k)) as [->|Hne].
      * exists k, r. rewrite lookup_insert_eq, Hl. split; [done|]. right. congruence.
      * exists k', r'. by rewrite lookup_insert_ne.
Qed.

Lemma live_regions_eq a a' l : ac_regions a' = ac_regions a -> live a' l <-> live a l.
Proof. intros H. unfold live. by rewrite H. Qed.

Lemma promote_regions a id : ac_regions (promoteRegionLRU a id) = ac_regions a.
Proof. unfold promoteRegionLRU. by destruct (ac_regions a !! id). Qed.

Lemma promote_next a id : ac_nextRegionID (promoteRegionLRU a id) = ac_nextRegionID a.
Proof. unfold promoteRegionLRU. by destruct (ac_regions a !! id). Qed.

Lemma promote_config a id : ac_config (promoteRegionLRU a id) = ac_config a.
Proof. unfold promoteRegionLRU. by destruct (ac_regions a !! id). Qed.

Lemma heap_fresh_None h : heap_ok h -> heap_get h (h_next h) = None.
Proof. intros Hok. destruct (heap_get h (h_next h)) eqn:E; [|done]. apply Hok in E. lia. Qed.

(** Recording an allocation whose extents are pending in region [k]. *)
Lemma commit_result h a k r F ps i p al z n rest id :
  alloc_inv h a -> ac_regions a !! k = Some r ->
  pending (base h r) (rg_Planes r) F ps -> ps !! i = Some p ->
  al_extents al ≡ₚ F -> al_extents al = (pl_ID p, (z, n)) :: rest ->
  al_Address al = NewAddress (rg_ID r) (pl_ID p) z ->
  sumZ (fun ye => ye.2.2) F = al_Size al -> 0 < al_Size al < 4294967296 ->
  let h' := (heap_new h al).1 in
  let l := (heap_new h al).2 in
  let r' := with_stats (u64 (rg_AllocCount r + 1)) (sub_idiom32 (rg_FreeBytes r) (al_Size al))
              (rg_TotalBytes r)
              (with_Planes (<[i := with_Allocations (<[z := l]> (pl_Allocations p)) p]> ps) r) in
  let a' := promoteRegionLRU (set_region r' (with_next (ac_nextRegionID a) id a)) (rg_ID r) in
  alloc_result h a h' a' l (al_Size al) (al_RegionType al).
Proof.
  intros Ha Hk Hpd Hi Hext Hfirst Haddr Hsum Hsize h' l r' a'.
  destruct (ai_regions h a Ha k r Hk) as [Hid Hr]. pose proof (ai_heap h a Ha) as Hok.
  pose proof (region_commit h r F ps i p al z n rest Hr Hok Hpd Hi Hext Hfirst Haddr Hsum Hsize) as Hr'.
  pose proof (commit_locs h r F ps i p al z n rest Hr Hpd Hi Hext Hfirst) as Hlocs.
  assert (alloc_inv h' (set_region r' (with_next (ac_nextRegionID a) id a))) as Hs.
  { eapply (set_region_inv h h' _ r' k r); [by apply with_next_alloc_inv | by apply heap_new_ok |
      by apply heap_extends_new | done | done | done]. }
  constructor.
  - apply promote_inv; [done|]. simpl. rewrite lookup_insert_eq. eauto.
  - by apply heap_extends_new.
  - by apply heap_fresh_None.
  - exists al. split_and!; [apply heap_new_self | done | done |]. by rewrite Hext.
  - intros l0. rewrite (live_regions_eq _ a') by apply promote_regions.
    rewrite (live_set_region_cons _ _ k r l); [| done | done | exact Hlocs].
    by rewrite (live_regions_eq a).
  - unfold a'. rewrite promote_next. simpl. lia.
  - unfold a'. by rewrite promote_config.
  - eapply frame_trans; [|by apply frame_refl, promote_regions].
    pose proof (commit_frame h r F ps i p al z Hpd Hi) as Hf.
    exact (frame_set_region (with_next _ id a) r' k r Hk Hid Hf).
  - intros k' r1. unfold a'. rewrite promote_regions. simpl. rewrite Hid.
    destruct (decide (k' = k)) as [->|Hne]; [congruence|]. rewrite lookup_insert_ne by done. congruence.
Qed.

(** ** Fast path *)

Lemma fits_FreeBytes b n s : bitmap_wf b -> 0 <= n -> fits b n s -> n <= FreeBytes b.
Proof.
  intros Hwf Hn (H0 & H1 & H2). destruct (SetRange_spec b s (s + n) Hwf H0) as (W & S & B).
  rewrite FreeBytes_used by done. pose proof (used_range _ W) as Hu. rewrite S in Hu.
  rewrite (used_range_upd b _ s (s + n) true) in Hu by (done || lia). lia.
Qed.

Lemma FreeBytes_size b : bitmap_wf b -> 0 <= FreeBytes b <= bm_size b.
Proof. intros Hwf. rewrite FreeBytes_used by done. pose proof (used_range b Hwf). lia. Qed.

(** The plane loop finds the first plane that has room, if any has. *)
(** The lowest place of the first plane that has room. *)
Record first_place (size : Z) (ps : list Plane) (i : nat) (p : Plane) (z : Z) : Prop := {
  fp_plane : ps !! i = Some p;
  fp_fits : fits (pl_FreeMap p) size z;
  fp_lowest : forall q, q < z -> ~ fits (pl_FreeMap p) size q;
  fp_first : forall j p' q, (j < i)%nat -> ps !! j = Some p' -> ~ fits (pl_FreeMap p') size q;
}.

Lemma first_place_cons size q ps i p z : (forall s, ~ fits (pl_FreeMap q) size s) ->
  first_place size ps i p z -> first_place size (q :: ps) (S i) p z.
Proof.
  intros Hno [F1 F2 F3 F4]. constructor; [done..|]. intros [|j] p' s Hj Hp'; simpl in Hp'; [by simplify_eq|].
  apply (F4 j p' s); [lia | done].
Qed.

Lemma alloc_in_planes_spec size ps :
  0 < size ->
  Forall (fun p => exists E, tracks (pl_FreeMap p) E) ps ->
  (forall p, p ∈ ps -> size <= bm_size (pl_FreeMap p) -> find_safe (pl_FreeMap p) size) ->
  exists o, alloc_in_planes size ps = Ret o /\
    match o with
    | Some (i, p', z) => exists p, first_place size ps i p z /\
        p' = with_FreeMap (SetRange (pl_FreeMap p) z (z + size)) p
    | None => forall p s, p ∈ ps -> ~ fits (pl_FreeMap p) size s
    end.
Proof.
  intros Hpos Ht Hsafe. induction Ht as [|p ps [E HE] Ht IH].
  { exists None. split; [done|]. intros p s Hp. by apply not_elem_of_nil in Hp. }
  destruct IH as (o & Ho & Hpost); [intros q Hq; apply Hsafe; by right|].
  pose proof (tr_wf _ _ HE) as Hwf. pose proof (wf_size _ Hwf) as Hsz. unfold is_u16 in Hsz.
  pose proof (FreeBytes_size _ Hwf) as Hfs. cbn [alloc_in_planes]. rewrite Ho. cbn [mbind res_bind].
  assert ((forall s, ~ fits (pl_FreeMap p) size s) ->
    match match o with Some (i, q, z) => Some (S i, q, z) | None => None end with
    | Some (i, p', z) => exists p0, first_place size (p :: ps) i p0 z /\
        p' = with_FreeMap (SetRange (pl_FreeMap p0) z (z + size)) p0
    | None => forall p0 s, p0 ∈ p :: ps -> ~ fits (pl_FreeMap p0) size s
    end) as Hnext.
  { intros Hno. destruct o as [[[i q] z]|].
    { destruct Hpost as (p0 & Hf & ->). exists p0. split; [by apply first_place_cons | done]. }
    intros p0 s [->|Hin]%elem_of_cons; [apply Hno|].
    by apply Hpost. }
  unfold Plane_FreeBytes. destruct (Z.leb_spec size (FreeBytes (pl_FreeMap p))) as [Hle|Hgt].
  - rewrite u16_small by (unfold is_u16; lia).
    destruct (Plane_Allocate_spec p E size HE) as (p' & s & ok & -> & Hok); [lia | |].
    { apply Hsafe; [by left | lia]. }
    cbn [mbind res_bind]. destruct ok.
    + eexists. split; [done|]. destruct Hok as (_ & Hf & Hlow & -> & _). exists p.
      split; [|done]. constructor; [done..|]. intros j p' q Hj. lia.
    + eexists. split; [done|]. apply Hnext. destruct Hok as (_ & _ & Hno). by apply Hno.
  - eexists. split; [done|]. apply Hnext. intros s Hf. apply fits_FreeBytes in Hf; [lia | done | lia].
Qed.

(** The object [record_allocation] makes. *)
Lemma record_object now h a r i p z size rt flags h' a' l :
  record_allocation now h a r i p z size rt flags = (h', a', l) ->
  exists al, heap_get h' l = Some al /\ IsYPromoted al = false /\ al_Size al = size /\
    al_Address al = NewAddress (rg_ID r) (pl_ID p) z.
Proof.
  unfold record_allocation. intros Hx. cbv zeta in Hx. set (al0 := with_Flags flags _) in Hx.
  destruct (heap_new h al0) as [h1 l1] eqn:En. injection Hx as <- <- <-. exists al0.
  pose proof (heap_new_self h al0) as Hs. rewrite En in Hs. done.
Qed.

Lemma region_tracks_some h r :
  region_inv h r -> Forall (fun p => exists E, tracks (pl_FreeMap p) E) (rg_Planes r).
Proof. intros Hr. eapply Forall_impl; [apply (ri_tracks h r Hr)|]. simpl. eauto. Qed.

(** Recording a single-plane allocation found by the plane loop. *)
Lemma record_result now h a k r i p z size rt flags :
  alloc_inv h a -> ac_regions a !! k = Some r -> rg_Planes r !! i = Some p ->
  0 < size < 4294967296 -> fits (pl_FreeMap p) size z ->
  let '(h', a', l) := record_allocation now h a r i
    (with_FreeMap (SetRange (pl_FreeMap p) z (z + size)) p) z size rt flags in
  alloc_result h a h' a' l size rt /\ ac_nextRegionID a' = ac_nextRegionID a.
Proof.
  intros Ha Hk Hi Hsz Hf. destruct (ai_regions h a Ha k r Hk) as [Hid Hr].
  set (p' := with_FreeMap (SetRange (pl_FreeMap p) z (z + size)) p).
  pose proof (pending_alloc _ _ [] _ i p size z (ri_nodup h r Hr) (region_pending_nil h r Hr) Hi
    ltac:(lia) Hf) as Hpd. fold p' in Hpd.
  set (al := with_Flags flags (NewAllocation now (u64 (ac_nextAllocID a + 1))
    {| aX := rg_ID r; aY := pl_ID p'; aZ := z |} size rt)).
  pose proof (commit_result h a k r [(pl_ID p, (z, size))] (<[i := p']> (rg_Planes r)) i p' al z size []
    (u64 (ac_nextAllocID a + 1)) Ha Hk Hpd) as Hres.
  cbv zeta in Hres. unfold record_allocation. fold p'. fold al. cbv zeta.
  rewrite (surjective_pairing (heap_new h al)).
  rewrite list_insert_insert_eq in Hres. split; [apply Hres; try done|].
  - apply list_lookup_insert_eq. by eapply lookup_lt_Some.
  - simpl. lia.
  - by rewrite promote_next.
Qed.

Lemma region_no_fit h r p size s :
  region_inv h r -> p ∈ rg_Planes r -> 0 <= size -> rg_FreeBytes r < size ->
  ~ fits (pl_FreeMap p) size s.
Proof.
  intros Hr Hp Hpos Hlt Hf. pose proof (ri_tracks h r Hr) as Ht. rewrite Forall_forall in Ht.
  pose proof (tr_wf _ _ (Ht p Hp)) as Hwf. apply fits_FreeBytes in Hf; [|done..].
  rewrite (ri_free h r Hr) in Hlt. apply list_elem_of_lookup in Hp as [i Hi].
  assert (Plane_FreeBytes p <= sumZ Plane_FreeBytes (rg_Planes r)).
  { apply (sumZ_lookup_le _ _ i); [|done]. intros q Hq. apply FreeBytes_size.
    apply (tr_wf _ _ (Ht q Hq)). }
  unfold Plane_FreeBytes at 1 in H. lia.
Qed.

Lemma fast_lru_spec now h a size rt lru :
  alloc_inv h a -> 0 < size < 4294967296 -> alloc_safe a size ->
  Forall (fun k => is_Some (ac_regions a !! k)) lru ->
  exists o, fast_lru now h a size rt lru = Ret o /\
    match o with
    | Some (h', a', l) => alloc_result h a h' a' l size rt
    | None => forall k r p s, k ∈ lru -> ac_regions a !! k = Some r -> rg_Type r = rt ->
        p ∈ rg_Planes r -> ~ fits (pl_FreeMap p) size s
    end.
Proof.
  intros Ha Hsz Hsafe Hlru. induction Hlru as [|k lru [r Hk] Hlru (o & Ho & Hpost)].
  { exists None. split; [done|]. intros k r p s Hk. by apply not_elem_of_nil in Hk. }
  destruct (ai_regions h a Ha k r Hk) as [Hid Hr].
  assert ((rg_Type r = rt -> forall p s, p ∈ rg_Planes r -> ~ fits (pl_FreeMap p) size s) ->
    match o with
    | Some (h', a', l) => alloc_result h a h' a' l size rt
    | None => forall k0 r0 p s, k0 ∈ k :: lru -> ac_regions a !! k0 = Some r0 -> rg_Type r0 = rt ->
        p ∈ rg_Planes r0 -> ~ fits (pl_FreeMap p) size s
    end) as Hnext.
  { intros Hno. destruct o as [[[? ?] ?]|]; [done|].
    intros k0 r0 p s [->|Hin]%elem_of_cons Hk0 Ht Hp; [|by eapply Hpost].
    assert (r0 = r) as -> by congruence. by apply Hno. }
  cbn [fast_lru]. rewrite Hk. cbn [deref mbind res_bind].
  destruct (Z.eqb_spec (rg_Type r) rt) as [Ht|Ht]; cbn [negb]; cycle 1.
  { exists o. split; [done|]. apply Hnext. congruence. }
  destruct (Z.ltb_spec (rg_FreeBytes r) size).
  { exists o. split; [done|]. apply Hnext. intros _ p s Hp. eapply region_no_fit; [done..|lia|done]. }
  destruct (alloc_in_planes_spec size (rg_Planes r)) as (f & -> & Hf); [lia | | |].
  { by eapply region_tracks_some. }
  { intros p Hp Hle. eapply (Hsafe k r p size); [done | done | lia | done]. }
  cbn [mbind res_bind]. destruct f as [[[i p'] z]|].
  - destruct Hf as (p & [Hi Hfit _ _] & ->). eexists. split; [done|].
    pose proof (record_result now h a k r i p z size rt 0 Ha Hk Hi Hsz Hfit) as Hres.
    destruct (record_allocation _ _ _ _ _ _ _ _ _ _) as [[h' a'] l]. apply Hres.
  - exists o. split; [done|]. apply Hnext. intros _ p s Hp. by apply Hf.
Qed.

(** ** A new region *)

(** The state with one more, empty, region. *)
Definition add_region `{GoRuntime} (a : Allocator3D) (rt : Z) : Allocator3D :=
  let regionID := u64 (ac_nextRegionID a + 1) in
  let a := with_next regionID (ac_nextAllocID a) a in
  with_regions (<[regionID := AddPlane (NewRegion (rt_now 2) regionID rt)
                                (getPlaneFromPool a 0 regionID)]> (ac_regions a)) a.

Lemma pool_plane a id rid :
  0 < cf_PlaneSize (ac_config a) < 65536 ->
  let p := getPlaneFromPool a id rid in
  pl_ID p = id /\ pl_FreeMap p = NewBitmap (cf_PlaneSize (ac_config a)) /\
  pl_Allocations p = ∅ /\ plane_shape p /\ tracks (pl_FreeMap p) [].
Proof.
  intros Hc. assert (is_u16 (cf_PlaneSize (ac_config a))) as Hu by (unfold is_u16; lia).
  pose proof (NewPlane_shape 0 0 _ Hu) as Hs. pose proof (NewPlane_tracks 0 0 _ Hu) as Ht.
  unfold getPlaneFromPool, plane_shape, NewPlane in *. revert Hs Ht.
  destruct (Z.eqb_spec (cf_PlaneSize (ac_config a)) 0); [lia|].
  by destruct (cf_EnablePooling (ac_config a)); intros Hs Ht.
Qed.

Lemma NewBitmap_free n : is_u16 n -> FreeBytes (NewBitmap n) = n.
Proof. intros Hn. rewrite (tracks_free_bytes _ [] (tracks_new n Hn)). simpl. lia. Qed.

Lemma add_region_region_inv `{GoRuntime} h a rt k :
  0 < cf_PlaneSize (ac_config a) < 65536 ->
  region_inv h (AddPlane (NewRegion (rt_now 2) k rt) (getPlaneFromPool a 0 k)).
Proof.
  intros Hc. destruct (pool_plane a 0 k Hc) as (Hid & Hb & He & Hs & Ht).
  apply AddPlane_inv; try done; [apply NewRegion_inv | apply not_elem_of_nil |].
  destruct Hs as (Hs & _). rewrite Hs, Hb. simpl. lia.
Qed.

Lemma add_region_inv `{GoRuntime} h a rt :
  alloc_inv h a -> ids_left a ->
  alloc_inv h (add_region a rt) /\ ac_regions a !! (ac_nextRegionID a + 1) = None /\
  ac_nextRegionID (add_region a rt) = ac_nextRegionID a + 1 /\
  (forall l, live (add_region a rt) l <-> live a l) /\ frame a (add_region a rt).
Proof.
  intros [H1 H2 H3 H4 H5 H6 H7] Hids. unfold ids_left in Hids. unfold add_region.
  rewrite u64_small by (unfold is_u64; lia). set (k := ac_nextRegionID a + 1).
  assert (ac_regions a !! k = None) as Hnone.
  { destruct (ac_regions a !! k) as [r|] eqn:E; [|done]. apply H3 in E. unfold k in E. lia. }
  set (a1 := with_next k (ac_nextAllocID a) a).
  set (r := AddPlane (NewRegion (rt_now 2) k rt) (getPlaneFromPool a1 0 k)).
  split_and!; try done.
  - constructor; simpl; try done.
    + intros k' r'. destruct (decide (k' = k)) as [->|Hne].
      * rewrite lookup_insert_eq. intros [= <-]. split; [done|]. by apply add_region_region_inv.
      * rewrite lookup_insert_ne by done. apply H2.
    + intros k' r'. destruct (decide (k' = k)) as [->|Hne]; [lia|].
      rewrite lookup_insert_ne by done. intros Hk'. apply H3 in Hk'. unfold k. lia.
    + eapply Forall_impl; [exact H4|]. simpl. intros x [rx Hx].
      rewrite lookup_insert_ne by congruence. eauto.
  - intros l. unfold live. simpl. split.
    + intros (k' & r' & Hk' & Hin). destruct (decide (k' = k)) as [->|Hne].
      * rewrite lookup_insert_eq in Hk'. injection Hk' as <-. exfalso.
        apply elem_of_region_locs in Hin as (p & z & Hp & Hz). unfold r in Hp. simpl in Hp.
        apply list_elem_of_singleton in Hp as ->.
        destruct (pool_plane a1 0 k H7) as (_ & _ & He & _). by rewrite He, lookup_empty in Hz.
      * rewrite lookup_insert_ne in Hk' by done. eauto.
    + intros (k' & r' & Hk' & Hin). exists k', r'. rewrite lookup_insert_ne by congruence. done.
  - intros k' r' Hk'. exists r'. simpl. by rewrite lookup_insert_ne by congruence.
Qed.

(** A failed allocation leaves the new, empty region behind and nothing else. *)
Lemma allocateNewRegion_spec `{GoRuntime} h a size rt flags :
  alloc_inv h a -> ids_left a -> 0 < size < 4294967296 ->
  if size <=? cf_PlaneSize (ac_config a) then
    exists h' a' l, allocateNewRegion h a size rt flags = Ret (h', a', inr l) /\
      alloc_result h a h' a' l size rt
  else allocateNewRegion h a size rt flags =
    Ret (h, add_region a rt, inl (ErrInsufficientMemory size)).
Proof.
  intros Ha Hids Hsz. pose proof (ai_config h a Ha) as Hc.
  destruct (add_region_inv h a rt Ha Hids) as (Hinv & Hnone & Hnext & Hlive & Hfr).
  unfold allocateNewRegion. cbv zeta. set (k := u64 (ac_nextRegionID a + 1)).
  set (a1 := with_next k (ac_nextAllocID a) a). fold (add_region a rt).
  destruct (pool_plane a1 0 k Hc) as (Hid & Hb & He & Hs & Ht). set (p := getPlaneFromPool a1 0 k) in *.
  assert (is_u16 (cf_PlaneSize (ac_config a))) as Hu by (unfold is_u16; lia).
  assert (Plane_FreeBytes p = cf_PlaneSize (ac_config a)) as ->.
  { unfold Plane_FreeBytes. rewrite Hb. by apply NewBitmap_free. }
  destruct (Z.leb_spec size (cf_PlaneSize (ac_config a))) as [Hle|Hgt]; [|done].
  rewrite u16_small by (unfold is_u16; lia).
  assert (fits (pl_FreeMap p) size 0) as Hfit.
  { rewrite Hb. unfold fits. simpl. split_and!; [lia | lia |]. intros. apply NewBitmap_clear. }
  destruct (Plane_Allocate_spec p [] size Ht) as (p' & s & ok & -> & Hok); [lia | by left; exists 0|].
  cbn [mbind res_bind]. destruct ok; [|destruct Hok as (_ & _ & Hno); by destruct (Hno ltac:(lia) 0)].
  destruct Hok as (_ & Hf & _ & -> & _). cbn [negb].
  set (r := AddPlane (NewRegion (rt_now 2) k rt) p).
  assert (ac_regions (add_region a rt) !! k = Some r) as Hk by apply lookup_insert_eq.
  pose proof (record_result (rt_now 3) h (add_region a rt) k r 0 p s size rt flags Hinv Hk
    eq_refl Hsz Hf) as Hres.
  destruct (record_allocation _ _ _ _ _ _ _ _ _ _) as [[h' a'] l].
  exists h', a', l. split; [done|]. destruct Hres as [[R1 R2 R3 R4 R5 R6 R7 R8 R9] Hn].
  constructor; try done.
  - intros l0. by rewrite R5, Hlive.
  - lia.
  - by eapply frame_trans.
  - intros k' r' Hk' Hnone'. destruct (ac_regions (add_region a rt) !! k') as [r1|] eqn:E; [|by eapply R9].
    assert (k' = k) as ->.
    { destruct (decide (k' = k)) as [|Hne]; [done|]. unfold add_region in E. simpl in E.
      fold k in E. rewrite lookup_insert_ne in E by done. congruence. }
    assert (r1 = r) as -> by congruence.
    destruct (R8 k r Hk) as (r2 & Hk2 & _ & _ & _ & Hpf). assert (r2 = r') as -> by congruence.
    split; [apply (f_equal length) in Hpf; by rewrite !length_fmap in Hpf|].
    apply (f_equal (fmap (fun p => bm_size (pl_FreeMap p)))) in Hpf.
    rewrite <- !list_fmap_compose in Hpf. simpl in Hpf. rewrite Hb in Hpf.
    apply Forall_forall. intros q Hq.
    assert (bm_size (pl_FreeMap q) ∈ [cf_PlaneSize (ac_config a)]) as Hin.
    { change [cf_PlaneSize (ac_config a)] with [bm_size (NewBitmap (cf_PlaneSize (ac_config a1)))].
      rewrite <- Hpf. apply list_elem_of_fmap. by exists q. }
    by apply list_elem_of_singleton in Hin.
Qed.
