(* ===== verification/YPromotionInv.v ===== *)
(** * Y-promotion inside the allocator: [tryYPromotion]

    The fragment loop keeps its extents pending on the planes of the chosen
    region; when it falls short the rollback restores the planes exactly, and
    when it succeeds the fragments become one allocation of the region. *)
From S2P Require Import Prelude Words Float64 Address Errors Bitmap Plane Region Allocator AllocatorInv.

Definition frag_extent (f : Fragment) : Z * extent := (fr_PlaneID f, (fr_StartZ f, fr_Size f)).

Section Fragments.
Context (h : Heap) (r : Region).
Hypothesis Hr : region_inv h r.

Notation pend fs ps := (pending (base h r) (rg_Planes r) (frag_extent <$> fs) ps).

Lemma alloc_fragments_spec size ps cands fs rem :
  (forall p n, p ∈ rg_Planes r -> 0 < n <= size -> n <= bm_size (pl_FreeMap p) ->
    find_safe (pl_FreeMap p) n) ->
  pend fs ps -> NoDup cands ->
  (forall i, i ∈ cands -> (i < length ps)%nat /\ ps !! i = rg_Planes r !! i) ->
  0 <= rem <= size -> size < 4294967296 ->
  exists ps' fs' rem', alloc_fragments ps cands fs rem = Ret (ps', fs', rem') /\
    pend fs' ps' /\ 0 <= rem' /\ sumZ fr_Size fs' + rem' = sumZ fr_Size fs + rem.
Proof.
  intros Hsafe. revert ps fs rem. induction cands as [|i cands IH]; intros ps fs rem Hpd Hnd Hc Hrem Hsize.
  { exists ps, fs, rem. split_and!; [done..|lia|lia]. }
  apply NoDup_cons in Hnd as [Hni Hnd]. cbn [alloc_fragments].
  destruct (Z.eqb_spec rem 0) as [|Hrem0]; [exists ps, fs, rem; split_and!; [done..|lia|lia]|].
  destruct (Hc i ltac:(by left)) as [Hlt Heq]. destruct (lookup_lt_is_Some_2 ps i Hlt) as [p Hi].
  rewrite Hi. cbn [deref mbind res_bind].
  destruct (pending_lookup _ _ _ _ _ _ Hpd Hi) as (_ & _ & _ & _ & Ht).
  assert (p ∈ rg_Planes r) as Hp by (apply (list_elem_of_lookup_2 _ i); congruence).
  pose proof (FreeBytes_size _ (tr_wf _ _ Ht)) as Hfb. pose proof (wf_size _ (tr_wf _ _ Ht)) as Hs.
  unfold is_u16 in Hs. unfold Plane_FreeBytes. set (n := min (FreeBytes (pl_FreeMap p)) rem).
  assert (0 <= n <= rem /\ n <= bm_size (pl_FreeMap p)) as [Hn Hnb]
    by (unfold n, min; case_bool; lia). rewrite u16_small by (unfold is_u16; lia).
  assert (forall j, j ∈ cands -> (j < length ps)%nat /\ ps !! j = rg_Planes r !! j) as Hc'.
  { intros j Hj. apply Hc. by right. }
  destruct (Z.eqb_spec n 0) as [|Hn0]; [by apply IH|].
  destruct (Plane_Allocate_spec p _ n Ht) as (p' & s & ok & -> & Hok); [lia | apply Hsafe; [done|lia|lia]|].
  cbn [mbind res_bind]. destruct ok; cbn [negb]; [|by apply IH].
  destruct Hok as (Hpos & Hf & _ & -> & _).
  set (f := {| fr_PlaneID := pl_ID p; fr_StartZ := s; fr_Size := n; fr_IsFirst := _ |}).
  rewrite u32_small by (unfold is_u32; lia).
  edestruct (IH (<[i := with_FreeMap (SetRange (pl_FreeMap p) s (s + n)) p]> ps) (fs ++ [f]) (rem - n))
    as (ps' & fs' & rem' & He & Hpd' & Hrem' & Hsum); [| done | | lia | done |].
  - eapply pending_perm; [|by apply (pending_alloc _ _ _ _ i p n s (ri_nodup h r Hr) Hpd Hi)].
    rewrite fmap_app. apply Permutation_cons_append.
  - intros j Hj. destruct (Hc' j Hj). rewrite length_insert.
    rewrite list_lookup_insert_ne by (intros ->; done). done.
  - exists ps', fs', rem'. split_and!; [done..|]. rewrite Hsum, sumZ_app. simpl. lia.
Qed.

(** Undoing the fragments one by one, in the order they were made, restores
    every free map; the [delete] on the maps finds nothing. *)
Lemma rollback_spec ps fs : pend fs ps -> rollback ps fs = rg_Planes r.
Proof.
  revert ps. induction fs as [|f fs IH]; intros ps Hpd.
  { apply (pending_nil_inv (base h r)); [apply Hr | done]. }
  unfold rollback. cbn [foldl]. apply IH. rewrite fmap_cons in Hpd.
  pose proof (pd_ids _ _ _ _ Hpd) as Hids. apply Forall_cons in Hids as [Hid _]. simpl in Hid.
  rewrite <- (pending_ids _ _ _ _ Hpd) in Hid.
  unfold rollback_fragment. destruct (plane_index (fr_PlaneID f) ps) as [i|] eqn:Ei; cycle 1.
  { by apply plane_index_None in Ei. }
  destruct (plane_index_Some _ _ _ Ei) as (p & Hi & Hpid).
  unfold frag_extent at 1 in Hpd. rewrite <- Hpid in Hpd.
  pose proof (pending_key_fresh _ _ _ _ _ _ _ _ Hr Hpd Hi ltac:(by left)) as Hkey.
  destruct (pending_lookup _ _ _ _ _ _ Hpd Hi) as (_ & _ & _ & _ & Ht).
  rewrite on_plane_cons_eq in Ht. pose proof (tr_bounds _ _ Ht) as Hb.
  apply Forall_cons in Hb as [(? & ? & ?) _]. simpl in *. pose proof (wf_size _ (tr_wf _ _ Ht)) as Hs.
  rewrite u16_small by (unfold is_u16 in *; lia).
  pose proof (pending_clear _ _ _ _ _ _ _ _ (ri_nodup h r Hr) Hpd Hi) as Hclear.
  rewrite (list_alter_insert _ _ _ p) by done. simpl. rewrite delete_id by done. exact Hclear.
Qed.
End Fragments.

(** ** The choice of a region *)

Lemma best_region_spec (m : gmap Z Region) size rt needed keys best bestFree :
  Forall (fun k => is_Some (m !! k)) keys ->
  exists o, best_region m size rt needed keys best bestFree = Ret o /\
    (o = best \/ exists k r, o = Some k /\ k ∈ keys /\ m !! k = Some r /\ rg_Type r = rt).
Proof.
  intros Hk. revert best bestFree. induction Hk as [|k keys [r Hr] Hk IH]; intros best bestFree.
  { exists best. split; [done | by left]. }
  cbn [best_region]. rewrite Hr. cbn [deref mbind res_bind].
  assert (forall b f, (b = best \/ b = Some k /\ rg_Type r = rt) ->
    exists o, best_region m size rt needed keys b f = Ret o /\
    (o = best \/ exists k0 r0, o = Some k0 /\ k0 ∈ k :: keys /\ m !! k0 = Some r0 /\ rg_Type r0 = rt))
    as Hgo.
  { intros b f Hb. destruct (IH b f) as (o & -> & Ho). exists o. split; [done|].
    destruct Ho as [->|(k0 & r0 & -> & Hin & Hm & Ht)].
    - destruct Hb as [->|[-> Ht]]; [by left|]. right. exists k, r. split_and!; [done|by left|done..].
    - right. exists k0, r0. split_and!; [done|by right|done..]. }
  destruct (Z.eqb_spec (rg_Type r) rt) as [Ht|Ht]; cbn [negb]; [|apply Hgo; by left].
  destruct (free_summary (rg_Planes r)) as [tf pf].
  destruct (_ && _ && _); apply Hgo; [by right | by left].
Qed.

Lemma candidates_spec ps i : i ∈ candidates ps -> (i < length ps)%nat.
Proof.
  unfold candidates. rewrite list_elem_of_In, filter_In. intros [Hin _]. apply in_seq in Hin. lia.
Qed.

Lemma candidates_nodup ps : NoDup (candidates ps).
Proof. unfold candidates. apply NoDup_ListNoDup, List.NoDup_filter, seq_NoDup. Qed.

Lemma set_region_same a r : ac_regions a !! rg_ID r = Some r -> set_region r a = a.
Proof.
  intros H. unfold set_region, with_regions. rewrite insert_id by done. by destruct a.
Qed.

Lemma with_Planes_same r : with_Planes (rg_Planes r) r = r.
Proof. by destruct r. Qed.

Lemma alloc_result_counts h a h' a' l size rt f y :
  alloc_result h a h' a' l size rt -> alloc_result h a h' (with_counts f y a') l size rt.
Proof.
  intros [R1 R2 R3 R4 R5 R6 R7 R8 R9]. constructor; try done. by apply with_counts_inv.
Qed.

(** Recording the fragments as one allocation. *)
Lemma fragments_result now now' h a k r ps f fs size rt flags id :
  alloc_inv h a -> ac_regions a !! k = Some r -> 0 < size < 4294967296 ->
  pending (base h r) (rg_Planes r) (frag_extent <$> f :: fs) ps -> sumZ fr_Size (f :: fs) = size ->
  exists i p, ps !! i = Some p /\ plane_index (fr_PlaneID f) ps = Some i /\
  let al := {| al_ID := id; al_Address := NewAddress (rg_ID r) (fr_PlaneID f) (fr_StartZ f);
    al_Size := size; al_RegionType := rt; al_Flags := flags; al_CreatedAt := now;
    al_LastUsed := now'; al_AccessCount := 0; al_GasUsed := 0; al_Fragments := f :: fs;
    al_Next := None |} in
  let h' := (heap_new h al).1 in
  let l := (heap_new h al).2 in
  let r' := with_stats (u64 (rg_AllocCount r + 1)) (sub_idiom32 (rg_FreeBytes r) size)
              (rg_TotalBytes r)
              (with_Planes (<[i := with_Allocations (<[fr_StartZ f := l]> (pl_Allocations p)) p]> ps) r) in
  alloc_result h a h' (promoteRegionLRU (set_region r' (with_next (ac_nextRegionID a) id a)) (rg_ID r))
    l size rt.
Proof.
  intros Ha Hk Hsz Hpd Hsum.
  pose proof (pd_ids _ _ _ _ Hpd) as Hids. apply Forall_cons in Hids as [Hid _]. simpl in Hid.
  rewrite <- (pending_ids _ _ _ _ Hpd) in Hid.
  destruct (plane_index (fr_PlaneID f) ps) as [i|] eqn:Ei; [|by apply plane_index_None in Ei].
  destruct (plane_index_Some _ _ _ Ei) as (p & Hi & Hpid). exists i, p. split_and!; [done..|].
  intros al h' l r'.
  apply (commit_result h a k r (frag_extent <$> f :: fs) ps i p al (fr_StartZ f) (fr_Size f)
    (frag_extent <$> fs)); try done.
  - rewrite Hpid. done.
  - by rewrite Hpid.
  - change (al_Size al) with size. rewrite <- Hsum. clear. induction (f :: fs) as [|g gs IH]; [done|].
    rewrite fmap_cons. simpl in *. lia.
Qed.

(** An attempt either makes an allocation of the requested size or leaves the
    allocator exactly as it was, even when it had already taken fragments. *)
Lemma tryYPromotion_spec `{GoRuntime} h a size rt flags :
  alloc_inv h a -> 0 < size < 4294967296 -> alloc_safe a size ->
  exists h' a' o, tryYPromotion h a size rt flags = Ret (h', a', o) /\
    match o with
    | Some l => alloc_result h a h' a' l size rt
    | None => h' = h /\ a' = a
    end.
Proof.
  intros Ha Hsz Hsafe. pose proof (ai_config h a Ha) as Hc. unfold tryYPromotion.
  destruct (Z.eqb_spec (cf_PlaneSize (ac_config a)) 0); [lia|]. cbv zeta. case_match.
  { by exists h, a, None. }
  edestruct (best_region_spec (ac_regions a) size rt
    (u32 (u32 (size + cf_PlaneSize (ac_config a)) - 1) / cf_PlaneSize (ac_config a))
    (rt_range 0 (ac_regions a)) None 0) as (o & -> & Ho).
  { apply Forall_forall. intros k. rewrite rt_range_perm.
    intros ([k' r] & -> & Hk)%list_elem_of_fmap. apply elem_of_map_to_list in Hk. simpl. eauto. }
  cbn [mbind res_bind]. destruct Ho as [->|(k & r & -> & _ & Hk & Ht)]; [by exists h, a, None|].
  rewrite Hk. cbn [deref mbind res_bind]. destruct (ai_regions h a Ha k r Hk) as [Hid Hr].
  destruct (alloc_fragments_spec h r Hr size (rg_Planes r) (candidates (rg_Planes r)) [] size)
    as (ps & fs & rem & -> & Hpd & Hrem & Hsum);
    [ | by apply region_pending_nil | apply candidates_nodup | | lia | lia | ].
  { intros p n0 Hp Hn Hle. by eapply (Hsafe k r p n0). }
  { intros i Hi. split; [by apply candidates_spec | done]. }
  cbn [mbind res_bind]. destruct (Z.ltb_spec 0 rem).
  { eexists _, _, None. split; [done|]. split; [done|].
    rewrite (rollback_spec h r Hr ps fs Hpd), with_Planes_same. apply set_region_same. congruence. }
  destruct fs as [|f fs]; [simpl in Hsum; lia|].
  destruct (fragments_result (rt_now 0) (rt_now 1) h a k r ps f fs size rt flags
    (u64 (ac_nextAllocID a + 1)) Ha Hk Hsz Hpd) as (i & p & Hi & Hpi & Hres).
  { simpl in *. lia. }
  cbn [first_fragment]. set (al := {| al_ID := _ |}) in *.
  rewrite (surjective_pairing (heap_new h al)). rewrite Hpi, (list_alter_insert _ _ _ p) by done.
  eexists _, _, (Some _). split; [done|]. by apply alloc_result_counts.
Qed.
