(* ===== verification/AllocatorSpec.v ===== *)
(** * What the allocator guarantees

    Behaviour of [Allocate] and [Free] on every state that satisfies the
    invariant, the states a well-behaved client can reach, and the places where
    the code leaves its own contract. *)
From S2P Require Import Prelude Words Float64 Address Errors Bitmap Plane Region Allocator.
From S2P Require Import AllocatorInv YPromotionInv.

(** ** Allocation *)

Lemma NewAllocator3D_inv cfg : 0 < cf_PlaneSize cfg < 65536 -> alloc_inv empty_heap (NewAllocator3D cfg).
Proof.
  intros Hc. constructor; simpl; try done; try lia; try by constructor.
Qed.

(** What a failed request leaves behind: one more region, empty, and nothing else. *)
Definition alloc_outcome `{GoRuntime} (h : Heap) (a : Allocator3D) (size rt : Z)
    (h' : Heap) (a' : Allocator3D) (o : error + loc) : Prop :=
  match o with
  | inr l => alloc_result h a h' a' l size rt
  | inl e => e = ErrInsufficientMemory size /\ cf_PlaneSize (ac_config a) < size /\
             h' = h /\ a' = add_region a rt
  end.

Lemma allocateSync_spec `{GoRuntime} h a size rt flags :
  alloc_inv h a -> ids_left a -> 0 < size < 4294967296 -> alloc_safe a size ->
  exists h' a' o, allocateSync h a size rt flags = Ret (h', a', o) /\
    alloc_outcome h a size rt h' a' o.
Proof.
  intros Ha Hids Hsz Hsafe. unfold allocateSync, tryFastAllocation.
  destruct (fast_lru_spec (rt_now 0) h a size rt (ac_regionLRU a) Ha Hsz Hsafe (ai_lru_live h a Ha))
    as (o & -> & Ho). cbn [mbind res_bind].
  destruct o as [[[h' a'] l]|]; [by exists h', a', (inr l)|].
  destruct (tryYPromotion_spec h a size rt flags Ha Hsz Hsafe) as (h1 & a1 & o1 & -> & Ho1).
  cbn [mbind res_bind]. destruct o1 as [l|]; [by exists h1, a1, (inr l)|]. destruct Ho1 as [-> ->].
  pose proof (allocateNewRegion_spec h a size rt flags Ha Hids Hsz) as Hnew.
  destruct (Z.leb_spec size (cf_PlaneSize (ac_config a))).
  - destruct Hnew as (h' & a' & l & -> & Hres). by exists h', a', (inr l).
  - rewrite Hnew. eexists _, _, (inl _). by split.
Qed.

(** Somebody serves a request: the allocator is synchronous, the queue is full
    (the caller allocates itself) or there is a worker. *)
Definition served (queueFull : bool) (a : Allocator3D) : Prop :=
  cf_EnableConcurrent (ac_config a) = false \/ queueFull = true \/ 0 < cf_WorkerCount (ac_config a).

Lemma Allocate_sync `{GoRuntime} q h a size rt flags :
  served q a -> Allocate q h a size rt flags = allocateSync h a size rt flags.
Proof.
  unfold served, Allocate, allocateConcurrent, doAllocate.
  intros [->|[->|Hw]]; [done | by destruct (cf_EnableConcurrent _) |].
  destruct (cf_EnableConcurrent _), q; try done. by solve_bool.
Qed.

(** ** The live objects of a valid state *)

Lemma live_entry h a l : alloc_inv h a -> live a l ->
  exists k r i p z al, ac_regions a !! k = Some r /\ region_inv h r /\ rg_ID r = k /\
    rg_Planes r !! i = Some p /\ pl_Allocations p !! z = Some l /\ heap_get h l = Some al /\
    al_Address al = NewAddress k (pl_ID p) z.
Proof.
  intros Ha (k & r & Hk & Hl). destruct (ai_regions h a Ha k r Hk) as [Hid Hr].
  apply elem_of_region_locs in Hl as (p & z & Hp & Hz).
  destruct (ri_entries h r Hr p z l Hp Hz) as (al & Hal & Haddr & _). rewrite Hid in Haddr.
  apply list_elem_of_lookup in Hp as [i Hi]. by exists k, r, i, p, z, al.
Qed.

(** Two positions of a list, two different elements of its [bind]. *)
Lemma bind_lookup2 {A B} (f : A -> list B) (l : list A) i j x y a b :
  l !! i = Some x -> l !! j = Some y -> i <> j -> a ∈ f x -> b ∈ f y ->
  exists i' j', i' <> j' /\ (l ≫= f) !! i' = Some a /\ (l ≫= f) !! j' = Some b.
Proof.
  assert (forall l i j x y a b, l !! i = Some x -> l !! j = Some y -> (i < j)%nat ->
    a ∈ f x -> b ∈ f y -> exists i' j' : nat, (i' < j')%nat /\
    (l ≫= f) !! i' = Some a /\ (l ≫= f) !! j' = Some b) as Hlt.
  { clear. induction l as [|z l IH]; intros i j x y a b Hi Hj Hij Hax Hby; [done|].
    destruct j as [|j]; [lia|]. simpl in Hj. destruct i as [|i]; simplify_eq/=.
    - apply list_elem_of_lookup in Hax as [i' Hi']. exists i'.
      assert (b ∈ l ≫= f) as Hb.
      { apply list_elem_of_bind. exists y. split; [done | by eapply list_elem_of_lookup_2]. }
      apply list_elem_of_lookup in Hb as [j' Hj']. exists (length (f x) + j')%nat.
      pose proof (lookup_lt_Some _ _ _ Hi'). split_and!; [lia | by apply lookup_app_l_Some |].
      rewrite lookup_app_r by lia. by replace (_ + j' - _)%nat with j' by lia.
    - destruct (IH i j x y a b Hi Hj ltac:(lia) Hax Hby) as (i' & j' & Hl & Ha & Hb).
      exists (length (f z) + i')%nat, (length (f z) + j')%nat. split_and!; [lia | |].
      + rewrite lookup_app_r by lia. by replace (_ + i' - _)%nat with i' by lia.
      + rewrite lookup_app_r by lia. by replace (_ + j' - _)%nat with j' by lia. }
  intros Hi Hj Hij Ha Hb. destruct (decide (i < j)%nat) as [Hl|].
  - destruct (Hlt l i j x y a b Hi Hj Hl Ha Hb) as (i' & j' & ? & ? & ?). exists i', j'.
    split_and!; [lia|done..].
  - destruct (Hlt l j i y x b a Hj Hi ltac:(lia) Hb Ha) as (j' & i' & ? & ? & ?). exists i', j'.
    split_and!; [lia|done..].
Qed.

(** The objects of a region, in the order of its locations. *)
Lemma region_allocs_locs h ps : region_allocs h ps = omap (heap_get h) (region_locs ps).
Proof.
  induction ps as [|p ps IH]; [done|]. rewrite region_allocs_cons, region_locs_cons, omap_app, IH. done.
Qed.

Lemma extents_disjoint h r p l1 l2 al1 al2 e1 e2 z :
  region_inv h r -> p ∈ rg_Planes r -> l1 <> l2 ->
  l1 ∈ region_locs (rg_Planes r) -> l2 ∈ region_locs (rg_Planes r) ->
  heap_get h l1 = Some al1 -> heap_get h l2 = Some al2 ->
  (pl_ID p, e1) ∈ al_extents al1 -> (pl_ID p, e2) ∈ al_extents al2 ->
  covers z e1 = true -> covers z e2 = true -> False.
Proof.
  intros Hr Hp Hne Hl1 Hl2 H1 H2 He1 He2 C1 C2.
  apply list_elem_of_lookup in Hl1 as [i1 Hi1]. apply list_elem_of_lookup in Hl2 as [i2 Hi2].
  pose proof (ri_tracks h r Hr) as Ht. rewrite Forall_forall in Ht. specialize (Ht p Hp).
  assert (extents_on (pl_ID p) (region_allocs h (rg_Planes r)) =
    region_locs (rg_Planes r) ≫= (fun l => match heap_get h l with
      | Some al => on_plane (pl_ID p) (al_extents al) | None => [] end)) as E.
  { rewrite region_allocs_locs. unfold extents_on. clear.
    induction (region_locs (rg_Planes r)) as [|l ls IH]; [done|]. rewrite bind_cons, <- IH.
    cbn [omap list_omap]. by destruct (heap_get h l). }
  rewrite E in Ht.
  destruct (bind_lookup2 (fun l => match heap_get h l with
      | Some al => on_plane (pl_ID p) (al_extents al) | None => [] end)
      (region_locs (rg_Planes r)) i1 i2 l1 l2 e1 e2) as (i' & j' & Hij & Hi' & Hj'); try done.
  - intros ->. congruence.
  - rewrite H1. by apply elem_of_on_plane.
  - rewrite H2. by apply elem_of_on_plane.
  - by eapply (tracks_disjoint _ _ i' j' e1 e2 z Ht).
Qed.

(** ** Footprints *)

(** Byte [z] of plane [y] of region [x] is marked used. *)
Definition used (a : Allocator3D) (x y z : Z) : Prop :=
  exists r p, ac_regions a !! x = Some r /\ GetPlane r y = Some p /\ 0 <= z < pl_Size p /\
    bit_at (pl_FreeMap p) z = true.

(** It is a byte of the object. *)
Definition owns (al : Allocation) (x y z : Z) : Prop :=
  aX (al_Address al) = x /\ exists e, (y, e) ∈ al_extents al /\ covers z e = true.

(** Where the bytes of a live object are. *)
Lemma owned_place h a l al x y z :
  alloc_inv h a -> live a l -> heap_get h l = Some al -> owns al x y z ->
  exists r p e, ac_regions a !! x = Some r /\ region_inv h r /\ GetPlane r y = Some p /\ p ∈ rg_Planes r /\
    pl_ID p = y /\ l ∈ region_locs (rg_Planes r) /\ (y, e) ∈ al_extents al /\ covers z e = true /\ e ∈ base h r y.
Proof.
  intros Ha Hl Hal [<- (e & He & C)].
  destruct (live_entry h a l Ha Hl) as (k & r & j & q & w & al1 & Hk & Hr & Hid & Hj & Hw & Hal1 & Hadd).
  assert (al1 = al) as -> by congruence. rewrite Hadd. cbn [aX].
  assert (q ∈ rg_Planes r) as Hq by (by eapply list_elem_of_lookup_2).
  destruct (ri_entries h r Hr q w l Hq Hw) as (al2 & Hal2 & _ & _ & _ & Hids).
  assert (al2 = al) as -> by congruence. rewrite Forall_forall in Hids. specialize (Hids _ He). simpl in Hids.
  apply list_elem_of_fmap in Hids as (p & -> & Hp). apply list_elem_of_lookup in Hp as [i Hi].
  exists r, p, e. split_and!; try done; [| by eapply list_elem_of_lookup_2 | | by eapply elem_of_base].
  - unfold GetPlane. by rewrite (plane_index_lookup _ _ i p (ri_nodup h r Hr) Hi eq_refl).
  - apply elem_of_region_locs. eauto.
Qed.

(** Under the invariant the marked bytes are the bytes of the live objects. *)
Lemma used_owned h a x y z :
  alloc_inv h a -> used a x y z <-> exists l al, live a l /\ heap_get h l = Some al /\ owns al x y z.
Proof.
  intros Ha. split.
  - intros (r & p & Hk & Hg & Hz & Hb). destruct (ai_regions h a Ha x r Hk) as [Hid Hr].
    unfold GetPlane in Hg. destruct (plane_index y (rg_Planes r)) as [i|] eqn:Ei; [|done]. simpl in Hg.
    apply plane_index_Some in Ei as (p' & Hi & Hy). assert (p' = p) as -> by congruence.
    pose proof (ri_tracks h r Hr) as Ht. rewrite Forall_lookup in Ht. specialize (Ht i p Hi).
    pose proof (ri_shape h r Hr) as Hsh. rewrite Forall_lookup in Hsh. destruct (Hsh i p Hi) as (Hsz & _ & _).
    pose proof (tr_bits _ _ Ht z ltac:(lia)) as Hc. rewrite Hb in Hc.
    destruct (sumZ_pos_elem _ _ ltac:(unfold cover in Hc; by rewrite Hc)) as (e & He & Hcov).
    apply list_elem_of_bind in He as (al & Hon & (q & Hal & Hq)%list_elem_of_bind).
    apply list_elem_of_omap in Hal as (l & Hin & Hl). apply list_elem_of_fmap in Hin as ([w l'] & -> & Hw).
    apply elem_of_map_to_list in Hw. simpl in Hl. exists l', al. split_and!; [| done |].
    + exists x, r. split; [done|]. apply elem_of_region_locs. eauto.
    + destruct (ri_entries h r Hr q w l' Hq Hw) as (al1 & Hal1 & Hadd & _).
      assert (al1 = al) as -> by congruence. split; [by rewrite Hadd|]. exists e. rewrite <- Hy.
      split; [by apply elem_of_on_plane|]. destruct (covers z e); [done | by simpl in Hcov].
  - intros (l & al & Hl & Hal & Ho). destruct (owned_place h a l al x y z Ha Hl Hal Ho)
      as (r & p & e & Hk & Hr & Hg & Hp & <- & _ & _ & C & He).
    exists r, p. pose proof (ri_tracks h r Hr) as Ht. rewrite Forall_forall in Ht. specialize (Ht p Hp).
    pose proof (ri_shape h r Hr) as Hsh. rewrite Forall_forall in Hsh. destruct (Hsh p Hp) as (Hsz & _ & _).
    pose proof (tr_bounds _ _ Ht) as Hbd. rewrite Forall_forall in Hbd. specialize (Hbd e He).
    apply covers_true in C as C'. split_and!; [done | done | lia | lia | by eapply tracks_covered].
Qed.

Lemma live_disjoint h a l1 l2 al1 al2 x y z :
  alloc_inv h a -> live a l1 -> live a l2 -> l1 <> l2 ->
  heap_get h l1 = Some al1 -> heap_get h l2 = Some al2 -> owns al1 x y z -> ~ owns al2 x y z.
Proof.
  intros Ha L1 L2 Hne H1 H2 O1 O2.
  destruct (owned_place h a l1 al1 x y z Ha L1 H1 O1) as (r & p & e1 & Hk & Hr & Hg & Hp & Hy & R1 & E1 & C1 & _).
  destruct (owned_place h a l2 al2 x y z Ha L2 H2 O2) as (r2 & p2 & e2 & Hk2 & _ & _ & _ & _ & R2 & E2 & C2 & _).
  assert (r2 = r) as -> by congruence. subst y. by eapply (extents_disjoint h r p l1 l2 al1 al2 e1 e2 z).
Qed.

(** ** Release *)

Record free_result (h : Heap) (a a' : Allocator3D) (l : loc) : Prop := {
  fr_inv : alloc_inv h a';
  fr_live : forall l0, live a' l0 <-> live a l0 /\ l0 <> l;
  fr_next : ac_nextRegionID a' = ac_nextRegionID a;
  fr_config : ac_config a' = ac_config a;
  fr_frame : frame a a';
  fr_new : forall k, ac_regions a !! k = None -> ac_regions a' !! k = None;
}.

Lemma live_set_region_drop h a r k r0 l l0 :
  alloc_inv h a -> ac_regions a !! k = Some r0 -> rg_ID r = k ->
  region_locs (rg_Planes r0) ≡ₚ l :: region_locs (rg_Planes r) ->
  live (set_region r a) l0 <-> live a l0 /\ l0 <> l.
Proof.
  intros Ha Hk Hid Hl. destruct (ai_regions h a Ha k r0 Hk) as [_ Hr0].
  pose proof (region_locs_nodup h r0 Hr0) as Hnd. rewrite Hl in Hnd. apply NoDup_cons in Hnd as [Hni _].
  assert (live a l) as Hlive by (exists k, r0; rewrite Hl; split; [done | by left]).
  unfold live. simpl. rewrite Hid. split.
  - intros (k' & r' & Hk' & Hin). destruct (decide (k' = k)) as [->|Hne].
    + rewrite lookup_insert_eq in Hk'. injection Hk' as <-. split; [|by intros ->].
      exists k, r0. rewrite Hl. split; [done | by right].
    + rewrite lookup_insert_ne in Hk' by done. split; [by exists k', r'|]. intros ->.
      destruct (ai_regions h a Ha k' r' Hk') as [Hid' Hr'].
      apply elem_of_region_locs in Hin as (p & z & Hp & Hz).
      destruct (ri_entries h r' Hr' p z l Hp Hz) as (al & Hal & Haddr & _).
      assert (l ∈ region_locs (rg_Planes r0)) as Hin0 by (rewrite Hl; by left).
      apply elem_of_region_locs in Hin0 as (p0 & z0 & Hp0 & Hz0).
      destruct (ri_entries h r0 Hr0 p0 z0 l Hp0 Hz0) as (al0 & Hal0 & Haddr0 & _).
      destruct (ai_regions h a Ha k r0 Hk) as [Hid0 _]. congruence.
  - intros [(k' & r' & Hk' & Hin) Hne]. destruct (decide (k' = k)) as [->|Hkne].
    + exists k, r. rewrite lookup_insert_eq. split; [done|]. assert (r' = r0) as -> by congruence.
      rewrite Hl in Hin. apply elem_of_cons in Hin as [->|?]; [done|done].
    + exists k', r'. by rewrite lookup_insert_ne.
Qed.

Lemma freeSync_spec h a l al :
  alloc_inv h a -> live a l -> heap_get h l = Some al -> IsYPromoted al = false ->
  exists a', freeSync h a l = Ret (a', None) /\ free_result h a a' l.
Proof.
  intros Ha Hl Hal Hy. destruct (live_entry h a l Ha Hl)
    as (k & r & i & p & z & al0 & Hk & Hr & Hid & Hi & Hz & Hal0 & Haddr).
  assert (al0 = al) as -> by congruence. unfold freeSync. rewrite Hal. cbn [deref mbind res_bind].
  rewrite Haddr. cbn [aX aY aZ]. rewrite Hk, Hy.
  rewrite (plane_index_lookup _ _ i p (ri_nodup h r Hr) Hi eq_refl), Hi. cbn [deref mbind res_bind].
  destruct (release_plane h r i p z l al Hr Hi Hz Hal Hy) as [-> _].
  cbn [mbind res_bind negb]. eexists. split; [done|].
  pose proof (region_release h r i p z l al Hr Hi Hz Hal Hy) as Hr'.
  pose proof (release_locs r i p z l al Hi Hz) as Hlocs.
  pose proof (release_frame h r i p z l al Hr Hi Hz Hal Hy) as Hfr.
  constructor; simpl; try done.
  - apply with_counts_inv. by eapply set_region_inv; [done | apply Ha | apply heap_extends_refl | done..].
  - intros l0. rewrite (live_regions_eq (set_region (with_stats (u64 (rg_AllocCount r + not64 0))
      (u64 (rg_FreeBytes r + al_Size al)) (rg_TotalBytes r) (with_Planes _ r)) a)) by done.
    by eapply live_set_region_drop.
  - eapply frame_trans; [by refine (frame_set_region a _ k r Hk _ Hfr)|]. by apply frame_refl.
  - intros k' Hk'. rewrite lookup_insert_ne by congruence. done.
Qed.

Lemma Free_sync h a l : Free h a l = freeSync h a l.
Proof. unfold Free, freeConcurrent. by destruct (cf_EnableConcurrent _). Qed.

(** Releasing an object whose address has no entry any more. *)
Lemma freeSync_absent h a l al r p :
  heap_get h l = Some al -> IsYPromoted al = false ->
  ac_regions a !! aX (al_Address al) = Some r -> GetPlane r (aY (al_Address al)) = Some p ->
  pl_Allocations p !! aZ (al_Address al) = None ->
  freeSync h a l = Ret (a, Some (ErrFreeFailed (al_Address al))).
Proof.
  intros Hal Hy Hr Hp Hz. unfold freeSync. rewrite Hal. cbn [deref mbind res_bind].
  rewrite Hr, Hy. unfold GetPlane in Hp. destruct (plane_index _ _) as [i|]; [|done]. simpl in Hp.
  rewrite Hp. cbn [deref mbind res_bind]. unfold Plane_Free. rewrite Hz. done.
Qed.

(** ** Allocate, then release *)

Lemma live_region_locs h a k r l : alloc_inv h a -> ac_regions a !! k = Some r ->
  (l ∈ region_locs (rg_Planes r) <->
   live a l /\ exists al, heap_get h l = Some al /\ aX (al_Address al) = k).
Proof.
  intros Ha Hk. destruct (ai_regions h a Ha k r Hk) as [Hid Hr]. split.
  - intros Hl. split; [by exists k, r|]. apply elem_of_region_locs in Hl as (p & z & Hp & Hz).
    destruct (ri_entries h r Hr p z l Hp Hz) as (al & Hal & Haddr & _). exists al. by rewrite Haddr.
  - intros [(k' & r' & Hk' & Hl) (al & Hal & HX)]. assert (k' = k) as ->; [|congruence].
    destruct (ai_regions h a Ha k' r' Hk') as [Hid' Hr'].
    apply elem_of_region_locs in Hl as (p & z & Hp & Hz).
    destruct (ri_entries h r' Hr' p z l Hp Hz) as (al' & Hal' & Haddr & _).
    assert (al' = al) as -> by congruence. rewrite Haddr in HX. simpl in HX. congruence.
Qed.

(** Two valid states with the same live objects agree on every region that is
    in both with the same frame. *)
Lemma same_live_same_planes h a1 a2 k r1 r2 :
  alloc_inv h a1 -> alloc_inv h a2 -> (forall l, live a2 l <-> live a1 l) ->
  ac_regions a1 !! k = Some r1 -> ac_regions a2 !! k = Some r2 -> region_frame r1 r2 ->
  rg_Planes r2 = rg_Planes r1 /\ rg_FreeBytes r2 = rg_FreeBytes r1 /\
  rg_TotalBytes r2 = rg_TotalBytes r1 /\ rg_AllocCount r2 = rg_AllocCount r1.
Proof.
  intros H1 H2 Hl Hk1 Hk2 Hf. apply (region_determined h); [| | done |].
  - by apply (ai_regions h a1 H1 k).
  - by apply (ai_regions h a2 H2 k).
  - intros l. rewrite (live_region_locs h a2 k), (live_region_locs h a1 k) by done. by rewrite Hl.
Qed.

Lemma alloc_inv_extends h h' a : alloc_inv h a -> heap_ok h' -> heap_extends h h' -> alloc_inv h' a.
Proof.
  intros [H1 H2 H3 H4 H5 H6 H7] Hok He. constructor; try done. intros k r Hk.
  destruct (H2 k r Hk) as [? ?]. split; [done|]. by eapply region_inv_heap.
Qed.

(** ** Scripts of calls, for concrete scenarios *)

Inductive call :=
| CallAllocate (size regionType flags : Z)
| CallAllocateInRegion (size k flags : Z)
| CallFree (l : loc).

Definition run_call `{GoRuntime} (st : Heap * Allocator3D) (c : call) : res (Heap * Allocator3D) :=
  let '(h, a) := st in
  match c with
  | CallAllocate size rt flags => '(h, a, _) ← Allocate false h a size rt flags; Ret (h, a)
  | CallAllocateInRegion size k flags =>
      '(h, a, _) ← AllocateInRegion false h a size k flags; Ret (h, a)
  | CallFree l => '(a, _) ← Free h a l; Ret (h, a)
  end.

Fixpoint run_calls `{GoRuntime} (st : Heap * Allocator3D) (cs : list call) : res (Heap * Allocator3D) :=
  match cs with
  | [] => Ret st
  | c :: cs => st ← run_call st c; run_calls st cs
  end.

(** Planes of 64 bytes, no workers: small enough to evaluate. *)
Definition small_config : Config := mkConfig 64 16 4 0 false false.

(** ** States a client can reach *)

(** A client that allocates non-empty blocks and releases each block at most
    once, and only blocks in one piece, starting from a new allocator; [n] counts
    its calls. *)
Inductive reachable `{GoRuntime} (cfg : Config) : nat -> Heap -> Allocator3D -> Prop :=
| reach_new : reachable cfg 0 empty_heap (NewAllocator3D cfg)
| reach_allocate n h a q size rt flags h' a' o :
    reachable cfg n h a -> 0 < size < 4294967296 ->
    Allocate q h a size rt flags = Ret (h', a', o) ->
    reachable cfg (S n) h' a'
| reach_free n h a l al a' e :
    reachable cfg n h a -> live a l -> heap_get h l = Some al -> IsYPromoted al = false ->
    Free h a l = Ret (a', e) ->
    reachable cfg (S n) h a'.

(** Every plane has the configured size. *)
Definition uniform (a : Allocator3D) : Prop :=
  forall k r, ac_regions a !! k = Some r ->
    Forall (fun p => bm_size (pl_FreeMap p) = cf_PlaneSize (ac_config a)) (rg_Planes r).

Lemma region_frame_sizes r r' n : region_frame r r' ->
  Forall (fun p => bm_size (pl_FreeMap p) = n) (rg_Planes r) ->
  Forall (fun p => bm_size (pl_FreeMap p) = n) (rg_Planes r').
Proof.
  intros (_ & _ & _ & Hf) Hall. apply Forall_forall. intros q Hq.
  assert (plane_frame q ∈ plane_frame <$> rg_Planes r) as Hin.
  { rewrite <- Hf. apply list_elem_of_fmap. by exists q. }
  apply list_elem_of_fmap in Hin as (p & Hpq & Hp). rewrite Forall_forall in Hall.
  destruct (plane_frame_ids p q Hpq) as (_ & _ & _ & ->). by apply Hall.
Qed.

Lemma frame_uniform a a' :
  uniform a -> frame a a' -> ac_config a' = ac_config a ->
  (forall k r', ac_regions a' !! k = Some r' -> ac_regions a !! k = None ->
    Forall (fun p => bm_size (pl_FreeMap p) = cf_PlaneSize (ac_config a)) (rg_Planes r')) ->
  uniform a'.
Proof.
  intros Hu Hf Hc Hnew k r' Hk'. rewrite Hc. destruct (ac_regions a !! k) as [r|] eqn:Hk; [|by eapply Hnew].
  destruct (Hf k r Hk) as (r2 & Hk2 & Hfr). assert (r2 = r') as -> by congruence.
  eapply region_frame_sizes; [done|]. by apply (Hu k).
Qed.

Lemma uniform_safe a size : uniform a -> cf_PlaneSize (ac_config a) <= 32768 -> alloc_safe a size.
Proof.
  intros Hu Hc. apply alloc_safe_small. intros k r p Hk Hp. specialize (Hu k r Hk).
  rewrite Forall_forall in Hu. by rewrite (Hu p Hp).
Qed.

Lemma add_region_new `{GoRuntime} h a rt k r' :
  alloc_inv h a -> ac_regions (add_region a rt) !! k = Some r' -> ac_regions a !! k = None ->
  length (rg_Planes r') = 1%nat /\
  Forall (fun p => bm_size (pl_FreeMap p) = cf_PlaneSize (ac_config a)) (rg_Planes r').
Proof.
  intros Ha Hk Hn. unfold add_region in Hk. simpl in Hk. apply lookup_insert_Some in Hk as [[_ <-]|[_ Hk]].
  - simpl. split; [done|]. constructor; [|constructor].
    edestruct (pool_plane (with_next (u64 (ac_nextRegionID a + 1)) (ac_nextAllocID a) a) 0)
      as (_ & Hb & _); [exact (ai_config h a Ha)|]. rewrite Hb. done.
  - congruence.
Qed.

(** Everything that holds of a reachable state. *)
Record reach_ok (cfg : Config) (n : nat) (h : Heap) (a : Allocator3D) : Prop := {
  ro_inv : alloc_inv h a;
  ro_uniform : uniform a;
  ro_config : ac_config a = cfg;
  ro_next : 1 <= ac_nextRegionID a <= 1 + Z.of_nat n;
}.

Lemma reach_ok_alloc `{GoRuntime} cfg n h a size rt h' a' o :
  reach_ok cfg n h a -> Z.of_nat n < 18446744073709551614 ->
  alloc_outcome h a size rt h' a' o -> reach_ok cfg (S n) h' a'.
Proof.
  intros [Hi Hu Hc Hn] Hlt Ho. destruct o as [e|l].
  - destruct Ho as (_ & _ & -> & ->).
    destruct (add_region_inv h a rt Hi) as (? & ? & Hnx & ? & ?); [unfold ids_left; lia|].
    constructor; [done | | by rewrite <- Hc | lia]. eapply frame_uniform; [done..|].
    intros k r' Hk Hn'. by apply (add_region_new h a rt k).
  - destruct Ho as [R1 R2 R3 R4 R5 R6 R7 R8 R9].
    constructor; [done | | by rewrite R7 | lia]. eapply frame_uniform; [done..|]. intros k r' Hk Hn'. by apply (R9 k).
Qed.

Lemma reach_ok_free cfg n h a l a' : reach_ok cfg n h a -> free_result h a a' l -> reach_ok cfg (S n) h a'.
Proof.
  intros [Hi Hu Hc Hn] [F1 F2 F3 F4 F5 F6]. constructor; [done | | by rewrite F4 | lia].
  eapply frame_uniform; [done..|]. intros k r' Hk Hnone. rewrite F6 in Hk by done. done.
Qed.

Section Client.
Context `{GoRuntime} (cfg : Config).
Hypothesis Hcfg : 0 < cf_PlaneSize cfg <= 32768.

Lemma reachable_ok n h a :
  reachable cfg n h a -> Z.of_nat n < 18446744073709551614 -> reach_ok cfg n h a.
Proof.
  induction 1 as [|n h a q size rt flags h' a' o Hre IH Hsz Hal|n h a l al a' e Hre IH Hl Hal Hy Hfr]; intros Hn.
  - constructor; [apply NewAllocator3D_inv; lia | | done | simpl; lia].
    intros k r. simpl. by rewrite lookup_empty.
  - specialize (IH ltac:(lia)). pose proof IH as [Hi Hu Hc Hx].
    assert (alloc_safe a size) as Hsafe by (apply uniform_safe; [done | rewrite Hc; lia]).
    destruct (allocateSync_spec h a size rt flags Hi ltac:(unfold ids_left; lia) Hsz Hsafe)
      as (h1 & a1 & o1 & Heq & Ho).
    assert (Allocate q h a size rt flags = allocateSync h a size rt flags) as E.
    { revert Hal. unfold Allocate, allocateConcurrent, doAllocate.
      by destruct (cf_EnableConcurrent _), q, (cf_WorkerCount (ac_config a) <=? 0). }
    rewrite E, Heq in Hal. injection Hal as <- <- <-. eapply reach_ok_alloc; [done | lia | done].
  - specialize (IH ltac:(lia)). pose proof IH as [Hi Hu Hc Hx]. rewrite Free_sync in Hfr.
    destruct (freeSync_spec h a l al Hi Hl Hal Hy) as (a1 & Heq & Hres).
    rewrite Heq in Hfr. injection Hfr as <- <-. by eapply reach_ok_free.
Qed.
End Client.

(** [live], decided. *)
#[export] Instance live_dec a l : Decision (live a l).
Proof.
  refine (cast_if (decide (Exists (fun kr => l ∈ region_locs (rg_Planes kr.2)) (map_to_list (ac_regions a)))));
    rewrite Exists_exists in *.
  - destruct e as ([k r] & Hk%elem_of_map_to_list & Hl). by exists k, r.
  - intros (k & r & Hk & Hl). apply n. exists (k, r). by rewrite elem_of_map_to_list.
Defined.

(** ** Scenarios *)

Definition scenario (cs : list call) : Heap * Allocator3D :=
  let st := (empty_heap, NewAllocator3D small_config) in
  match @run_calls (runtime_fwd 0) st cs with Ret st => st | _ => st end.

Definition plain_allocate (c : call) : Prop :=
  match c with CallAllocate size _ _ => 0 < size < 4294967296 | _ => False end.

(** A script of allocations stays within what a client can reach. *)
Lemma run_calls_reachable `{GoRuntime} cfg n h a cs h' a' :
  reachable cfg n h a -> Forall plain_allocate cs -> run_calls (h, a) cs = Ret (h', a') ->
  reachable cfg (n + length cs) h' a'.
Proof.
  intros Hre Hcs. revert n h a Hre. induction Hcs as [|c cs Hc Hcs IH]; intros n h a Hre Hrun.
  { injection Hrun as <- <-. by rewrite Nat.add_0_r. }
  destruct c as [size rt flags| |]; try done. cbn [run_calls run_call] in Hrun.
  destruct (Allocate false h a size rt flags) as [[[h1 a1] o]| |] eqn:E; try done.
  cbn [mbind res_bind] in Hrun. simpl length. rewrite Nat.add_succ_r, <- Nat.add_succ_l.
  eapply IH; [|exact Hrun]. by eapply reach_allocate.
Qed.

Lemma scenario_ok cs :
  Forall plain_allocate cs -> Z.of_nat (length cs) < 18446744073709551614 ->
  reach_ok small_config (length cs) (scenario cs).1 (scenario cs).2.
Proof.
  intros Hcs Hlen. unfold scenario.
  assert (forall n, reach_ok small_config n empty_heap (NewAllocator3D small_config)) as H0.
  { intros n. constructor; [by apply NewAllocator3D_inv | | done | simpl; lia].
    intros k r. simpl. by rewrite lookup_empty. }
  destruct (@run_calls (runtime_fwd 0) (empty_heap, NewAllocator3D small_config) cs)
    as [[h a]| |] eqn:E; [|apply H0..].
  eapply (@run_calls_reachable (runtime_fwd 0) small_config 0) in E; [|constructor|done].
  eapply reachable_ok in E; [apply E | by vm_compute | done].
Qed.

(** Two blocks of one plane. *)
Definition two_blocks : Heap * Allocator3D := scenario [CallAllocate 40 4 0; CallAllocate 10 4 0].

Lemma two_blocks_inv : alloc_inv two_blocks.1 two_blocks.2.
Proof. by eapply ro_inv, scenario_ok; [repeat constructor|]. Qed.

Definition one_block : Heap * Allocator3D := scenario [CallAllocate 40 4 0].

Lemma one_block_ok : reach_ok small_config 1 one_block.1 one_block.2.
Proof. by apply (scenario_ok [CallAllocate 40 4 0]); [repeat constructor|]. Qed.

Definition block_of (st : Heap * Allocator3D) (l : loc) : Allocation :=
  default (NewAllocation 0 0 (NewAddress 0 0 0) 0 0) (heap_get st.1 l).

(** ** Theorems *)

(** C3. [Allocate] of more than zero bytes on a valid allocator, when the request cannot
    meet a 16-bit wrap-around in the search ([alloc_safe], always so with planes of at
    most 32 KiB), a region number is left and somebody serves the request, never panics
    and never blocks.  A request that fits a plane always succeeds;
    success yields a fresh object of the requested size whose bytes are now
    recorded, keeps every earlier object, and preserves the invariant.  The only
    failure is the insufficient-memory error of a request larger than a plane,
    and it leaves one more, empty, region behind. *)
Theorem allocate_correct `{GoRuntime} q h a size rt flags :
  alloc_inv h a -> ids_left a -> 0 < size < 4294967296 -> alloc_safe a size -> served q a ->
  exists h' a' o, Allocate q h a size rt flags = Ret (h', a', o) /\ alloc_inv h' a' /\
    alloc_outcome h a size rt h' a' o /\
    (size <= cf_PlaneSize (ac_config a) -> exists l, o = inr l).
Proof.
  intros Ha Hids Hsz Hsafe Hs. rewrite Allocate_sync by done.
  destruct (allocateSync_spec h a size rt flags Ha Hids Hsz Hsafe) as (h' & a' & o & -> & Ho).
  exists h', a', o. split; [done|]. split_and!; [|done|].
  - destruct o as [e|l]; [|apply Ho]. destruct Ho as (_ & _ & -> & ->).
    by apply (add_region_inv h a rt).
  - destruct o as [e|l]; [|eauto]. destruct Ho as (_ & ? & _). lia.
Qed.

Lemma allocate_correct_witness :
  exists h' a' o, @Allocate (runtime_fwd 7) false empty_heap (NewAllocator3D small_config) 40 4 0
      = Ret (h', a', o) /\ alloc_inv h' a' /\
    @alloc_outcome (runtime_fwd 7) empty_heap (NewAllocator3D small_config) 40 4 h' a' o /\
    (40 <= cf_PlaneSize small_config -> exists l, o = inr l).
Proof.
  apply (@allocate_correct (runtime_fwd 7)).
  - apply NewAllocator3D_inv. by vm_compute.
  - by vm_compute.
  - lia.
  - intros k r p n Hk. simpl in Hk. by rewrite lookup_empty in Hk.
  - by left.
Defined.

(** C4. Blocks never overlap, whatever path serves them.  On a valid allocator whose
    search cannot wrap, a successful [Allocate] of more than zero bytes takes bytes
    nobody had: none of them was marked used before, afterwards exactly the bytes used
    before and the bytes of the new block are marked, and all live blocks, whatever the
    number of their fragments, are pairwise disjoint.  [Free] of any of them that lies
    in one plane unmarks exactly its own bytes. *)
Theorem block_footprints `{GoRuntime} q h a size rt flags h' a' l :
  alloc_inv h a -> ids_left a -> 0 < size < 4294967296 -> alloc_safe a size -> served q a ->
  Allocate q h a size rt flags = Ret (h', a', inr l) ->
  exists al, heap_get h' l = Some al /\ sumZ (fun ye => ye.2.2) (al_extents al) = size /\
    (forall x y z, owns al x y z -> ~ used a x y z) /\
    (forall x y z, used a' x y z <-> used a x y z \/ owns al x y z) /\
    (forall l1 l2 al1 al2 x y z, live a' l1 -> live a' l2 -> l1 <> l2 ->
       heap_get h' l1 = Some al1 -> heap_get h' l2 = Some al2 -> owns al1 x y z -> ~ owns al2 x y z) /\
    (forall l0 al0, live a' l0 -> heap_get h' l0 = Some al0 -> IsYPromoted al0 = false ->
       exists a'', Free h' a' l0 = Ret (a'', None) /\
         forall x y z, used a'' x y z <-> used a' x y z /\ ~ owns al0 x y z).
Proof.
  intros Ha Hids Hsz Hsafe Hs Hcall. rewrite Allocate_sync in Hcall by done.
  destruct (allocateSync_spec h a size rt flags Ha Hids Hsz Hsafe) as (h1 & a1 & o & Heq & Ho).
  rewrite Heq in Hcall. injection Hcall as -> -> ->. destruct Ho as [R1 R2 R3 (al & Hal & _ & _ & Hsum) R5 R6 R7 R8 R9].
  exists al. assert (live a' l) as Hl by (apply R5; by left).
  assert (forall x y z, owns al x y z -> ~ used a x y z) as Hfresh.
  { intros x y z Ho (l0 & al0 & Hl0 & Hal0 & Ho0)%(used_owned h a x y z Ha).
    apply (live_disjoint h' a' l l0 al al0 x y z R1); try done; [by apply R5; right | |].
    - intros ->. congruence.
    - rewrite R2; eauto. }
  split_and!; [done | done | done | | |].
  - intros x y z. rewrite (used_owned h' a'), (used_owned h a) by done. split.
    + intros (l0 & al0 & [->|Hl0]%R5 & Hal0 & Ho); [right; congruence|]. left. exists l0, al0.
      destruct (live_entry h a l0 Ha Hl0) as (? & ? & ? & ? & ? & al1 & _ & _ & _ & _ & _ & Hal1 & _).
      rewrite R2 in Hal0 by eauto. done.
    + intros [(l0 & al0 & Hl0 & Hal0 & Ho)|Ho]; [|by exists l, al]. exists l0, al0.
      split_and!; [apply R5; by right | rewrite R2; eauto | done].
  - intros l1 l2 al1 al2 x y z L1 L2 Hne H1 H2. by apply (live_disjoint h' a' l1 l2).
  - intros l0 al0 Hl0 Hal0 Hy. destruct (freeSync_spec h' a' l0 al0 R1 Hl0 Hal0 Hy) as (a'' & Hf & [F1 F2 _ _ _ _]).
    exists a''. rewrite Free_sync. split; [done|]. intros x y z. rewrite !(used_owned h') by done. split.
    + intros (l1 & al1 & [Hl1 Hne]%F2 & Hal1 & Ho). split; [by exists l1, al1|].
      by apply (live_disjoint h' a' l1 l0 al1 al0).
    + intros [(l1 & al1 & Hl1 & Hal1 & Ho) Hno]. exists l1, al1. split; [|done]. apply F2. split; [done|].
      intros ->. congruence.
Qed.

(** The second of two blocks: byte 45 of the plane is its own and was free. *)
Lemma block_footprints_witness :
  used two_blocks.2 2 0 45 /\ ~ used one_block.2 2 0 45 /\ used one_block.2 2 0 39.
Proof.
  assert (used one_block.2 2 0 39) as H39 by (eexists _, _; vm_compute; intuition congruence).
  destruct (@block_footprints (runtime_fwd 0) false one_block.1 one_block.2 10 4 0 two_blocks.1 two_blocks.2 1)
    as (al & Hal & _ & Hfresh & Hused & _).
  - apply one_block_ok.
  - by vm_compute.
  - lia.
  - apply uniform_safe; [apply one_block_ok | by vm_compute].
  - left. by vm_compute.
  - vm_compute. reflexivity.
  - vm_compute in Hal. injection Hal as <-.
    match type of Hused with forall x y z, _ <-> _ \/ owns ?al x y z => assert (owns al 2 0 45) as Ho end.
    { split; [reflexivity|]. exists (40, 10). split; [by left | reflexivity]. }
    split_and!; [apply Hused; by right | by apply Hfresh | exact H39].
Defined.

(** C9. Releasing a live object that lies in one plane succeeds, preserves the
    invariant, removes exactly that object from the live ones and changes
    nothing else: all regions and their data stay, and every other object is
    still live.  Releasing it a second time is refused with the free-failed error
    and leaves the state alone. *)
Theorem free_correct h a l al :
  alloc_inv h a -> live a l -> heap_get h l = Some al -> IsYPromoted al = false ->
  exists a', Free h a l = Ret (a', None) /\ alloc_inv h a' /\
    (forall l0, live a' l0 <-> live a l0 /\ l0 <> l) /\ frame a a' /\
    Free h a' l = Ret (a', Some (ErrFreeFailed (al_Address al))).
Proof.
  intros Ha Hl Hal Hy. rewrite Free_sync. destruct (freeSync_spec h a l al Ha Hl Hal Hy) as (a' & -> & Hres).
  exists a'. split; [done|]. destruct Hres as [F1 F2 F3 F4 F5 F6]. split_and!; [done..|].
  rewrite Free_sync. destruct (live_entry h a l Ha Hl)
    as (k & r & i & p & z & al0 & Hk & Hr & Hid & Hi & Hz & Hal0 & Haddr).
  assert (al0 = al) as -> by congruence. destruct (F5 k r Hk) as (r' & Hk' & (Hid' & _ & _ & Hfr)).
  destruct (ai_regions h a' F1 k r' Hk') as [_ Hr'].
  assert (exists p', rg_Planes r' !! i = Some p' /\ pl_ID p' = pl_ID p) as (p' & Hi' & Hpid).
  { assert ((plane_frame <$> rg_Planes r') !! i = Some (plane_frame p)) as Hfi.
    { by rewrite Hfr, list_lookup_fmap, Hi. }
    rewrite list_lookup_fmap in Hfi. destruct (rg_Planes r' !! i) as [p'|]; [|done].
    exists p'. split; [done|]. simpl in Hfi. injection Hfi. done. }
  apply (freeSync_absent h a' l al r' p'); [done | done | by rewrite Haddr | |].
  - rewrite Haddr. unfold GetPlane. cbn [aY].
    by rewrite (plane_index_lookup _ _ i p' (ri_nodup h r' Hr') Hi' Hpid).
  - rewrite Haddr. cbn [aZ]. destruct (pl_Allocations p' !! z) as [l1|] eqn:E; [exfalso|done].
    destruct (ri_entries h r' Hr' p' z l1) as (al1 & Hal1 & Haddr1 & _);
      [by eapply list_elem_of_lookup_2 | done |].
    assert (live a' l1) as Hl1.
    { exists k, r'. split; [done|]. apply elem_of_region_locs. exists p', z.
      split; [by eapply list_elem_of_lookup_2 | done]. }
    apply F2 in Hl1 as [Hl1 Hne]. apply Hne.
    destruct (live_entry h a l1 Ha Hl1) as (k1 & r1 & i1 & p1 & z1 & al2 & Hk1 & _ & _ & Hi1 & Hz1 & Hal2 & Haddr2).
    assert (al2 = al1) as -> by congruence. rewrite Haddr2 in Haddr1. injection Haddr1 as -> Hp1 ->.
    assert (rg_ID r' = k) as Hk1' by congruence. rewrite Hk1' in Hk1. assert (r1 = r) as -> by congruence.
    assert (i1 = i) as ->; [|congruence].
    apply (NoDup_lookup (pl_ID <$> rg_Planes r) i1 i (pl_ID p)); [apply Hr | |].
    + rewrite list_lookup_fmap, Hi1. simpl. congruence.
    + by rewrite list_lookup_fmap, Hi.
Qed.

Lemma free_correct_witness :
  exists a', Free two_blocks.1 two_blocks.2 0 = Ret (a', None) /\ live two_blocks.2 0.
Proof.
  assert (live two_blocks.2 0) as Hl by (apply (bool_decide_unpack _); by vm_compute).
  destruct (free_correct two_blocks.1 two_blocks.2 0 (block_of two_blocks 0)) as (a' & Ha' & _).
  - apply two_blocks_inv.
  - exact Hl.
  - by vm_compute.
  - by vm_compute.
  - exists a'. split; [exact Ha' | exact Hl].
Defined.

(** C19. Allocating a block of more than zero bytes in one piece, with a search that
    cannot wrap, and releasing it is the identity on memory: every region that existed before has the same planes (free maps, map
    entries and data) and the same counters. *)
Theorem allocate_free_roundtrip `{GoRuntime} q h a size rt flags h' a' l al k r :
  alloc_inv h a -> ids_left a -> 0 < size < 4294967296 -> alloc_safe a size -> served q a ->
  Allocate q h a size rt flags = Ret (h', a', inr l) ->
  heap_get h' l = Some al -> IsYPromoted al = false -> ac_regions a !! k = Some r ->
  exists a'' r'', Free h' a' l = Ret (a'', None) /\ ac_regions a'' !! k = Some r'' /\
    rg_Planes r'' = rg_Planes r /\ rg_FreeBytes r'' = rg_FreeBytes r /\
    rg_TotalBytes r'' = rg_TotalBytes r /\ rg_AllocCount r'' = rg_AllocCount r.
Proof.
  intros Ha Hids Hsz Hsafe Hs Hcall Hal Hy Hk. rewrite Allocate_sync in Hcall by done.
  destruct (allocateSync_spec h a size rt flags Ha Hids Hsz Hsafe) as (h1 & a1 & o & Heq & Ho).
  rewrite Heq in Hcall. injection Hcall as -> -> ->. destruct Ho as [R1 R2 R3 R4 R5 R6 R7 R8 R9].
  rewrite Free_sync. destruct (freeSync_spec h' a' l al R1) as (a'' & -> & Hres);
    [apply R5; by left | done | done |]. destruct Hres as [F1 F2 F3 F4 F5 F6].
  destruct (R8 k r Hk) as (r' & Hk' & Hf1). destruct (F5 k r' Hk') as (r'' & Hk'' & Hf2).
  exists a'', r''. split; [done|]. split; [done|].
  pose proof (alloc_inv_extends h h' a Ha (ai_heap h' a' R1) R2) as Ha'.
  apply (same_live_same_planes h' a a'' k r r''); try done.
  - intros l0. rewrite F2, R5. split; [tauto|]. intros Hl0. split; [by right|]. intros ->.
    destruct (live_entry h a l Ha Hl0) as (? & ? & ? & ? & ? & ? & _ & _ & _ & _ & _ & Hsome & _).
    congruence.
  - destruct Hf1 as (? & ? & ? & ?), Hf2 as (? & ? & ? & ?). unfold region_frame. split_and!; congruence.
Qed.

Lemma allocate_free_roundtrip_witness :
  exists a'' r'', Free two_blocks.1 two_blocks.2 1 = Ret (a'', None) /\ ac_regions a'' !! 2 = Some r'' /\
    rg_FreeBytes r'' = 24.
Proof.
  destruct (@allocate_free_roundtrip (runtime_fwd 0) false one_block.1 one_block.2 10 4 0
    two_blocks.1 two_blocks.2 1 (block_of two_blocks 1) 2
    (default (NewRegion 0 0 0) (ac_regions one_block.2 !! 2)))
    as (a'' & r'' & Hf & Hk & _ & Hfree & _).
  - apply one_block_ok.
  - by vm_compute.
  - lia.
  - apply uniform_safe; [apply one_block_ok | by vm_compute].
  - left. by vm_compute.
  - vm_compute. reflexivity.
  - vm_compute. reflexivity.
  - vm_compute. reflexivity.
  - vm_compute. reflexivity.
  - exists a'', r''. split; [exact Hf|]. split; [exact Hk|]. rewrite Hfree. vm_compute. reflexivity.
Defined.


