(* ===== verification/AllocatorEdge.v ===== *)
(** * The allocator away from the common path

    Y-promoted blocks, requests of zero bytes, removal of planes, allocation in a
    given region, and sizes the configuration does not expect. *)
From S2P Require Import Prelude Words Float64 Address Errors Bitmap Plane Region Allocator.
From S2P Require Import AllocatorInv YPromotionInv AllocatorSpec.

(** ** Releasing a promoted block *)

(** Fragments whose start is not a key of their plane are skipped. *)
Lemma free_fragments_skip h ps fs :
  Forall (fun f => forall p, p ∈ ps -> pl_ID p = fr_PlaneID f -> pl_Allocations p !! fr_StartZ f = None) fs ->
  free_fragments h ps fs = Ret ps.
Proof.
  induction 1 as [|f fs Hf Hfs IH]; [done|]. cbn [free_fragments].
  destruct (plane_index (fr_PlaneID f) ps) as [i|] eqn:Ei; [|done].
  destruct (plane_index_Some _ _ _ Ei) as (p & Hi & Hid). rewrite Hi. cbn [deref mbind res_bind].
  unfold Plane_Free. rewrite Hf; [|by eapply list_elem_of_lookup_2|done]. cbn [mbind res_bind].
  rewrite list_insert_id by done. exact IH.
Qed.

(** Two fragments of one block do not start at the same place. *)
Lemma fragments_start h r p z l al e E n :
  region_inv h r -> p ∈ rg_Planes r -> pl_Allocations p !! z = Some l -> heap_get h l = Some al ->
  al_extents al = (pl_ID p, (z, n)) :: E -> (pl_ID p, (z, e)) ∈ E -> False.
Proof.
  intros Hr Hp Hz Hl HE Hin. pose proof (ri_tracks h r Hr) as Ht. rewrite Forall_forall in Ht.
  specialize (Ht p Hp).
  assert (al ∈ region_allocs h (rg_Planes r)) as Hal.
  { apply list_elem_of_bind. exists p. split; [by eapply elem_of_plane_allocs | done]. }
  apply elem_of_Permutation in Hal as [rest Hrest].
  rewrite Hrest, extents_on_cons, HE, on_plane_cons_eq in Ht. simpl in Ht.
  apply elem_of_on_plane in Hin. pose proof (tr_bounds _ _ Ht) as Hb. rewrite Forall_forall in Hb.
  pose proof (Hb (z, n) ltac:(by left)) as B1.
  pose proof (Hb (z, e) ltac:(right; apply elem_of_app; by left)) as B2.
  apply list_elem_of_lookup in Hin as [j Hj].
  eapply (tracks_disjoint _ _ 0 (S j) (z, n) (z, e) z Ht); [done | done | | |].
  - simpl. by apply lookup_app_l_Some.
  - apply covers_true. simpl in *. lia.
  - apply covers_true. simpl in *. lia.
Qed.

(** A later fragment of a block starts at a place that is no key of its plane. *)
Lemma later_fragment_fresh h r p z l al n rest q start size :
  region_inv h r -> p ∈ rg_Planes r -> pl_Allocations p !! z = Some l -> heap_get h l = Some al ->
  al_Address al = NewAddress (rg_ID r) (pl_ID p) z ->
  al_extents al = (pl_ID p, (z, n)) :: rest -> q ∈ rg_Planes r ->
  (pl_ID q, (start, size)) ∈ rest -> pl_Allocations q !! start = None.
Proof.
  intros Hr Hp Hz Hal Haddr He Hq Hg. destruct (pl_Allocations q !! start) as [l'|] eqn:Hq'; [exfalso|done].
  destruct (ri_entries h r Hr q _ l' Hq Hq') as (al' & Hal' & Haddr' & (n' & rest' & He') & _).
  destruct (decide (l' = l)) as [->|Hne].
  - assert (al' = al) as -> by congruence. rewrite Haddr in Haddr'. injection Haddr' as Hpq Hzg.
    rewrite <- Hpq, <- Hzg in Hg. by eapply (fragments_start h r p z l al).
  - pose proof (ri_tracks h r Hr) as Ht. rewrite Forall_forall in Ht. specialize (Ht q Hq).
    pose proof (tr_bounds _ _ Ht) as Hb. rewrite Forall_forall in Hb.
    assert ((pl_ID q, (start, size)) ∈ al_extents al) as E1 by (rewrite He; by right).
    assert ((pl_ID q, (start, n')) ∈ al_extents al') as E2 by (rewrite He'; by left).
    pose proof (Hb _ (elem_of_base h r p z l al _ _ Hp Hz Hal E1)) as B1.
    pose proof (Hb _ (elem_of_base h r q _ l' al' _ _ Hq Hq' Hal' E2)) as B2.
    eapply (extents_disjoint h r q l' l al' al _ _ start Hr Hq Hne); try done.
    + apply elem_of_region_locs. eauto.
    + apply elem_of_region_locs. eauto.
    + apply covers_true. simpl in *. lia.
    + apply covers_true. simpl in *. lia.
Qed.

(** The planes after releasing a block whose first fragment is at offset [z] of
    plane [i]: the range cleared has the length of the whole block. *)
Definition promoted_release (r : Region) (i : nat) (p : Plane) (z size : Z) : list Plane :=
  <[i := with_Allocations (delete z (pl_Allocations p))
     (with_FreeMap (ClearRange (pl_FreeMap p) z (u16 (z + u16 size))) p)]> (rg_Planes r).

Lemma free_promoted_lemma h a l al f fs :
  alloc_inv h a -> live a l -> heap_get h l = Some al ->
  al_Fragments al = f :: fs -> fs <> [] ->
  exists r i p, ac_regions a !! aX (al_Address al) = Some r /\ region_inv h r /\
    rg_Planes r !! i = Some p /\ pl_ID p = fr_PlaneID f /\ l ∈ region_locs (rg_Planes r) /\
    Free h a l = Ret (free_stats a r (promoted_release r i p (fr_StartZ f) (al_Size al)) (al_Size al), None).
Proof.
  intros Ha Hl Hal Hf Hfs. destruct (live_entry h a l Ha Hl)
    as (k & r & i & p & z & al0 & Hk & Hr & Hid & Hi & Hz & Hal0 & Haddr).
  assert (al0 = al) as -> by congruence. assert (p ∈ rg_Planes r) as Hp by (by eapply list_elem_of_lookup_2).
  subst k. destruct (ri_entries h r Hr p z l Hp Hz) as (al1 & Hal1 & _ & (n & rest & He) & _).
  assert (al1 = al) as -> by congruence. pose proof He as He'. unfold al_extents in He'. rewrite Hf in He'.
  rewrite fmap_cons in He'. injection He' as Hpid Hsz Hn Hrest. exists r, i, p.
  split_and!; [by rewrite Haddr | done | done | done | |].
  { apply elem_of_region_locs. eauto. }
  rewrite Free_sync. unfold freeSync. rewrite Hal. cbn [deref mbind res_bind].
  rewrite Haddr. cbn [aX]. rewrite Hk.
  assert (IsYPromoted al = true) as ->.
  { unfold IsYPromoted. rewrite Hf. destruct fs; [done|]. simpl. apply Z.ltb_lt. lia. }
  rewrite Hf. cbn [free_fragments].
  rewrite (plane_index_lookup _ _ i p (ri_nodup h r Hr) Hi) by done. rewrite Hi. cbn [deref mbind res_bind].
  unfold Plane_Free at 1. rewrite Hsz, Hz, Hal. cbn [deref mbind res_bind].
  rewrite (free_fragments_skip h); [done|]. apply Forall_forall. intros g Hg q Hq Hqid.
  assert ((fr_PlaneID g, (fr_StartZ g, fr_Size g)) ∈ rest) as Hgr.
  { rewrite <- Hrest. apply list_elem_of_fmap. by exists g. }
  rewrite <- Hqid in Hgr. apply list_elem_of_lookup in Hq as [j Hj].
  apply list_lookup_insert_Some in Hj as [(<- & <- & _)|[_ Hj]].
  - simpl. apply lookup_delete_None. right. by eapply (later_fragment_fresh h r p z l al n rest p).
  - eapply (later_fragment_fresh h r p z l al n rest q); try done. by eapply list_elem_of_lookup_2.
Qed.

(** ** Allocation in a given region *)

Lemma live_set_region_same a r k r0 l :
  ac_regions a !! k = Some r0 -> rg_ID r = k -> region_locs (rg_Planes r) = region_locs (rg_Planes r0) ->
  live (set_region r a) l <-> live a l.
Proof.
  intros Hk Hid Hl. unfold live. simpl. rewrite Hid. split; intros (k' & r' & Hk' & Hin).
  - apply lookup_insert_Some in Hk' as [[<- <-]|[_ Hk']]; [|eauto]. exists k, r0. by rewrite <- Hl.
  - destruct (decide (k' = k)) as [->|Hne].
    + exists k, r. rewrite lookup_insert_eq, Hl. split; [done|]. congruence.
    + exists k', r'. by rewrite lookup_insert_ne.
Qed.

(** The plane [AllocateInRegion] would add to region [r]. *)
Definition next_plane (a : Allocator3D) (r : Region) : Plane :=
  getPlaneFromPool a (u32 (Z.of_nat (length (rg_Planes r)))) (rg_ID r).

(** Its ID is new in the region, and the total stays within 64 bits. *)
Definition can_grow (a : Allocator3D) (r : Region) : Prop :=
  u32 (Z.of_nat (length (rg_Planes r))) ∉ pl_ID <$> rg_Planes r /\
  rg_TotalBytes r + cf_PlaneSize (ac_config a) < 18446744073709551616.

#[export] Instance can_grow_dec a r : Decision (can_grow a r).
Proof. unfold can_grow. apply _. Defined.

Lemma grow_inv h a k r :
  alloc_inv h a -> ac_regions a !! k = Some r -> can_grow a r ->
  let a1 := set_region (AddPlane r (next_plane a r)) a in
  alloc_inv h a1 /\ (forall l, live a1 l <-> live a l).
Proof.
  intros Ha Hk [Hfresh Htot] a1. destruct (ai_regions h a Ha k r Hk) as [Hid Hr].
  destruct (pool_plane a (u32 (Z.of_nat (length (rg_Planes r)))) (rg_ID r) (ai_config h a Ha))
    as (Hpid & Hb & He & Hs & Ht). fold (next_plane a r) in *.
  assert (pl_Size (next_plane a r) = cf_PlaneSize (ac_config a)) as Hsz.
  { destruct Hs as (-> & _ & _). by rewrite Hb. }
  split.
  - eapply (set_region_inv h h a _ k r); [done | apply Ha | apply heap_extends_refl | done | done |].
    apply AddPlane_inv; try done; [by rewrite Hpid|]. rewrite <- (ri_total h r Hr). lia.
  - intros l. eapply live_set_region_same; [done..|]. simpl. unfold region_locs. rewrite bind_app.
    simpl. unfold plane_locs at 2. rewrite He, map_to_list_empty. simpl. by rewrite app_nil_r.
Qed.

(** What a successful call promises, across the growth of the region: the object is new,
    in one piece at the address given, and recorded beside all earlier ones. *)
Definition placed (h : Heap) (a : Allocator3D) (h' : Heap) (a' : Allocator3D) (l : loc) (size : Z)
    (addr : Address3D) : Prop :=
  alloc_inv h' a' /\ (forall l0, live a' l0 <-> l0 = l \/ live a l0) /\ heap_get h l = None /\
  exists al, heap_get h' l = Some al /\ al_Size al = size /\ IsYPromoted al = false /\ al_Address al = addr.

Lemma record_placed now h a k r i p z size rt flags :
  alloc_inv h a -> ac_regions a !! k = Some r -> rg_Planes r !! i = Some p ->
  0 < size < 4294967296 -> fits (pl_FreeMap p) size z ->
  let '(h', a', l) := record_allocation now h a r i
    (with_FreeMap (SetRange (pl_FreeMap p) z (z + size)) p) z size rt flags in
  placed h a h' a' l size (NewAddress k (pl_ID p) z).
Proof.
  intros Ha Hk Hi Hsz Hf. pose proof (record_result now h a k r i p z size rt flags Ha Hk Hi Hsz Hf) as Hres.
  destruct (ai_regions h a Ha k r Hk) as [Hid _].
  destruct (record_allocation _ _ _ _ _ _ _ _ _ _) as [[h' a'] l] eqn:Er. destruct Hres as [[R1 R2 R3 _ R5 _ _ _ _] _].
  destruct (record_object _ _ _ _ _ _ _ _ _ _ _ _ _ Er) as (al & Hal & Hy & Hs & Hadd).
  unfold placed. split_and!; [done..|]. exists al. by rewrite Hadd, Hid.
Qed.

Lemma AllocateInRegion_spec `{GoRuntime} locked h a size k r flags :
  alloc_inv h a -> ac_regions a !! k = Some r -> 0 < size < 4294967296 -> alloc_safe a size -> can_grow a r ->
  (exists i p s, first_place size (rg_Planes r) i p s /\
   exists h' a' l, AllocateInRegion locked h a size k flags = Ret (h', a', inr l) /\
     placed h a h' a' l size (NewAddress k (pl_ID p) s)) \/
  ((forall p s, p ∈ rg_Planes r -> ~ fits (pl_FreeMap p) size s) /\
   if locked then AllocateInRegion locked h a size k flags = Hang
   else if size <=? cf_PlaneSize (ac_config a) then
     exists h' a' l, AllocateInRegion locked h a size k flags = Ret (h', a', inr l) /\
       placed h a h' a' l size (NewAddress k (u32 (Z.of_nat (length (rg_Planes r)))) 0)
   else AllocateInRegion locked h a size k flags =
     Ret (h, set_region (AddPlane r (next_plane a r)) a, inl ErrAllocateInRegion)).
Proof.
  intros Ha Hk Hsz Hsafe Hgrow. destruct (ai_regions h a Ha k r Hk) as [Hid Hr].
  unfold AllocateInRegion. rewrite Hk. cbn [deref mbind res_bind].
  destruct (alloc_in_planes_spec size (rg_Planes r)) as (f & -> & Hf);
    [lia | by eapply region_tracks_some | intros p Hp Hle; eapply (Hsafe k r p size); [done..|lia|done] |].
  cbn [mbind res_bind]. destruct f as [[[i p'] z]|].
  { left. destruct Hf as (p & Hfp & ->). exists i, p, z. split; [done|]. destruct Hfp as [Hi Hfit _ _].
    pose proof (record_placed (rt_now 0) h a k r i p z size (rg_Type r) flags Ha Hk Hi Hsz Hfit) as Hres.
    destruct (record_allocation _ _ _ _ _ _ _ _ _ _) as [[h' a'] l]. exists h', a', l. done. }
  right. split; [done|]. destruct locked; [done|]. fold (next_plane a r). cbv zeta.
  destruct (grow_inv h a k r Ha Hk Hgrow) as [Hinv1 Hlive1]. cbv zeta in *.
  destruct (pool_plane a (u32 (Z.of_nat (length (rg_Planes r)))) (rg_ID r) (ai_config h a Ha))
    as (Hpid & Hb & He & Hs & Ht). fold (next_plane a r) in *. pose proof (ai_config h a Ha) as Hc.
  assert (Plane_FreeBytes (next_plane a r) = cf_PlaneSize (ac_config a)) as ->.
  { unfold Plane_FreeBytes. rewrite Hb. apply NewBitmap_free. unfold is_u16. lia. }
  destruct (Z.leb_spec size (cf_PlaneSize (ac_config a))) as [Hle|Hgt]; [|done].
  rewrite u16_small by (unfold is_u16; lia).
  assert (fits (pl_FreeMap (next_plane a r)) size 0) as Hfit.
  { rewrite Hb. unfold fits. simpl. split_and!; [lia | lia |]. intros. apply NewBitmap_clear. }
  destruct (Plane_Allocate_spec _ [] size Ht) as (p' & s & ok & -> & Hok); [lia | by left; exists 0|].
  cbn [mbind res_bind]. destruct ok; [|destruct Hok as (_ & _ & Hno); by destruct (Hno ltac:(lia) 0)].
  destruct Hok as (_ & Hf' & Hlow & -> & _). set (r1 := AddPlane r (next_plane a r)) in *.
  assert (s = 0) as ->. { destruct Hf' as (? & _). destruct (decide (0 < s)); [by destruct (Hlow 0) | lia]. }
  assert (ac_regions (set_region r1 a) !! k = Some r1) as Hk1 by (simpl; rewrite Hid; apply lookup_insert_eq).
  assert (rg_Planes r1 !! length (rg_Planes r) = Some (next_plane a r)) as Hi1 by (by apply list_lookup_middle).
  pose proof (record_placed (rt_now 1) h (set_region r1 a) k r1 _ _ 0 size (rg_Type r1) flags Hinv1 Hk1
    Hi1 Hsz Hf') as Hres.
  destruct (record_allocation _ _ _ _ _ _ _ _ _ _) as [[h' a'] l]. exists h', a', l. split; [done|].
  rewrite Hpid in Hres. destruct Hres as (P1 & P2 & P3 & P4). split_and!; [done | | done | done].
  intros l0. by rewrite P2, Hlive1.
Qed.

(** ** A region with two planes and a promoted block *)

Definition small_planes (a : Allocator3D) : bool :=
  forallb (fun kr => forallb (fun p => bm_size (pl_FreeMap p) <=? 32768) (rg_Planes kr.2))
    (map_to_list (ac_regions a)).

Lemma small_planes_safe a size : small_planes a = true -> alloc_safe a size.
Proof.
  intros Hs. apply alloc_safe_small. intros k r p Hk Hp. unfold small_planes in Hs.
  rewrite forallb_forall in Hs. specialize (Hs (k, r)). rewrite <- list_elem_of_In, elem_of_map_to_list in Hs.
  specialize (Hs Hk). rewrite forallb_forall in Hs. specialize (Hs p). rewrite <- list_elem_of_In in Hs.
  specialize (Hs Hp). by apply Z.leb_le.
Qed.

Lemma Ret_inj3 {A B C} (x x' : A) (y y' : B) (z z' : C) (m : res (A * B * C)) :
  m = Ret (x, y, z) -> m = Ret (x', y', z') -> x = x' /\ y = y' /\ z = z'.
Proof. intros -> [= -> -> ->]. done. Qed.

Definition two_planes : Heap * Allocator3D := scenario [CallAllocate 40 4 0; CallAllocateInRegion 40 2 0].

Definition region_of (st : Heap * Allocator3D) (k : Z) : Region :=
  default (NewRegion 0 0 0) (ac_regions st.2 !! k).

Lemma two_planes_inv : alloc_inv two_planes.1 two_planes.2.
Proof.
  destruct (@AllocateInRegion_spec (runtime_fwd 0) false one_block.1 one_block.2 40 2 (region_of one_block 2) 0)
    as [(i & p & s & _ & h' & a' & l & He & Hp)|[_ (h' & a' & l & He & Hp)]].
  - apply one_block_ok.
  - vm_compute. reflexivity.
  - lia.
  - apply small_planes_safe. vm_compute. reflexivity.
  - apply (bool_decide_unpack _). by vm_compute.
  - destruct (Ret_inj3 _ two_planes.1 _ two_planes.2 _ (inr 1) _ He) as (<- & <- & _); [|apply Hp].
    vm_compute. reflexivity.
  - destruct (Ret_inj3 _ two_planes.1 _ two_planes.2 _ (inr 1) _ He) as (<- & <- & _); [|apply Hp].
    vm_compute. reflexivity.
Qed.

Definition promoted : Heap * Allocator3D :=
  scenario [CallAllocate 40 4 0; CallAllocateInRegion 40 2 0; CallAllocate 48 4 0].

Lemma promoted_inv : alloc_inv promoted.1 promoted.2.
Proof.
  destruct (@allocateSync_spec (runtime_fwd 0) two_planes.1 two_planes.2 48 4 0) as (h' & a' & o & He & Ho).
  - apply two_planes_inv.
  - by vm_compute.
  - lia.
  - apply small_planes_safe. vm_compute. reflexivity.
  - destruct (Ret_inj3 _ promoted.1 _ promoted.2 _ (inr 2) _ He) as (<- & <- & ->); [|apply Ho].
    vm_compute. reflexivity.
Qed.

(** ** Access to promoted blocks *)

(** The blocks recorded in the plane's map are in one piece. *)
Definition unpromoted_entries (h : Heap) (p : Plane) : Prop :=
  map_Forall (fun _ l => IsYPromoted <$> heap_get h l = Some false) (pl_Allocations p).

Lemma unpromoted_entry h p z l al :
  unpromoted_entries h p -> pl_Allocations p !! z = Some l -> heap_get h l = Some al -> IsYPromoted al = false.
Proof. intros Hun Hz Hl. specialize (Hun z l Hz). cbv beta in Hun. rewrite Hl in Hun. by injection Hun. Qed.

Lemma GetPlane_elem r y p : GetPlane r y = Some p -> p ∈ rg_Planes r /\ pl_ID p = y.
Proof.
  unfold GetPlane. destruct (plane_index y (rg_Planes r)) as [i|] eqn:Ei; [|done]. simpl. intros Hp.
  apply plane_index_Some in Ei as (p' & Hi & Hy). assert (p' = p) as -> by congruence.
  split; [by eapply list_elem_of_lookup_2 | done].
Qed.

Lemma CanAccess_entry `{GoRuntime} h r addr perm : region_inv h r ->
  exists ok, CanAccess h addr perm (Some r) = Ret ok /\
    (ok = true <-> CheckPermission (rg_Permissions r) perm = true /\
       exists p, GetPlane r (aY addr) = Some p /\ aZ addr < pl_Size p /\
         (perm = PermissionWrite -> in_entry h p (aZ addr))).
Proof.
  intros Hr. unfold CanAccess. destruct (CheckPermission (rg_Permissions r) perm); cbn [negb];
    [|exists false; split; [done|]; by split; [done | intros [? _]]].
  destruct (GetPlane r (aY addr)) as [p|] eqn:Hp; cycle 1.
  { exists false. split; [done|]. split; [done|]. by intros (_ & p & ? & _). }
  destruct (Z.leb_spec (pl_Size p) (aZ addr)) as [Hle|Hlt].
  { exists false. split; [done|]. split; [done|]. intros (_ & p' & [= <-] & ? & _). lia. }
  destruct (Z.eqb_spec perm PermissionWrite) as [Hw|Hw].
  - destruct (GetPlane_elem r _ p Hp) as [Hin _].
    destruct (IsAllocated_entry h r p (aZ addr) Hr Hin) as (ok & -> & Hok). exists ok. split; [done|]. rewrite Hok.
    split; [intros He; split; [done|]; by exists p|]. intros (_ & p' & [= <-] & _ & He). by apply He.
  - exists true. split; [done|]. split; [|done]. intros _. split; [done|]. by exists p.
Qed.

(** The entries of a plane do not reach the fragments of blocks recorded elsewhere. *)
Lemma foreign_fragment h r p l al e z :
  region_inv h r -> p ∈ rg_Planes r -> l ∈ region_locs (rg_Planes r) -> heap_get h l = Some al ->
  (pl_ID p, e) ∈ al_extents al -> covers z e = true -> aY (al_Address al) <> pl_ID p -> unpromoted_entries h p ->
  ~ in_entry h p z.
Proof.
  intros Hr Hp Hl Hal He C Hne Hun (k & l' & al' & Hk & Hal' & Hin).
  destruct (entry_range h r p k l' al' Hr Hp Hk Hal' (unpromoted_entry h p k l' al' Hun Hk Hal')) as (_ & _ & _ & _ & F5 & _).
  rewrite F5 in Hin. destruct (ri_entries h r Hr p k l' Hp Hk) as (al1 & Hal1 & Hadd & _).
  assert (al1 = al') as -> by congruence. assert (l' <> l) as Hll by (intros ->; rewrite Hal' in Hal; simplify_eq; by rewrite Hadd in Hne).
  apply list_elem_of_lookup in Hp as [i Hi].
  pose proof (release_extents h r i p k l' al' Hr Hi Hk Hal' (unpromoted_entry h p k l' al' Hun Hk Hal')) as Hext.
  eapply (extents_disjoint h r p l' l al' al (k, al_Size al') e z Hr); try done.
  - by eapply list_elem_of_lookup_2.
  - apply elem_of_region_locs. exists p, k. split; [by eapply list_elem_of_lookup_2 | done].
  - rewrite Hext. by left.
  - apply covers_true. simpl. lia.
Qed.

(** ** Theorems *)

(** C20. A Y-promotion attempt for more than zero bytes, on a valid state whose search
    cannot wrap on 16 bits, is atomic: it does not panic, and it either yields one fresh object whose fragments add up to the requested
    size and lie on free bytes of one region, or it leaves the heap and the whole
    allocator exactly as they were, whatever fragments it had taken meanwhile. *)
Theorem ypromotion_atomic `{GoRuntime} h a size rt flags :
  alloc_inv h a -> 0 < size < 4294967296 -> alloc_safe a size ->
  exists h' a' o, tryYPromotion h a size rt flags = Ret (h', a', o) /\ alloc_inv h' a' /\
    match o with
    | Some l => alloc_result h a h' a' l size rt
    | None => h' = h /\ a' = a
    end.
Proof.
  intros Ha Hsz Hsafe. destruct (tryYPromotion_spec h a size rt flags Ha Hsz Hsafe) as (h' & a' & o & -> & Ho).
  exists h', a', o. split; [done|]. split; [|done]. destruct o; [apply Ho | by destruct Ho as [-> ->]].
Qed.

Lemma ypromotion_atomic_witness :
  exists h' a' o, @tryYPromotion (runtime_fwd 0) one_block.1 one_block.2 20 4 0 = Ret (h', a', o) /\
    alloc_inv h' a'.
Proof.
  destruct (@ypromotion_atomic (runtime_fwd 0) one_block.1 one_block.2 20 4 0) as (h' & a' & o & Heq & Hi & _).
  - apply one_block_ok.
  - lia.
  - apply uniform_safe; [apply one_block_ok | by vm_compute].
  - exists h', a', o. split; [exact Heq | exact Hi].
Defined.

(** C27. Releasing a promoted block reports success but gives back only bytes of
    the plane of its first fragment: every byte of a fragment on another plane
    stays marked used, while the region's free-byte counter grows by the whole
    size of the block. *)
Theorem free_promoted_leaks h a l al f fs :
  alloc_inv h a -> live a l -> heap_get h l = Some al -> al_Fragments al = f :: fs -> fs <> [] ->
  exists r a' r', ac_regions a !! aX (al_Address al) = Some r /\ Free h a l = Ret (a', None) /\
    ac_regions a' !! aX (al_Address al) = Some r' /\
    rg_FreeBytes r' = u64 (rg_FreeBytes r + al_Size al) /\
    forall g z, g ∈ fs -> fr_PlaneID g <> fr_PlaneID f -> covers z (fr_StartZ g, fr_Size g) = true ->
      exists q, q ∈ rg_Planes r' /\ pl_ID q = fr_PlaneID g /\ bit_at (pl_FreeMap q) z = true.
Proof.
  intros Ha Hl Hal Hf Hfs.
  destruct (free_promoted_lemma h a l al f fs Ha Hl Hal Hf Hfs) as (r & i & p & Hk & Hr & Hi & Hpid & Hloc & Hfree).
  destruct (ai_regions h a Ha _ r Hk) as [Hid _]. eexists r, _, _.
  split; [done|]. split; [exact Hfree|]. split; [simpl; rewrite Hid; apply lookup_insert_eq|].
  split; [done|]. intros g z Hg Hne C.
  assert ((fr_PlaneID g, (fr_StartZ g, fr_Size g)) ∈ al_extents al) as He.
  { unfold al_extents. rewrite Hf. apply list_elem_of_fmap. exists g. split; [done | by right]. }
  apply elem_of_region_locs in Hloc as (p1 & z1 & Hp1 & Hz1).
  destruct (ri_entries h r Hr p1 z1 l Hp1 Hz1) as (al1 & Hal1 & _ & _ & _ & Hids).
  assert (al1 = al) as -> by congruence. rewrite Forall_forall in Hids. specialize (Hids _ He). simpl in Hids.
  apply list_elem_of_fmap in Hids as (q & Hqid & Hq). exists q. split_and!; [|done|].
  - apply list_elem_of_lookup in Hq as [j Hj]. simpl. apply (list_elem_of_lookup_2 _ j).
    unfold promoted_release. rewrite list_lookup_insert_ne; [done|]. intros ->. congruence.
  - pose proof (ri_tracks h r Hr) as Ht. rewrite Forall_forall in Ht. rewrite Hqid in He.
    eapply (tracks_covered _ _ (fr_StartZ g, fr_Size g) z (Ht q Hq)); [|done].
    exact (elem_of_base h r p1 z1 l al _ _ Hp1 Hz1 Hal He).
Qed.

Lemma free_promoted_leaks_witness :
  exists a' r', Free promoted.1 promoted.2 2 = Ret (a', None) /\ ac_regions a' !! 2 = Some r' /\
    exists q, q ∈ rg_Planes r' /\ pl_ID q = 1 /\ bit_at (pl_FreeMap q) 50 = true.
Proof.
  destruct (free_promoted_leaks promoted.1 promoted.2 2 (block_of promoted 2)
    {| fr_PlaneID := 0; fr_StartZ := 40; fr_Size := 24; fr_IsFirst := true |}
    [{| fr_PlaneID := 1; fr_StartZ := 40; fr_Size := 24; fr_IsFirst := false |}])
    as (r & a' & r' & _ & Hf & Hk & _ & Hbits).
  - apply promoted_inv.
  - apply (bool_decide_unpack _). by vm_compute.
  - vm_compute. reflexivity.
  - vm_compute. reflexivity.
  - intros [=].
  - exists a', r'. split; [exact Hf|]. split; [exact Hk|].
    apply (Hbits {| fr_PlaneID := 1; fr_StartZ := 40; fr_Size := 24; fr_IsFirst := false |} 50).
    + by left.
    + intros [=].
    + vm_compute. reflexivity.
Defined.

(** Releasing a promoted block also clears the marks of its neighbours: the
    range cleared on the first plane has the length of the whole block.  After
    the seven calls below two live blocks of the same plane share bytes. *)
Theorem free_promoted_overlap :
  let st := scenario [CallAllocate 8 4 0; CallAllocate 56 4 0; CallAllocateInRegion 40 2 0; CallFree 0;
                      CallAllocate 32 4 0; CallFree 3; CallAllocate 20 4 0] in
  live st.2 1 /\ live st.2 4 /\
  al_Address (block_of st 1) = NewAddress 2 0 8 /\ al_Size (block_of st 1) = 56 /\
  al_Address (block_of st 4) = NewAddress 2 0 0 /\ al_Size (block_of st 4) = 20.
Proof.
  cbv zeta. split_and!; try (vm_compute; reflexivity); apply (bool_decide_unpack _); by vm_compute.
Qed.

(** A request of zero bytes is not refused: it overwrites the entry at
    offset 0 of the region's plane 0, so that the block there is no longer
    recorded, gives the new object the address 0.0.0, and takes 2^32 from the
    region's free-byte counter. *)
Theorem allocate_zero_bytes :
  let st := scenario [CallAllocate 8 4 0] in
  let st' := scenario [CallAllocate 8 4 0; CallAllocate 0 4 0] in
  live st.2 0 /\ ~ live st'.2 0 /\ live st'.2 1 /\
  al_Address (block_of st' 1) = NewAddress 0 0 0 /\ al_Size (block_of st' 1) = 0 /\
  rg_FreeBytes (region_of st' 2) = u64 (rg_FreeBytes (region_of st 2) - 4294967296).
Proof.
  cbv zeta. split_and!; try (vm_compute; reflexivity); apply (bool_decide_unpack _); by vm_compute.
Qed.

(** C21. [AllocateInRegion] on a valid state (a request of more than zero bytes, no 16-bit
    wrap in the search, a region that can take another plane) places the block at the
    lowest place of the first plane of the region that has room, in one piece, and keeps
    the invariant and all earlier blocks.  When no plane has room and the caller holds
    the region's lock, as the comment asks, the call blocks for ever; when the lock is
    not held it adds a plane and places the block at its start if it fits one, and
    otherwise fails leaving the empty plane behind. *)
Theorem allocate_in_region_correct `{GoRuntime} locked h a size k r flags :
  alloc_inv h a -> ac_regions a !! k = Some r -> 0 < size < 4294967296 -> alloc_safe a size -> can_grow a r ->
  (exists i p s, first_place size (rg_Planes r) i p s /\
   exists h' a' l, AllocateInRegion locked h a size k flags = Ret (h', a', inr l) /\
     placed h a h' a' l size (NewAddress k (pl_ID p) s)) \/
  ((forall p s, p ∈ rg_Planes r -> ~ fits (pl_FreeMap p) size s) /\
   if locked then AllocateInRegion locked h a size k flags = Hang
   else if size <=? cf_PlaneSize (ac_config a) then
     exists h' a' l, AllocateInRegion locked h a size k flags = Ret (h', a', inr l) /\
       placed h a h' a' l size (NewAddress k (u32 (Z.of_nat (length (rg_Planes r)))) 0)
   else AllocateInRegion locked h a size k flags =
     Ret (h, set_region (AddPlane r (next_plane a r)) a, inl ErrAllocateInRegion)).
Proof. apply AllocateInRegion_spec. Qed.

(** Both planes have 24 bytes left: 20 bytes go to the first one, behind its block; 40
    bytes need a new plane, for which a caller with the lock waits for ever. *)
Lemma allocate_in_region_correct_witness :
  (exists h' a' l, @AllocateInRegion (runtime_fwd 0) true two_planes.1 two_planes.2 20 2 0 = Ret (h', a', inr l) /\
     placed two_planes.1 two_planes.2 h' a' l 20 (NewAddress 2 0 40)) /\
  @AllocateInRegion (runtime_fwd 0) true two_planes.1 two_planes.2 40 2 0 = Hang.
Proof.
  pose proof two_planes_inv as Hinv.
  assert (ac_regions two_planes.2 !! 2 = Some (region_of two_planes 2)) as Hk by (vm_compute; reflexivity).
  assert (forall n, alloc_safe two_planes.2 n) as Hsafe by (intros n; apply small_planes_safe; vm_compute; reflexivity).
  assert (can_grow two_planes.2 (region_of two_planes 2)) as Hg by (apply (bool_decide_unpack _); by vm_compute).
  split.
  - destruct (@allocate_in_region_correct (runtime_fwd 0) true two_planes.1 two_planes.2 20 2 (region_of two_planes 2) 0
      Hinv Hk ltac:(lia) (Hsafe 20) Hg) as [(i & p & s & _ & h' & a' & l & He & Hp)|[_ He]].
    + exists h', a', l. split; [exact He|]. pose proof Hp as (_ & _ & _ & al & Hal & _ & _ & Hadd).
      revert He Hal Hadd Hp. vm_compute (AllocateInRegion _ _ _ _ _ _). intros [= <- <- <-].
      intros Hal Hadd Hp. rewrite <- Hadd in Hp. vm_compute in Hal. injection Hal as <-. exact Hp.
    + exfalso. revert He. vm_compute. discriminate.
  - destruct (@allocate_in_region_correct (runtime_fwd 0) true two_planes.1 two_planes.2 40 2 (region_of two_planes 2) 0
      Hinv Hk ltac:(lia) (Hsafe 40) Hg) as [(i & p & s & _ & h' & a' & l & He & Hp)|[_ He]].
    + exfalso. revert He. vm_compute. discriminate.
    + exact He.
Defined.

(** C33. Access control is exact, in whatever order the run time iterates over a plane's
    entries: an access is granted exactly when the region's permissions allow it, the
    plane exists, the offset is inside it and, for writes, the byte is in the range of an
    entry of that plane's map.  While no block of the region is promoted these are
    exactly the bytes marked used.  A promoted block has an entry only on the plane of
    its first fragment: a write to one of its bytes on another plane is refused, if the
    blocks recorded there are not promoted. *)
Theorem can_access_exact `{GoRuntime} h r addr perm :
  region_inv h r -> 0 <= aZ addr ->
  exists ok, CanAccess h addr perm (Some r) = Ret ok /\
    (ok = true <-> CheckPermission (rg_Permissions r) perm = true /\
       exists p, GetPlane r (aY addr) = Some p /\ aZ addr < pl_Size p /\
         (perm = PermissionWrite -> in_entry h p (aZ addr))) /\
    (region_single h r -> forall p, GetPlane r (aY addr) = Some p -> aZ addr < pl_Size p ->
       in_entry h p (aZ addr) <-> bit_at (pl_FreeMap p) (aZ addr) = true) /\
    (perm = PermissionWrite -> forall l al e p, l ∈ region_locs (rg_Planes r) -> heap_get h l = Some al ->
       (aY addr, e) ∈ al_extents al -> covers (aZ addr) e = true -> aY (al_Address al) <> aY addr ->
       GetPlane r (aY addr) = Some p -> unpromoted_entries h p -> ok = false).
Proof.
  intros Hr Hz. destruct (CanAccess_entry h r addr perm Hr) as (ok & Hok & Hiff). exists ok. split; [done|].
  split; [done|]. split.
  - intros Hs p [Hp _]%GetPlane_elem Hlt. by apply (in_entry_marked h r).
  - intros Hw l al e p Hl Hal He C Hne Hg Hun. destruct ok; [exfalso|done].
    destruct (proj1 Hiff eq_refl) as (_ & p' & Hg' & _ & Hin). assert (p' = p) as -> by congruence.
    destruct (GetPlane_elem r _ p Hg) as [Hp Hid]. rewrite <- Hid in He, Hne.
    by apply (foreign_fragment h r p l al e (aZ addr) Hr Hp Hl Hal He C Hne Hun), Hin.
Qed.

(** In the region with the promoted block a write to byte 5 of plane 0 is granted; byte 50
    of plane 1 is marked used, but belongs to the second fragment, and is refused. *)
Lemma can_access_exact_witness :
  @CanAccess (runtime_rev 0) promoted.1 (NewAddress 2 0 5) PermissionWrite (Some (region_of promoted 2)) = Ret true /\
  @CanAccess (runtime_rev 0) promoted.1 (NewAddress 2 1 50) PermissionWrite (Some (region_of promoted 2)) = Ret false /\
  used promoted.2 2 1 50.
Proof.
  assert (region_inv promoted.1 (region_of promoted 2)) as Hr.
  { apply (ai_regions _ _ promoted_inv 2). vm_compute. reflexivity. }
  split_and!.
  - destruct (@can_access_exact (runtime_rev 0) promoted.1 (region_of promoted 2) (NewAddress 2 0 5) PermissionWrite Hr)
      as (ok & -> & Hiff & _); [done|]. f_equal. apply Hiff. split; [vm_compute; reflexivity|].
    eexists. split; [vm_compute; reflexivity|]. split; [by vm_compute|]. intros _.
    exists 0, 0, (block_of promoted 0). split_and!; vm_compute; congruence.
  - destruct (@can_access_exact (runtime_rev 0) promoted.1 (region_of promoted 2) (NewAddress 2 1 50) PermissionWrite Hr)
      as (ok & -> & _ & _ & Hf); [done|]. f_equal.
    apply (Hf eq_refl 2 (block_of promoted 2) (40, 24) (default (NewPlane 0 0 0) (GetPlane (region_of promoted 2) 1))).
    + apply (bool_decide_unpack _). by vm_compute.
    + vm_compute. reflexivity.
    + apply (bool_decide_unpack _). by vm_compute.
    + vm_compute. reflexivity.
    + vm_compute. discriminate.
    + vm_compute. reflexivity.
    + apply (bool_decide_unpack _). by vm_compute.
  - eexists _, _. vm_compute. intuition congruence.
Defined.
