(* ===== verification/YPromotion.v ===== *)
(** * The promotion planner (internal/allocator/ypromotion.go)

    [BestFitPromoter] plans how a request could be spread over the planes of one
    region.  It probes each plane with a real allocation and then calls the
    plane's [Free] to undo it; the planes are shared with the region, so the model
    returns them with the plan.  The fields [allowNonAdjacent] and
    [maxSearchDepth] of the struct are never read. *)
From S2P Require Import Prelude Words Float64 Address Errors Bitmap Plane Region Allocator AllocatorInv YPromotionInv.
From S2P Require Import AllocatorSpec AllocatorEdge.

Record PromotionFragment := mkPromotionFragment { pf_PlaneID : Z; pf_StartZ : Z; pf_Size : Z }.

Record PromotionPlan := mkPromotionPlan {
  pp_RegionID : Z;
  pp_Planes : list Z;
  pp_Fragments : list PromotionFragment;
  pp_TotalSize : Z;
  pp_Cost : Z;
  pp_Score : float64;
}.

(** The plan the two searches build, before the caller fills in the rest. *)
Definition new_plan (planes : list Z) (fragments : list PromotionFragment) (size : Z) : PromotionPlan :=
  mkPromotionPlan 0 planes fragments size 0 f64_zero.

(** Allocate in plane [i] and free again: the planes, the start, the success flag
    of the allocation. *)
Definition probe (h : Heap) (ps : list Plane) (i : nat) (n : Z) : res (list Plane * Z * bool) :=
  plane ← deref (ps !! i);
  '(plane, startZ, ok) ← Plane_Allocate plane n;
  if negb ok then Ret (<[i := plane]> ps, startZ, false)
  else
    '(plane, _) ← Plane_Free h plane startZ;
    Ret (<[i := plane]> ps, startZ, true).

(** The loop of [findMultiPlaneFit]; the announced sorting is not there. *)
Fixpoint multi_loop (h : Heap) (ps : list Plane) (planes : list nat) (fragments : list PromotionFragment)
    (usedPlanes : list Z) (remaining : Z) : res (list Plane * list PromotionFragment * list Z * Z) :=
  match planes with
  | [] => Ret (ps, fragments, usedPlanes, remaining)
  | i :: planes =>
      if remaining =? 0 then Ret (ps, fragments, usedPlanes, remaining)
      else
        plane ← deref (ps !! i);
        let freeBytes := Plane_FreeBytes plane in
        if freeBytes =? 0 then multi_loop h ps planes fragments usedPlanes remaining
        else
          let allocSize := u16 (min freeBytes remaining) in
          '(ps, startZ, ok) ← probe h ps i allocSize;
          if negb ok then multi_loop h ps planes fragments usedPlanes remaining
          else multi_loop h ps planes (fragments ++ [mkPromotionFragment (pl_ID plane) startZ allocSize])
                 (usedPlanes ++ [pl_ID plane]) (u32 (remaining - allocSize))
  end.

Definition findMultiPlaneFit (h : Heap) (ps : list Plane) (planes : list nat) (size : Z)
    : res (list Plane * option PromotionPlan) :=
  '(ps, fragments, usedPlanes, remaining) ← multi_loop h ps planes [] [] size;
  if 0 <? remaining then Ret (ps, None) else Ret (ps, Some (new_plan usedPlanes fragments size)).

(** The loop of [findBestFit] over single planes. *)
Fixpoint single_loop (h : Heap) (ps : list Plane) (planes : list nat) (size : Z)
    : res (list Plane * option PromotionPlan) :=
  match planes with
  | [] => Ret (ps, None)
  | i :: planes =>
      plane ← deref (ps !! i);
      if size <=? Plane_FreeBytes plane then
        '(ps, startZ, ok) ← probe h ps i (u16 size);
        if ok : bool
        then Ret (ps, Some (new_plan [pl_ID plane] [mkPromotionFragment (pl_ID plane) startZ (u16 size)] size))
        else single_loop h ps planes size
      else single_loop h ps planes size
  end.

Definition findBestFit (h : Heap) (ps : list Plane) (planes : list nat) (size : Z)
    : res (list Plane * option PromotionPlan) :=
  '(ps, plan) ← single_loop h ps planes size;
  match plan with
  | Some plan => Ret (ps, Some plan)
  | None => findMultiPlaneFit h ps planes size
  end.

Definition CalculateCost (plan : PromotionPlan) : Z :=
  let baseCost := u64 (GasBaseAllocation + GasPerByte * pp_TotalSize plan) in
  let promotionPenalty := u64 (u64 (Z.of_nat (length (pp_Planes plan)) - 1) * GasYPromotion) in
  u64 (baseCost + promotionPenalty).

Fixpoint arePlanesAdjacent (planes : list Z) : bool :=
  match planes with
  | p :: (q :: _) as rest => if q =? u32 (p + 1) then arePlanesAdjacent rest else false
  | _ => true
  end.

Definition calculateScore (plan : PromotionPlan) : float64 :=
  let score := f64_of_Z 1 in
  let planePenalty := f64_mul (f64_of_Z (Z.of_nat (length (pp_Planes plan)))) (f64_ratio 1 10) in
  let score := f64_sub score planePenalty in
  let score := if arePlanesAdjacent (pp_Planes plan) then f64_add score (f64_ratio 2 10) else score in
  foldl (fun score frag => if 1024 <? pf_Size frag then f64_add score (f64_ratio 5 100) else score)
    score (pp_Fragments plan).

Definition FindPromotion (h : Heap) (region : Region) (size : Z) : res (Region * option PromotionPlan) :=
  '(ps, bestPlan) ← findBestFit h (rg_Planes region) (candidates (rg_Planes region)) size;
  let region := with_Planes ps region in
  match bestPlan with
  | None => Ret (region, None)
  | Some plan =>
      Ret (region, Some {| pp_RegionID := rg_ID region; pp_Planes := pp_Planes plan;
        pp_Fragments := pp_Fragments plan; pp_TotalSize := pp_TotalSize plan;
        pp_Cost := CalculateCost plan; pp_Score := calculateScore plan |})
  end.

(** ** What a plan promises, and what planning leaves behind *)

Definition pf_extent (f : PromotionFragment) : Z * extent := (pf_PlaneID f, (pf_StartZ f, pf_Size f)).

Lemma sum_pf_extent fs : sumZ (fun ye => ye.2.2) (pf_extent <$> fs) = sumZ pf_Size fs.
Proof. induction fs as [|f fs IH]; [done|]. rewrite fmap_cons. simpl. by rewrite IH. Qed.

Section Planner.
Context (h : Heap) (r : Region).
Hypothesis Hr : region_inv h r.

Notation pend fs ps := (pending (base h r) (rg_Planes r) (pf_extent <$> fs) ps).

(** A probe that succeeds is not undone: [Plane.Free] looks for a map entry, and
    the probe made none. *)
Lemma probe_spec fs ps i p n :
  pend fs ps -> ps !! i = Some p -> 0 < n -> find_safe (pl_FreeMap p) n ->
  exists ps' s ok, probe h ps i n = Ret (ps', s, ok) /\
    if ok : bool then pend (fs ++ [mkPromotionFragment (pl_ID p) s n]) ps' /\
      exists p', ps' = <[i := p']> ps
    else ps' = ps.
Proof.
  intros Hpd Hi Hn Hsafe. destruct (pending_lookup _ _ _ _ _ _ Hpd Hi) as (_ & _ & _ & _ & Ht).
  unfold probe. rewrite Hi. cbn [deref mbind res_bind].
  destruct (Plane_Allocate_spec p _ n Ht ltac:(lia) Hsafe) as (p' & s & ok & -> & Hok). cbn [mbind res_bind].
  destruct ok; cbn [negb].
  - destruct Hok as (_ & Hf & _ & -> & _).
    pose proof (pending_alloc _ _ _ _ i p n s (ri_nodup h r Hr) Hpd Hi Hn Hf) as Hpd'.
    set (p' := with_FreeMap _ p) in *.
    assert (pl_Allocations p' !! s = None) as Hkey.
    { apply (pending_key_fresh h r _ _ i p' s n Hr Hpd'); [|by left].
      apply list_lookup_insert_eq. by eapply lookup_lt_Some. }
    unfold Plane_Free. rewrite Hkey. cbn [mbind res_bind]. eexists _, s, true. split; [done|]. split; [|by eexists].
    eapply pending_perm; [|exact Hpd']. rewrite fmap_app. apply Permutation_cons_append.
  - destruct Hok as [-> _]. eexists _, s, false. split; [done|]. by apply list_insert_id.
Qed.

(** A probe fails only where nothing fits. *)
Lemma probe_fails i p n ps' s :
  rg_Planes r !! i = Some p -> 0 < n -> find_safe (pl_FreeMap p) n ->
  probe h (rg_Planes r) i n = Ret (ps', s, false) -> forall q, ~ fits (pl_FreeMap p) n q.
Proof.
  intros Hi Hn Hsafe. destruct (pending_lookup _ _ _ _ _ _ (region_pending_nil h r Hr) Hi) as (_ & _ & _ & _ & Ht).
  unfold probe. rewrite Hi. cbn [deref mbind res_bind].
  destruct (Plane_Allocate_spec p _ n Ht ltac:(lia) Hsafe) as (p' & s' & ok & -> & Hok). cbn [mbind res_bind].
  destruct ok; cbn [negb]; [destruct (Plane_Free _ _ _) as [[? ?]| |]; discriminate|]. intros _. by apply Hok.
Qed.

Context (size : Z).
Hypothesis Hsize : 0 < size < 4294967296.
Hypothesis Hsafe : forall p n, p ∈ rg_Planes r -> 0 < n <= size -> n <= bm_size (pl_FreeMap p) ->
  find_safe (pl_FreeMap p) n.

Lemma plane_wf p : p ∈ rg_Planes r -> bitmap_wf (pl_FreeMap p).
Proof. intros Hp. pose proof (ri_tracks h r Hr) as Ht. rewrite Forall_forall in Ht. apply (tr_wf _ _ (Ht p Hp)). Qed.

(** The loop over single planes: the first plane that fits, or none does. *)
Lemma single_loop_spec cands :
  (forall i, i ∈ cands -> is_Some (rg_Planes r !! i)) ->
  exists ps o, single_loop h (rg_Planes r) cands size = Ret (ps, o) /\
    match o with
    | Some plan => exists f, plan = new_plan [pf_PlaneID f] [f] size /\ pf_Size f = size /\ pend [f] ps
    | None => ps = rg_Planes r /\
        forall i p s, i ∈ cands -> rg_Planes r !! i = Some p -> ~ fits (pl_FreeMap p) size s
    end.
Proof.
  induction cands as [|i cands IH]; intros Hc.
  { eexists _, None. split_and!; [done..|]. by intros i p s ?%elem_of_nil. }
  destruct (Hc i ltac:(by left)) as [p Hi]. cbn [single_loop]. rewrite Hi. cbn [deref mbind res_bind].
  assert (p ∈ rg_Planes r) as Hp by (by eapply list_elem_of_lookup_2). pose proof (plane_wf p Hp) as Hwf.
  destruct IH as (ps & o & Ho & Hpost); [intros j Hj; apply Hc; by right|].
  assert ((forall s, ~ fits (pl_FreeMap p) size s) -> exists ps o, single_loop h (rg_Planes r) cands size = Ret (ps, o) /\
    match o with
    | Some plan => exists f, plan = new_plan [pf_PlaneID f] [f] size /\ pf_Size f = size /\ pend [f] ps
    | None => ps = rg_Planes r /\
        forall j q s, j ∈ i :: cands -> rg_Planes r !! j = Some q -> ~ fits (pl_FreeMap q) size s
    end) as Hnext.
  { intros Hno. exists ps, o. split; [done|]. destruct o as [plan|]; [done|]. destruct Hpost as [-> Hpost].
    split; [done|]. intros j q s [->|Hj]%elem_of_cons Hq; [rewrite Hi in Hq; injection Hq as <-; apply Hno|].
    by eapply Hpost. }
  pose proof (FreeBytes_size _ Hwf) as Hfs. pose proof (wf_size _ Hwf) as Hws. unfold is_u16 in Hws.
  unfold Plane_FreeBytes. destruct (Z.leb_spec size (FreeBytes (pl_FreeMap p))) as [Hle|Hgt].
  - rewrite u16_small by (unfold is_u16; lia). pose proof (Hsafe p size Hp ltac:(lia) ltac:(lia)) as Hsf.
    destruct (probe_spec [] (rg_Planes r) i p size (region_pending_nil h r Hr) Hi ltac:(lia) Hsf)
      as (ps' & s & ok & Hpr & Hok). rewrite Hpr. cbn [mbind res_bind]. destruct ok.
    + eexists _, (Some _). split; [done|]. exists (mkPromotionFragment (pl_ID p) s size). split_and!; [done..|apply Hok].
    + rewrite Hok. apply Hnext. exact (probe_fails i p size ps' s Hi ltac:(lia) Hsf Hpr).
  - apply Hnext. intros s Hf. apply fits_FreeBytes in Hf; [lia | done | lia].
Qed.

(** The loop over several planes: each probe leaves its extent behind, also when
    the loop falls short. *)
Lemma multi_loop_spec cands fs ps rem :
  pend fs ps -> NoDup cands -> (forall i, i ∈ cands -> is_Some (ps !! i) /\ ps !! i = rg_Planes r !! i) ->
  0 <= rem <= size ->
  exists ps' fs' rem', multi_loop h ps cands fs (pf_PlaneID <$> fs) rem = Ret (ps', fs', pf_PlaneID <$> fs', rem') /\
    pend fs' ps' /\ 0 <= rem' /\ sumZ pf_Size fs' + rem' = sumZ pf_Size fs + rem.
Proof.
  revert fs ps rem. induction cands as [|i cands IH]; intros fs ps rem Hpd Hnd Hc Hrem.
  { exists ps, fs, rem. split_and!; [done..|lia|lia]. }
  apply NoDup_cons in Hnd as [Hni Hnd]. cbn [multi_loop].
  destruct (Z.eqb_spec rem 0) as [|Hrem0]; [exists ps, fs, rem; split_and!; [done..|lia|lia]|].
  destruct (Hc i ltac:(by left)) as [[p Hi] Heq]. rewrite Hi in Heq. rewrite Hi. cbn [deref mbind res_bind].
  assert (p ∈ rg_Planes r) as Hp by (by apply (list_elem_of_lookup_2 _ i)).
  pose proof (FreeBytes_size _ (plane_wf p Hp)) as Hfb. pose proof (wf_size _ (plane_wf p Hp)) as Hs.
  unfold is_u16 in Hs. cbv zeta. unfold Plane_FreeBytes.
  assert (forall j, j ∈ cands -> is_Some (ps !! j) /\ ps !! j = rg_Planes r !! j) as Hc'.
  { intros j Hj. apply Hc. by right. }
  destruct (Z.eqb_spec (FreeBytes (pl_FreeMap p)) 0) as [|Hf0]; [by apply IH|].
  set (n := min (FreeBytes (pl_FreeMap p)) rem).
  assert (0 < n <= rem /\ n <= bm_size (pl_FreeMap p)) as [Hn Hnb] by (unfold n, min; case_bool; lia).
  rewrite u16_small by (unfold is_u16; lia).
  destruct (probe_spec fs ps i p n Hpd Hi ltac:(lia) (Hsafe p n Hp ltac:(lia) Hnb)) as (ps' & s & ok & -> & Hok).
  cbn [mbind res_bind]. destruct ok; cbn [negb]; [|rewrite Hok; by apply IH].
  destruct Hok as (Hpd' & p' & Hps'). rewrite u32_small by (unfold is_u32; lia).
  edestruct (IH (fs ++ [mkPromotionFragment (pl_ID p) s n]) ps' (rem - n))
    as (ps2 & fs2 & rem2 & He & Hpd2 & Hrem2 & Hsum); [done | done | | lia |].
  - intros j Hj. rewrite Hps', list_lookup_insert_ne by (intros ->; done). by apply Hc'.
  - rewrite fmap_app in He. exists ps2, fs2, rem2. split_and!; [done..|]. rewrite Hsum, sumZ_app. simpl. lia.
Qed.

Lemma candidates_elem i p : rg_Planes r !! i = Some p -> 0 < Plane_FreeBytes p -> i ∈ candidates (rg_Planes r).
Proof.
  intros Hi Hf. unfold candidates. rewrite list_elem_of_In, filter_In, Hi. split; [|by apply Z.ltb_lt].
  apply in_seq. apply lookup_lt_Some in Hi. lia.
Qed.
End Planner.

Lemma candidates_lookup ps i : i ∈ candidates ps -> is_Some (ps !! i).
Proof. intros Hi. by apply lookup_lt_is_Some_2, candidates_spec. Qed.

Lemma CalculateCost_exact plan :
  0 <= pp_TotalSize plan < 4294967296 -> 1 <= Z.of_nat (length (pp_Planes plan)) < 1000000000000000000 ->
  CalculateCost plan =
    GasBaseAllocation + GasPerByte * pp_TotalSize plan + GasYPromotion * (Z.of_nat (length (pp_Planes plan)) - 1).
Proof.
  intros Hs Hl. unfold CalculateCost, GasBaseAllocation, GasPerByte, GasYPromotion.
  rewrite (u64_small (Z.of_nat _ - 1)) by (unfold is_u64; lia).
  rewrite (u64_small (_ * _)), (u64_small (3 + 1 * _)) by (unfold is_u64; lia). rewrite u64_small; unfold is_u64; lia.
Qed.

(** What [findBestFit] returns, plan or not. *)
Lemma findBestFit_spec h r size :
  region_inv h r -> 0 < size < 4294967296 ->
  (forall p n, p ∈ rg_Planes r -> 0 < n <= size -> n <= bm_size (pl_FreeMap p) -> find_safe (pl_FreeMap p) n) ->
  exists ps o fs, findBestFit h (rg_Planes r) (candidates (rg_Planes r)) size = Ret (ps, o) /\
    pending (base h r) (rg_Planes r) (pf_extent <$> fs) ps /\
    match o with
    | Some plan => plan = new_plan (pf_PlaneID <$> fs) fs size /\ sumZ pf_Size fs = size /\
        ((exists p s, p ∈ rg_Planes r /\ fits (pl_FreeMap p) size s) -> length fs = 1%nat)
    | None => sumZ pf_Size fs < size /\ forall p s, p ∈ rg_Planes r -> ~ fits (pl_FreeMap p) size s
    end.
Proof.
  intros Hr Hsz Hsafe. unfold findBestFit.
  destruct (single_loop_spec h r Hr size Hsz Hsafe (candidates (rg_Planes r))) as (ps & o & -> & Ho);
    [apply candidates_lookup|]. cbn [mbind res_bind]. destruct o as [plan|].
  { destruct Ho as (f & -> & Hf & Hpd). eexists _, (Some _), [f]. split_and!; [done | done | done | simpl; lia | done]. }
  destruct Ho as [-> Hno].
  assert (forall p s, p ∈ rg_Planes r -> ~ fits (pl_FreeMap p) size s) as Hnone.
  { intros p s Hp Hf. pose proof Hp as [i Hi]%list_elem_of_lookup. apply (Hno i p s); [|done..].
    apply (candidates_elem _ i p Hi). pose proof (plane_wf h r Hr p Hp) as Hwf.
    apply fits_FreeBytes in Hf; [unfold Plane_FreeBytes; lia | done | lia]. }
  unfold findMultiPlaneFit.
  destruct (multi_loop_spec h r Hr size Hsz Hsafe (candidates (rg_Planes r)) [] (rg_Planes r) size)
    as (ps & fs & rem & He & Hpd & Hrem & Hsum);
    [by apply region_pending_nil | apply candidates_nodup | intros i Hi; split; [by apply candidates_lookup | done] | lia|].
  rewrite fmap_nil in He. rewrite He. cbn [mbind res_bind]. simpl in Hsum. destruct (Z.ltb_spec 0 rem).
  - eexists _, None, fs. split_and!; [done | done | lia | done].
  - eexists _, (Some _), fs. split_and!; [done | done | done | lia |]. intros (p & s & Hp & Hf). by destruct (Hnone p s).
Qed.

(** C26. Planning a promotion of more than zero bytes in a valid region whose planes the
    search can handle without a 16-bit wrap: the planner does not panic, and a plan it
    returns covers exactly the requested bytes with fragments on free, disjoint ranges of
    planes of the region, in one piece whenever some plane has room for it, at the cost
    of a base, a part per byte and a part per further plane.  But planning is not free of effects: whether it finds a plan
    or not, every range it tried stays marked used without an owner, so the
    region's free-byte counter is wrong afterwards by that many bytes. *)
Theorem find_promotion_plan h r size :
  region_inv h r -> 0 < size < 4294967296 ->
  (forall p n, p ∈ rg_Planes r -> 0 < n <= size -> n <= bm_size (pl_FreeMap p) -> find_safe (pl_FreeMap p) n) ->
  exists r' o fs, FindPromotion h r size = Ret (r', o) /\
    pending (base h r) (rg_Planes r) (pf_extent <$> fs) (rg_Planes r') /\
    rg_FreeBytes r' = sumZ Plane_FreeBytes (rg_Planes r') + sumZ pf_Size fs /\
    match o with
    | Some plan => pp_RegionID plan = rg_ID r /\ pp_Fragments plan = fs /\ pp_Planes plan = pf_PlaneID <$> fs /\
        pp_TotalSize plan = size /\ sumZ pf_Size fs = size /\
        ((exists p s, p ∈ rg_Planes r /\ fits (pl_FreeMap p) size s) -> length fs = 1%nat) /\
        (Z.of_nat (length fs) < 1000000000000000000 ->
         pp_Cost plan = GasBaseAllocation + GasPerByte * size + GasYPromotion * (Z.of_nat (length fs) - 1))
    | None => sumZ pf_Size fs < size /\ forall p s, p ∈ rg_Planes r -> ~ fits (pl_FreeMap p) size s
    end.
Proof.
  intros Hr Hsz Hsafe. destruct (findBestFit_spec h r size Hr Hsz Hsafe) as (ps & o & fs & He & Hpd & Ho).
  pose proof (pd_free _ _ _ _ Hpd) as Hfree. rewrite sum_pf_extent in Hfree. pose proof (ri_free h r Hr) as Hrf.
  unfold FindPromotion. rewrite He. cbn [mbind res_bind]. cbv zeta. destruct o as [plan|].
  - destruct Ho as (-> & Hsum & Hone). eexists _, (Some _), fs. split; [done|]. split; [done|].
    split; [simpl; lia|]. cbn [pp_RegionID pp_Fragments pp_Planes pp_TotalSize pp_Cost new_plan with_Planes rg_ID].
    split_and!; [done..|]. intros Hlen. rewrite CalculateCost_exact; cbn [pp_TotalSize pp_Planes new_plan]; [|lia|];
      rewrite length_fmap; [done|]. destruct fs; [simpl in Hsum; lia|]. cbn [length] in *. lia.
  - eexists _, None, fs. split; [done|]. split; [done|]. split; [simpl; lia|]. done.
Qed.

Lemma find_promotion_plan_witness :
  exists r' o fs, FindPromotion two_planes.1 (region_of two_planes 2) 48 = Ret (r', o) /\
    rg_FreeBytes r' = sumZ Plane_FreeBytes (rg_Planes r') + sumZ pf_Size fs.
Proof.
  assert (ac_regions two_planes.2 !! 2 = Some (region_of two_planes 2)) as Hk by (vm_compute; reflexivity).
  destruct (find_promotion_plan two_planes.1 (region_of two_planes 2) 48) as (r' & o & fs & H1 & _ & H2 & _).
  - apply (ai_regions _ _ two_planes_inv 2 _ Hk).
  - lia.
  - intros p n Hp. assert (alloc_safe two_planes.2 48) as Hs by (apply small_planes_safe; vm_compute; reflexivity).
    by apply (Hs 2 _ p n Hk Hp).
  - exists r', o, fs. exact (conj H1 H2).
Defined.
