(* ===== verification/Compaction.v ===== *)
(** * The compaction analysis (allocator.go, [AnalyzeCompaction])

    The three nested loops of the analysis, with its early return: what the list
    of allocation numbers contains, and what it may leave out. *)
From S2P Require Import Prelude Words Float64 Address Errors Bitmap Plane Region Allocator AllocatorInv.
From S2P Require Import YPromotionInv AllocatorSpec AllocatorEdge.

Section Analysis.
Context (h : Heap) (max : Z).

(** Neither pinned nor spread over planes. *)
Definition movable (l : loc) (al : Allocation) : Prop :=
  heap_get h l = Some al /\ Z.land (al_Flags al) FlagPinned = 0 /\ IsYPromoted al = false.

(** The allocation [id] is a movable one of [L]. *)
Definition movable_in (L : list loc) (id : Z) : Prop := exists l al, l ∈ L /\ movable l al /\ al_ID al = id.

(** The list before an append: there is still room, or it is empty. *)
Definition room (acc : list Z) : Prop := Z.of_nat (length acc) < max \/ acc = [].

(** What one loop over the locations [L] adds to [acc]: movable allocations of
    [L] only, within the limit, and all of them unless the limit stopped it. *)
Definition collected (L : list loc) (acc acc' : list Z) (stop : bool) : Prop :=
  exists new, acc' = acc ++ new /\ Forall (movable_in L) new /\
    if stop then Z.of_nat (length acc') <= Z.max 1 max /\ max <= Z.of_nat (length acc')
    else room acc' /\ forall l al, l ∈ L -> movable l al -> al_ID al ∈ new.

Lemma movable_in_mono L L' id : L ⊆ L' -> movable_in L id -> movable_in L' id.
Proof. intros HL (l & al & Hl & Hm & Hid). exists l, al. split; [by apply HL | done]. Qed.

Lemma collected_nil acc : room acc -> collected [] acc acc false.
Proof. intros Hr. exists []. rewrite app_nil_r. split_and!; [done..|]. by intros l al ?%elem_of_nil. Qed.

(** Two loops in sequence, where the first may stop. *)
Lemma collected_stop L L' acc acc' : collected L acc acc' true -> collected (L ++ L') acc acc' true.
Proof.
  intros (new & -> & Hf & Hl). exists new. split; [done|]. split; [|done].
  eapply Forall_impl; [exact Hf|]. intros id. apply movable_in_mono. intros l. rewrite elem_of_app. by left.
Qed.

Lemma collected_seq L L' acc acc1 acc2 stop :
  collected L acc acc1 false -> collected L' acc1 acc2 stop -> collected (L ++ L') acc acc2 stop.
Proof.
  intros (n1 & -> & F1 & _ & C1) (n2 & -> & F2 & C2). exists (n1 ++ n2). rewrite app_assoc. split; [done|]. split.
  - apply Forall_app. split; (eapply Forall_impl; [done|]); intros id; apply movable_in_mono; intros l;
      rewrite elem_of_app; tauto.
  - destruct stop; [done|]. destruct C2 as [Hr C2]. split; [done|]. intros l al Hl Hm.
    apply elem_of_app. apply elem_of_app in Hl as [Hl|Hl]; [left; by eapply C1 | right; by eapply C2].
Qed.

Lemma collected_one l al acc :
  room acc -> heap_get h l = Some al ->
  if negb (Z.land (al_Flags al) FlagPinned =? 0) || IsYPromoted al then collected [l] acc acc false
  else collected [l] acc (acc ++ [al_ID al]) (max <=? Z.of_nat (length (acc ++ [al_ID al]))).
Proof.
  intros Hr Hal. destruct (negb (Z.land (al_Flags al) FlagPinned =? 0) || IsYPromoted al) eqn:Hp.
  - exists []. rewrite app_nil_r. split_and!; [done..|]. intros l' al' ->%list_elem_of_singleton (Hal' & Hf & Hy).
    rewrite Hal in Hal'. injection Hal' as <-. rewrite Hf, Hy in Hp. done.
  - apply orb_false_iff in Hp as [Hf Hy]. apply negb_false_iff, Z.eqb_eq in Hf.
    exists [al_ID al]. split; [done|]. split.
    + constructor; [|done]. exists l, al. split; [by left | done].
    + rewrite length_app. simpl. destruct (Z.leb_spec max (Z.of_nat (length acc + 1))).
      * destruct Hr as [Hr| ->]; simpl in *; lia.
      * split; [left; rewrite length_app; simpl; lia|]. intros l' al' ->%list_elem_of_singleton (Hal' & _).
        rewrite Hal in Hal'. injection Hal' as <-. by left.
Qed.

Lemma movable_in_plane_spec (m : gmap Z loc) keys acc :
  room acc -> Forall (fun k => exists l al, m !! k = Some l /\ heap_get h l = Some al) keys ->
  exists acc' stop, movable_in_plane h max m keys acc = Ret (acc', stop) /\
    collected (omap (m !!.) keys) acc acc' stop.
Proof.
  intros Hr Hk. revert acc Hr. induction Hk as [|k keys (l & al & Hl & Hal) Hk IH]; intros acc Hr.
  { eexists _, _. split; [done|]. by apply collected_nil. }
  cbn [movable_in_plane]. rewrite Hl. cbn [deref mbind res_bind]. rewrite Hal. cbn [deref mbind res_bind]. cbv zeta.
  assert (omap (m !!.) (k :: keys) = [l] ++ omap (m !!.) keys) as -> by (simpl; by rewrite Hl).
  pose proof (collected_one l al acc Hr Hal) as Hone. destruct (negb _ || _).
  - destruct (IH acc Hr) as (acc' & stop & -> & Hc). eexists _, _. split; [done|]. by eapply collected_seq.
  - destruct (max <=? _); [eexists _, _; split; [done|]; by apply collected_stop|].
    assert (room (acc ++ [al_ID al])) as Hr' by (by destruct Hone as (new & _ & _ & ? & _)).
    destruct (IH _ Hr') as (acc' & stop & -> & Hc). eexists _, _. split; [done|]. by eapply collected_seq.
Qed.

(** The objects of a plane in the order in which the run time visits them. *)
Definition plane_order `{GoRuntime} (p : Plane) : list loc :=
  omap (pl_Allocations p !!.) (rt_range 1 (pl_Allocations p)).

Lemma range_lookup `{GoRuntime} site {V} (m : gmap Z V) k : k ∈ rt_range site m <-> is_Some (m !! k).
Proof.
  rewrite rt_range_perm, list_elem_of_fmap. split.
  - intros ([k' v] & -> & Hk%elem_of_map_to_list). by eexists.
  - intros [v Hv]. exists (k, v). split; [done|]. by apply elem_of_map_to_list.
Qed.

Lemma elem_of_plane_order `{GoRuntime} p l : l ∈ plane_order p <-> exists z, pl_Allocations p !! z = Some l.
Proof.
  unfold plane_order. rewrite list_elem_of_omap. split; [intros (z & _ & Hz); by exists z|].
  intros [z Hz]. exists z. split; [|done]. apply range_lookup. by eexists.
Qed.

Lemma movable_in_planes_spec `{GoRuntime} ps acc :
  room acc -> (forall p z l, p ∈ ps -> pl_Allocations p !! z = Some l -> is_Some (heap_get h l)) ->
  exists acc' stop, movable_in_planes h max ps acc = Ret (acc', stop) /\
    collected (ps ≫= plane_order) acc acc' stop.
Proof.
  revert acc. induction ps as [|p ps IH]; intros acc Hr Hps.
  { eexists _, _. split; [done|]. by apply collected_nil. }
  cbn [movable_in_planes]. rewrite bind_cons.
  destruct (movable_in_plane_spec (pl_Allocations p) (rt_range 1 (pl_Allocations p)) acc Hr)
    as (acc1 & stop & -> & Hc).
  { apply Forall_forall. intros z [l Hl]%range_lookup.
    destruct (Hps p z l ltac:(by left) Hl) as [al Hal]. by exists l, al. }
  cbn [mbind res_bind]. destruct stop; [eexists _, _; split; [done|]; by apply collected_stop|].
  assert (room acc1) as Hr1 by (by destruct Hc as (new & _ & _ & ? & _)).
  destruct (IH acc1 Hr1) as (acc2 & stop & -> & Hc2); [intros q z l Hq; apply Hps; by right|].
  eexists _, _. split; [done|]. by eapply collected_seq.
Qed.
End Analysis.

(** A region the analysis looks into. *)
Definition selected (config : CompactionConfig) (r : Region) : bool :=
  cr_RecommendCompact (GetCompactionReport r) &&
  negb (f64_ltb (cr_Fragmentation (GetCompactionReport r)) (cc_FragmentationThreshold config)).

Definition region_order `{GoRuntime} (a : Allocator3D) (config : CompactionConfig) (k : Z) : list loc :=
  match ac_regions a !! k with
  | Some r => if selected config r then rg_Planes r ≫= plane_order else []
  | None => []
  end.

Lemma movable_in_regions_spec `{GoRuntime} h a config keys acc :
  alloc_inv h a -> room (cc_MaxAllocationsToMove config) acc -> Forall (fun k => is_Some (ac_regions a !! k)) keys ->
  exists acc' stop, movable_in_regions h a config keys acc = Ret acc' /\
    collected h (cc_MaxAllocationsToMove config) (keys ≫= region_order a config) acc acc' stop.
Proof.
  intros Ha Hr Hk. revert acc Hr. induction Hk as [|k keys [r Hk] Hks IH]; intros acc Hr.
  { eexists _, _. split; [done|]. by apply collected_nil. }
  cbn [movable_in_regions]. rewrite bind_cons, Hk. unfold region_order at 1. rewrite Hk. cbn [deref mbind res_bind]. cbv zeta.
  assert (selected config r = negb (negb (cr_RecommendCompact (GetCompactionReport r)) ||
    f64_ltb (cr_Fragmentation (GetCompactionReport r)) (cc_FragmentationThreshold config))) as ->.
  { unfold selected. by rewrite negb_orb, negb_involutive. }
  destruct (negb _ || _); cbn [negb]; [by apply IH|].
  destruct (ai_regions h a Ha k r Hk) as [Hid Hri].
  destruct (movable_in_planes_spec h (cc_MaxAllocationsToMove config) (rg_Planes r) acc Hr)
    as (acc1 & stop & -> & Hc).
  { intros p z l Hp Hz. destruct (ri_entries h r Hri p z l Hp Hz) as (al & Hal & _). by eexists. }
  cbn [mbind res_bind]. destruct stop; [eexists _, _; split; [done|]; by apply collected_stop|].
  assert (room (cc_MaxAllocationsToMove config) acc1) as Hr1 by (by destruct Hc as (new & _ & _ & ? & _)).
  destruct (IH acc1 Hr1) as (acc2 & stop & -> & Hc2). eexists _, _. split; [done|]. by eapply collected_seq.
Qed.

Lemma elem_of_region_order `{GoRuntime} a config l :
  l ∈ (rt_range 0 (ac_regions a) ≫= region_order a config) <->
  exists k r, ac_regions a !! k = Some r /\ selected config r = true /\ l ∈ region_locs (rg_Planes r).
Proof.
  rewrite list_elem_of_bind. unfold region_order. split.
  - intros (k & Hl & Hk). destruct (ac_regions a !! k) as [r|] eqn:Hr; [|by apply elem_of_nil in Hl].
    destruct (selected config r) eqn:Hs; [|by apply elem_of_nil in Hl]. exists k, r. split_and!; [done..|].
    apply list_elem_of_bind in Hl as (p & [z Hz]%elem_of_plane_order & Hp). apply elem_of_region_locs. by exists p, z.
  - intros (k & r & Hk & Hs & (p & z & Hp & Hz)%elem_of_region_locs). exists k. rewrite Hk, Hs.
    split; [|apply range_lookup; by eexists]. apply list_elem_of_bind. exists p. split; [|done].
    apply elem_of_plane_order. by exists z.
Qed.

(** C30. The compaction analysis never panics, and is exact up to its limit: it
    lists only allocations that are live in a region whose report recommends
    compaction at the threshold, not pinned and not spread over planes, at most the
    configured number of them (one, if that number is not positive); and if it lists
    fewer, it lists every such allocation, whatever the iteration orders are. *)
Theorem analyze_compaction_exact `{GoRuntime} h a config :
  alloc_inv h a ->
  exists ids, AnalyzeCompaction h a config = Ret ids /\
    Z.of_nat (length ids) <= Z.max 1 (cc_MaxAllocationsToMove config) /\
    (forall id, id ∈ ids -> exists k r l al, ac_regions a !! k = Some r /\ selected config r = true /\
       l ∈ region_locs (rg_Planes r) /\ movable h l al /\ al_ID al = id) /\
    (Z.of_nat (length ids) < cc_MaxAllocationsToMove config ->
     forall k r l al, ac_regions a !! k = Some r -> selected config r = true -> l ∈ region_locs (rg_Planes r) ->
       movable h l al -> al_ID al ∈ ids).
Proof.
  intros Ha. destruct (movable_in_regions_spec h a config (rt_range 0 (ac_regions a)) [] Ha)
    as (ids & stop & He & new & -> & Hf & Hs); [by right | apply Forall_forall; intros k; apply range_lookup|].
  exists ([] ++ new). split; [exact He|]. cbn [app] in *. split_and!.
  - destruct stop; [lia|]. destruct Hs as [[Hs| ->] _]; simpl; lia.
  - intros id Hid. rewrite Forall_forall in Hf. destruct (Hf id Hid) as (l & al & Hl & Hm & Hid').
    apply elem_of_region_order in Hl as (k & r & Hk & Hsel & Hl). by exists k, r, l, al.
  - intros Hlt k r l al Hk Hsel Hl Hm. destruct stop; [lia|]. destruct Hs as [_ Hs]. apply (Hs l al); [|done].
    apply elem_of_region_order. by exists k, r.
Qed.

(** Six blocks that fill a plane, and the same after some releases. *)
Definition filled (frees : list call) : Heap * Allocator3D :=
  scenario ([CallAllocate 1 4 0; CallAllocate 1 4 0; CallAllocate 1 4 0; CallAllocate 1 4 0; CallAllocate 1 4 0;
             CallAllocate 59 4 0] ++ frees).

Lemma released_inv h a l al h' a' :
  alloc_inv h a -> live a l -> heap_get h l = Some al -> IsYPromoted al = false ->
  Free h a l = Ret (a', None) -> h' = h -> alloc_inv h' a'.
Proof.
  intros Ha Hl Hal Hy Hf ->. destruct (freeSync_spec h a l al Ha Hl Hal Hy) as (a1 & He & Hr).
  rewrite Free_sync, He in Hf. injection Hf as <-. apply Hr.
Qed.

Ltac release st l :=
  eapply (released_inv st.1 st.2 l (block_of st l)); [ | apply (bool_decide_unpack _); by vm_compute | vm_compute; reflexivity
    | vm_compute; reflexivity | vm_compute; reflexivity | vm_compute; reflexivity ].

(** Three holes of one byte between blocks. *)
Definition fragmented : Heap * Allocator3D := filled [CallFree 0; CallFree 2; CallFree 4].

Lemma fragmented_inv : alloc_inv fragmented.1 fragmented.2.
Proof.
  assert (alloc_inv (filled []).1 (filled []).2) as H0.
  { unfold filled. apply (ro_inv small_config 6). apply (scenario_ok ([_; _; _; _; _; _] ++ [])); [|done].
    repeat constructor. }
  assert (alloc_inv (filled [CallFree 0]).1 (filled [CallFree 0]).2) as H1 by (release (filled []) 0; exact H0).
  assert (alloc_inv (filled [CallFree 0; CallFree 2]).1 (filled [CallFree 0; CallFree 2]).2) as H2
    by (release (filled [CallFree 0]) 2; exact H1).
  release (filled [CallFree 0; CallFree 2]) 4. exact H2.
Qed.

Lemma analyze_compaction_exact_witness :
  exists ids, @AnalyzeCompaction (runtime_fwd 0) fragmented.1 fragmented.2 DefaultCompactionConfig = Ret ids /\
    al_ID (block_of fragmented 1) ∈ ids.
Proof.
  destruct (@analyze_compaction_exact (runtime_fwd 0) fragmented.1 fragmented.2 DefaultCompactionConfig fragmented_inv)
    as (ids & He & _ & _ & Hall).
  exists ids. split; [exact He|].
  assert (ids = [7; 5; 3]) as ->.
  { apply (f_equal (fun m => match m with Ret x => x | _ => [] end)) in He. rewrite <- He. by vm_compute. }
  apply (Hall ltac:(by vm_compute) 2 (region_of fragmented 2) 1 (block_of fragmented 1)).
  - by vm_compute.
  - by vm_compute.
  - apply (bool_decide_unpack _). by vm_compute.
  - split_and!; by vm_compute.
Defined.
