(* ===== verification/Workers.v ===== *)
(** * The worker pool of the concurrent allocator (allocator/allocator.go)

    In the concurrent mode [Allocate] hands its request to a pool of goroutines
    over a buffered channel, or falls back to the caller when the channel is full;
    [Free] runs in the caller.  [allocateSync] and [freeSync] hold the allocator's
    mutex from beginning to end, so each of them is one step here; sending,
    receiving, closing and returning are steps of their own.  A state has any
    number of callers, each in the middle of one call, and a scheduler picks who
    moves next. *)
From S2P Require Import Prelude Words Float64 Address Errors Bitmap Plane Region Allocator AllocatorInv AllocatorSpec.

(** ** Data *)

(** A request; its result channel is named by the caller that waits on it. *)
Record AllocRequest := mkRequest {
  rq_Size : Z; rq_RegionType : Z; rq_Flags : Z; rq_Result : nat }.

Record AllocResult := mkResult {
  ar_Address : Address3D; ar_Allocation : option loc; ar_Error : option error }.

(** What a call asks for. *)
Inductive op := OpAlloc (size regionType flags : Z) | OpFree (l : loc).

(** What it returns: the pair of results of [Allocate], or the error of [Free]. *)
Notation answer := (option loc * option error)%type (only parsing).

(** Where a caller stands: before the [select], in the fallback, waiting on its
    channel (of capacity one, with what it holds), or back. *)
Inductive caller :=
| CStart (o : op)
| CFallback (size regionType flags : Z)
| CWaiting (result : option AllocResult)
| CReturned (r : answer).

(** Where a worker stands: at the receive, with a request, with a result to send,
    or out of its loop. *)
Inductive worker :=
| WLoop
| WHas (req : AllocRequest)
| WReply (req : AllocRequest) (result : AllocResult)
| WExit.

Record Pool := mkPool {
  po_heap : Heap;
  po_alloc : Allocator3D;
  po_queue : list AllocRequest; (* the channel workers *)
  po_closed : bool;
  po_workers : list worker;
  po_callers : list caller;
}.

Inductive actor := Caller (i : nat) | Worker (j : nat) | Closer.

(** ** Steps *)

Definition set_caller (i : nat) (c : caller) (st : Pool) : Pool :=
  mkPool (po_heap st) (po_alloc st) (po_queue st) (po_closed st) (po_workers st) (<[i := c]> (po_callers st)).

Definition set_worker (j : nat) (w : worker) (st : Pool) : Pool :=
  mkPool (po_heap st) (po_alloc st) (po_queue st) (po_closed st) (<[j := w]> (po_workers st)) (po_callers st).

Definition set_queue (q : list AllocRequest) (st : Pool) : Pool :=
  mkPool (po_heap st) (po_alloc st) q (po_closed st) (po_workers st) (po_callers st).

Definition set_store (h : Heap) (a : Allocator3D) (st : Pool) : Pool :=
  mkPool h a (po_queue st) (po_closed st) (po_workers st) (po_callers st).

Definition startWorkers (config : Config) : list worker := replicate (Z.to_nat (cf_WorkerCount config)) WLoop.

(** [doAllocate], with the result as the worker packs it. *)
Definition worker_allocate `{GoRuntime} (h : Heap) (a : Allocator3D) (req : AllocRequest)
    : res (Heap * Allocator3D * AllocResult) :=
  '(h, a, r) ← doAllocate h a (rq_Size req) (rq_RegionType req) (rq_Flags req);
  match r with
  | inl err => Ret (h, a, mkResult (NewAddress 0 0 0) None (Some err))
  | inr l => alloc ← deref (heap_get h l); Ret (h, a, mkResult (al_Address alloc) (Some l) None)
  end.

(** The pair that [allocateSync] returns. *)
Definition sync_answer (r : error + loc) : answer :=
  match r with inl err => (None, Some err) | inr l => (Some l, None) end.

Definition result_answer (r : AllocResult) : answer := (ar_Allocation r, ar_Error r).

(** One step of a caller; [None] when it has to wait or is back.  Sending on a
    closed channel is a panic, also in a [select] with a default. *)
Definition caller_step `{GoRuntime} (st : Pool) (i : nat) (c : caller) : option (res Pool) :=
  match c with
  | CStart (OpAlloc size regionType flags) =>
      Some (if po_closed st then Panic
            else if Z.of_nat (length (po_queue st)) <? 1000
            then Ret (set_caller i (CWaiting None)
                        (set_queue (po_queue st ++ [mkRequest size regionType flags i]) st))
            else Ret (set_caller i (CFallback size regionType flags) st))
  | CStart (OpFree l) =>
      Some ('(a, err) ← freeConcurrent (po_heap st) (po_alloc st) l;
            Ret (set_caller i (CReturned (None, err)) (set_store (po_heap st) a st)))
  | CFallback size regionType flags =>
      Some ('(h, a, r) ← allocateSync (po_heap st) (po_alloc st) size regionType flags;
            Ret (set_caller i (CReturned (sync_answer r)) (set_store h a st)))
  | CWaiting None => None
  | CWaiting (Some result) => Some (Ret (set_caller i (CReturned (result_answer result)) st))
  | CReturned _ => None
  end.

(** One step of [allocWorker]: the loop over the channel ends when the channel is
    closed and empty. *)
Definition worker_step `{GoRuntime} (st : Pool) (j : nat) (w : worker) : option (res Pool) :=
  match w with
  | WLoop =>
      match po_queue st with
      | req :: queue => Some (Ret (set_worker j (WHas req) (set_queue queue st)))
      | [] => if po_closed st then Some (Ret (set_worker j WExit st)) else None
      end
  | WHas req =>
      Some ('(h, a, result) ← worker_allocate (po_heap st) (po_alloc st) req;
            Ret (set_worker j (WReply req result) (set_store h a st)))
  | WReply req result =>
      match po_callers st !! rq_Result req with
      | Some (CWaiting None) =>
          Some (Ret (set_worker j WLoop (set_caller (rq_Result req) (CWaiting (Some result)) st)))
      | _ => None (* the channel is full *)
      end
  | WExit => None
  end.

(** [Shutdown]: closing a closed channel is a panic. *)
Definition Shutdown (st : Pool) : res Pool :=
  if po_closed st then Panic
  else Ret (mkPool (po_heap st) (po_alloc st) (po_queue st) true (po_workers st) (po_callers st)).

Definition pool_step `{GoRuntime} (st : Pool) (who : actor) : option (res Pool) :=
  match who with
  | Caller i => c ← po_callers st !! i; caller_step st i c
  | Worker j => w ← po_workers st !! j; worker_step st j w
  | Closer => Some (Shutdown st)
  end.

(** A pool on an existing allocator, with callers that are about to call. *)
Definition new_pool (h : Heap) (a : Allocator3D) (ops : list op) : Pool :=
  mkPool h a [] false (startWorkers (ac_config a)) (CStart <$> ops).

(** One step of anybody, with any behaviour of the run time. *)
Definition pstep (st st' : Pool) : Prop := exists rt who, @pool_step rt st who = Some (Ret st').

(** ** The sequential specification *)

(** One call, served on its own. *)
Definition serve `{GoRuntime} (o : op) (h : Heap) (a : Allocator3D) : res (Heap * Allocator3D * answer) :=
  match o with
  | OpAlloc size regionType flags =>
      '(h, a, r) ← allocateSync h a size regionType flags; Ret (h, a, sync_answer r)
  | OpFree l => '(a, err) ← freeSync h a l; Ret (h, a, (None, err))
  end.

(** The calls of the callers in [log], one after the other, with their answers. *)
Inductive served_in_order (ops : list op) (h0 : Heap) (a0 : Allocator3D)
  : list (nat * answer) -> Heap -> Allocator3D -> Prop :=
| serve_none : served_in_order ops h0 a0 [] h0 a0
| serve_next log h a rt i o h' a' r :
    served_in_order ops h0 a0 log h a -> ops !! i = Some o -> @serve rt o h a = Ret (h', a', r) ->
    served_in_order ops h0 a0 (log ++ [(i, r)]) h' a'.

(** ** The invariant of a run *)

(** The caller a worker works for. *)
Definition w_token (w : worker) : option nat :=
  match w with WHas req | WReply req _ => Some (rq_Result req) | _ => None end.

(** The callers whose request is on its way. *)
Definition tokens (st : Pool) : list nat := (rq_Result <$> po_queue st) ++ omap w_token (po_workers st).

Section Run.
Context (ops : list op) (h0 : Heap) (a0 : Allocator3D).

(** A request not yet served. *)
Definition request_ok (log : list (nat * answer)) (req : AllocRequest) : Prop :=
  ops !! rq_Result req = Some (OpAlloc (rq_Size req) (rq_RegionType req) (rq_Flags req)) /\
  rq_Result req ∉ log.*1.

Definition caller_ok (log : list (nat * answer)) (i : nat) (c : caller) : Prop :=
  match c with
  | CStart o => ops !! i = Some o /\ i ∉ log.*1
  | CFallback size rt fl => ops !! i = Some (OpAlloc size rt fl) /\ i ∉ log.*1
  | CWaiting None => True
  | CWaiting (Some result) => (i, result_answer result) ∈ log
  | CReturned r => (i, r) ∈ log
  end.

Definition worker_ok (log : list (nat * answer)) (st : Pool) (w : worker) : Prop :=
  match w with
  | WLoop => True
  | WHas req => request_ok log req
  | WReply req result => (rq_Result req, result_answer result) ∈ log
  | WExit => po_closed st = true /\ po_queue st = []
  end.

(** [log] is the order in which the calls were served. *)
Record run_inv (log : list (nat * answer)) (st : Pool) : Prop := {
  rv_served : served_in_order ops h0 a0 log (po_heap st) (po_alloc st);
  rv_nodup : NoDup log.*1;
  rv_length : length (po_callers st) = length ops;
  rv_tokens : NoDup (tokens st);
  rv_waiting : forall i, i ∈ tokens st <-> po_callers st !! i = Some (CWaiting None);
  rv_callers : forall i c, po_callers st !! i = Some c -> caller_ok log i c;
  rv_queue : forall req, req ∈ po_queue st -> request_ok log req;
  rv_workers : forall w, w ∈ po_workers st -> worker_ok log st w;
  rv_capacity : (length (po_queue st) <= 1000)%nat;
}.

Lemma tokens_insert ws j w w' :
  ws !! j = Some w ->
  exists rest, omap w_token ws ≡ₚ option_list (w_token w) ++ rest /\
    omap w_token (<[j := w']> ws) ≡ₚ option_list (w_token w') ++ rest /\
    (forall x, x ∈ <[j := w']> ws -> x = w' \/ x ∈ ws) /\
    (forall k x t, k <> j -> ws !! k = Some x -> w_token x = Some t -> t ∈ rest).
Proof.
  intros Hj. exists (omap w_token (take j ws ++ drop (S j) ws)). split_and!.
  - rewrite <- (take_drop_middle ws j w Hj) at 1. rewrite !omap_app. simpl.
    destruct (w_token w); simpl; [|done]. by rewrite Permutation_middle.
  - rewrite insert_take_drop by (by eapply lookup_lt_Some). rewrite !omap_app. simpl.
    destruct (w_token w'); simpl; [|done]. by rewrite Permutation_middle.
  - intros x Hx. apply list_elem_of_lookup in Hx as [k Hk]. destruct (decide (k = j)) as [->|Hne].
    + rewrite list_lookup_insert_eq in Hk by (by eapply lookup_lt_Some). left. congruence.
    + rewrite list_lookup_insert_ne in Hk by done. right. by eapply list_elem_of_lookup_2.
  - intros k x t Hne Hk Ht. apply list_elem_of_omap. exists x. split; [|done]. apply elem_of_app.
    destruct (decide (k < j)%nat).
    + left. apply (list_elem_of_lookup_2 _ k). by rewrite lookup_take_lt.
    + right. apply (list_elem_of_lookup_2 _ (k - S j)). rewrite lookup_drop. rewrite <- Hk. f_equal. lia.
Qed.

Lemma callers_insert (cs : list caller) i c k :
  (i < length cs)%nat -> <[i := c]> cs !! k = if decide (k = i) then Some c else cs !! k.
Proof.
  intros Hi. destruct (decide (k = i)) as [->|Hne]; [by apply list_lookup_insert_eq | by apply list_lookup_insert_ne].
Qed.

(** Logging an answer for [i] keeps what is known of everybody else. *)
Lemma log_fst (log : list (nat * answer)) i r k : k ∉ log.*1 -> k <> i -> k ∉ (log ++ [(i, r)]).*1.
Proof. intros Hk Hne. rewrite fmap_app, elem_of_app. simpl. rewrite list_elem_of_singleton. tauto. Qed.

Lemma log_old (log : list (nat * answer)) i r x : x ∈ log -> x ∈ log ++ [(i, r)].
Proof. rewrite elem_of_app. tauto. Qed.

Lemma log_nodup (log : list (nat * answer)) i r : NoDup log.*1 -> i ∉ log.*1 -> NoDup (log ++ [(i, r)]).*1.
Proof.
  intros Hnd Hi. rewrite fmap_app. apply NoDup_app. split_and!; [done| |apply NoDup_singleton].
  simpl. intros k Hk ->%list_elem_of_singleton. done.
Qed.

Lemma caller_ok_log log i r k c : caller_ok log k c -> k <> i -> caller_ok (log ++ [(i, r)]) k c.
Proof.
  destruct c as [o|s t f|[result|]|r']; simpl; intros Hc Hne; try done; try (by apply log_old);
    destruct Hc; split; try done; by apply log_fst.
Qed.

Lemma request_ok_log log i r req : request_ok log req -> rq_Result req <> i -> request_ok (log ++ [(i, r)]) req.
Proof. intros [H1 H2] Hne. split; [done | by apply log_fst]. Qed.

(** A call served outside the queue: the caller [i] goes from a state before its
    service to one after it. *)
Lemma served_directly `{rt : GoRuntime} log st i c o h' a' r :
  run_inv log st -> po_callers st !! i = Some c -> c <> CWaiting None ->
  ops !! i = Some o -> i ∉ log.*1 -> serve o (po_heap st) (po_alloc st) = Ret (h', a', r) ->
  run_inv (log ++ [(i, r)]) (set_caller i (CReturned r) (set_store h' a' st)).
Proof.
  intros [V1 V2 V3 V4 V5 V6 V7 V8 V9] Hi Hc Ho Hl Hs. pose proof (lookup_lt_Some _ _ _ Hi) as Hlt.
  assert (forall k, k ∈ tokens st -> k <> i) as Hne by (intros k Hk ->; apply V5 in Hk; congruence).
  constructor; simpl; try done.
  - by eapply serve_next.
  - by apply log_nodup.
  - by rewrite length_insert.
  - intros k. rewrite callers_insert by done. change (tokens (set_caller _ _ _)) with (tokens st). rewrite V5.
    destruct (decide (k = i)) as [->|]; [|done]. split; congruence.
  - intros k c'. rewrite callers_insert by done. destruct (decide (k = i)) as [->|Hk].
    + intros [= <-]. simpl. apply elem_of_app. right. by left.
    + intros Hk'. apply caller_ok_log; [by apply V6 | done].
  - intros req Hreq. apply request_ok_log; [by apply V7|]. apply Hne. unfold tokens. apply elem_of_app. left.
    by apply list_elem_of_fmap_2.
  - intros w Hw. specialize (V8 w Hw). destruct w as [|req|req result|]; simpl in *; try done; [|by apply log_old].
    apply request_ok_log; [done|]. apply Hne. unfold tokens. apply elem_of_app. right.
    apply list_elem_of_omap. by exists (WHas req).
Qed.

Lemma worker_ok_mono log st st' w :
  worker_ok log st w -> po_closed st' = po_closed st -> (po_closed st = true -> po_queue st' = po_queue st) ->
  worker_ok log st' w.
Proof. destruct w; simpl; try done. intros [H1 H2] -> Hq. split; [done|]. by rewrite Hq. Qed.

(** A caller moves without its request changing hands. *)
Lemma caller_moves log st i c c' :
  run_inv log st -> po_callers st !! i = Some c -> c <> CWaiting None -> c' <> CWaiting None ->
  caller_ok log i c' -> run_inv log (set_caller i c' st).
Proof.
  intros [V1 V2 V3 V4 V5 V6 V7 V8 V9] Hi Hc Hc' Hok. pose proof (lookup_lt_Some _ _ _ Hi) as Hlt.
  constructor; simpl; try done.
  - by rewrite length_insert.
  - intros k. rewrite callers_insert by done. change (tokens (set_caller _ _ _)) with (tokens st). rewrite V5.
    destruct (decide (k = i)) as [->|]; [|done]. split; congruence.
  - intros k c2. rewrite callers_insert by done. destruct (decide (k = i)) as [->|]; [by intros [= <-] | apply V6].
Qed.

(** The caller puts its request into the channel. *)
Lemma request_sent log st i size ty fl :
  run_inv log st -> po_callers st !! i = Some (CStart (OpAlloc size ty fl)) -> po_closed st = false ->
  Z.of_nat (length (po_queue st)) < 1000 ->
  run_inv log (set_caller i (CWaiting None) (set_queue (po_queue st ++ [mkRequest size ty fl i]) st)).
Proof.
  intros [V1 V2 V3 V4 V5 V6 V7 V8 V9] Hi Hcl Hq. pose proof (lookup_lt_Some _ _ _ Hi) as Hlt.
  destruct (V6 i _ Hi) as [Hop Hlog].
  assert (tokens (set_caller i (CWaiting None) (set_queue (po_queue st ++ [mkRequest size ty fl i]) st)) ≡ₚ
    i :: tokens st) as Ht.
  { unfold tokens. simpl. rewrite fmap_app. simpl. rewrite <- app_assoc. simpl. by rewrite Permutation_middle. }
  constructor; simpl; try done.
  - by rewrite length_insert.
  - rewrite Ht. constructor; [|done]. rewrite V5. congruence.
  - intros k. rewrite Ht, elem_of_cons, V5, callers_insert by done.
    destruct (decide (k = i)) as [->|Hne]; split; [done | by left | intros [|]; done | by right].
  - intros k c2. rewrite callers_insert by done. destruct (decide (k = i)) as [->|]; [by intros [= <-] | apply V6].
  - intros req. rewrite elem_of_app, list_elem_of_singleton. intros [Hr| ->]; [by apply V7 | done].
  - intros w Hw. apply (worker_ok_mono log st); [by apply V8 | done | congruence].
  - rewrite length_app. simpl. lia.
Qed.

(** A worker moves; [rest] are the requests that stay where they are. *)
Lemma worker_moves log st j w w' queue :
  run_inv log st -> po_workers st !! j = Some w ->
  tokens (set_worker j w' (set_queue queue st)) ≡ₚ tokens st ->
  (forall req, req ∈ queue -> req ∈ po_queue st) -> (length queue <= length (po_queue st))%nat ->
  worker_ok log (set_queue queue st) w' -> run_inv log (set_worker j w' (set_queue queue st)).
Proof.
  intros [V1 V2 V3 V4 V5 V6 V7 V8 V9] Hj Ht Hq Hl Hok.
  destruct (tokens_insert (po_workers st) j w w' Hj) as (_ & _ & _ & Hws & _).
  constructor; simpl; try done.
  - by rewrite Ht.
  - intros i. by rewrite Ht.
  - intros req Hr. by apply V7, Hq.
  - intros x [->|Hx]%Hws; [by destruct w'|]. specialize (V8 x Hx). destruct x; simpl in *; try done.
    destruct V8 as [-> Hq0]. split; [done|]. rewrite Hq0 in Hl. destruct queue; [done|simpl in Hl; lia].
  - lia.
Qed.

Lemma set_queue_id st : set_queue (po_queue st) st = st.
Proof. by destruct st. Qed.

(** The worker serves the request it holds. *)
Lemma served_by_worker `{rt : GoRuntime} log st j req h' a' result :
  run_inv log st -> po_workers st !! j = Some (WHas req) ->
  worker_allocate (po_heap st) (po_alloc st) req = Ret (h', a', result) ->
  run_inv (log ++ [(rq_Result req, result_answer result)]) (set_worker j (WReply req result) (set_store h' a' st)).
Proof.
  intros [V1 V2 V3 V4 V5 V6 V7 V8 V9] Hj Hs.
  destruct (V8 (WHas req) (list_elem_of_lookup_2 _ _ _ Hj)) as [Hop Hlog].
  destruct (tokens_insert (po_workers st) j (WHas req) (WReply req result) Hj) as (rest & T1 & T2 & _ & Hrest).
  assert (NoDup ((rq_Result <$> po_queue st) ++ rq_Result req :: rest)) as Hnd.
  { unfold tokens in V4. by rewrite T1 in V4. }
  rewrite <- Permutation_middle in Hnd. apply NoDup_cons in Hnd as [Hni Hnd].
  assert (tokens (set_worker j (WReply req result) (set_store h' a' st)) ≡ₚ tokens st) as Ht.
  { unfold tokens. simpl. by rewrite T1, T2. }
  constructor; simpl; try done.
  - eapply (serve_next _ _ _ _ _ _ rt); [done..|]. unfold worker_allocate, doAllocate in Hs. simpl.
    destruct (allocateSync _ _ _ _ _) as [[[h1 a1] [e|l]]| |]; simpl in *; try done.
    + by injection Hs as <- <- <-.
    + destruct (heap_get h1 l); [|done]. simpl in Hs. by injection Hs as <- <- <-.
  - by apply log_nodup.
  - by rewrite Ht.
  - intros i. by rewrite Ht.
  - intros k c Hk. destruct (decide (k = rq_Result req)) as [->|Hne]; [|apply caller_ok_log; [by apply V6 | done]].
    assert (rq_Result req ∈ tokens st) as Hin%V5.
    { unfold tokens. rewrite T1, elem_of_app. right. by left. }
    rewrite Hin in Hk. by injection Hk as <-.
  - intros req' Hr. apply request_ok_log; [by apply V7|]. intros E. apply Hni. rewrite <- E.
    apply elem_of_app. left. by apply list_elem_of_fmap_2.
  - intros x Hx. apply list_elem_of_lookup in Hx as [k Hk]. destruct (decide (k = j)) as [->|Hne].
    { rewrite list_lookup_insert_eq in Hk by (by eapply lookup_lt_Some). injection Hk as <-. simpl.
      apply elem_of_app. right. by left. }
    rewrite list_lookup_insert_ne in Hk by done. pose proof (V8 x (list_elem_of_lookup_2 _ _ _ Hk)) as Hx.
    destruct x as [|req'|req' result'|]; simpl in *; try done; [|by apply log_old].
    apply request_ok_log; [done|]. intros E. apply Hni. rewrite <- E. apply elem_of_app. right.
    by apply (Hrest k (WHas req')).
Qed.

(** The worker sends the result: the caller's channel was empty. *)
Lemma result_sent log st j req result :
  run_inv log st -> po_workers st !! j = Some (WReply req result) ->
  po_callers st !! rq_Result req = Some (CWaiting None) ->
  run_inv log (set_worker j WLoop (set_caller (rq_Result req) (CWaiting (Some result)) st)).
Proof.
  intros [V1 V2 V3 V4 V5 V6 V7 V8 V9] Hj Hi. pose proof (lookup_lt_Some _ _ _ Hi) as Hlt.
  pose proof (V8 _ (list_elem_of_lookup_2 _ _ _ Hj)) as Hlog. simpl in Hlog.
  destruct (tokens_insert (po_workers st) j (WReply req result) WLoop Hj) as (rest & T1 & T2 & Hws & _).
  set (st' := set_worker _ _ _).
  assert (tokens st ≡ₚ rq_Result req :: tokens st') as Ht.
  { unfold st', tokens. simpl. rewrite T1, T2. simpl. by rewrite Permutation_middle. }
  rewrite Ht in V4. apply NoDup_cons in V4 as [Hni Hnd]. constructor; simpl; try done.
  - by rewrite length_insert.
  - intros k. rewrite callers_insert by done. destruct (decide (k = rq_Result req)) as [->|Hne].
    { split; [done | congruence]. }
    rewrite <- V5, Ht, elem_of_cons. split; [by right | by intros [|]].
  - intros k c. rewrite callers_insert by done.
    destruct (decide (k = rq_Result req)) as [->|]; [by intros [= <-] | apply V6].
  - intros x [->|Hx]%Hws; [done|]. apply (worker_ok_mono log st); [by apply V8 | done | done].
Qed.

Lemma shutdown_run log st st' : run_inv log st -> Shutdown st = Ret st' -> run_inv log st'.
Proof.
  intros [V1 V2 V3 V4 V5 V6 V7 V8 V9]. unfold Shutdown. destruct (po_closed st) eqn:Hc; [done|]. intros [= <-].
  constructor; simpl; try done. intros w Hw. specialize (V8 w Hw). destruct w; simpl in *; try done.
  destruct V8. congruence.
Qed.

(** Every step keeps the invariant; it serves at most one call. *)
Lemma run_step `{rt : GoRuntime} log st who st' :
  run_inv log st -> pool_step st who = Some (Ret st') ->
  run_inv log st' \/ exists i r, run_inv (log ++ [(i, r)]) st'.
Proof.
  intros Hv Hs. destruct who as [i|j|]; simpl in Hs.
  - destruct (po_callers st !! i) as [c|] eqn:Hi; [|done]. simpl in Hs.
    pose proof (rv_callers _ _ Hv i c Hi) as Hok.
    destruct c as [[size ty fl|l]|size ty fl|[result|]|r]; simpl in Hs, Hok; try done.
    + left. destruct (po_closed st) eqn:Hcl; [done|]. destruct (Z.ltb_spec (Z.of_nat (length (po_queue st))) 1000).
      * injection Hs as <-. by apply request_sent.
      * injection Hs as <-. by apply (caller_moves log st i (CStart (OpAlloc size ty fl))).
    + right. destruct Hok as [Hop Hlog]. unfold freeConcurrent in Hs.
      destruct (freeSync _ _ _) as [[a e]| |] eqn:He; try done. injection Hs as <-.
      exists i, (None, e). eapply served_directly; [done | exact Hi | done | done | done |]. simpl. by rewrite He.
    + right. destruct Hok as [Hop Hlog].
      destruct (allocateSync _ _ _ _ _) as [[[h a] r]| |] eqn:He; try done. injection Hs as <-.
      exists i, (sync_answer r). eapply served_directly; [done | exact Hi | done | done | done |]. simpl. by rewrite He.
    + left. injection Hs as <-. by apply (caller_moves log st i (CWaiting (Some result))).
  - destruct (po_workers st !! j) as [w|] eqn:Hj; [|done]. simpl in Hs. destruct w as [|req|req result|]; simpl in Hs; try done.
    + left. destruct (po_queue st) as [|req queue] eqn:Hq.
      * destruct (po_closed st) eqn:Hcl; [|done]. injection Hs as <-. rewrite <- (set_queue_id st).
        apply (worker_moves log st j WLoop); try done.
        destruct (tokens_insert (po_workers st) j WLoop WExit Hj) as (rest & T1 & T2 & _).
        unfold tokens. simpl. by rewrite T1, T2.
      * injection Hs as <-.
        destruct (tokens_insert (po_workers st) j WLoop (WHas req) Hj) as (rest & T1 & T2 & _).
        apply (worker_moves log st j WLoop); try done.
        -- unfold tokens. simpl. rewrite Hq, T1, T2. simpl. by rewrite Permutation_middle.
        -- intros r Hr. rewrite Hq. by right.
        -- rewrite Hq. simpl. lia.
        -- apply (rv_queue _ _ Hv). rewrite Hq. by left.
    + right. destruct (worker_allocate _ _ _) as [[[h a] result]| |] eqn:He; try done. injection Hs as <-.
      exists (rq_Result req), (result_answer result). by eapply served_by_worker.
    + left. destruct (po_callers st !! rq_Result req) as [[| |[|]|]|] eqn:Hi; try done. injection Hs as <-.
      by apply result_sent.
  - left. injection Hs as Hs. by eapply shutdown_run.
Qed.
End Run.

Lemma new_pool_run ops h a : run_inv ops h a [] (new_pool h a ops).
Proof.
  assert (omap w_token (startWorkers (ac_config a)) = []) as Hn.
  { unfold startWorkers. by induction (Z.to_nat _). }
  constructor; unfold tokens; simpl; rewrite ?Hn; try done.
  - constructor.
  - by constructor.
  - by rewrite length_fmap.
  - constructor.
  - intros i. rewrite elem_of_nil, list_lookup_fmap. split; [done|]. by destruct (ops !! i).
  - intros i c. rewrite list_lookup_fmap. destruct (ops !! i) as [o|] eqn:Ho; [|done]. intros [= <-].
    split; [done|]. apply not_elem_of_nil.
  - by intros req ?%elem_of_nil.
  - intros w. unfold startWorkers. by intros [-> _]%elem_of_replicate.
  - lia.
Qed.

Lemma pool_run ops h a st : rtc pstep (new_pool h a ops) st -> exists log, run_inv ops h a log st.
Proof.
  intros Hr. refine (rtc_ind_r (fun st => exists log, run_inv ops h a log st) _ _ _ st Hr).
  - exists []. apply new_pool_run.
  - intros s1 s2 _ (rt & who & Hs) [log Hv]. destruct (run_step ops h a log s1 who s2 Hv Hs) as [Hv'|(i & r & Hv')];
      by eexists.
Qed.
