(* ===== verification/WorkersSpec.v ===== *)
(** * What the worker pool guarantees

    Linearisability of the concurrent calls, safety of every interleaving, and
    liveness: whatever the scheduler does, every call is answered, and after
    [Shutdown] every worker ends. *)
From S2P Require Import Prelude Words Float64 Address Errors Bitmap Plane Region Allocator AllocatorInv AllocatorSpec.
From S2P Require Import Workers.

(** ** Every order of service is a good one *)

Section Orders.
Context (cfg : Config) (n0 : nat) (ops : list op) (h0 : Heap) (a0 : Allocator3D).
Hypothesis Hcfg : 0 < cf_PlaneSize cfg <= 32768.
Hypothesis Hstart : reach_ok cfg n0 h0 a0.
Hypothesis Hbound : Z.of_nat (n0 + length ops) < 18446744073709551614.

(** Requests are not empty; releases name live blocks in one piece. *)
Definition op_ok (o : op) : Prop :=
  match o with
  | OpAlloc size _ _ => 0 < size < 4294967296
  | OpFree l => live a0 l /\ exists al, heap_get h0 l = Some al /\ IsYPromoted al = false
  end.

(** Nobody releases what somebody else releases. *)
Definition frees_once : Prop :=
  forall i j l, ops !! i = Some (OpFree l) -> ops !! j = Some (OpFree l) -> i = j.

(** The answer a call may get: a new live block of the size it asked for, or the
    error of a request larger than a plane; a release succeeds. *)
Definition answer_ok (o : op) (r : answer) (h : Heap) (a : Allocator3D) : Prop :=
  match o with
  | OpAlloc size _ _ =>
      (exists l al, r = (Some l, None) /\ live a l /\ heap_get h l = Some al /\ al_Size al = size /\ heap_get h0 l = None) \/
      (r = (None, Some (ErrInsufficientMemory size)) /\ cf_PlaneSize cfg < size)
  | OpFree l => r = (None, None) /\ ~ live a l
  end.

Hypothesis Hops : Forall op_ok ops.
Hypothesis Honce : frees_once.

Record order_ok (log : list (nat * answer)) (h : Heap) (a : Allocator3D) : Prop := {
  oo_reach : reach_ok cfg (n0 + length log) h a;
  oo_ext : heap_extends h0 h;
  oo_pending : forall i l, ops !! i = Some (OpFree l) -> i ∉ log.*1 -> live a l;
  oo_answers : forall i r, (i, r) ∈ log -> exists o, ops !! i = Some o /\ answer_ok o r h a;
  oo_distinct : forall i j l e e', (i, (Some l, e)) ∈ log -> (j, (Some l, e')) ∈ log -> i = j;
}.

(** Nothing released so far was allocated here, and the other way round. *)
Lemma answer_ok_alloc o r h a h' a' l size ty :
  answer_ok o r h a -> op_ok o -> alloc_result h a h' a' l size ty -> heap_extends h0 h -> answer_ok o r h' a'.
Proof.
  intros Ha Hop [R1 R2 R3 R4 R5 _ _ _ _] Hext. destruct o as [s t f|l']; simpl in *.
  - destruct Ha as [(l1 & al & -> & Hl & Hal & Hs & Hn)|Hr]; [|by right]. left. exists l1, al.
    split_and!; [done | apply R5; by right | | done | done]. rewrite R2; [done | by eexists].
  - destruct Ha as [-> Hl]. split; [done|]. rewrite R5. intros [->|?]; [|done].
    destruct Hop as [_ (al & Hal & _)]. rewrite Hext in R3; [congruence | by eexists].
Qed.

Lemma answer_ok_frame o r h a a' :
  answer_ok o r h a -> (forall l, live a' l <-> live a l) -> answer_ok o r h a'.
Proof. intros Ha Hl. destruct o as [s t f|l']; simpl in *; by setoid_rewrite Hl. Qed.

(** What has to hold for one more entry of the order. *)
Lemma order_snoc log h a h' a' i o r :
  order_ok log h a -> reach_ok cfg (S (n0 + length log)) h' a' -> heap_extends h0 h' ->
  (forall j l, ops !! j = Some (OpFree l) -> j <> i -> live a l -> live a' l) ->
  (forall o' r', op_ok o' -> answer_ok o' r' h a -> answer_ok o' r' h' a') ->
  ops !! i = Some o -> answer_ok o r h' a' -> (forall l j e, r.1 = Some l -> (j, (Some l, e)) ∉ log) ->
  order_ok (log ++ [(i, r)]) h' a'.
Proof.
  intros [O1 O2 O3 O4 O5] Hr Hx Hl Ha Hi Hans Hnew. constructor.
  - rewrite length_app. simpl. by rewrite Nat.add_1_r, Nat.add_succ_r.
  - done.
  - intros j l Hj. rewrite fmap_app, elem_of_app. simpl. rewrite list_elem_of_singleton. intros Hn.
    apply (Hl j l Hj); [tauto|]. apply (O3 j l Hj). tauto.
  - intros j r' [Hj|[= -> ->]%list_elem_of_singleton]%elem_of_app; [|by exists o].
    destruct (O4 j r' Hj) as (o' & Ho' & Ha'). exists o'. split; [done|]. apply Ha; [|done].
    rewrite Forall_forall in Hops. apply Hops. by eapply list_elem_of_lookup_2.
  - intros j k l e e'. rewrite !elem_of_app, !list_elem_of_singleton. destruct r as [rl re]. simpl in *.
    intros [Hj|Ej] [Hk|Ek].
    + by eapply O5.
    + injection Ek as -> <- <-. by destruct (Hnew l j e eq_refl).
    + injection Ej as -> <- <-. by destruct (Hnew l k e' eq_refl).
    + congruence.
Qed.

Lemma order_free log h a i l :
  order_ok log h a -> i ∉ log.*1 -> ops !! i = Some (OpFree l) -> op_ok (OpFree l) ->
  exists a', freeSync h a l = Ret (a', None) /\ order_ok (log ++ [(i, (None, None))]) h a'.
Proof.
  intros Ho Hi Hop (_ & al & Hal & Hy). pose proof Ho as [O1 O2 O3 O4 O5].
  assert (heap_get h l = Some al) as Hal' by (rewrite O2; [done | by eexists]).
  destruct (freeSync_spec h a l al (ro_inv _ _ _ _ O1) (O3 i l Hop Hi) Hal' Hy) as (a' & He & Hres).
  exists a'. split; [done|]. pose proof (fr_live _ _ _ _ Hres) as F2.
  apply (order_snoc log h a h a' i (OpFree l)); try done.
  - by eapply reach_ok_free.
  - intros j l' Hj Hne Hl'. apply F2. split; [done|]. intros ->. apply Hne. by apply (Honce j i l).
  - intros [s t f|l'] r' _ Ha'; simpl in *.
    + destruct Ha' as [(l1 & al1 & -> & Hl1 & Hal1 & Hs1 & Hn1)|Ha']; [|by right]. left. exists l1, al1.
      split_and!; try done. apply F2. split; [done|]. intros ->. congruence.
    + destruct Ha' as [-> Hnl]. split; [done|]. rewrite F2. tauto.
  - simpl. split; [done|]. rewrite F2. tauto.
Qed.

Lemma order_alloc `{rt : GoRuntime} log h a i size ty fl :
  order_ok log h a -> (length log < length ops)%nat -> i ∉ log.*1 -> ops !! i = Some (OpAlloc size ty fl) ->
  0 < size < 4294967296 ->
  exists h' a' o, allocateSync h a size ty fl = Ret (h', a', o) /\
    order_ok (log ++ [(i, sync_answer o)]) h' a' /\ (forall l, o = inr l -> is_Some (heap_get h' l)).
Proof.
  intros Ho Hlen Hi Hop Hok. pose proof Ho as [O1 O2 O3 O4 O5]. pose proof O1 as [Hinv Hun Hc Hn].
  assert (alloc_safe a size) as Hsafe by (apply uniform_safe; [done | rewrite Hc; lia]).
  destruct (allocateSync_spec h a size ty fl Hinv ltac:(unfold ids_left; lia) Hok Hsafe) as (h' & a' & o & He & Hout).
  exists h', a', o. split; [done|].
  pose proof (reach_ok_alloc cfg (n0 + length log) h a size ty h' a' o O1 ltac:(lia) Hout) as Hr'. destruct o as [e|l].
  - destruct Hout as (-> & Hbig & -> & ->). split; [|done].
    destruct (add_region_inv h a ty Hinv ltac:(unfold ids_left; lia)) as (_ & _ & _ & Hlive & _).
    apply (order_snoc log h a h _ i (OpAlloc size ty fl)); try done.
    + intros j l _ _ Hl. by apply Hlive.
    + intros o' r' _ Ha'. by eapply answer_ok_frame.
    + right. split; [done|]. by rewrite <- Hc.
  - pose proof Hout as [R1 R2 R3 R4 R5 R6 R7 R8 R9]. destruct R4 as (al & Hal & Hsz & _).
    split; [|intros l' [= <-]; by eexists].
    apply (order_snoc log h a h' a' i (OpAlloc size ty fl)); try done.
    + intros l' Hl'. rewrite R2; [by apply O2|]. by rewrite O2.
    + intros j l' _ _ Hl. apply R5. by right.
    + intros o' r' Hok' Ha'. by eapply answer_ok_alloc.
    + left. exists l, al. split_and!; try done; [apply R5; by left|].
      destruct (heap_get h0 l) as [x|] eqn:Hx; [|done]. rewrite O2 in R3 by (by eexists). congruence.
    + intros l' j e [= <-] Hj. destruct (O4 j _ Hj) as ([s t f|l'] & _ & Ha); simpl in Ha; [|by destruct Ha].
      destruct Ha as [(l1 & al1 & [= <- _] & _ & Hal1 & _)|[? _]]; [congruence | done].
Qed.

(** One more call, in any order: it returns, and the answers stay right. *)
Lemma order_next `{rt : GoRuntime} log h a i o :
  order_ok log h a -> NoDup log.*1 -> i ∉ log.*1 -> ops !! i = Some o ->
  exists h' a' r, serve o h a = Ret (h', a', r) /\ order_ok (log ++ [(i, r)]) h' a'.
Proof.
  intros Ho Hnd Hi Hop.
  assert (length log < length ops)%nat as Hlen.
  { assert (length (i :: log.*1) <= length (seq 0 (length ops)))%nat as Hle; [|rewrite length_seq in Hle; simpl in Hle;
      rewrite length_fmap in Hle; lia].
    apply List.NoDup_incl_length; [apply NoDup_ListNoDup; by constructor|].
    intros j Hj. apply list_elem_of_In, elem_of_cons in Hj. apply in_seq. destruct Hj as [->|Hj].
    - apply lookup_lt_Some in Hop. lia.
    - apply list_elem_of_fmap in Hj as ([j' r] & -> & Hj). destruct (oo_answers _ _ _ Ho j' r Hj) as (o' & Ho' & _).
      apply lookup_lt_Some in Ho'. simpl. lia. }
  assert (op_ok o) as Hok by (rewrite Forall_forall in Hops; apply Hops; by eapply list_elem_of_lookup_2).
  destruct o as [size ty fl|l].
  - destruct (order_alloc log h a i size ty fl Ho Hlen Hi Hop Hok) as (h' & a' & o & He & Ho' & _).
    exists h', a', (sync_answer o). simpl. by rewrite He.
  - destruct (order_free log h a i l Ho Hi Hop Hok) as (a' & He & Ho'). exists h, a', (None, None). simpl. by rewrite He.
Qed.

Lemma order_start : order_ok [] h0 a0.
Proof.
  constructor; [by rewrite Nat.add_0_r | apply heap_extends_refl | | by intros i r ?%elem_of_nil | by intros i j l e e' ?%elem_of_nil].
  intros i l Hi _. rewrite Forall_forall in Hops. apply (Hops (OpFree l)). by eapply list_elem_of_lookup_2.
Qed.

Lemma served_order_ok log h a : served_in_order ops h0 a0 log h a -> NoDup log.*1 -> order_ok log h a.
Proof.
  induction 1 as [|log h a rt i o h' a' r Hs IH Hop He]; intros Hnd; [apply order_start|].
  rewrite fmap_app in Hnd. apply NoDup_app in Hnd as (Hnd & Hi & _).
  destruct (order_next log h a i o (IH Hnd) Hnd) as (h1 & a1 & r1 & He1 & Ho1); [|done|].
  - intros Hin. apply (Hi i Hin). by left.
  - rewrite He in He1. by injection He1 as <- <- <-.
Qed.
End Orders.

(** ** Every step makes progress *)

Definition caller_left (c : caller) : Z :=
  match c with CStart _ => 8 | CWaiting None => 2 | CFallback _ _ _ | CWaiting (Some _) => 1 | CReturned _ => 0 end.

Definition worker_left (w : worker) : Z :=
  match w with WLoop => 1 | WHas _ => 4 | WReply _ _ => 3 | WExit => 0 end.

(** How much is left to do. *)
Definition left_to_do (st : Pool) : Z :=
  sumZ caller_left (po_callers st) + 4 * Z.of_nat (length (po_queue st)) + sumZ worker_left (po_workers st).

Lemma left_nonneg st : 0 <= left_to_do st.
Proof.
  unfold left_to_do. assert (0 <= sumZ caller_left (po_callers st)); [|assert (0 <= sumZ worker_left (po_workers st)); [|lia]].
  - apply sumZ_nonneg. intros [| |[|]|] _; simpl; lia.
  - apply sumZ_nonneg. intros [| | |] _; simpl; lia.
Qed.

Lemma left_caller st i c c' :
  po_callers st !! i = Some c ->
  left_to_do (set_caller i c' st) = left_to_do st + caller_left c' - caller_left c.
Proof. intros Hi. unfold left_to_do. simpl. rewrite (sumZ_insert _ _ _ c) by done. lia. Qed.

Lemma left_worker st j w w' :
  po_workers st !! j = Some w ->
  left_to_do (set_worker j w' st) = left_to_do st + worker_left w' - worker_left w.
Proof. intros Hj. unfold left_to_do. simpl. rewrite (sumZ_insert _ _ _ w) by done. lia. Qed.

Lemma left_store st h a : left_to_do (set_store h a st) = left_to_do st.
Proof. done. Qed.

Lemma left_queue st q : left_to_do (set_queue q st) = left_to_do st + 4 * (Z.of_nat (length q) - Z.of_nat (length (po_queue st))).
Proof. unfold left_to_do. simpl. lia. Qed.

Lemma step_decreases `{rt : GoRuntime} st who st' :
  who <> Closer -> pool_step st who = Some (Ret st') -> left_to_do st' < left_to_do st.
Proof.
  intros Hw Hs. destruct who as [i|j|]; [| |done]; simpl in Hs.
  - destruct (po_callers st !! i) as [c|] eqn:Hi; [|done]. simpl in Hs.
    destruct c as [[size ty fl|l]|size ty fl|[result|]|r]; simpl in Hs; try done.
    + destruct (po_closed st); [done|]. destruct (_ <? _); injection Hs as <-;
        rewrite (left_caller _ _ (CStart (OpAlloc size ty fl))) by done; simpl.
      * rewrite left_queue, length_app. simpl. lia.
      * lia.
    + destruct (freeConcurrent _ _ _) as [[a e]| |]; try done. injection Hs as <-.
      rewrite (left_caller _ _ (CStart (OpFree l))) by done. rewrite left_store. simpl. lia.
    + destruct (allocateSync _ _ _ _ _) as [[[h a] r]| |]; try done. injection Hs as <-.
      rewrite (left_caller _ _ (CFallback size ty fl)) by done. rewrite left_store. simpl. lia.
    + injection Hs as <-. rewrite (left_caller _ _ _ _ Hi). simpl. lia.
  - destruct (po_workers st !! j) as [w|] eqn:Hj; [|done]. simpl in Hs. destruct w as [|req|req result|]; simpl in Hs; try done.
    + destruct (po_queue st) as [|req queue] eqn:Hq.
      * destruct (po_closed st); [|done]. injection Hs as <-. rewrite (left_worker _ _ _ _ Hj). simpl. lia.
      * injection Hs as <-. rewrite (left_worker _ _ WLoop) by done. rewrite left_queue, Hq. simpl. lia.
    + destruct (worker_allocate _ _ _) as [[[h a] result]| |]; try done. injection Hs as <-.
      rewrite (left_worker _ _ (WHas req)) by done. rewrite left_store. simpl. lia.
    + destruct (po_callers st !! rq_Result req) as [[| |[|]|]|] eqn:Hi; try done. injection Hs as <-.
      rewrite (left_worker _ _ (WReply req result)) by done. rewrite (left_caller _ _ _ _ Hi). simpl. lia.
Qed.

(** ** Somebody can always move *)

(** Everybody is back, and after [Shutdown] the workers are gone. *)
Definition finished (st : Pool) : Prop :=
  (forall i c, po_callers st !! i = Some c -> exists r, c = CReturned r) /\
  (po_closed st = true -> forall w, w ∈ po_workers st -> w = WExit).

Definition caller_ready (c : caller) : bool :=
  match c with CStart _ | CFallback _ _ _ | CWaiting (Some _) => true | _ => false end.

Definition worker_busy (w : worker) : bool :=
  match w with WHas _ | WReply _ _ => true | _ => false end.

Lemma existsb_lookup {A} (f : A -> bool) l : existsb f l = true -> exists i x, l !! i = Some x /\ f x = true.
Proof.
  intros (x & Hx & Hf)%existsb_exists. apply list_elem_of_In, list_elem_of_lookup in Hx as [i Hi]. by exists i, x.
Qed.

Lemma existsb_none {A} (f : A -> bool) l x : existsb f l = false -> x ∈ l -> f x = false.
Proof.
  intros He Hx. destruct (f x) eqn:Hf; [|done]. assert (existsb f l = true); [|congruence].
  apply existsb_exists. exists x. split; [by apply list_elem_of_In | done].
Qed.

Lemma somebody_moves `{rt : GoRuntime} ops h0 a0 log st :
  run_inv ops h0 a0 log st -> po_workers st <> [] ->
  finished st \/ exists who, who <> Closer /\ pool_step st who <> None.
Proof.
  intros Hv Hw. destruct (existsb caller_ready (po_callers st)) eqn:Hc.
  { right. apply existsb_lookup in Hc as (i & c & Hi & Hc). exists (Caller i). split; [done|]. simpl. rewrite Hi.
    destruct c as [[|]| |[|]|]; done. }
  destruct (existsb worker_busy (po_workers st)) eqn:Hb.
  { right. apply existsb_lookup in Hb as (j & w & Hj & Hb). exists (Worker j). split; [done|]. simpl. rewrite Hj.
    destruct w as [|req|req result|]; try done. simpl.
    assert (rq_Result req ∈ tokens st) as Ht.
    { unfold tokens. apply elem_of_app. right. apply list_elem_of_omap. exists (WReply req result).
      split; [by eapply list_elem_of_lookup_2 | done]. }
    apply (rv_waiting _ _ _ _ _ Hv) in Ht. by rewrite Ht. }
  destruct (po_queue st) as [|req queue] eqn:Hq; cycle 1.
  { right. destruct (po_workers st) as [|w ws] eqn:Hws; [done|]. exists (Worker 0). split; [done|]. simpl. rewrite Hws.
    assert (w ∈ po_workers st) as Hin by (rewrite Hws; by left).
    pose proof (rv_workers _ _ _ _ _ Hv w Hin) as Hok. rewrite <- Hws in Hb. pose proof (existsb_none _ _ _ Hb Hin) as Hbw.
    destruct w as [| | |]; try done; simpl in *; [by rewrite Hq|]. destruct Hok. congruence. }
  assert (tokens st = []) as Ht.
  { unfold tokens. rewrite Hq. simpl. apply elem_of_nil_inv. intros i (w & Hin & Htok)%list_elem_of_omap.
    pose proof (existsb_none _ _ _ Hb Hin). by destruct w. }
  destruct (decide (po_closed st = true /\ existsb (fun w => match w with WLoop => true | _ => false end) (po_workers st) = true))
    as [[Hcl He]|Hn].
  { right. apply existsb_lookup in He as (j & w & Hj & Hl). exists (Worker j). split; [done|]. simpl. rewrite Hj.
    destruct w; try done. simpl. by rewrite Hq, Hcl. }
  left. split.
  - intros i c Hi. pose proof (existsb_none _ _ _ Hc (list_elem_of_lookup_2 _ _ _ Hi)) as Hr.
    destruct c as [| |[|]|r]; try done; [|by eexists]. apply (rv_waiting _ _ _ _ _ Hv) in Hi. rewrite Ht in Hi.
    by apply elem_of_nil in Hi.
  - intros Hcl w Hin. pose proof (existsb_none _ _ _ Hb Hin) as Hr. destruct w; try done. exfalso. apply Hn. split; [done|].
    apply existsb_exists. exists WLoop. split; [by apply list_elem_of_In | done].
Qed.

(** ** Runs *)

Lemma step_workers `{rt : GoRuntime} st who st' :
  pool_step st who = Some (Ret st') -> length (po_workers st') = length (po_workers st).
Proof.
  intros Hs. destruct who as [i|j|]; simpl in Hs.
  - destruct (po_callers st !! i) as [c|]; [|done]. simpl in Hs.
    destruct c as [[size ty fl|l]|size ty fl|[result|]|r]; simpl in Hs; try done.
    + destruct (po_closed st); [done|]. by destruct (_ <? _); injection Hs as <-.
    + destruct (freeConcurrent _ _ _) as [[a e]| |]; try done. by injection Hs as <-.
    + destruct (allocateSync _ _ _ _ _) as [[[h a] r]| |]; try done. by injection Hs as <-.
    + by injection Hs as <-.
  - destruct (po_workers st !! j) as [w|]; [|done]. simpl in Hs. destruct w as [|req|req result|]; simpl in Hs; try done.
    + destruct (po_queue st); [destruct (po_closed st); [|done]|]; injection Hs as <-; apply length_insert.
    + destruct (worker_allocate _ _ _) as [[[h a] result]| |]; try done. injection Hs as <-. apply length_insert.
    + destruct (po_callers st !! rq_Result req) as [[| |[|]|]|]; try done. injection Hs as <-. apply length_insert.
  - injection Hs as Hs. unfold Shutdown in Hs. destruct (po_closed st); [done|]. by injection Hs as <-.
Qed.

(** After [Shutdown] nobody may be about to call [Allocate]. *)
Definition calls_in_time (st : Pool) : Prop :=
  po_closed st = true -> forall i size ty fl, po_callers st !! i <> Some (CStart (OpAlloc size ty fl)).

Lemma step_in_time `{rt : GoRuntime} st who st' :
  who <> Closer -> calls_in_time st -> pool_step st who = Some (Ret st') ->
  po_closed st' = po_closed st /\ calls_in_time st'.
Proof.
  intros Hw Ht Hs.
  assert (po_closed st' = po_closed st /\ forall i o, po_callers st' !! i = Some (CStart o) -> po_callers st !! i = Some (CStart o))
    as [Hc Hst].
  { destruct who as [i|j|]; [| |done]; simpl in Hs.
    - destruct (po_callers st !! i) as [c|] eqn:Hi; [|done]. simpl in Hs. pose proof (lookup_lt_Some _ _ _ Hi) as Hlt.
      destruct c as [[size ty fl|l]|size ty fl|[result|]|r]; simpl in Hs; try done.
      + destruct (po_closed st) eqn:Hcl; [done|].
        destruct (_ <? _); injection Hs as <-; (split; [done|]); intros k o; simpl; rewrite callers_insert by done;
          by destruct (decide (k = i)).
      + destruct (freeConcurrent _ _ _) as [[a e]| |]; try done. injection Hs as <-. split; [done|]. intros k o. simpl.
        rewrite callers_insert by done. by destruct (decide (k = i)).
      + destruct (allocateSync _ _ _ _ _) as [[[h a] r]| |]; try done. injection Hs as <-. split; [done|]. intros k o. simpl.
        rewrite callers_insert by done. by destruct (decide (k = i)).
      + injection Hs as <-. split; [done|]. intros k o. simpl. rewrite callers_insert by done. by destruct (decide (k = i)).
    - destruct (po_workers st !! j) as [w|]; [|done]. simpl in Hs. destruct w as [|req|req result|]; simpl in Hs; try done.
      + destruct (po_queue st); [destruct (po_closed st) eqn:Hcl; [|done]|]; by injection Hs as <-.
      + destruct (worker_allocate _ _ _) as [[[h a] result]| |]; try done. by injection Hs as <-.
      + destruct (po_callers st !! rq_Result req) as [[| |[|]|]|] eqn:Hi; try done. injection Hs as <-. split; [done|].
        intros k o. simpl. pose proof (lookup_lt_Some _ _ _ Hi) as Hlt. rewrite callers_insert by done.
        by destruct (decide (k = _)). }
  split; [done|]. intros Hcl i size ty fl Hi. apply (Ht ltac:(congruence) i size ty fl). by apply Hst.
Qed.

(** [P] holds sooner or later, whoever the scheduler lets move, as long as it lets
    somebody move who can; [Shutdown] is not called meanwhile. *)
Inductive eventually (P : Pool -> Prop) (st : Pool) : Prop :=
| ev_now : P st -> eventually P st
| ev_later :
    (exists rt who, who <> Closer /\ @pool_step rt st who <> None) ->
    (forall rt who o, who <> Closer -> @pool_step rt st who = Some o -> exists st', o = Ret st') ->
    (forall rt who st', who <> Closer -> @pool_step rt st who = Some (Ret st') -> eventually P st') ->
    eventually P st.

Section Pools.
Context (cfg : Config) (n0 : nat) (ops : list op) (h0 : Heap) (a0 : Allocator3D).
Hypothesis Hcfg : 0 < cf_PlaneSize cfg <= 32768.
Hypothesis Hstart : reach_ok cfg n0 h0 a0.
Hypothesis Hbound : Z.of_nat (n0 + length ops) < 18446744073709551614.
Hypothesis Hops : Forall (op_ok h0 a0) ops.
Hypothesis Honce : frees_once ops.

(** No step panics. *)
Lemma step_returns `{rt : GoRuntime} log st who o :
  run_inv ops h0 a0 log st -> calls_in_time st -> who <> Closer -> pool_step st who = Some o -> exists st', o = Ret st'.
Proof.
  intros Hv Ht Hw Hs. pose proof (rv_nodup _ _ _ _ _ Hv) as Hnd.
  pose proof (served_order_ok cfg n0 ops h0 a0 Hcfg Hstart Hbound Hops Honce log _ _ (rv_served _ _ _ _ _ Hv) Hnd) as Ho.
  assert (forall i o', i ∉ log.*1 -> ops !! i = Some o' -> exists h' a' r,
      serve o' (po_heap st) (po_alloc st) = Ret (h', a', r) /\ (forall l, r.1 = Some l -> is_Some (heap_get h' l))) as Hserve.
  { intros i o' Hi Hop. edestruct (order_next cfg n0 ops h0 a0 Hcfg Hbound Hops Honce log) as (h' & a' & r & He & Ho');
      [done..|]. exists h', a', r. split; [done|]. intros l Hl.
    destruct (oo_answers _ _ _ _ _ _ _ Ho' i r) as ([s t f|l'] & Hop' & Ha); [apply elem_of_app; right; by left| |];
      simpl in Ha; [destruct Ha as [(l1 & al & -> & _ & Hal & _)|[-> _]]; simplify_eq/=; by eexists | by destruct Ha as [-> _]]. }
  destruct who as [i|j|]; [| |done]; simpl in Hs.
  - destruct (po_callers st !! i) as [c|] eqn:Hi; [|done]. simpl in Hs. pose proof (rv_callers _ _ _ _ _ Hv i c Hi) as Hok.
    destruct c as [[size ty fl|l]|size ty fl|[result|]|r]; simpl in Hs, Hok; try done; injection Hs as <-.
    + destruct (po_closed st) eqn:Hcl; [by destruct (Ht Hcl i size ty fl)|]. destruct (_ <? _); by eexists.
    + destruct (Hserve i _ (proj2 Hok) (proj1 Hok)) as (h' & a' & r & He & _). simpl in He. unfold freeConcurrent.
      destruct (freeSync _ _ _) as [[a e]| |]; try done. by eexists.
    + destruct (Hserve i _ (proj2 Hok) (proj1 Hok)) as (h' & a' & r & He & _). simpl in He.
      destruct (allocateSync _ _ _ _ _) as [[[h a] o']| |]; try done. by eexists.
    + by eexists.
  - destruct (po_workers st !! j) as [w|] eqn:Hj; [|done]. simpl in Hs.
    pose proof (rv_workers _ _ _ _ _ Hv w (list_elem_of_lookup_2 _ _ _ Hj)) as Hok.
    destruct w as [|req|req result|]; simpl in Hs, Hok; try done.
    + destruct (po_queue st); [destruct (po_closed st); [|done]|]; injection Hs as <-; by eexists.
    + injection Hs as <-. destruct (Hserve _ _ (proj2 Hok) (proj1 Hok)) as (h' & a' & r & He & Hh). simpl in He.
      unfold worker_allocate, doAllocate. destruct (allocateSync _ _ _ _ _) as [[[h a] [e|l]]| |]; try done; simpl in *;
        [by eexists|]. injection He as <- <- <-. destruct (Hh l eq_refl) as [al ->]. by eexists.
    + destruct (po_callers st !! rq_Result req) as [[| |[|]|]|]; try done. injection Hs as <-. by eexists.
Qed.

(** What the end of a run looks like. *)
Definition all_answered (st : Pool) : Prop :=
  finished st /\ alloc_inv (po_heap st) (po_alloc st) /\
  (forall i o, ops !! i = Some o -> exists r, po_callers st !! i = Some (CReturned r) /\
     answer_ok cfg h0 o r (po_heap st) (po_alloc st)) /\
  (forall i j l e e', po_callers st !! i = Some (CReturned (Some l, e)) ->
     po_callers st !! j = Some (CReturned (Some l, e')) -> i = j).

Lemma finished_answered log st : run_inv ops h0 a0 log st -> finished st -> all_answered st.
Proof.
  intros Hv Hf. pose proof (rv_nodup _ _ _ _ _ Hv) as Hnd.
  pose proof (served_order_ok cfg n0 ops h0 a0 Hcfg Hstart Hbound Hops Honce log _ _ (rv_served _ _ _ _ _ Hv) Hnd) as Ho.
  split; [done|]. split; [apply (oo_reach _ _ _ _ _ _ _ Ho)|]. split.
  - intros i o Hi. destruct (lookup_lt_is_Some_2 (po_callers st) i) as [c Hc].
    { rewrite (rv_length _ _ _ _ _ Hv). by eapply lookup_lt_Some. }
    destruct (proj1 Hf i c Hc) as [r ->]. exists r. split; [done|].
    destruct (oo_answers _ _ _ _ _ _ _ Ho i r (rv_callers _ _ _ _ _ Hv i _ Hc)) as (o' & Ho' & Ha). congruence.
  - intros i j l e e' Hi Hj. eapply (oo_distinct _ _ _ _ _ _ _ Ho).
    + apply (rv_callers _ _ _ _ _ Hv i _ Hi).
    + apply (rv_callers _ _ _ _ _ Hv j _ Hj).
Qed.

Lemma pool_eventually log st :
  run_inv ops h0 a0 log st -> po_workers st <> [] -> calls_in_time st -> eventually all_answered st.
Proof.
  remember (Z.to_nat (left_to_do st)) as n eqn:Hn. revert log st Hn.
  induction n as [n IH] using lt_wf_ind. intros log st -> Hv Hw Ht.
  destruct (@somebody_moves (runtime_fwd 0) ops h0 a0 log st Hv Hw) as [Hf|(who & Hwho & Hen)].
  { apply ev_now. by eapply finished_answered. }
  apply ev_later.
  - by exists (runtime_fwd 0), who.
  - intros rt who' o Hne Hs. by eapply (step_returns log st who' o).
  - intros rt who' st' Hne Hs. pose proof (step_decreases st who' st' Hne Hs) as Hlt. pose proof (left_nonneg st').
    destruct (step_in_time st who' st' Hne Ht Hs) as [_ Ht'].
    assert (po_workers st' <> []) as Hw'.
    { apply step_workers in Hs. intros E. rewrite E in Hs. by destruct (po_workers st). }
    destruct (run_step ops h0 a0 log st who' st' Hv Hs) as [Hv'|(i & r & Hv')];
      (eapply IH; [|reflexivity | exact Hv' | done | done]; lia).
Qed.
End Pools.

(** ** A pool to try *)

(** Let the given goroutines move, in this order. *)
Fixpoint run_pool (st : Pool) (whos : list actor) : option Pool :=
  match whos with
  | [] => Some st
  | who :: whos =>
      match @pool_step (runtime_fwd 0) st who with Some (Ret st) => run_pool st whos | _ => None end
  end.

Lemma run_pool_rtc st whos st' : run_pool st whos = Some st' -> rtc pstep st st'.
Proof.
  revert st. induction whos as [|who whos IH]; intros st Hr; simpl in Hr; [by injection Hr as ->|].
  destruct (pool_step st who) as [[st1| |]|] eqn:Hs; try done. eapply rtc_l; [|by apply IH]. by exists (runtime_fwd 0), who.
Qed.

Lemma new_reach_ok cfg n : 0 < cf_PlaneSize cfg < 65536 -> reach_ok cfg n empty_heap (NewAllocator3D cfg).
Proof.
  intros Hc. constructor; [by apply NewAllocator3D_inv | | done | simpl; lia]. intros k r. simpl. by rewrite lookup_empty.
Qed.

(** Two workers, and three calls of which one asks for too much. *)
Definition pool_config : Config := mkConfig 64 16 4 2 true false.
Definition demo_ops : list op := [OpAlloc 8 4 0; OpAlloc 100 4 0; OpAlloc 16 4 0].
Definition demo_pool : Pool := new_pool empty_heap (NewAllocator3D pool_config) demo_ops.

(** The third call is served first. *)
Definition demo_mid : Pool :=
  default demo_pool (run_pool demo_pool [Caller 2; Caller 0; Worker 1; Worker 0; Worker 1; Worker 1; Caller 2]).
Definition demo_end : Pool :=
  default demo_mid (run_pool demo_mid [Caller 1; Worker 0; Worker 1; Worker 1; Worker 0; Closer; Worker 0; Worker 1; Caller 0]).

Lemma run_pool_default st whos : rtc pstep st (default st (run_pool st whos)).
Proof. destruct (run_pool st whos) as [st'|] eqn:Hr; [by eapply run_pool_rtc | done]. Qed.

(** ** Theorems *)

(** C7. The concurrent mode is linearisable: at any moment of any run of any number of
    calls, the allocator is in the state that serving some of the calls one at a time,
    by the sequential operations, leads to, and every call that is back has the answer
    it gets there.  No call is served twice, none before it is made; what was served
    stays served, in its place, as the run goes on; and the channel never holds more
    than its capacity. *)
Theorem pool_linearizable ops h a st st' :
  rtc pstep (new_pool h a ops) st -> rtc pstep st st' ->
  exists log later,
    served_in_order ops h a log (po_heap st) (po_alloc st) /\
    served_in_order ops h a (log ++ later) (po_heap st') (po_alloc st') /\
    NoDup (log ++ later).*1 /\
    (forall i r, po_callers st !! i = Some (CReturned r) -> (i, r) ∈ log) /\
    (forall i r, po_callers st' !! i = Some (CReturned r) -> (i, r) ∈ log ++ later) /\
    (forall i o, po_callers st !! i = Some (CStart o) -> i ∉ log.*1) /\
    (length (po_queue st) <= 1000)%nat.
Proof.
  intros Hr Hr'. destruct (pool_run ops h a st Hr) as [log Hv].
  assert (exists later, run_inv ops h a (log ++ later) st') as [later Hv'].
  { refine (rtc_ind_r (fun s => exists later, run_inv ops h a (log ++ later) s) _ _ _ st' Hr').
    - exists []. by rewrite app_nil_r.
    - intros s1 s2 _ (rt & who & Hs) [later Hl].
      destruct (run_step ops h a _ s1 who s2 Hl Hs) as [Hv'|(i & r & Hv')]; [by exists later|].
      exists (later ++ [(i, r)]). by rewrite app_assoc. }
  exists log, later. split_and!; [apply Hv | apply Hv' | apply Hv' | | | | apply Hv].
  - intros i r Hi. apply (rv_callers _ _ _ _ _ Hv i _ Hi).
  - intros i r Hi. apply (rv_callers _ _ _ _ _ Hv' i _ Hi).
  - intros i o Hi. apply (rv_callers _ _ _ _ _ Hv i _ Hi).
Qed.

Lemma pool_linearizable_witness :
  exists log later, served_in_order demo_ops empty_heap (NewAllocator3D pool_config) (log ++ later)
      (po_heap demo_end) (po_alloc demo_end) /\ (2%nat, (Some 0, None)) ∈ log /\ (0%nat, (Some 1, None)) ∈ log ++ later.
Proof.
  destruct (pool_linearizable demo_ops empty_heap (NewAllocator3D pool_config) demo_mid demo_end)
    as (log & later & _ & Hs & _ & H1 & H2 & _).
  - apply run_pool_default.
  - apply run_pool_default.
  - exists log, later. split; [exact Hs|]. split; [apply H1 | apply H2]; vm_compute; reflexivity.
Defined.

(** C8. Every concurrent call is answered.  Take any allocator state with planes of at
    most 32 KiB, at least one worker, any number of calls that allocate non-empty
    blocks or release different blocks, and any moment of the run at which, if
    [Shutdown] was called, no call of [Allocate] is still to be made: whatever the
    scheduler does from there, no step panics and after finitely many steps every call
    is back (the allocations with blocks of their size that nobody else got, or with
    the insufficient-memory error), the allocator is consistent, and after [Shutdown]
    all workers have ended. *)
Theorem pool_answers_all cfg n0 ops h a st :
  0 < cf_PlaneSize cfg <= 32768 -> 0 < cf_WorkerCount cfg -> reach_ok cfg n0 h a ->
  Z.of_nat (n0 + length ops) < 18446744073709551614 -> Forall (op_ok h a) ops -> frees_once ops ->
  rtc pstep (new_pool h a ops) st -> calls_in_time st ->
  eventually (all_answered cfg ops h) st.
Proof.
  intros Hcfg Hwk Hre Hb Hops Honce Hr Ht. destruct (pool_run ops h a st Hr) as [log Hv].
  apply (pool_eventually cfg n0 ops h a Hcfg Hre Hb Hops Honce log st Hv); [|done].
  assert (length (po_workers st) = Z.to_nat (cf_WorkerCount cfg)) as Hl.
  { refine (rtc_ind_r (fun s => length (po_workers s) = Z.to_nat (cf_WorkerCount cfg)) _ _ _ st Hr).
    - simpl. unfold startWorkers. rewrite length_replicate, (ro_config _ _ _ _ Hre). done.
    - intros s1 s2 _ (rt & who & Hs) Hl. rewrite (step_workers s1 who s2 Hs). done. }
  intros E. rewrite E in Hl. simpl in Hl. lia.
Qed.

Lemma pool_answers_all_witness :
  eventually (all_answered pool_config demo_ops empty_heap) demo_mid.
Proof.
  apply (pool_answers_all pool_config 0 demo_ops empty_heap (NewAllocator3D pool_config)).
  - by vm_compute.
  - by vm_compute.
  - apply new_reach_ok. by vm_compute.
  - by vm_compute.
  - repeat constructor.
  - intros [|[|[|i]]] j l; simpl; done.
  - apply run_pool_default.
  - intros Hc. exfalso. vm_compute in Hc. discriminate Hc.
Defined.

(** ** Limits *)

(** Without workers a call that is in the channel waits for ever. *)
Theorem no_workers_no_answer h a size ty fl st :
  cf_WorkerCount (ac_config a) <= 0 -> rtc pstep (new_pool h a [OpAlloc size ty fl]) st ->
  forall r, po_callers st !! 0%nat <> Some (CReturned r).
Proof.
  intros Hw Hr.
  assert (po_workers st = [] /\ (po_callers st = [CStart (OpAlloc size ty fl)] /\ po_queue st = [] \/ po_callers st = [CWaiting None]))
    as [_ [[Hc _]|Hc]]; [|by rewrite Hc..].
  refine (rtc_ind_r (fun s => po_workers s = [] /\ (po_callers s = [CStart (OpAlloc size ty fl)] /\ po_queue s = [] \/
    po_callers s = [CWaiting None])) _ _ _ st Hr).
  - simpl. unfold startWorkers. replace (Z.to_nat _) with 0%nat by lia. split; [done | by left].
  - intros s1 s2 _ (rt & who & Hs) [H1 H2]. destruct who as [i|j|]; simpl in Hs.
    + destruct i as [|i]; [|destruct H2 as [[H2 _]|H2]; rewrite H2 in Hs; destruct i; done].
      destruct H2 as [[H2 H3]|H2]; rewrite H2 in Hs; [|done]. simpl in Hs. rewrite H3 in Hs. simpl in Hs.
      destruct (po_closed s1); [done|]. injection Hs as <-. simpl. rewrite H2. split; [done | by right].
    + rewrite H1 in Hs. by destruct j.
    + injection Hs as Hs. unfold Shutdown in Hs. destruct (po_closed s1); [done|]. by injection Hs as <-.
Qed.

(** After [Shutdown], a call of [Allocate] and a second [Shutdown] panic; this stays so. *)
Theorem shutdown_refuses `{GoRuntime} st st' i size ty fl :
  po_closed st = true -> rtc pstep st st' ->
  po_closed st' = true /\ pool_step st' Closer = Some Panic /\
  (po_callers st' !! i = Some (CStart (OpAlloc size ty fl)) -> pool_step st' (Caller i) = Some Panic).
Proof.
  intros Hc Hr.
  assert (po_closed st' = true) as Hc'.
  { refine (rtc_ind_r (fun s => po_closed s = true) st Hc _ st' Hr).
    intros s1 s2 _ (rt & who & Hs) H1. destruct who as [k|j|]; simpl in Hs.
    - destruct (po_callers s1 !! k) as [c|]; [|done]. simpl in Hs.
      destruct c as [[s t f|l]|s t f|[result|]|r]; simpl in Hs; try done; [by rewrite H1 in Hs| | |by injection Hs as <-].
      + destruct (freeConcurrent _ _ _) as [[a e]| |]; try done. by injection Hs as <-.
      + destruct (allocateSync _ _ _ _ _) as [[[h a] r]| |]; try done. by injection Hs as <-.
    - destruct (po_workers s1 !! j) as [w|]; [|done]. simpl in Hs. destruct w as [|req|req result|]; simpl in Hs; try done.
      + destruct (po_queue s1); [rewrite H1 in Hs|]; by injection Hs as <-.
      + destruct (worker_allocate _ _ _) as [[[h a] result]| |]; try done. by injection Hs as <-.
      + destruct (po_callers s1 !! rq_Result req) as [[| |[|]|]|]; try done. by injection Hs as <-.
    - simpl in Hs. unfold Shutdown in Hs. by rewrite H1 in Hs. }
  split; [done|]. split; [simpl; unfold Shutdown; by rewrite Hc'|]. intros Hi. simpl. rewrite Hi. simpl. by rewrite Hc'.
Qed.
