(* ===== verification/Gas.v ===== *)
(** * Gas accounting (internal/vm/gas.go)

    The accountant is a list of buckets updated with atomic operations.
    [Consume] and [Refund] are modelled twice: as the code behaves when nothing
    else runs, and as threads that take one atomic operation per step, so that
    the retry loops can be interleaved in any way. *)
From S2P Require Import Prelude Words Float64 Address Errors.

Record GasBucket := mkBucket {
  gb_remaining : Z; gb_used : Z; gb_promotions : Z; gb_regionChanges : Z }.

Record GasAccountant3D := mkAccountant {
  ga_buckets : list GasBucket; ga_bucketIdx : Z; ga_totalGas : Z }.

Definition with_remaining (v : Z) (b : GasBucket) : GasBucket :=
  {| gb_remaining := v; gb_used := gb_used b; gb_promotions := gb_promotions b;
     gb_regionChanges := gb_regionChanges b |}.

Definition with_used (v : Z) (b : GasBucket) : GasBucket :=
  {| gb_remaining := gb_remaining b; gb_used := v; gb_promotions := gb_promotions b;
     gb_regionChanges := gb_regionChanges b |}.

Definition with_buckets (bs : list GasBucket) (g : GasAccountant3D) : GasAccountant3D :=
  {| ga_buckets := bs; ga_bucketIdx := ga_bucketIdx g; ga_totalGas := ga_totalGas g |}.

Definition NewAccountant (GasLimit : Z) : GasAccountant3D :=
  let numBuckets := 1 in
  let gasPerBucket := GasLimit / numBuckets in
  let remainder := GasLimit mod numBuckets in
  {| ga_buckets := (fun i => mkBucket (if i =? 0 then u64 (gasPerBucket + remainder) else gasPerBucket) 0 0 0)
                     <$> seqZ 0 numBuckets;
     ga_bucketIdx := 0; ga_totalGas := GasLimit |}.

(** The sum of the buckets read as [int64], never below zero. *)
Definition Remaining (g : GasAccountant3D) : Z :=
  let total := foldl (fun t b => to_int64 (t + to_int64 (gb_remaining b))) 0 (ga_buckets g) in
  if total <? 0 then 0 else total.

Definition Used (g : GasAccountant3D) : Z :=
  foldl (fun t b => u64 (t + gb_used b)) 0 (ga_buckets g).

(** Round robin; the result is an index into the buckets. *)
Definition getBucket (g : GasAccountant3D) : res (GasAccountant3D * nat) :=
  let idx := u64 (ga_bucketIdx g + 1) in
  let g := {| ga_buckets := ga_buckets g; ga_bucketIdx := idx; ga_totalGas := ga_totalGas g |} in
  match ga_buckets g with
  | [] => Panic
  | bs => Ret (g, Z.to_nat (idx mod Z.of_nat (length bs)))
  end.

Definition Consume (g : GasAccountant3D) (gas : Z) : res (GasAccountant3D * option error) :=
  '(g, b) ← getBucket g;
  bucket ← deref (ga_buckets g !! b);
  let old := gb_remaining bucket in
  if old <? gas then Ret (g, Some ErrInsufficientGas)
  else
    let bucket := with_remaining (old - gas) bucket in
    let bucket := with_used (u64 (gb_used bucket + gas)) bucket in
    Ret (with_buckets (<[b := bucket]> (ga_buckets g)) g, None).

(** The first bucket with used gas gets the refund; else the first bucket. *)
Fixpoint refund_used (gas : Z) (bs : list GasBucket) : option (list GasBucket) :=
  match bs with
  | [] => None
  | bucket :: bs =>
      if gb_used bucket =? 0 then (bucket ::.) <$> refund_used gas bs
      else
        let cur := gb_used bucket in
        let newUsed := if cur <=? gas then 0 else cur - gas in
        Some (with_remaining (u64 (gb_remaining bucket + gas)) (with_used newUsed bucket) :: bs)
  end.

Definition Refund (g : GasAccountant3D) (gas : Z) : res GasAccountant3D :=
  match refund_used gas (ga_buckets g) with
  | Some bs => Ret (with_buckets bs g)
  | None =>
      match ga_buckets g with
      | [] => Panic
      | bucket :: bs => Ret (with_buckets (with_remaining (u64 (gb_remaining bucket + gas)) bucket :: bs) g)
      end
  end.

(** ** Gas of an access *)

Definition absDiff64 (a b : Z) : Z := if a >? b then u64 (a - b) else u64 (b - a).
Definition absDiff32 (a b : Z) : Z := if a >? b then u32 (a - b) else u32 (b - a).
Definition absDiff16 (a b : Z) : Z := if a >? b then u16 (a - b) else u16 (b - a).

(** The base cost and the Y term are computed on 32 bits before they are widened. *)
Definition calculateGas (addrFrom addrTo : Address3D) (size : Z) : Z :=
  let gas := u32 (3 + size) in
  let distances := [u64 (absDiff64 (aX addrFrom) (aX addrTo) * 100);
                    u32 (absDiff32 (aY addrFrom) (aY addrTo) * 10);
                    absDiff16 (aZ addrFrom) (aZ addrTo)] in
  foldl (fun gas d => u64 (gas + d)) gas distances.

(** ** Threads *)

(** Where a thread stands in [Consume(gas)] or [Refund(gas)]; [b] is the bucket
    it works on, [old] and [cur] the value it loaded. *)
Inductive thread :=
| CBegin (gas : Z)
| CLoad (b : nat) (gas : Z)
| CCas (b : nat) (gas old : Z)
| CAddUsed (b : nat) (gas : Z)
| CDone (gas : Z) (ok : bool)
| RScan (b : nat) (gas : Z)
| RLoad (b : nat) (gas : Z)
| RCas (b : nat) (gas cur : Z)
| RAddRemaining (b : nat) (gas : Z)
| RFirst (gas : Z)
| RDone (gas : Z).

Definition update_bucket (f : GasBucket -> GasBucket) (b : nat) (g : GasAccountant3D) : GasAccountant3D :=
  with_buckets (alter f b (ga_buckets g)) g.

(** One atomic operation. *)
Definition tstep (g : GasAccountant3D) (t : thread) : res (GasAccountant3D * thread) :=
  match t with
  | CBegin gas => '(g, b) ← getBucket g; Ret (g, CLoad b gas)
  | CLoad b gas =>
      bucket ← deref (ga_buckets g !! b);
      let old := gb_remaining bucket in
      if old <? gas then Ret (g, CDone gas false) else Ret (g, CCas b gas old)
  | CCas b gas old =>
      bucket ← deref (ga_buckets g !! b);
      if gb_remaining bucket =? old
      then Ret (update_bucket (with_remaining (old - gas)) b g, CAddUsed b gas)
      else Ret (g, CLoad b gas)
  | CAddUsed b gas =>
      bucket ← deref (ga_buckets g !! b);
      Ret (update_bucket (with_used (u64 (gb_used bucket + gas))) b g, CDone gas true)
  | RScan b gas =>
      match ga_buckets g !! b with
      | None => Ret (g, RFirst gas)
      | Some bucket => if gb_used bucket =? 0 then Ret (g, RScan (S b) gas) else Ret (g, RLoad b gas)
      end
  | RLoad b gas =>
      bucket ← deref (ga_buckets g !! b);
      Ret (g, RCas b gas (gb_used bucket))
  | RCas b gas cur =>
      bucket ← deref (ga_buckets g !! b);
      if gb_used bucket =? cur
      then Ret (update_bucket (with_used (if cur <=? gas then 0 else cur - gas)) b g, RAddRemaining b gas)
      else Ret (g, RLoad b gas)
  | RAddRemaining b gas =>
      bucket ← deref (ga_buckets g !! b);
      Ret (update_bucket (with_remaining (u64 (gb_remaining bucket + gas))) b g, RDone gas)
  | RFirst gas =>
      bucket ← deref (ga_buckets g !! 0%nat);
      Ret (update_bucket (with_remaining (u64 (gb_remaining bucket + gas))) 0 g, RDone gas)
  | CDone _ _ | RDone _ => Ret (g, t)
  end.

(** Any thread may take the next step. *)
Inductive pool_step : GasAccountant3D * list thread -> GasAccountant3D * list thread -> Prop :=
| pool_thread g ts i t g' t' :
    ts !! i = Some t -> tstep g t = Ret (g', t') -> pool_step (g, ts) (g', <[i := t']> ts).

Definition pool_steps := rtc pool_step.

(** A thread that has not started. *)
Definition initial (t : thread) : Prop :=
  match t with CBegin gas => is_u64 gas | RScan O gas => is_u64 gas | _ => False end.

(** ** Invariant of the interleavings *)

(** Gas a thread has taken from a bucket. *)
Definition spent (t : thread) : Z :=
  match t with CAddUsed _ gas | CDone gas true => gas | _ => 0 end.

(** Gas it has also entered as used. *)
Definition booked (t : thread) : Z := match t with CDone gas true => gas | _ => 0 end.

(** Gas it has given back, and gas it gives back in the end. *)
Definition refunded (t : thread) : Z := match t with RDone gas => gas | _ => 0 end.
Definition to_refund (t : thread) : Z :=
  match t with
  | RScan _ gas | RLoad _ gas | RCas _ gas _ | RAddRemaining _ gas | RFirst gas | RDone gas => gas
  | _ => 0
  end.

Definition consumer (t : thread) : bool :=
  match t with CBegin _ | CLoad _ _ | CCas _ _ _ | CAddUsed _ _ | CDone _ _ => true | _ => false end.

(** The thread refers to a bucket that exists, and may subtract what it loaded. *)
Definition thread_ok (n : nat) (t : thread) : Prop :=
  match t with
  | CBegin gas | CDone gas _ | RScan _ gas | RFirst gas | RDone gas => 0 <= gas
  | CLoad b gas | CAddUsed b gas | RLoad b gas | RCas b gas _ | RAddRemaining b gas =>
      0 <= gas /\ (b < n)%nat
  | CCas b gas old => 0 <= gas <= old /\ (b < n)%nat
  end.

Record pool_inv (limit : Z) (g : GasAccountant3D) (ts : list thread) : Prop := {
  pi_buckets : ga_buckets g <> [];
  pi_pos : forall b, b ∈ ga_buckets g -> 0 <= gb_remaining b;
  pi_threads : Forall (thread_ok (length (ga_buckets g))) ts;
  pi_sum : sumZ gb_remaining (ga_buckets g) = limit - sumZ spent ts + sumZ refunded ts;
  pi_limit : limit + sumZ to_refund ts < 18446744073709551616;
}.

Lemma getBucket_spec g : ga_buckets g <> [] ->
  exists g' b, getBucket g = Ret (g', b) /\ ga_buckets g' = ga_buckets g /\ (b < length (ga_buckets g))%nat.
Proof.
  intros Hne. unfold getBucket. simpl. destruct (ga_buckets g) as [|b bs] eqn:E; [done|].
  eexists _, _. split; [done|]. simpl ga_buckets. split; [done|].
  pose proof (Z.mod_pos_bound (u64 (ga_bucketIdx g + 1)) (Z.of_nat (length (b :: bs)))) as Hm.
  simpl length in *. lia.
Qed.

Lemma thread_update n ts i t t' :
  Forall (thread_ok n) ts -> ts !! i = Some t -> thread_ok n t' -> Forall (thread_ok n) (<[i := t']> ts).
Proof. intros. by apply Forall_insert. Qed.

Lemma pool_inv_thread limit g g' ts i t t' :
  pool_inv limit g ts -> ts !! i = Some t -> ga_buckets g' = ga_buckets g ->
  thread_ok (length (ga_buckets g)) t' ->
  spent t' = spent t -> refunded t' = refunded t -> to_refund t' = to_refund t ->
  pool_inv limit g' (<[i := t']> ts).
Proof.
  intros [P1 P2 P3 P4 P5] Hi Hg Hok Hs Hr Ht. constructor; rewrite ?Hg; try done.
  - by eapply thread_update.
  - rewrite !(sumZ_insert _ _ _ t) by done. rewrite Hs, Hr. lia.
  - rewrite (sumZ_insert _ _ _ t) by done. lia.
Qed.

(** A step that changes what bucket [b] holds. *)
Lemma pool_inv_bucket limit g ts i t t' b bucket f :
  pool_inv limit g ts -> ts !! i = Some t -> ga_buckets g !! b = Some bucket ->
  thread_ok (length (ga_buckets g)) t' -> 0 <= gb_remaining (f bucket) ->
  gb_remaining (f bucket) - gb_remaining bucket = spent t - spent t' + refunded t' - refunded t ->
  to_refund t' = to_refund t ->
  pool_inv limit (update_bucket f b g) (<[i := t']> ts).
Proof.
  intros [P1 P2 P3 P4 P5] Hi Hb Hok Hpos Hrem Ht. unfold update_bucket.
  rewrite (list_alter_insert _ _ _ bucket) by done. constructor; simpl; rewrite ?length_insert.
  - intros E. apply (f_equal length) in E. rewrite length_insert in E. by destruct (ga_buckets g).
  - intros x [j Hj]%list_elem_of_lookup. apply list_lookup_insert_Some in Hj as [(_ & <- & _)|[_ Hj]]; [done|].
    apply P2. by eapply list_elem_of_lookup_2.
  - by eapply thread_update.
  - rewrite !(sumZ_insert _ _ _ t), (sumZ_insert _ _ _ bucket) by done. lia.
  - rewrite (sumZ_insert _ _ _ t) by done. lia.
Qed.

Lemma bucket_le limit g ts b bucket :
  pool_inv limit g ts -> ga_buckets g !! b = Some bucket ->
  0 <= gb_remaining bucket <= limit - sumZ spent ts + sumZ refunded ts.
Proof.
  intros [P1 P2 P3 P4 P5] Hb. rewrite <- P4. split; [apply P2; by eapply list_elem_of_lookup_2|].
  by apply (sumZ_lookup_le _ _ b).
Qed.

Lemma thread_sums n ts : Forall (thread_ok n) ts ->
  0 <= sumZ spent ts /\ 0 <= sumZ refunded ts <= sumZ to_refund ts.
Proof.
  intros Hts. rewrite Forall_forall in Hts. split_and!.
  - apply sumZ_nonneg. intros t Ht. specialize (Hts t Ht). destruct t as [| | | |? []| | | | | |]; simpl in *; lia.
  - apply sumZ_nonneg. intros t Ht. specialize (Hts t Ht). destruct t; simpl in *; lia.
  - apply sumZ_le. intros t Ht. specialize (Hts t Ht). destruct t; simpl in *; lia.
Qed.

(** Adding a refund to a bucket does not wrap. *)
Lemma refund_fits limit g ts i t b bucket gas :
  pool_inv limit g ts -> ts !! i = Some t -> to_refund t = gas -> refunded t = 0 -> 0 <= gas ->
  ga_buckets g !! b = Some bucket -> u64 (gb_remaining bucket + gas) = gb_remaining bucket + gas.
Proof.
  intros Hp Hi Ht Hr Hg Hb. pose proof (bucket_le _ _ _ _ _ Hp Hb) as Hle. destruct Hp as [P1 P2 P3 P4 P5].
  pose proof (thread_sums _ _ P3) as (S1 & S2).
  assert (sumZ refunded (<[i := RDone gas]> ts) <= sumZ to_refund (<[i := RDone gas]> ts)) as S3.
  { apply (thread_sums (length (ga_buckets g))). by eapply thread_update. }
  rewrite !(sumZ_insert _ _ _ t) in S3 by done. simpl in S3. apply u64_small. unfold is_u64. lia.
Qed.

Lemma tstep_inv limit g ts i t :
  pool_inv limit g ts -> ts !! i = Some t ->
  exists g' t', tstep g t = Ret (g', t') /\ pool_inv limit g' (<[i := t']> ts).
Proof.
  intros Hp Hi. pose proof (pi_threads _ _ _ Hp) as Hts. rewrite Forall_lookup in Hts. specialize (Hts i t Hi).
  assert (forall b, (b < length (ga_buckets g))%nat -> exists bucket, ga_buckets g !! b = Some bucket) as Hlk.
  { intros b Hb. by apply lookup_lt_is_Some_2. }
  destruct t as [gas|b gas|b gas old|b gas|gas ok|b gas|b gas|b gas cur|b gas|gas|gas]; cbn [tstep thread_ok] in *.
  - destruct (getBucket_spec g (pi_buckets _ _ _ Hp)) as (g' & b & -> & Hg & Hb). cbn [mbind res_bind].
    eexists _, _. split; [done|]. by eapply pool_inv_thread.
  - destruct Hts as [Hg Hb]. destruct (Hlk b Hb) as [bucket Hbk]. rewrite Hbk. cbn [deref mbind res_bind].
    destruct (Z.ltb_spec (gb_remaining bucket) gas); (eexists _, _; split; [done|]);
      eapply pool_inv_thread; try done; simpl; lia.
  - destruct Hts as [Hg Hb]. destruct (Hlk b Hb) as [bucket Hbk]. rewrite Hbk. cbn [deref mbind res_bind].
    destruct (Z.eqb_spec (gb_remaining bucket) old); (eexists _, _; split; [done|]);
      [eapply pool_inv_bucket | eapply pool_inv_thread]; try done; simpl; lia.
  - destruct Hts as [Hg Hb]. destruct (Hlk b Hb) as [bucket Hbk]. rewrite Hbk. cbn [deref mbind res_bind].
    pose proof (bucket_le _ _ _ _ _ Hp Hbk).
    eexists _, _. split; [done|]. eapply pool_inv_bucket; try done; simpl; lia.
  - eexists _, _. split; [done|]. by eapply pool_inv_thread.
  - destruct (ga_buckets g !! b) as [bucket|] eqn:E; [|eexists _, _; split; [done|]; by eapply pool_inv_thread].
    apply lookup_lt_Some in E. destruct (Z.eqb_spec (gb_used bucket) 0); (eexists _, _; split; [done|]);
      eapply pool_inv_thread; try done.
  - destruct Hts as [Hg Hb]. destruct (Hlk b Hb) as [bucket Hbk]. rewrite Hbk. cbn [deref mbind res_bind].
    eexists _, _. split; [done|]. by eapply pool_inv_thread.
  - destruct Hts as [Hg Hb]. destruct (Hlk b Hb) as [bucket Hbk]. rewrite Hbk. cbn [deref mbind res_bind].
    pose proof (bucket_le _ _ _ _ _ Hp Hbk).
    destruct (Z.eqb_spec (gb_used bucket) cur); (eexists _, _; split; [done|]);
      [eapply pool_inv_bucket | eapply pool_inv_thread]; try done; simpl; lia.
  - destruct Hts as [Hg Hb]. destruct (Hlk b Hb) as [bucket Hbk]. rewrite Hbk. cbn [deref mbind res_bind].
    pose proof (bucket_le _ _ _ _ _ Hp Hbk). rewrite (refund_fits _ _ _ _ _ _ _ gas Hp Hi eq_refl eq_refl Hg Hbk).
    eexists _, _. split; [done|]. eapply pool_inv_bucket; try done; simpl; lia.
  - destruct (Hlk 0%nat) as [bucket Hbk]; [pose proof (pi_buckets _ _ _ Hp); by destruct (ga_buckets g); [|simpl; lia]|].
    rewrite Hbk. cbn [deref mbind res_bind]. pose proof (bucket_le _ _ _ _ _ Hp Hbk).
    rewrite (refund_fits _ _ _ _ _ _ _ gas Hp Hi eq_refl eq_refl Hts Hbk).
    eexists _, _. split; [done|]. eapply pool_inv_bucket; try done; simpl; lia.
  - eexists _, _. split; [done|]. by eapply pool_inv_thread.
Qed.

Lemma pool_step_inv limit st st' :
  pool_inv limit st.1 st.2 -> pool_step st st' -> pool_inv limit st'.1 st'.2.
Proof.
  intros Hp Hs. destruct Hs as [g ts i t g1 t1 Hi Ht]. simpl in *.
  destruct (tstep_inv limit g ts i t Hp Hi) as (g2 & t2 & He & Hp2). rewrite He in Ht. by injection Ht as -> ->.
Qed.

Lemma pool_steps_inv limit st st' :
  pool_inv limit st.1 st.2 -> pool_steps st st' -> pool_inv limit st'.1 st'.2.
Proof. intros Hp Hs. induction Hs; [done|]. by eapply IHHs, pool_step_inv. Qed.

Lemma initial_sums ts : Forall initial ts -> sumZ spent ts = 0 /\ sumZ refunded ts = 0 /\ sumZ booked ts = 0.
Proof.
  induction 1 as [|t ts Ht Hts IH]; [done|]. simpl. destruct t as [| | | | |[] ?| | | | |]; simpl in *; try done; lia.
Qed.

Lemma NewAccountant_eq limit : is_u64 limit -> ga_buckets (NewAccountant limit) = [mkBucket limit 0 0 0].
Proof.
  intros Hl. unfold NewAccountant. simpl. rewrite Z.div_1_r, Z.mod_1_r, u64_small; rewrite Z.add_0_r; done.
Qed.

Lemma initial_inv limit ts :
  is_u64 limit -> Forall initial ts -> limit + sumZ to_refund ts < 18446744073709551616 ->
  pool_inv limit (NewAccountant limit) ts.
Proof.
  intros Hl Hts Hb. destruct (initial_sums ts Hts) as (E1 & E2 & _). unfold is_u64 in Hl.
  constructor; rewrite ?NewAccountant_eq by done; try done.
  - intros b ->%list_elem_of_singleton. simpl. lia.
  - eapply Forall_impl; [exact Hts|]. intros t Ht.
    destruct t as [| | | | |[] ?| | | | |]; simpl in *; try done; unfold is_u64 in Ht; lia.
  - simpl. lia.
Qed.

(** *** The used counter, when nobody refunds *)

Record used_inv (g : GasAccountant3D) (ts : list thread) : Prop := {
  ui_consumers : Forall (fun t => consumer t = true) ts;
  ui_pos : forall b, b ∈ ga_buckets g -> 0 <= gb_used b;
  ui_sum : sumZ gb_used (ga_buckets g) = sumZ booked ts;
}.

Lemma booked_spent n ts i t b gas :
  Forall (thread_ok n) ts -> ts !! i = Some t -> t = CAddUsed b gas -> sumZ booked ts + gas <= sumZ spent ts.
Proof.
  intros Hts Hi ->. assert (sumZ booked (<[i := CDone gas true]> ts) <= sumZ spent (<[i := CDone gas true]> ts)) as Hle.
  { assert (Forall (thread_ok n) (<[i := CDone gas true]> ts)) as Hts'.
    { apply (thread_update n ts i (CAddUsed b gas)); [done..|]. rewrite Forall_lookup in Hts.
      specialize (Hts i _ Hi). simpl in *. lia. }
    rewrite Forall_forall in Hts'. apply sumZ_le. intros x Hx. specialize (Hts' x Hx).
    destruct x as [| | | |? []| | | | | |]; simpl in *; lia. }
  rewrite !(sumZ_insert _ _ _ (CAddUsed b gas)) in Hle by done. simpl in Hle. lia.
Qed.

Lemma used_inv_thread g g' ts i t t' :
  used_inv g ts -> ts !! i = Some t -> sumZ gb_used (ga_buckets g') = sumZ gb_used (ga_buckets g) ->
  (forall b, b ∈ ga_buckets g' -> 0 <= gb_used b) ->
  consumer t' = true -> booked t' = booked t -> used_inv g' (<[i := t']> ts).
Proof.
  intros [U1 U2 U3] Hi Hs Hpos Hc Hb. constructor; [by apply Forall_insert | done|].
  rewrite (sumZ_insert _ _ _ t) by done. rewrite Hs. lia.
Qed.

Lemma elem_of_alter_bucket f b g x bucket :
  ga_buckets g !! b = Some bucket -> x ∈ ga_buckets (update_bucket f b g) ->
  x = f bucket \/ x ∈ ga_buckets g.
Proof.
  intros Hb Hx. unfold update_bucket in Hx. simpl in Hx. rewrite (list_alter_insert _ _ _ bucket) in Hx by done.
  apply list_elem_of_lookup in Hx as [j Hj]. apply list_lookup_insert_Some in Hj as [(_ & <- & _)|[_ Hj]]; [by left|].
  right. by eapply list_elem_of_lookup_2.
Qed.

Lemma used_step limit st st' :
  is_u64 limit -> pool_inv limit st.1 st.2 -> used_inv st.1 st.2 -> pool_step st st' -> used_inv st'.1 st'.2.
Proof.
  intros Hlim Hp Hu Hs. destruct Hs as [g ts i t g' t' Hi Ht]. simpl in *. pose proof Hu as [U1 U2 U3].
  rewrite Forall_lookup in U1. specialize (U1 i t Hi).
  destruct t as [gas|b gas|b gas old|b gas|gas ok| | | | | |]; try done; cbn [tstep] in Ht.
  - destruct (getBucket_spec g (pi_buckets _ _ _ Hp)) as (g1 & b & Hg & Hbk & _). rewrite Hg in Ht.
    simplify_eq/=. eapply used_inv_thread; try done; by rewrite Hbk.
  - destruct (ga_buckets g !! b) as [bucket|] eqn:Hb; [|done]. cbn [deref mbind res_bind] in Ht.
    destruct (Z.ltb_spec (gb_remaining bucket) gas); simplify_eq; by eapply used_inv_thread.
  - destruct (ga_buckets g !! b) as [bucket|] eqn:Hb; [|done]. cbn [deref mbind res_bind] in Ht.
    destruct (Z.eqb_spec (gb_remaining bucket) old); simplify_eq; [|by eapply used_inv_thread].
    eapply used_inv_thread; try done.
    + unfold update_bucket. simpl. rewrite (list_alter_insert _ _ _ bucket), (sumZ_insert _ _ _ bucket) by done.
      simpl. lia.
    + intros x Hx. destruct (elem_of_alter_bucket _ _ _ _ _ Hb Hx) as [->|?]; [|by apply U2].
      simpl. apply U2. by eapply list_elem_of_lookup_2.
  - destruct (ga_buckets g !! b) as [bucket|] eqn:Hb; [|done]. cbn [deref mbind res_bind] in Ht. simplify_eq.
    pose proof (pi_threads _ _ _ Hp) as Hts. pose proof (booked_spent _ _ _ _ _ _ Hts Hi eq_refl) as Hbs.
    assert (0 <= gb_used bucket <= sumZ booked ts) as Hub.
    { split; [apply U2; by eapply list_elem_of_lookup_2|]. rewrite <- U3. by apply (sumZ_lookup_le _ _ b). }
    pose proof (bucket_le _ _ _ _ _ Hp Hb) as Hle.
    assert (sumZ refunded ts = 0) as Hr0.
    { destruct Hu as [Hc _ _]. clear -Hc. induction Hc as [|x ts Hx _ IH]; [done|]. simpl. rewrite IH.
      by destruct x. }
    assert (0 <= gas) as Hgas by (rewrite Forall_lookup in Hts; specialize (Hts i _ Hi); simpl in Hts; lia).
    unfold is_u64 in Hlim. rewrite u64_small by (unfold is_u64; lia). constructor.
    + destruct Hu as [Hc _ _]. by apply Forall_insert.
    + intros x Hx. destruct (elem_of_alter_bucket _ _ _ _ _ Hb Hx) as [->|?]; [simpl; lia|by apply U2].
    + unfold update_bucket. simpl. rewrite (list_alter_insert _ _ _ bucket), (sumZ_insert _ _ _ bucket) by done.
      rewrite (sumZ_insert _ _ _ (CAddUsed b gas)) by done. simpl. lia.
  - simplify_eq. rewrite list_insert_id by done. done.
Qed.

(** ** Linearisation *)

(** What a caller asks for, and a purse that serves one call at a time: a payment is
    made exactly when the purse holds it, a refund is always taken. *)
Inductive gas_call := Pay (gas : Z) | GiveBack (gas : Z).

Inductive purse : Z -> gas_call -> bool -> Z -> Prop :=
| purse_pays left gas : gas <= left -> purse left (Pay gas) true (left - gas)
| purse_refuses left gas : left < gas -> purse left (Pay gas) false left
| purse_takes left gas : purse left (GiveBack gas) true (left + gas).

(** The purse starts with [limit] and serves the calls of the log in its order; an
    entry is the number of the call and whether it was served. *)
Inductive purse_log (calls : list gas_call) (limit : Z) : list (nat * bool) -> Z -> Prop :=
| purse_start : purse_log calls limit [] limit
| purse_serve log left i c ok left' :
    purse_log calls limit log left -> calls !! i = Some c -> purse left c ok left' ->
    purse_log calls limit (log ++ [(i, ok)]) left'.

Definition call_of (t : thread) : gas_call :=
  match t with
  | CBegin gas | CLoad _ gas | CCas _ gas _ | CAddUsed _ gas | CDone gas _ => Pay gas
  | RScan _ gas | RLoad _ gas | RCas _ gas _ | RAddRemaining _ gas | RFirst gas | RDone gas => GiveBack gas
  end.

(** The answer of a thread, from the step that settles it. *)
Definition decided (t : thread) : option bool :=
  match t with
  | CAddUsed _ _ | RDone _ => Some true
  | CDone _ ok => Some ok
  | _ => None
  end.

Definition gas_left_in (g : GasAccountant3D) : Z := sumZ gb_remaining (ga_buckets g).

Record lin_inv (calls : list gas_call) (limit : Z) (log : list (nat * bool)) (g : GasAccountant3D)
    (ts : list thread) : Prop := {
  li_one : length (ga_buckets g) = 1%nat;
  li_log : purse_log calls limit log (gas_left_in g);
  li_nodup : NoDup log.*1;
  li_calls : call_of <$> ts = calls;
  li_decided : forall i t ok, ts !! i = Some t -> decided t = Some ok <-> (i, ok) ∈ log;
}.

Section Linearisation.
Context (calls : list gas_call) (limit : Z).

Lemma calls_insert ts i t t' : call_of <$> ts = calls -> ts !! i = Some t -> call_of t' = call_of t ->
  call_of <$> (<[i := t']> ts) = calls.
Proof.
  intros Hc Hi He. rewrite list_fmap_insert, He, Hc. apply list_insert_id. by rewrite <- Hc, list_lookup_fmap, Hi.
Qed.

(** A step that settles nothing. *)
Lemma lin_quiet log g ts i t g' t' :
  lin_inv calls limit log g ts -> ts !! i = Some t -> length (ga_buckets g') = 1%nat ->
  gas_left_in g' = gas_left_in g -> call_of t' = call_of t -> decided t' = decided t ->
  lin_inv calls limit log g' (<[i := t']> ts).
Proof.
  intros [L1 L2 L3 L4 L5] Hi H1 Hg Hc Hd. constructor; [done | by rewrite Hg | done | by eapply calls_insert |].
  intros j u ok [(<- & <- & _)|[_ Hj]]%list_lookup_insert_Some; [rewrite Hd|]; by apply L5.
Qed.

(** The step that settles a call enters it in the log. *)
Lemma lin_decides log g ts i t g' t' ok :
  lin_inv calls limit log g ts -> ts !! i = Some t -> length (ga_buckets g') = 1%nat ->
  decided t = None -> decided t' = Some ok -> call_of t' = call_of t ->
  purse (gas_left_in g) (call_of t) ok (gas_left_in g') ->
  lin_inv calls limit (log ++ [(i, ok)]) g' (<[i := t']> ts).
Proof.
  intros [L1 L2 L3 L4 L5] Hi H1 Hn Hd Hc Hp.
  assert (forall ok, (i, ok) ∉ log) as Hnew by (intros o Ho%(L5 i t o Hi); congruence).
  constructor; [done | | | by eapply calls_insert |].
  - eapply purse_serve; [done | | done]. by rewrite <- L4, list_lookup_fmap, Hi.
  - rewrite fmap_app. apply NoDup_app. split_and!; [done | | apply NoDup_singleton].
    intros j ([j' o] & Hj & Ho)%list_elem_of_fmap Hji%list_elem_of_singleton. simpl in Hj. subst j j'. by destruct (Hnew o).
  - intros j u o. rewrite elem_of_app, list_elem_of_singleton.
    intros [(<- & <- & _)|[Hne Hj]]%list_lookup_insert_Some.
    + rewrite Hd. split; [by intros [= ->]; right|]. by intros [?%Hnew|[= ->]].
    + rewrite (L5 j u o Hj). split; [by left|]. by intros [?|[= -> ->]].
Qed.

Lemma lin_step gl log st st' :
  pool_inv gl st.1 st.2 -> lin_inv calls limit log st.1 st.2 -> pool_step st st' ->
  exists later, lin_inv calls limit (log ++ later) st'.1 st'.2.
Proof.
  intros Hp Hv Hs. destruct Hs as [g ts i t g' t' Hi Ht]. simpl in *. pose proof (li_one _ _ _ _ _ Hv) as H1.
  pose proof (pi_threads _ _ _ Hp) as Hts. rewrite Forall_lookup in Hts. specialize (Hts i t Hi).
  assert (forall t', call_of t' = call_of t -> decided t' = decided t ->
    exists later, lin_inv calls limit (log ++ later) g (<[i := t']> ts)) as Hq.
  { intros u Hc Hd. exists []. rewrite app_nil_r. by eapply lin_quiet. }
  destruct (ga_buckets g) as [|bucket [|? ?]] eqn:Hbs; try done.
  assert (gas_left_in g = gb_remaining bucket) as Hl by (unfold gas_left_in; rewrite Hbs; simpl; lia).
  assert (forall f, length (ga_buckets (update_bucket f 0 g)) = 1%nat /\
    gas_left_in (update_bucket f 0 g) = gb_remaining (f bucket)) as Hup.
  { intros f. unfold update_bucket, gas_left_in. simpl. rewrite Hbs. simpl. split; [done | lia]. }
  assert (forall gas, to_refund t = gas -> refunded t = 0 -> 0 <= gas ->
    u64 (gb_remaining bucket + gas) = gb_remaining bucket + gas) as Hrf.
  { intros gas E1 E2 Hg. eapply (refund_fits gl g ts i t 0); [done..|]. by rewrite Hbs. }
  destruct t as [gas|b gas|b gas old|b gas|gas ok|b gas|b gas|b gas cur|b gas|gas|gas]; cbn [tstep thread_ok] in *;
    rewrite ?Hbs in Ht;
    try (destruct Hts as [Hg Hb]; assert (b = 0%nat) as -> by (simpl in Hb; lia); cbn [lookup list_lookup deref mbind res_bind] in Ht).
  - destruct (getBucket_spec g) as (g1 & b & Hg1 & Hbk & _); [by rewrite Hbs|]. rewrite Hg1 in Ht. simplify_eq/=.
    exists []. rewrite app_nil_r. eapply lin_quiet; try done; unfold gas_left_in; by rewrite Hbk, ?Hbs.
  - destruct (Z.ltb_spec (gb_remaining bucket) gas); simplify_eq; [|by apply Hq].
    exists [(i, false)]. eapply lin_decides; try done; [by rewrite Hbs|]. rewrite Hl. by constructor.
  - destruct (Z.eqb_spec (gb_remaining bucket) old); simplify_eq; [|by apply Hq].
    exists [(i, true)]. eapply lin_decides; try done; [apply Hup|]. rewrite Hl, (proj2 (Hup _)). constructor. lia.
  - simplify_eq. exists []. rewrite app_nil_r. eapply lin_quiet; try done; [apply Hup|]. by rewrite Hl, (proj2 (Hup _)).
  - simplify_eq. by apply Hq.
  - destruct ([bucket] !! b) as [bk|]; [destruct (_ =? 0)|]; simplify_eq; by apply Hq.
  - simplify_eq. by apply Hq.
  - destruct (Z.eqb_spec (gb_used bucket) cur); simplify_eq; [|by apply Hq].
    exists []. rewrite app_nil_r. eapply lin_quiet; try done; [apply Hup|]. by rewrite Hl, (proj2 (Hup _)).
  - simplify_eq. exists [(i, true)]. eapply lin_decides; try done; [apply Hup|]. rewrite Hl, (proj2 (Hup _)).
    simpl. rewrite Hrf by done. constructor.
  - cbn [lookup list_lookup deref mbind res_bind] in Ht. simplify_eq. exists [(i, true)].
    eapply lin_decides; try done; [apply Hup|]. rewrite Hl, (proj2 (Hup _)). simpl. rewrite Hrf by done. constructor.
  - simplify_eq. by apply Hq.
Qed.

Lemma lin_steps gl log st st' :
  pool_inv gl st.1 st.2 -> lin_inv calls limit log st.1 st.2 -> pool_steps st st' ->
  exists later, lin_inv calls limit (log ++ later) st'.1 st'.2.
Proof.
  intros Hp Hv Hs. revert log Hv. induction Hs as [st|st1 st2 st3 Hs _ IH]; intros log Hv.
  { exists []. by rewrite app_nil_r. }
  destruct (lin_step gl log st1 st2 Hp Hv Hs) as [l1 H1].
  destruct (IH (pool_step_inv gl st1 st2 Hp Hs) _ H1) as [l2 H2]. exists (l1 ++ l2). by rewrite app_assoc.
Qed.
End Linearisation.

Lemma lin_initial limit ts : is_u64 limit -> Forall initial ts ->
  lin_inv (call_of <$> ts) limit [] (NewAccountant limit) ts.
Proof.
  intros Hl Hts. assert (gas_left_in (NewAccountant limit) = limit) as E.
  { unfold gas_left_in. rewrite NewAccountant_eq by done. simpl. lia. }
  constructor; [by rewrite NewAccountant_eq | rewrite E; constructor | constructor | done |].
  intros i t ok Hi. rewrite Forall_lookup in Hts. specialize (Hts i t Hi). split; [|by intros ?%not_elem_of_nil].
  by destruct t as [| | | | |[] ?| | | | |].
Qed.

(** ** One thread alone *)

(** The thread runs [n] steps with nothing in between. *)
Fixpoint run_thread (n : nat) (g : GasAccountant3D) (t : thread) : res (GasAccountant3D * thread) :=
  match n with
  | O => Ret (g, t)
  | S n => '(g, t) ← tstep g t; run_thread n g t
  end.

Lemma run_thread_done n g t : tstep g t = Ret (g, t) -> run_thread n g t = Ret (g, t).
Proof. intros Ht. induction n as [|n IH]; [done|]. cbn [run_thread]. rewrite Ht. exact IH. Qed.

Lemma update_bucket_twice f1 f2 b g bucket :
  ga_buckets g !! b = Some bucket ->
  update_bucket f2 b (update_bucket f1 b g) = with_buckets (<[b := f2 (f1 bucket)]> (ga_buckets g)) g.
Proof.
  intros Hb. unfold update_bucket, with_buckets. simpl. f_equal.
  rewrite (list_alter_insert f1 _ _ bucket) by done.
  rewrite (list_alter_insert _ _ _ (f1 bucket)) by (apply list_lookup_insert_eq; by eapply lookup_lt_Some).
  apply list_insert_insert_eq.
Qed.

Lemma update_bucket_lookup f b g bucket :
  ga_buckets g !! b = Some bucket -> ga_buckets (update_bucket f b g) !! b = Some (f bucket).
Proof. intros Hb. unfold update_bucket. simpl. by rewrite list_lookup_alter_eq, Hb. Qed.

Lemma run_consume g gas n :
  ga_buckets g <> [] ->
  exists g' e, Consume g gas = Ret (g', e) /\
    run_thread (4 + n) g (CBegin gas) = Ret (g', CDone gas (match e with None => true | Some _ => false end)).
Proof.
  intros Hne. unfold Consume. cbn [run_thread Nat.add tstep].
  destruct (getBucket_spec g Hne) as (g1 & b & -> & Hg & Hb). cbn [mbind res_bind tstep].
  destruct (lookup_lt_is_Some_2 (ga_buckets g) b Hb) as [bucket Hbk]. rewrite <- Hg in Hbk.
  rewrite !Hbk. cbn [mbind res_bind deref]. destruct (Z.ltb_spec (gb_remaining bucket) gas).
  - cbn [mbind res_bind tstep]. eexists _, _. split; [done|]. by rewrite run_thread_done.
  - cbn [mbind res_bind tstep]. rewrite Hbk. cbn [mbind res_bind deref]. rewrite Z.eqb_refl.
    cbn [mbind res_bind tstep]. rewrite (update_bucket_lookup _ _ _ bucket) by done.
    cbn [mbind res_bind deref]. eexists _, None. split; [done|]. rewrite run_thread_done by done.
    by rewrite (update_bucket_twice _ _ _ _ bucket).
Qed.

(** The state after the refund, from the buckets before [d] and the rest [bs]. *)
Definition refund_state (g : GasAccountant3D) (gas : Z) (d bs : list GasBucket) : GasAccountant3D :=
  match refund_used gas bs with
  | Some bs' => with_buckets (d ++ bs') g
  | None => update_bucket (fun b => with_remaining (u64 (gb_remaining b + gas)) b) 0 g
  end.

Lemma run_refund_scan g gas n d bs :
  ga_buckets g = d ++ bs -> ga_buckets g <> [] ->
  run_thread (length bs + 3 + n) g (RScan (length d) gas) = Ret (refund_state g gas d bs, RDone gas).
Proof.
  revert d. induction bs as [|bucket bs IH]; intros d Hg Hne.
  - rewrite app_nil_r in Hg. cbn [length Nat.add run_thread tstep].
    rewrite (lookup_ge_None_2 (ga_buckets g)) by (by rewrite Hg). cbn [mbind res_bind tstep].
    destruct (lookup_lt_is_Some_2 (ga_buckets g) 0) as [b0 H0]; [destruct (ga_buckets g); [done|simpl; lia]|].
    rewrite H0. cbn [deref mbind res_bind tstep]. rewrite run_thread_done by done.
    unfold refund_state. cbn [refund_used]. do 2 f_equal. unfold update_bucket. f_equal.
    by rewrite !(list_alter_insert _ _ _ b0).
  - assert (ga_buckets g !! length d = Some bucket) as Hb by (rewrite Hg; by apply list_lookup_middle).
    cbn [length Nat.add run_thread tstep]. rewrite Hb. cbn [mbind res_bind].
    unfold refund_state. cbn [refund_used]. destruct (Z.eqb_spec (gb_used bucket) 0).
    + replace (S (length d)) with (length (d ++ [bucket])) by (rewrite length_app; simpl; lia).
      cbn [mbind res_bind]. rewrite IH; [|by rewrite <- app_assoc|done]. unfold refund_state.
      destruct (refund_used gas bs); [|done]. simpl. by rewrite <- app_assoc.
    + replace (length bs + 3 + n)%nat with (S (S (S (length bs + n)))) by lia.
      cbn [run_thread mbind res_bind tstep]. rewrite Hb. cbn [deref mbind res_bind tstep].
      rewrite Hb. cbn [deref mbind res_bind tstep]. rewrite Z.eqb_refl. cbn [mbind res_bind tstep].
      rewrite (update_bucket_lookup _ _ _ bucket) by done. cbn [deref mbind res_bind].
      rewrite run_thread_done by done. rewrite (update_bucket_twice _ _ _ _ bucket) by done.
      do 3 f_equal. rewrite Hg, insert_app_r_alt, Nat.sub_diag by lia. done.
Qed.

Lemma run_refund g gas n :
  ga_buckets g <> [] ->
  exists g', Refund g gas = Ret g' /\
    run_thread (length (ga_buckets g) + 3 + n) g (RScan 0 gas) = Ret (g', RDone gas).
Proof.
  intros Hne. pose proof (run_refund_scan g gas n [] (ga_buckets g) eq_refl Hne) as Hrun.
  simpl length in Hrun. rewrite Hrun. clear Hrun. unfold Refund, refund_state. destruct (refund_used gas (ga_buckets g)); [by eexists|].
  unfold update_bucket. destruct (ga_buckets g) as [|b bs] eqn:E; [done|]. by eexists.
Qed.

(** ** Theorems *)

(** C11. Gas is conserved under every interleaving of any number of [Consume] and
    [Refund] calls, one atomic operation at a time: what the buckets hold plus
    what was taken is the limit plus what was given back, so the calls never take
    more than that; no step panics; and, when nobody refunds, the used counters
    add up to the gas of the calls that returned success. *)
Theorem gas_conserved limit ts g' ts' :
  is_u64 limit -> Forall initial ts -> limit + sumZ to_refund ts < 18446744073709551616 ->
  pool_steps (NewAccountant limit, ts) (g', ts') ->
  sumZ gb_remaining (ga_buckets g') + sumZ spent ts' = limit + sumZ refunded ts' /\
  0 <= sumZ spent ts' <= limit + sumZ refunded ts' /\
  (forall t, t ∈ ts' -> exists st, tstep g' t = Ret st) /\
  (Forall (fun t => consumer t = true) ts -> sumZ gb_used (ga_buckets g') = sumZ booked ts').
Proof.
  intros Hl Hts Hb Hs. pose proof (initial_inv limit ts Hl Hts Hb) as Hp0.
  pose proof (pool_steps_inv limit (_, _) (_, _) Hp0 Hs) as Hp. simpl in Hp. pose proof Hp as [P1 P2 P3 P4 P5].
  pose proof (sumZ_nonneg _ _ P2) as Hnn. destruct (thread_sums _ _ P3) as [S1 S2]. split_and!; [lia..| |].
  - intros t [i Hi]%list_elem_of_lookup. destruct (tstep_inv limit g' ts' i t Hp Hi) as (g2 & t2 & -> & _). eauto.
  - intros Hc. assert (used_inv (NewAccountant limit, ts).1 (NewAccountant limit, ts).2) as Hu0.
    { destruct (initial_sums ts Hts) as (_ & _ & E). constructor; [done | |];
        cbn [fst snd]; rewrite NewAccountant_eq by done.
      - by intros b ->%list_elem_of_singleton.
      - simpl. lia. }
    enough (used_inv (g', ts').1 (g', ts').2) as Hu by apply Hu. clear Hp P1 P2 P3 P4 P5 Hnn S1 S2.
    assert (pool_inv limit (NewAccountant limit, ts).1 (NewAccountant limit, ts).2) as Hpi by done.
    clear Hp0 Hts Hb Hc. induction Hs as [st|st st2 st3 Hstep Hs IH]; [done|].
    apply IH; [by eapply used_step | by eapply pool_step_inv].
Qed.

(** Two callers race for 100 units of gas: the second one loads before the first
    one's compare-and-swap, retries, and finds too little. *)
Lemma race_run : exists g', pool_steps (NewAccountant 100, [CBegin 60; CBegin 60]) (g', [CDone 60 true; CDone 60 false]).
Proof.
  eexists. unfold pool_steps.
  eapply rtc_l; [eapply (pool_thread _ _ 0); reflexivity|]. eapply rtc_l; [eapply (pool_thread _ _ 1); reflexivity|].
  eapply rtc_l; [eapply (pool_thread _ _ 0); reflexivity|]. eapply rtc_l; [eapply (pool_thread _ _ 1); reflexivity|].
  eapply rtc_l; [eapply (pool_thread _ _ 0); reflexivity|]. eapply rtc_l; [eapply (pool_thread _ _ 1); reflexivity|].
  eapply rtc_l; [eapply (pool_thread _ _ 1); reflexivity|]. eapply rtc_l; [eapply (pool_thread _ _ 0); reflexivity|].
  apply rtc_refl.
Qed.

Lemma gas_conserved_witness :
  exists g' ts', pool_steps (NewAccountant 100, [CBegin 60; CBegin 60]) (g', ts') /\
    ts' = [CDone 60 true; CDone 60 false] /\
    sumZ gb_remaining (ga_buckets g') + sumZ spent ts' = 100 + sumZ refunded ts'.
Proof.
  destruct race_run as [g' Hs].
  exists g', [CDone 60 true; CDone 60 false]. split; [exact Hs|]. split; [reflexivity|].
  apply (gas_conserved 100 [CBegin 60; CBegin 60]).
  - by vm_compute.
  - repeat constructor; by vm_compute.
  - by vm_compute.
  - exact Hs.
Defined.

(** C25. Gas calls are linearisable: at any moment of any interleaving of the atomic steps
    of any number of [Consume] and [Refund] calls on a new accountant, the gas left is
    what a purse holds that served some of the calls one after the other, paying exactly
    what it could pay; every call that is back has the answer the purse gave it, a call
    that has not begun is not served, no call is served twice, and what was served stays
    served in its place.  (Limit and refunds together stay below 2^64.) *)
Theorem gas_linearizable limit ts st st' :
  is_u64 limit -> Forall initial ts -> limit + sumZ to_refund ts < 18446744073709551616 ->
  pool_steps (NewAccountant limit, ts) st -> pool_steps st st' ->
  exists log later,
    purse_log (call_of <$> ts) limit log (gas_left_in st.1) /\
    purse_log (call_of <$> ts) limit (log ++ later) (gas_left_in st'.1) /\
    NoDup (log ++ later).*1 /\
    (forall i t, st.2 !! i = Some t -> initial t -> i ∉ log.*1) /\
    (forall i gas ok, st.2 !! i = Some (CDone gas ok) -> (i, ok) ∈ log) /\
    (forall i gas, st.2 !! i = Some (RDone gas) -> (i, true) ∈ log) /\
    (forall i gas ok, st'.2 !! i = Some (CDone gas ok) -> (i, ok) ∈ log ++ later) /\
    (forall i gas, st'.2 !! i = Some (RDone gas) -> (i, true) ∈ log ++ later).
Proof.
  intros Hl Hts Hb H1 H2. pose proof (initial_inv limit ts Hl Hts Hb) as Hp0.
  destruct (lin_steps _ limit limit [] (NewAccountant limit, ts) st Hp0 (lin_initial limit ts Hl Hts) H1) as [log V1].
  pose proof (pool_steps_inv limit (NewAccountant limit, ts) st Hp0 H1) as Hp1.
  destruct (lin_steps _ limit limit _ st st' Hp1 V1 H2) as [later V2]. simpl in V1, V2. exists log, later.
  split_and!; [apply V1 | apply V2 | apply V2 | | | | |].
  - intros i t Hi Ht ([j ok] & -> & Ho)%list_elem_of_fmap. apply (li_decided _ _ _ _ _ V1 _ t ok Hi) in Ho.
    by destruct t as [| | | | |[] ?| | | | |].
  - intros i gas ok Hi. by apply (li_decided _ _ _ _ _ V1 i _ ok Hi).
  - intros i gas Hi. by apply (li_decided _ _ _ _ _ V1 i _ true Hi).
  - intros i gas ok Hi. by apply (li_decided _ _ _ _ _ V2 i _ ok Hi).
  - intros i gas Hi. by apply (li_decided _ _ _ _ _ V2 i _ true Hi).
Qed.

(** In the race the purse pays the first caller and then refuses the second. *)
Lemma gas_linearizable_witness :
  exists g' log left, pool_steps (NewAccountant 100, [CBegin 60; CBegin 60]) (g', [CDone 60 true; CDone 60 false]) /\
    purse_log [Pay 60; Pay 60] 100 log left /\ gas_left_in g' = left /\ (0%nat, true) ∈ log /\ (1%nat, false) ∈ log.
Proof.
  destruct race_run as [g' Hs].
  destruct (gas_linearizable 100 [CBegin 60; CBegin 60] (g', [CDone 60 true; CDone 60 false])
    (g', [CDone 60 true; CDone 60 false])) as (log & later & Hlog & _ & _ & _ & Hdone & _).
  - by vm_compute.
  - repeat constructor; by vm_compute.
  - by vm_compute.
  - exact Hs.
  - apply rtc_refl.
  - exists g', log, (gas_left_in g'). split_and!; [exact Hs | exact Hlog | reflexivity | |].
    + exact (Hdone 0%nat 60 true eq_refl).
    + exact (Hdone 1%nat 60 false eq_refl).
Defined.

(** The two translations of the calls agree: left alone, the retry loops do what the sequential operations say: a
    [Consume] finishes within four atomic operations and a [Refund] within the
    number of buckets plus three, with the same accountant and result. *)
Lemma threads_alone g gas n :
  ga_buckets g <> [] ->
  (exists g' e, Consume g gas = Ret (g', e) /\
     run_thread (4 + n) g (CBegin gas) = Ret (g', CDone gas (match e with None => true | Some _ => false end))) /\
  (exists g', Refund g gas = Ret g' /\
     run_thread (length (ga_buckets g) + 3 + n) g (RScan 0 gas) = Ret (g', RDone gas)).
Proof. intros Hne. split; [by apply run_consume | by apply run_refund]. Qed.

(** With a single bucket the round robin always picks it. *)
Lemma Consume_single g b gas :
  ga_buckets g = [b] ->
  exists g', Consume g gas = Ret (g', if gb_remaining b <? gas then Some ErrInsufficientGas else None) /\
    ga_buckets g' = if gb_remaining b <? gas then [b]
      else [with_used (u64 (gb_used b + gas)) (with_remaining (gb_remaining b - gas) b)].
Proof.
  intros Hb. unfold Consume, getBucket. simpl. rewrite Hb. simpl. rewrite Z.mod_1_r. simpl.
  destruct (Z.ltb_spec (gb_remaining b) gas); (eexists; split; [done|]); done.
Qed.

Lemma Used_single g b : ga_buckets g = [b] -> is_u64 (gb_used b) -> Used g = gb_used b.
Proof. intros Hb Hu. unfold Used. rewrite Hb. cbn [foldl]. rewrite Z.add_0_l. by apply u64_small. Qed.

(** C35. [Consume] and [Refund] on the single bucket the constructor makes: a call
    that can be paid moves exactly its gas from remaining to used, one that cannot
    leaves both alone and reports it; a refund adds its whole amount to remaining
    but takes at most what is booked from used, so remaining plus used is
    unchanged exactly when the refund does not exceed what was used. *)
Theorem consume_refund_exact g b gas :
  ga_buckets g = [b] -> is_u64 (gb_used b) -> 0 <= gb_remaining b -> 0 <= gas ->
  gb_remaining b + gb_used b + gas < 18446744073709551616 ->
  (exists g', Consume g gas =
     Ret (g', if gb_remaining b <? gas then Some ErrInsufficientGas else None) /\
     ga_buckets g' = if gb_remaining b <? gas then [b]
       else [with_used (gb_used b + gas) (with_remaining (gb_remaining b - gas) b)]) /\
  (exists g' b', Refund g gas = Ret g' /\ ga_buckets g' = [b'] /\
     gb_remaining b' = gb_remaining b + gas /\ gb_used b' = Z.max 0 (gb_used b - gas) /\
     (gb_remaining b' + gb_used b' = gb_remaining b + gb_used b <-> gas <= gb_used b)).
Proof.
  intros Hb Hu Hr Hg Hlt. unfold is_u64 in Hu. split.
  - destruct (Consume_single g b gas Hb) as (g' & Hc & Hg'). exists g'. split; [done|].
    rewrite Hg', u64_small by (unfold is_u64; lia). done.
  - unfold Refund. rewrite Hb. cbn [refund_used]. rewrite (u64_small (gb_remaining b + gas)) by (unfold is_u64; lia).
    destruct (Z.eqb_spec (gb_used b) 0) as [E|E].
    + simpl. eexists _, _. split_and!; [done | done | done | simpl; lia | simpl; lia].
    + eexists _, _. split_and!; [done | done | done | |]; simpl;
        destruct (Z.leb_spec (gb_used b) gas); lia.
Qed.

Lemma consume_refund_exact_witness :
  exists g' b', Refund (NewAccountant 100) 30 = Ret g' /\ ga_buckets g' = [b'] /\ gb_remaining b' = 130.
Proof.
  destruct (consume_refund_exact (NewAccountant 100) (mkBucket 100 0 0 0) 30) as [_ (g' & b' & H1 & H2 & H3 & _)].
  - vm_compute. reflexivity.
  - by vm_compute.
  - by vm_compute.
  - by vm_compute.
  - by vm_compute.
  - exists g', b'. split; [exact H1|]. split; [exact H2|]. exact H3.
Defined.

Lemma absDiff_abs a b w : 0 <= a < w -> 0 <= b < w ->
  (if a >? b then (a - b) mod w else (b - a) mod w) = Z.abs (a - b).
Proof. intros Ha Hb. rewrite Z.gtb_ltb. case_bool; rewrite Z.mod_small; lia. Qed.

(** C36. The gas of an access is 3 plus the size plus 100, 10 and 1 per unit of X,
    Y and Z distance, as long as the 32-bit base and Y terms and the 64-bit X term
    do not overflow; beyond that the terms wrap: an access of 2^32 - 3 bytes in
    place costs nothing. *)
Theorem calculate_gas_exact from to size :
  addr_ok from -> addr_ok to -> 0 <= size -> 3 + size < 4294967296 ->
  Z.abs (aY from - aY to) * 10 < 4294967296 -> Z.abs (aX from - aX to) < 100000000000000000 ->
  calculateGas from to size =
    3 + size + 100 * Z.abs (aX from - aX to) + 10 * Z.abs (aY from - aY to) + Z.abs (aZ from - aZ to) /\
  calculateGas from from 4294967293 = 0.
Proof.
  intros (F1 & F2 & F3) (T1 & T2 & T3) Hs Hb HY HX. unfold is_u64, is_u32, is_u16 in *. split.
  - unfold calculateGas.
    assert (absDiff64 (aX from) (aX to) = Z.abs (aX from - aX to)) as -> by (by apply absDiff_abs).
    assert (absDiff32 (aY from) (aY to) = Z.abs (aY from - aY to)) as -> by (by apply absDiff_abs).
    assert (absDiff16 (aZ from) (aZ to) = Z.abs (aZ from - aZ to)) as -> by (by apply absDiff_abs).
    cbn [foldl].
    rewrite (u32_small (3 + size)), (u32_small (_ * 10)) by (unfold is_u32; lia).
    rewrite (u64_small (_ * 100)) by (unfold is_u64; lia). 
    rewrite (u64_small (3 + size + Z.abs (aX from - aX to) * 100)) by (unfold is_u64; lia).
    rewrite (u64_small (_ + Z.abs (aY from - aY to) * 10)), u64_small by (unfold is_u64; lia). lia.
  - unfold calculateGas, absDiff64, absDiff32, absDiff16. rewrite !Z.gtb_ltb, !Z.ltb_irrefl, !Z.sub_diag.
    reflexivity.
Qed.

Lemma calculate_gas_exact_witness :
  calculateGas (NewAddress 1 2 3) (NewAddress 2 4 6) 8 = 134.
Proof.
  rewrite (proj1 (calculate_gas_exact (NewAddress 1 2 3) (NewAddress 2 4 6) 8
    ltac:(by vm_compute) ltac:(by vm_compute) ltac:(lia) ltac:(lia) ltac:(by vm_compute) ltac:(by vm_compute))).
  reflexivity.
Defined.
