(* ===== verification/Sha256.v ===== *)
(** * SHA-256, as Go's crypto/sha256 computes it

    [Sum256] on a list of bytes.  The Merkle tree uses it through an interface;
    it is here so that the tree can be evaluated. *)
From S2P Require Import Prelude Words.

(** The constants of the standard, from their definition: the first 32 bits of the
    fractional parts of the cube roots of the first 64 primes, and of the square
    roots of the first eight. *)
Definition is_prime (n : Z) : bool := forallb (fun d => negb (n mod d =? 0)) (seqZ 2 (Z.sqrt n - 1)).
Definition primes : list Z := List.filter is_prime (seqZ 2 310).

(** The largest root of [n] below [r + 2 ^ bits], bit by bit. *)
Fixpoint cube_root (bits : nat) (n r : Z) : Z :=
  match bits with
  | O => r
  | S bits =>
      let r' := r + Z.shiftl 1 (Z.of_nat bits) in
      cube_root bits n (if r' * r' * r' <=? n then r' else r)
  end.

Definition K256 : list Z := Eval vm_compute in (fun p => u32 (cube_root 36 (Z.shiftl p 96) 0)) <$> primes.
Definition H256 : list Z := Eval vm_compute in (fun p => u32 (Z.sqrt (Z.shiftl p 64))) <$> take 8 primes.

Definition rotr (x n : Z) : Z := Z.lor (Z.shiftr x n) (u32 (Z.shiftl x (32 - n))).
Definition not32 (x : Z) : Z := 4294967295 - x.
Definition Ch (x y z : Z) : Z := Z.lxor (Z.land x y) (Z.land (not32 x) z).
Definition Maj (x y z : Z) : Z := Z.lxor (Z.lxor (Z.land x y) (Z.land x z)) (Z.land y z).
Definition Sigma0 (x : Z) : Z := Z.lxor (Z.lxor (rotr x 2) (rotr x 13)) (rotr x 22).
Definition Sigma1 (x : Z) : Z := Z.lxor (Z.lxor (rotr x 6) (rotr x 11)) (rotr x 25).
Definition sigma0 (x : Z) : Z := Z.lxor (Z.lxor (rotr x 7) (rotr x 18)) (Z.shiftr x 3).
Definition sigma1 (x : Z) : Z := Z.lxor (Z.lxor (rotr x 17) (rotr x 19)) (Z.shiftr x 10).

(** The rounds, with the next sixteen words of the schedule in [w]. *)
Fixpoint rounds (ks w st : list Z) : list Z :=
  match ks, w, st with
  | k :: ks, w0 :: w, [a; b; c; d; e; f; g; h] =>
      let t1 := h + Sigma1 e + Ch e f g + k + w0 in
      let t2 := Sigma0 a + Maj a b c in
      let next := u32 (sigma1 (nth 13 w 0) + nth 8 w 0 + sigma0 (nth 0 w 0) + w0) in
      rounds ks (w ++ [next]) [u32 (t1 + t2); a; b; c; u32 (d + t1); e; f; g]
  | _, _, _ => st
  end.

Fixpoint words_of (n : nat) (bs : list Z) : list Z :=
  match n with O => [] | S n => be_val (take 4 bs) :: words_of n (drop 4 bs) end.

Definition compress (st block : list Z) : list Z :=
  zip_with (fun a b => u32 (a + b)) st (rounds K256 (words_of 16 block) st).

Definition pad (msg : list Z) : list Z :=
  let len := Z.of_nat (length msg) in
  msg ++ [128] ++ replicate (Z.to_nat ((55 - len) mod 64)) 0 ++ be_bytes 8 (u64 (8 * len)).

Fixpoint blocks (fuel : nat) (st bs : list Z) : list Z :=
  match fuel, bs with
  | S fuel, _ :: _ => blocks fuel (compress st (take 64 bs)) (drop 64 bs)
  | _, _ => st
  end.

Definition Sum256 (msg : list Z) : list Z :=
  let p := pad msg in blocks (length p) H256 p ≫= be_bytes 4.

(** The published test vectors for the empty string and for "abc". *)
Example Sum256_empty :
  be_val (Sum256 []) = 0xe3b0c44298fc1c149afbf4c8996fb92427ae41e4649b934ca495991b7852b855.
Proof. vm_compute. reflexivity. Qed.

Example Sum256_abc :
  be_val (Sum256 [97; 98; 99]) = 0xba7816bf8f01cfea414140de5dae2223b00361a396177a9cb410ff61f20015ad.
Proof. vm_compute. reflexivity. Qed.

(** ** A digest has 32 bytes *)

Lemma rounds_length ks w st : length st = 8%nat -> length (rounds ks w st) = 8%nat.
Proof.
  revert w st. induction ks as [|k ks IH]; intros w st H; [done|]. cbn [rounds].
  destruct w as [|w0 w]; [done|].
  destruct st as [|a [|b [|c [|d [|e [|f [|g [|h [|? ?]]]]]]]]]; try done. by apply IH.
Qed.

Lemma blocks_length fuel st bs : length st = 8%nat -> length (blocks fuel st bs) = 8%nat.
Proof.
  revert st bs. induction fuel as [|fuel IH]; intros st bs H; [by destruct bs|].
  destruct bs as [|b bs]; [done|]. cbn [blocks]. apply IH. unfold compress.
  rewrite length_zip_with, rounds_length by done. lia.
Qed.

Lemma Sum256_length msg : length (Sum256 msg) = 32%nat.
Proof.
  unfold Sum256. pose proof (blocks_length (length (pad msg)) H256 (pad msg) eq_refl) as H.
  destruct (blocks _ H256 _) as [|a [|b [|c [|d [|e [|f [|g [|h [|? ?]]]]]]]]]; try done.
Qed.

Lemma Sum256_bytes msg : Forall is_u8 (Sum256 msg).
Proof.
  unfold Sum256. induction (blocks _ _ _) as [|w ws IH]; [constructor|]. rewrite bind_cons.
  apply Forall_app. split; [apply be_bytes_range | exact IH].
Qed.
