(* ===== verification/Merkle.v ===== *)
(** * The Merkle tree (internal/merkle/tree.go)

    The hasher is the code's [TreeHasher] interface, here a class; the default
    instance is SHA-256.  A byte slice is the list of its bytes. *)
From S2P Require Import Prelude Words Address Sha256.

Class TreeHasher := {
  Hash : list Z -> list Z;
  CombineHashes : list Z -> list Z -> list Z;
}.

#[export] Instance SHA256Hasher : TreeHasher := {|
  Hash := Sum256;
  CombineHashes := fun left right => Sum256 (left ++ right);
|}.

Record Tree3D := mkTree {
  t3_root : list Z;
  t3_nodeCache : gmap Address3D (list Z);
  t3_updates : Z;
}.

(** The field [hasher] is the instance in scope of the operations: SHA-256 for
    [NewTree3D], whatever it is given for [NewTree3DCustom]. *)
Definition NewTree3D : Tree3D := {| t3_root := replicate 32 0; t3_nodeCache := ∅; t3_updates := 0 |}.
Definition NewTree3DCustom `{TreeHasher} : Tree3D :=
  {| t3_root := replicate 32 0; t3_nodeCache := ∅; t3_updates := 0 |}.

Definition recomputeRoot `{GoRuntime} `{TreeHasher} (t : Tree3D) : Tree3D :=
  let root :=
    if Z.of_nat (size (t3_nodeCache t)) =? 0 then replicate 32 0
    else foldl (fun root addr => match t3_nodeCache t !! addr with
                                 | Some hash => CombineHashes root hash
                                 | None => root
                                 end) (replicate 32 0) (rt_range 0 (t3_nodeCache t)) in
  {| t3_root := root; t3_nodeCache := t3_nodeCache t; t3_updates := t3_updates t |}.

Definition Update `{GoRuntime} `{TreeHasher} (t : Tree3D) (addr : Address3D) (data : list Z) : Tree3D :=
  let nodeHash := Hash data in
  let t := {| t3_root := t3_root t; t3_nodeCache := <[addr := nodeHash]> (t3_nodeCache t);
              t3_updates := t3_updates t |} in
  let t := recomputeRoot t in
  {| t3_root := t3_root t; t3_nodeCache := t3_nodeCache t; t3_updates := u64 (t3_updates t + 1) |}.

Definition GetRoot (t : Tree3D) : list Z := t3_root t.

Definition GenerateProof (t : Tree3D) (addr : Address3D) : list (list Z) :=
  match t3_nodeCache t !! addr with Some hash => [hash] | None => [] end.

(** The byte-by-byte comparison of two slices of equal length. *)
Fixpoint same_bytes (expectedHash actualHash : list Z) : bool :=
  match expectedHash, actualHash with
  | [], _ => true
  | _ :: _, [] => true
  | x :: xs, y :: ys => if negb (x =? y) then false else same_bytes xs ys
  end.

Definition VerifyProof `{TreeHasher} (t : Tree3D) (addr : Address3D) (proof : list (list Z)) (data : list Z)
    : bool :=
  match proof with
  | [] => false
  | actualHash :: _ =>
      let expectedHash := Hash data in
      if negb (Z.of_nat (length expectedHash) =? Z.of_nat (length actualHash)) then false
      else same_bytes expectedHash actualHash
  end.

Definition GetStatistics (t : Tree3D) : Z * Z * list Z :=
  (t3_updates t, Z.of_nat (size (t3_nodeCache t)), t3_root t).

Definition Clear (t : Tree3D) : Tree3D := NewTree3D.

(** ** Theory *)

Lemma same_bytes_spec xs ys :
  length xs = length ys -> same_bytes xs ys = bool_decide (xs = ys).
Proof.
  revert ys. induction xs as [|x xs IH]; intros [|y ys] Hl; simplify_eq/=; [done|].
  destruct (Z.eqb_spec x y) as [->|Hne]; simpl.
  - rewrite IH by done. apply bool_decide_ext. split; [by intros ->|by intros [= ->]].
  - symmetry. apply bool_decide_eq_false. congruence.
Qed.

(** A proof is accepted exactly when its first element is the hash of the data. *)
Lemma VerifyProof_spec `{TreeHasher} t addr proof data :
  VerifyProof t addr proof data = bool_decide (head proof = Some (Hash data)).
Proof.
  unfold VerifyProof. destruct proof as [|p proof]; [done|]. simpl head.
  destruct (Z.eqb_spec (Z.of_nat (length (Hash data))) (Z.of_nat (length p))) as [Hl|Hl]; simpl.
  - rewrite same_bytes_spec by lia. apply bool_decide_ext. split; [by intros ->|by intros [= ->]].
  - symmetry. apply bool_decide_eq_false. intros [= ->]. done.
Qed.

(** A root that follows a given order of the cached nodes. *)
Definition root_along `{TreeHasher} (m : gmap Address3D (list Z)) (keys : list Address3D) : list Z :=
  foldl (fun root addr => match m !! addr with Some hash => CombineHashes root hash | None => root end)
    (replicate 32 0) keys.

Lemma size_zero_range `{GoRuntime} (m : gmap Address3D (list Z)) :
  Z.of_nat (size m) = 0 -> rt_range 0 m = [].
Proof.
  intros Hs. assert (m = ∅) as -> by (apply map_size_empty_inv; lia).
  apply Permutation_nil. by rewrite rt_range_perm, map_to_list_empty.
Qed.

(** The operations of a history. *)
Inductive tree_op := OpUpdate (addr : Address3D) (data : list Z) | OpClear.

Definition tree_apply `{GoRuntime} `{TreeHasher} (t : Tree3D) (o : tree_op) : Tree3D :=
  match o with OpUpdate addr data => Update t addr data | OpClear => Clear t end.

Definition tree_run `{GoRuntime} `{TreeHasher} (ops : list tree_op) : Tree3D := foldl tree_apply NewTree3DCustom ops.

(** The data last written at an address since the last [Clear]. *)
Definition last_write (ops : list tree_op) (addr : Address3D) : option (list Z) :=
  foldl (fun acc o => match o with
    | OpUpdate a data => if decide (a = addr) then Some data else acc
    | OpClear => None
    end) None ops.

Lemma tree_run_snoc `{GoRuntime} `{TreeHasher} ops o : tree_run (ops ++ [o]) = tree_apply (tree_run ops) o.
Proof. unfold tree_run. by rewrite foldl_app. Qed.

Lemma tree_run_cache `{GoRuntime} `{TreeHasher} ops addr :
  t3_nodeCache (tree_run ops) !! addr = Hash <$> last_write ops addr.
Proof.
  induction ops as [|o ops IH] using rev_ind; [by vm_compute|].
  rewrite tree_run_snoc. unfold last_write. rewrite foldl_app. fold (last_write ops addr).
  destruct o as [a data|]; simpl; [|apply lookup_empty]. destruct (decide (a = addr)) as [->|Hne].
  - by rewrite lookup_insert_eq.
  - by rewrite lookup_insert_ne.
Qed.

(** The root follows the run time's iteration over the cache. *)
Lemma tree_run_root `{GoRuntime} `{TreeHasher} ops :
  t3_root (tree_run ops) = root_along (t3_nodeCache (tree_run ops)) (rt_range 0 (t3_nodeCache (tree_run ops))).
Proof.
  assert (forall t, t3_root (recomputeRoot t) = root_along (t3_nodeCache t) (rt_range 0 (t3_nodeCache t))) as Hre.
  { intros t. unfold recomputeRoot. simpl. destruct (Z.eqb_spec (Z.of_nat (size (t3_nodeCache t))) 0) as [Hz|]; [|done].
    by rewrite (size_zero_range _ Hz). }
  assert (forall t, t3_nodeCache t = ∅ -> t3_root t = replicate 32 0 ->
    t3_root t = root_along (t3_nodeCache t) (rt_range 0 (t3_nodeCache t))) as Hemp.
  { intros t -> ->. by rewrite size_zero_range by (by rewrite map_size_empty). }
  destruct ops as [|[a data|] ops _] using rev_ind; [by apply Hemp | | rewrite tree_run_snoc; by apply Hemp].
  rewrite tree_run_snoc. simpl tree_apply. unfold Update. cbn [t3_root t3_nodeCache]. by rewrite Hre.
Qed.

Lemma root_along_writes `{GoRuntime} `{TreeHasher} ops keys :
  root_along (t3_nodeCache (tree_run ops)) keys =
    foldl CombineHashes (replicate 32 0) (omap (fun a => Hash <$> last_write ops a) keys).
Proof.
  unfold root_along. generalize (replicate 32 0).
  induction keys as [|a keys IH]; intros root; [done|]. cbn [foldl omap list_omap]. rewrite IH, tree_run_cache.
  by destruct (Hash <$> last_write ops a).
Qed.

(** The keys of the cache are the addresses written. *)
Lemma cache_keys `{GoRuntime} `{TreeHasher} ops addr :
  addr ∈ (map_to_list (t3_nodeCache (tree_run ops))).*1 <-> is_Some (last_write ops addr).
Proof.
  rewrite <- (fmap_is_Some Hash), <- tree_run_cache. split.
  - intros ([a v] & -> & Hin)%list_elem_of_fmap. apply elem_of_map_to_list in Hin. simpl. eauto.
  - intros [v Hv]. apply list_elem_of_fmap. exists (addr, v). split; [done|]. by apply elem_of_map_to_list.
Qed.

(** Every order of the written addresses is the order of some run time. *)
Lemma root_of_order `{TreeHasher} ops keys :
  NoDup keys -> (forall addr, addr ∈ keys <-> is_Some (last_write ops addr)) ->
  exists rt, GetRoot (@tree_run rt _ ops) =
    foldl CombineHashes (replicate 32 0) (omap (fun a => Hash <$> last_write ops a) keys).
Proof.
  intros Hnd Hkeys. exists (runtime_along 0 (encode <$> keys)). unfold GetRoot. rewrite tree_run_root, root_along_writes.
  cbn [rt_range runtime_along]. rewrite range_along_keys; [done|].
  apply NoDup_Permutation; [done | apply NoDup_fst_map_to_list |]. intros addr. by rewrite cache_keys.
Qed.

(** *** Histories at other addresses *)

Definition rename (f : Address3D -> Address3D) (o : tree_op) : tree_op :=
  match o with OpUpdate addr data => OpUpdate (f addr) data | OpClear => OpClear end.

Lemma last_write_rename f `{!Inj (=) (=) f} ops addr :
  last_write (rename f <$> ops) (f addr) = last_write ops addr.
Proof.
  induction ops as [|o ops IH] using rev_ind; [done|]. unfold last_write. rewrite fmap_app, !foldl_app.
  fold (last_write (rename f <$> ops) (f addr)) (last_write ops addr). rewrite IH. destruct o as [a d|]; [|done]. simpl.
  destruct (decide (a = addr)) as [->|Hne]; [by rewrite decide_True|].
  rewrite decide_False; [done|]. by intros ?%(inj f).
Qed.

Lemma written_rename f ops addr :
  is_Some (last_write (rename f <$> ops) addr) -> exists a, addr = f a.
Proof.
  induction ops as [|o ops IH] using rev_ind; [by intros [? ?]|]. unfold last_write. rewrite fmap_app, foldl_app.
  fold (last_write (rename f <$> ops) addr). destruct o as [a d|]; simpl; [|by intros [? ?]].
  destruct (decide (f a = addr)) as [<-|]; [eauto | done].
Qed.

(** Written at other addresses, the same blocks can have the same root. *)
Lemma root_rename `{rt0 : GoRuntime} `{TreeHasher} f `{!Inj (=) (=) f} ops :
  exists rt, GetRoot (@tree_run rt _ (rename f <$> ops)) = GetRoot (@tree_run rt0 _ ops).
Proof.
  set (keys := rt_range 0 (t3_nodeCache (tree_run ops))).
  assert (forall addr, addr ∈ keys <-> is_Some (last_write ops addr)) as Hkeys.
  { intros addr. unfold keys. rewrite rt_range_perm. apply cache_keys. }
  destruct (root_of_order (rename f <$> ops) (f <$> keys)) as [rt Hrt].
  - apply NoDup_fmap_2; [done|]. unfold keys. rewrite rt_range_perm. apply NoDup_fst_map_to_list.
  - intros addr. rewrite list_elem_of_fmap. split.
    + intros (a & -> & Ha%Hkeys). by rewrite last_write_rename.
    + intros Hw. destruct (written_rename f ops addr Hw) as [a ->]. rewrite last_write_rename in Hw by done.
      exists a. split; [done|]. by apply Hkeys.
  - exists rt. rewrite Hrt. unfold GetRoot. rewrite tree_run_root, root_along_writes. fold keys. f_equal.
    clearbody keys. clear Hkeys Hrt. induction keys as [|a keys IH]; [done|]. rewrite fmap_cons.
    cbn [omap list_omap]. by rewrite (last_write_rename f), IH.
Qed.

(** Each order of two blocks gives a root. *)
Lemma roots_of_two `{TreeHasher} a1 a2 d1 d2 : a1 <> a2 ->
  let ops := [OpUpdate a1 d1; OpUpdate a2 d2] in
  (exists rt, GetRoot (@tree_run rt _ ops) = CombineHashes (CombineHashes (replicate 32 0) (Hash d1)) (Hash d2)) /\
  (exists rt, GetRoot (@tree_run rt _ ops) = CombineHashes (CombineHashes (replicate 32 0) (Hash d2)) (Hash d1)).
Proof.
  intros Hne ops. assert (last_write ops a1 = Some d1 /\ last_write ops a2 = Some d2) as [E1 E2].
  { unfold last_write, ops. simpl. rewrite !(decide_True _ _ eq_refl), (decide_False (P := a2 = a1)) by done. done. }
  assert (forall addr, addr = a1 \/ addr = a2 <-> is_Some (last_write ops addr)) as Hw.
  { intros addr. split; [intros [->| ->]; rewrite ?E1, ?E2; eauto|]. unfold last_write, ops. simpl.
    destruct (decide (a2 = addr)) as [->|]; [by right|]. destruct (decide (a1 = addr)) as [->|]; [by left|].
    by intros [? ?]. }
  split.
  - destruct (root_of_order ops [a1; a2]) as [rt Hrt].
    + apply NoDup_cons. split; [by intros ?%list_elem_of_singleton | apply NoDup_singleton].
    + intros addr. rewrite <- Hw, elem_of_cons, list_elem_of_singleton. done.
    + exists rt. rewrite Hrt. simpl. by rewrite E1, E2.
  - destruct (root_of_order ops [a2; a1]) as [rt Hrt].
    + apply NoDup_cons. split; [by intros ?%list_elem_of_singleton | apply NoDup_singleton].
    + intros addr. rewrite <- Hw, elem_of_cons, list_elem_of_singleton. tauto.
    + exists rt. rewrite Hrt. simpl. by rewrite E1, E2.
Qed.

(** ** Theorems *)

(** C23. Proofs are complete and, up to hash collisions, bind the data: after any
    history of updates and clears, an address that was written has a one-element
    proof which verifies for the data last written there; it verifies for other
    data only if the two have the same hash.  An address that was not written has
    the empty proof, which verifies for nothing. *)
Theorem proof_complete_and_binding `{GoRuntime} `{TreeHasher} ops addr data :
  let t := tree_run ops in
  match last_write ops addr with
  | Some d => GenerateProof t addr = [Hash d] /\ VerifyProof t addr (GenerateProof t addr) d = true /\
      (VerifyProof t addr (GenerateProof t addr) data = true <-> Hash data = Hash d)
  | None => GenerateProof t addr = [] /\ VerifyProof t addr (GenerateProof t addr) data = false
  end.
Proof.
  intros t. unfold GenerateProof, t. rewrite tree_run_cache.
  destruct (last_write ops addr) as [d|]; rewrite ?VerifyProof_spec; simpl; [|done]. split_and!; [done | by apply bool_decide_eq_true |].
  rewrite bool_decide_eq_true. split; [by intros [= ->]|by intros ->].
Qed.

(** The root after any history combines the hashes of the addresses last
    written, each exactly once, starting from 32 zero bytes, in the order in which
    the run time iterates over the node cache. *)
Theorem root_combines_all `{GoRuntime} `{TreeHasher} ops :
  exists keys, NoDup keys /\
    (forall addr, addr ∈ keys <-> is_Some (last_write ops addr)) /\
    GetRoot (tree_run ops) =
      foldl CombineHashes (replicate 32 0) (omap (fun a => Hash <$> last_write ops a) keys).
Proof.
  exists (rt_range 0 (t3_nodeCache (tree_run ops))). split_and!.
  - rewrite rt_range_perm. apply NoDup_fst_map_to_list.
  - intros addr. rewrite rt_range_perm. apply cache_keys.
  - unfold GetRoot. by rewrite tree_run_root, root_along_writes.
Qed.

(** C37. The tree does not authenticate: a verifier accepts a proof made from the data
    alone for any address of any tree; addresses do not enter the root: whatever root a
    history has, the same history at other addresses (renamed by any injection) has it
    too, for some order in which the run time iterates over the node cache, and for a
    single block in every order; and the root is not a function of the content: two
    blocks whose hashes do not combine to the same value in both orders have two roots,
    as SHA-256 on one-byte blocks shows. *)
Theorem merkle_does_not_authenticate :
  (forall `{TreeHasher} (t : Tree3D) addr data, VerifyProof t addr [Hash data] data = true) /\
  (forall `{TreeHasher} rt0 f ops, Inj (=) (=) f ->
     exists rt, GetRoot (@tree_run rt _ (rename f <$> ops)) = GetRoot (@tree_run rt0 _ ops)) /\
  (forall `{GoRuntime} `{TreeHasher} a1 a2 data,
     GetRoot (tree_run [OpUpdate a1 data]) = GetRoot (tree_run [OpUpdate a2 data])) /\
  (forall `{TreeHasher} a1 a2 d1 d2, a1 <> a2 ->
     CombineHashes (CombineHashes (replicate 32 0) (Hash d1)) (Hash d2) <>
     CombineHashes (CombineHashes (replicate 32 0) (Hash d2)) (Hash d1) ->
     exists rt1 rt2, GetRoot (@tree_run rt1 _ [OpUpdate a1 d1; OpUpdate a2 d2]) <>
                     GetRoot (@tree_run rt2 _ [OpUpdate a1 d1; OpUpdate a2 d2])) /\
  GetRoot (@tree_run (runtime_fwd 0) _ [OpUpdate (NewAddress 2 0 0) [1]; OpUpdate (NewAddress 2 0 1) [2]]) <>
  GetRoot (@tree_run (runtime_rev 0) _ [OpUpdate (NewAddress 2 0 0) [1]; OpUpdate (NewAddress 2 0 1) [2]]).
Proof.
  split_and!.
  - intros Hh t addr data. rewrite VerifyProof_spec. by apply bool_decide_eq_true.
  - intros Hh rt0 f ops Hf. by apply root_rename.
  - intros Hrt Hh a1 a2 data.
    assert (forall a, GetRoot (tree_run [OpUpdate a data]) = CombineHashes (replicate 32 0) (Hash data)) as E.
    { intros a. unfold GetRoot. rewrite tree_run_root, root_along_writes.
      pose proof (rt_range_perm 0 (t3_nodeCache (tree_run [OpUpdate a data]))) as Hp. simpl in Hp.
      rewrite map_to_list_insert in Hp by apply lookup_empty. rewrite map_to_list_empty in Hp.
      apply Permutation_singleton_r in Hp. simpl in Hp |- *. rewrite Hp. unfold last_write. simpl.
      by rewrite decide_True. }
    by rewrite !E.
  - intros Hh a1 a2 d1 d2 Ha Hne. destruct (roots_of_two a1 a2 d1 d2 Ha) as [[rt1 E1] [rt2 E2]].
    exists rt1, rt2. by rewrite E1, E2.
  - intros E. apply (f_equal (fun l => nth 0 l 0)) in E. revert E. vm_compute. discriminate.
Qed.
