(* ===== verification/Spatial.v ===== *)
(** * The spatial cache (internal/vm/spatial.go)

    The cache maps addresses to elements of a doubly linked list.  Elements are
    objects with an identity: one that was removed from the list is still
    reachable from the map, so they live in a store of their own. *)
From S2P Require Import Prelude Words Address.

(** ** container/list *)

(** Elements of the list, front first.  [Remove] and [MoveToFront] do nothing to
    an element that is no longer in the list. *)
Definition list_Remove (e : Z) (ll : list Z) : list Z :=
  List.filter (fun x => negb (x =? e)) ll.

Definition list_MoveToFront (e : Z) (ll : list Z) : list Z :=
  if existsb (fun x => x =? e) ll then e :: list_Remove e ll else ll.

(** ** The cache *)

Record SpatialCache := mkCache {
  sc_cache : gmap Address3D Z;
  sc_elems : gmap Z (list Z); (* the data of every element ever made *)
  sc_next : Z; (* the next element *)
  sc_ll : list Z;
  sc_capacity : Z;
  sc_prefetchWindow : Z;
  sc_prefetchQueue : list (list Address3D);
}.

Definition NewSpatialCache : SpatialCache :=
  {| sc_cache := ∅; sc_elems := ∅; sc_next := 0; sc_ll := []; sc_capacity := 1000;
     sc_prefetchWindow := 64; sc_prefetchQueue := [] |}.

Definition with_list (cache : gmap Address3D Z) (elems : gmap Z (list Z)) (next : Z) (ll : list Z)
    (c : SpatialCache) : SpatialCache :=
  {| sc_cache := cache; sc_elems := elems; sc_next := next; sc_ll := ll; sc_capacity := sc_capacity c;
     sc_prefetchWindow := sc_prefetchWindow c; sc_prefetchQueue := sc_prefetchQueue c |}.

(** A miss also starts [prefetchSpatial] on a goroutine of its own; the caller
    does not wait for it. *)
Definition Cache_Get (c : SpatialCache) (addr : Address3D) : res (SpatialCache * option (list Z)) :=
  match sc_cache c !! addr with
  | None => Ret (c, None)
  | Some elem =>
      let c := with_list (sc_cache c) (sc_elems c) (sc_next c) (list_MoveToFront elem (sc_ll c)) c in
      data ← deref (sc_elems c !! elem);
      Ret (c, Some data)
  end.

Definition Put (c : SpatialCache) (addr : Address3D) (data : list Z) : SpatialCache :=
  match sc_cache c !! addr with
  | Some elem =>
      with_list (sc_cache c) (<[elem := data]> (sc_elems c)) (sc_next c) (list_MoveToFront elem (sc_ll c)) c
  | None =>
      let elem := sc_next c in
      let ll := elem :: sc_ll c in
      let cache := <[addr := elem]> (sc_cache c) in
      let ll := if (sc_capacity c <? Z.of_nat (length ll)) then removelast ll else ll in
      with_list cache (<[elem := data]> (sc_elems c)) (elem + 1) ll c
  end.

Definition Invalidate (c : SpatialCache) (addr : Address3D) : SpatialCache :=
  match sc_cache c !! addr with
  | None => c
  | Some elem => with_list (delete addr (sc_cache c)) (sc_elems c) (sc_next c) (list_Remove elem (sc_ll c)) c
  end.

(** ** Prefetching *)

(** [for x := x; x <= hi; x++] on integers modulo [m]; [None] when the fuel ends
    before the loop does. *)
Fixpoint count_loop {A} (fuel : nat) (m x hi : Z) (body : A -> Z -> option A) (a : A) : option A :=
  match fuel with
  | O => None
  | S fuel =>
      if hi <? x then Some a
      else match body a x with
           | None => None
           | Some a => count_loop fuel m ((x + 1) mod m) hi body a
           end
  end.

(** One address: append it, and send the batch when it is long enough and the
    queue, which holds ten batches, has room. *)
Definition prefetch_one (st : list (list Address3D) * list Address3D) (addr : Address3D)
    : list (list Address3D) * list Address3D :=
  let '(queue, addrs) := st in
  let addrs := addrs ++ [addr] in
  if 64 <=? Z.of_nat (length addrs) then
    if Z.of_nat (length queue) <? 10 then (queue ++ [addrs], []) else (queue, addrs)
  else (queue, addrs).

Definition prefetchSpatial (fuel : nat) (c : SpatialCache) (center : Address3D)
    : option (list (list Address3D) * list Address3D) :=
  let w := sc_prefetchWindow c in
  let minX := u64 (aX center - w) in
  let maxX := u64 (aX center + w) in
  let minY := u32 (aY center - w) in
  let maxY := u32 (aY center + w) in
  let minZ := u16 (Z.max 0 (aZ center - w)) in
  let maxZ := u16 (Z.min 65535 (aZ center + w)) in
  count_loop fuel 18446744073709551616 minX maxX (fun st x =>
    count_loop fuel 4294967296 minY maxY (fun st y =>
      count_loop fuel 65536 minZ maxZ (fun st z =>
        Some (prefetch_one st (NewAddress x y z))) st) st)
    (sc_prefetchQueue c, []).

(** ** Loops *)

Section Loops.
Context {A : Type} (m hi : Z).

(** A loop whose upper bound is the largest value of its type never ends. *)
Lemma count_loop_diverges fuel x (body : A -> Z -> option A) a :
  hi = m - 1 -> 0 <= x < m -> count_loop fuel m x hi body a = None.
Proof.
  intros Hhi. revert x a. induction fuel as [|fuel IH]; intros x a Hx; [done|]. cbn [count_loop].
  destruct (Z.ltb_spec hi x); [lia|]. destruct (body a x); [|done]. apply IH, Z.mod_pos_bound. lia.
Qed.

(** Nor does a loop whose first round does not end. *)
Lemma count_loop_stuck fuel x (body : A -> Z -> option A) a :
  x <= hi -> body a x = None -> count_loop fuel m x hi body a = None.
Proof.
  intros Hx Hb. destruct fuel; [done|]. cbn [count_loop]. destruct (Z.ltb_spec hi x); [lia|]. by rewrite Hb.
Qed.

Lemma count_loop_empty fuel x (body : A -> Z -> option A) a :
  hi < x -> (0 < fuel)%nat -> count_loop fuel m x hi body a = Some a.
Proof.
  intros Hx Hf. destruct fuel; [lia|]. cbn [count_loop]. by destruct (Z.ltb_spec hi x); [|lia].
Qed.

(** Otherwise it runs over the values from [x] to [hi]. *)
Lemma count_loop_seq (f : A -> Z -> A) (body : A -> Z -> option A) fuel x a :
  (forall a y, body a y = Some (f a y)) ->
  0 <= x -> x <= hi + 1 -> hi < m - 1 -> hi - x + 1 < Z.of_nat fuel ->
  count_loop fuel m x hi body a = Some (foldl f a (seqZ x (hi - x + 1))).
Proof.
  intros Hb. revert x a. induction fuel as [|fuel IH]; intros x a H0 H1 Hm Hf; [lia|]. cbn [count_loop].
  destruct (Z.ltb_spec hi x).
  - assert (hi - x + 1 = 0) as -> by lia. done.
  - rewrite Hb, Z.mod_small by lia. rewrite IH by lia. rewrite (seqZ_cons x (hi - x + 1)) by lia. simpl.
    by replace (hi - (x + 1) + 1) with (Z.pred (hi - x + 1)) by lia.
Qed.
End Loops.

(** ** The cache against a map *)

Record cache_inv (c : SpatialCache) : Prop := {
  ci_elem : forall a e, sc_cache c !! a = Some e -> is_Some (sc_elems c !! e) /\ e < sc_next c;
  ci_inj : forall a b e, sc_cache c !! a = Some e -> sc_cache c !! b = Some e -> a = b;
  ci_ll : (length (sc_ll c) <= Z.to_nat (sc_capacity c))%nat;
  ci_nodup : NoDup (sc_ll c);
  ci_fresh : Forall (fun e => e < sc_next c) (sc_ll c);
}.

(** The data the cache holds for an address. *)
Definition view (c : SpatialCache) (addr : Address3D) : option (list Z) :=
  e ← sc_cache c !! addr; sc_elems c !! e.

Lemma elem_list_Remove e x ll : x ∈ list_Remove e ll <-> x ∈ ll /\ x <> e.
Proof. unfold list_Remove. rewrite !list_elem_of_In, filter_In. rewrite negb_true_iff, Z.eqb_neq. done. Qed.

Lemma list_Remove_nodup e ll : NoDup ll -> NoDup (list_Remove e ll).
Proof. intros H. apply NoDup_ListNoDup. by apply List.NoDup_filter, NoDup_ListNoDup. Qed.

Lemma list_Remove_length e ll : (length (list_Remove e ll) <= length ll)%nat.
Proof. unfold list_Remove. apply List.filter_length_le. Qed.

Lemma list_Remove_length_lt e ll : e ∈ ll -> (length (list_Remove e ll) < length ll)%nat.
Proof.
  unfold list_Remove. induction ll as [|x ll IH]; [by intros ?%not_elem_of_nil|].
  pose proof (list_Remove_length e ll) as Hle. unfold list_Remove in Hle. simpl.
  intros [->|Hin]%elem_of_cons; [rewrite Z.eqb_refl; simpl; lia|].
  specialize (IH Hin). destruct (negb (x =? e)); simpl; lia.
Qed.

Lemma MoveToFront_ok e ll n (P : Z -> Prop) :
  NoDup ll -> (length ll <= n)%nat -> Forall P ll ->
  NoDup (list_MoveToFront e ll) /\ (length (list_MoveToFront e ll) <= n)%nat /\ Forall P (list_MoveToFront e ll).
Proof.
  intros Hnd Hl Hp. unfold list_MoveToFront. destruct (existsb _ ll) eqn:E; [|done].
  apply existsb_exists in E as (x & Hx & ->%Z.eqb_eq). rewrite <- list_elem_of_In in Hx.
  pose proof (list_Remove_length_lt e ll Hx). rewrite Forall_forall in Hp. split_and!.
  - constructor; [|by apply list_Remove_nodup]. rewrite elem_list_Remove. tauto.
  - simpl. lia.
  - constructor; [by apply Hp|]. apply Forall_forall. intros y Hy%elem_list_Remove. apply Hp. tauto.
Qed.

Lemma removelast_app_inv {A} (l : list A) : l <> [] -> exists x, l = removelast l ++ [x].
Proof.
  intros Hne. destruct l as [|y l _] using rev_ind; [done|]. exists y. by rewrite removelast_last.
Qed.

Lemma Put_inv c addr data : 0 < sc_capacity c -> cache_inv c -> cache_inv (Put c addr data).
Proof.
  intros Hcap [I1 I2 I3 I4 I5]. unfold Put. destruct (sc_cache c !! addr) as [e|] eqn:E.
  - destruct (MoveToFront_ok e (sc_ll c) _ _ I4 I3 I5) as (? & ? & ?). constructor; simpl; try done.
    intros a e' Ha. destruct (I1 a e' Ha) as [? ?]. split; [|done].
    destruct (decide (e' = e)) as [->|]; [rewrite lookup_insert_eq; eauto | by rewrite lookup_insert_ne].
  - assert (NoDup (sc_next c :: sc_ll c)) as Hnd.
    { constructor; [|done]. intros Hin. rewrite Forall_forall in I5. apply I5 in Hin. lia. }
    assert (Forall (fun e => e < sc_next c + 1) (sc_next c :: sc_ll c)) as Hfr.
    { constructor; [lia|]. eapply Forall_impl; [exact I5|]. simpl. lia. }
    destruct (removelast_app_inv (sc_next c :: sc_ll c)) as [x Hx]; [done|].
    constructor; cbn [sc_cache sc_elems sc_next sc_ll sc_capacity with_list].
    + intros a e' Ha. apply lookup_insert_Some in Ha as [[_ <-]|[_ Ha]].
      * rewrite lookup_insert_eq. split; [eauto | lia].
      * destruct (I1 a e' Ha) as [? ?]. rewrite lookup_insert_ne by lia. split; [done | lia].
    + intros a b e' Ha Hb. apply lookup_insert_Some in Ha as [[<- <-]|[? Ha]], Hb as [[<- Hb]|[? Hb]]; try done.
      * apply I1 in Hb as [_ ?]. lia.
      * subst e'. apply I1 in Ha as [_ ?]. lia.
      * by eapply I2.
    + destruct (Z.ltb_spec (sc_capacity c) (Z.of_nat (length (sc_next c :: sc_ll c)))) as [Hgt|]; [|lia].
      apply (f_equal length) in Hx. rewrite length_app in Hx. simpl length in *. lia.
    + destruct (_ <? _); [|done]. rewrite Hx in Hnd. by apply NoDup_app in Hnd as (? & _).
    + destruct (_ <? _); [|done]. rewrite Hx in Hfr. by apply Forall_app in Hfr as [? _].
Qed.

Lemma Put_capacity c addr data : sc_capacity (Put c addr data) = sc_capacity c.
Proof. unfold Put. by destruct (sc_cache c !! addr). Qed.

Lemma Invalidate_capacity c addr : sc_capacity (Invalidate c addr) = sc_capacity c.
Proof. unfold Invalidate. by destruct (sc_cache c !! addr). Qed.

Lemma Put_view c addr data a :
  cache_inv c -> view (Put c addr data) a = if decide (a = addr) then Some data else view c a.
Proof.
  intros [I1 I2 I3 I4 I5]. unfold Put, view. destruct (sc_cache c !! addr) as [e|] eqn:E; simpl.
  - destruct (decide (a = addr)) as [->|Hne]; [rewrite E; simpl; by rewrite lookup_insert_eq|].
    destruct (sc_cache c !! a) as [e'|] eqn:E'; [|done]. simpl. rewrite lookup_insert_ne; [done|].
    intros ->. apply Hne. by eapply I2.
  - destruct (decide (a = addr)) as [->|Hne]; [rewrite lookup_insert_eq; simpl; by rewrite lookup_insert_eq|].
    rewrite lookup_insert_ne by done. destruct (sc_cache c !! a) as [e'|] eqn:E'; [|done]. simpl.
    apply I1 in E' as [_ ?]. by rewrite lookup_insert_ne by lia.
Qed.

Lemma Invalidate_inv c addr : cache_inv c -> cache_inv (Invalidate c addr).
Proof.
  intros [I1 I2 I3 I4 I5]. unfold Invalidate. destruct (sc_cache c !! addr) as [e|] eqn:E; [|done].
  constructor; simpl.
  - intros a e' Ha. apply lookup_delete_Some in Ha as [_ Ha]. by eapply I1.
  - intros a b e' Ha Hb. apply lookup_delete_Some in Ha as [_ Ha], Hb as [_ Hb]. by eapply I2.
  - pose proof (list_Remove_length e (sc_ll c)). lia.
  - by apply list_Remove_nodup.
  - apply Forall_forall. intros x [Hx _]%elem_list_Remove. rewrite Forall_forall in I5. by apply I5.
Qed.

Lemma Invalidate_view c addr a :
  view (Invalidate c addr) a = if decide (a = addr) then None else view c a.
Proof.
  unfold Invalidate, view. destruct (sc_cache c !! addr) as [e|] eqn:E; simpl.
  - destruct (decide (a = addr)) as [->|Hne]; [by rewrite lookup_delete_eq|]. by rewrite lookup_delete_ne.
  - destruct (decide (a = addr)) as [->|Hne]; [by rewrite E | done].
Qed.

Lemma Cache_Get_spec c addr : cache_inv c ->
  exists c', Cache_Get c addr = Ret (c', view c addr) /\ cache_inv c' /\ (forall a, view c' a = view c a) /\
    sc_cache c' = sc_cache c /\ sc_capacity c' = sc_capacity c.
Proof.
  intros Hi. pose proof Hi as [I1 I2 I3 I4 I5]. unfold Cache_Get, view.
  destruct (sc_cache c !! addr) as [e|] eqn:E; [|by exists c].
  destruct (I1 addr e E) as [[d Hd] _]. simpl. rewrite Hd. simpl. eexists. split; [done|].
  destruct (MoveToFront_ok e (sc_ll c) _ _ I4 I3 I5) as (? & ? & ?). split; [by constructor|]. done.
Qed.

(** *** Histories *)

Inductive cache_op := CacheGet (addr : Address3D) | CachePut (addr : Address3D) (data : list Z)
  | CacheInvalidate (addr : Address3D).

Definition cache_apply (c : SpatialCache) (o : cache_op) : SpatialCache :=
  match o with
  | CacheGet addr => match Cache_Get c addr with Ret (c, _) => c | _ => c end
  | CachePut addr data => Put c addr data
  | CacheInvalidate addr => Invalidate c addr
  end.

Definition cache_run (ops : list cache_op) : SpatialCache := foldl cache_apply NewSpatialCache ops.

(** The specification: a map that forgets nothing. *)
Definition spec_apply (m : gmap Address3D (list Z)) (o : cache_op) : gmap Address3D (list Z) :=
  match o with
  | CacheGet _ => m
  | CachePut addr data => <[addr := data]> m
  | CacheInvalidate addr => delete addr m
  end.

Definition spec_run (ops : list cache_op) : gmap Address3D (list Z) := foldl spec_apply ∅ ops.

Lemma cache_run_spec ops :
  cache_inv (cache_run ops) /\ sc_capacity (cache_run ops) = 1000 /\
  forall a, view (cache_run ops) a = spec_run ops !! a.
Proof.
  induction ops as [|o ops (Hi & Hc & Hv)] using rev_ind.
  { split_and!; [|done|]; [|intros a; by vm_compute]. change (cache_run []) with NewSpatialCache.
    constructor; simpl; [intros ??; by rewrite lookup_empty | intros ???; by rewrite lookup_empty | lia | constructor..]. }
  unfold cache_run, spec_run. rewrite !foldl_app. simpl. fold (cache_run ops) (spec_run ops).
  destruct o as [addr|addr data|addr]; simpl.
  - destruct (Cache_Get_spec (cache_run ops) addr Hi) as (c' & -> & Hi' & Hv' & _ & Hc').
    split_and!; [done | congruence|]. intros a. by rewrite Hv', Hv.
  - split_and!; [apply Put_inv; [lia|done] | unfold Put; by destruct (_ !! addr) |].
    intros a. rewrite Put_view by done. rewrite Hv. destruct (decide (a = addr)) as [->|].
    + by rewrite lookup_insert_eq.
    + by rewrite lookup_insert_ne.
  - split_and!; [by apply Invalidate_inv | unfold Invalidate; by destruct (_ !! addr) |].
    intros a. rewrite Invalidate_view, Hv. destruct (decide (a = addr)) as [->|].
    + by rewrite lookup_delete_eq.
    + by rewrite lookup_delete_ne.
Qed.

(** ** Theorems *)

(** C22. The cache is a refinement of a map that never forgets: after any sequence
    of lookups, insertions and invalidations, a lookup returns exactly what was
    last put under the address and not invalidated since, also for entries that
    the eviction took off the list.  The list keeps within its 1000 entries, but
    the map of addresses, from which nothing is evicted, has one entry for every
    address of the specification. *)
Theorem cache_refines_map ops addr :
  (exists c', Cache_Get (cache_run ops) addr = Ret (c', spec_run ops !! addr)) /\
  (length (sc_ll (cache_run ops)) <= 1000)%nat /\
  size (sc_cache (cache_run ops)) = size (spec_run ops).
Proof.
  destruct (cache_run_spec ops) as (Hi & Hc & Hv). split_and!.
  - destruct (Cache_Get_spec _ addr Hi) as (c' & -> & _). exists c'. by rewrite Hv.
  - pose proof (ci_ll _ Hi) as Hl. rewrite Hc in Hl. lia.
  - rewrite <- !size_dom. f_equal. apply set_eq. intros a. rewrite !elem_of_dom, <- Hv. unfold view.
    destruct (sc_cache (cache_run ops) !! a) as [e|] eqn:E; simpl.
    + destruct (ci_elem _ Hi a e E) as [[d ->] _]. split; eauto.
    + done.
Qed.

(** Whether the whole search box of an address lies strictly inside its type. *)
Definition box_inside (center : Address3D) : Prop :=
  64 <= aX center < 18446744073709551551 /\ 64 <= aY center < 4294967231.

(** C38. Prefetching around an address inside the address space ends unless the
    box reaches the last offset: then the loop over Z, whose counter wraps from
    65535 to 0, never ends, whatever the fuel.  When X is below 64 the lower bound
    wraps above the upper one and nothing at all is prefetched. *)
Theorem prefetch_termination c center fuel :
  sc_prefetchWindow c = 64 -> addr_ok center -> (130 < fuel)%nat ->
  (aX center < 64 -> prefetchSpatial fuel c center = Some (sc_prefetchQueue c, [])) /\
  (box_inside center -> aZ center < 65471 -> is_Some (prefetchSpatial fuel c center)) /\
  (box_inside center -> 65471 <= aZ center -> forall n, prefetchSpatial n c center = None).
Proof.
  intros Hw (HX & HY & HZ) Hf. unfold is_u64, is_u32, is_u16 in *. unfold prefetchSpatial. rewrite Hw. split_and!.
  - intros Hx. apply count_loop_empty; [|lia].
    rewrite (u64_small (aX center + 64)) by (unfold is_u64; lia). unfold u64.
    rewrite <- (Z_mod_plus_full (aX center - 64) 1), Z.mod_small by lia. lia.
  - intros [Bx By] Hz. unfold u64, u32, u16. rewrite !Z.mod_small by lia.
    erewrite (count_loop_seq _ _ _ _ _ _ _); [eauto| |lia..]. intros st x.
    erewrite (count_loop_seq _ _ _ _ _ _ _); [reflexivity| |lia..]. intros st' y.
    erewrite (count_loop_seq _ _ _ _ _ _ _); [reflexivity| |lia..]. reflexivity.
  - intros [Bx By] Hz n. unfold u64, u32, u16. rewrite !Z.mod_small by lia.
    apply count_loop_stuck; [lia|]. apply count_loop_stuck; [lia|]. apply count_loop_diverges; lia.
Qed.

Lemma prefetch_termination_witness :
  prefetchSpatial 200 NewSpatialCache (NewAddress 2 0 0) = Some ([], []) /\
  prefetchSpatial 1000 NewSpatialCache (NewAddress 100 100 65500) = None.
Proof.
  split.
  - apply (prefetch_termination NewSpatialCache (NewAddress 2 0 0) 200).
    + reflexivity.
    + by vm_compute.
    + lia.
    + simpl. lia.
  - apply (prefetch_termination NewSpatialCache (NewAddress 100 100 65500) 200).
    + reflexivity.
    + by vm_compute.
    + lia.
    + unfold box_inside. simpl. lia.
    + simpl. lia.
Defined.
