(* ===== verification/Registers.v ===== *)
(** * The register file (internal/vm/registers.go)

    A register holds a byte slice.  The slices are never written in place by the
    VM, so a register is the list of its bytes. *)
From S2P Require Import Prelude Words Address Errors.
From stdpp Require Import strings.
#[local] Open Scope Z_scope.

Definition R0 : Z := 0.
Definition R1 : Z := 1.
Definition R2 : Z := 2.
Definition R3 : Z := 3.
Definition R4 : Z := 4.
Definition R5 : Z := 5.
Definition R6 : Z := 6.
Definition R7 : Z := 7.
Definition R8 : Z := 8.
Definition R9 : Z := 9.
Definition R10 : Z := 10.
Definition R11 : Z := 11.
Definition R12 : Z := 12.
Definition R13 : Z := 13.
Definition R14 : Z := 14.
Definition R15 : Z := 15.

(** The numbers after the general registers: [Get] and [Set] refuse them. *)
Definition SP : Z := 16.
Definition BP : Z := 17.
Definition PC : Z := 18.
Definition GP : Z := 19.
Definition MP : Z := 20.

Record Registers := mkRegisters {
  General : list (list Z); (* sixteen *)
  Special : list Z; (* five *)
  addrCache : gmap Address3D (list Z);
}.

Definition NewRegisters : Registers :=
  {| General := replicate 16 []; Special := replicate 5 0; addrCache := ∅ |}.

Definition uint64ToBytes (v : Z) : list Z := be_bytes 8 v.

Definition bytesToUint64 (b : list Z) : Z :=
  if Z.of_nat (length b) <? 8 then 0 else be_val (slice 0 8 b).

Definition Reg_Get (r : Registers) (reg : Z) : list Z :=
  if reg <=? R15 then default [] (General r !! Z.to_nat reg) else [].

Definition Reg_Set (r : Registers) (reg : Z) (value : list Z) : Registers :=
  if reg <=? R15 then
    {| General := <[Z.to_nat reg := value]> (General r); Special := Special r; addrCache := addrCache r |}
  else r.

Definition GetUint64 (r : Registers) (reg : Z) : Z :=
  if reg <=? R15 then
    let g := default [] (General r !! Z.to_nat reg) in
    if 8 <=? Z.of_nat (length g) then bytesToUint64 (slice 0 8 g) else 0
  else 0.

Definition SetUint64 (r : Registers) (reg value : Z) : Registers :=
  if reg <=? R15 then
    {| General := <[Z.to_nat reg := uint64ToBytes value]> (General r); Special := Special r;
       addrCache := addrCache r |}
  else r.

Definition GetAddress (r : Registers) (reg : Z) : error + Address3D :=
  let data := Reg_Get r reg in
  if negb (Z.of_nat (length data) =? 14) then inl (ErrText "invalid address length")
  else match FromBytes data with
       | Some addr => inr addr
       | None => inl (ErrAddressLength (Z.of_nat (length data)))
       end.

Definition SetAddress (r : Registers) (reg : Z) (addr : Address3D) : Registers := Reg_Set r reg (Bytes addr).

(** ** Theory *)

Definition regs_ok (r : Registers) : Prop := length (General r) = 16%nat /\ length (Special r) = 5%nat.

Lemma NewRegisters_ok : regs_ok NewRegisters.
Proof. done. Qed.

Lemma Reg_Set_ok r reg v : regs_ok r -> regs_ok (Reg_Set r reg v).
Proof. unfold regs_ok, Reg_Set. destruct (reg <=? R15); [|done]. simpl. by rewrite length_insert. Qed.

Lemma SetUint64_Set r reg v : SetUint64 r reg v = Reg_Set r reg (uint64ToBytes v).
Proof. done. Qed.

Lemma Reg_Get_Set r reg reg' v :
  regs_ok r -> 0 <= reg -> 0 <= reg' ->
  Reg_Get (Reg_Set r reg v) reg' =
    if decide (reg' = reg /\ reg <= R15) then v else Reg_Get r reg'.
Proof.
  intros [Hl _] H0 H0'. unfold Reg_Get, Reg_Set, R15 in *.
  destruct (Z.leb_spec reg 15) as [Hr|Hr]; simpl; cycle 1.
  { destruct (decide _) as [[? ?]|]; [lia|done]. }
  destruct (Z.leb_spec reg' 15) as [Hr'|Hr']; cycle 1.
  { destruct (decide _) as [[? ?]|]; [lia|done]. }
  destruct (decide _) as [[-> _]|Hne].
  - rewrite list_lookup_insert_eq by (rewrite Hl; lia). done.
  - rewrite list_lookup_insert_ne; [done|]. intros E. apply Hne. split; lia.
Qed.

Lemma slice_full {A} (l : list A) n : length l = n -> slice 0 n l = l.
Proof. intros <-. unfold slice. rewrite Nat.sub_0_r. simpl. apply firstn_all. Qed.

Lemma bytesToUint64_bytes v : is_u64 v -> bytesToUint64 (uint64ToBytes v) = v.
Proof.
  intros Hv. unfold bytesToUint64, uint64ToBytes. rewrite slice_full by apply be_bytes_length.
  rewrite be_bytes_length, be_val_bytes. simpl. by apply Z.mod_small.
Qed.

Lemma GetUint64_Get r reg :
  GetUint64 r reg = let g := Reg_Get r reg in if 8 <=? Z.of_nat (length g) then bytesToUint64 (slice 0 8 g) else 0.
Proof. unfold GetUint64, Reg_Get. by destruct (reg <=? R15). Qed.

(** C39. The register file: writing a general register and reading it back gives
    the value, as bytes, as a 64-bit number and as an address; no other register
    changes; writes to register numbers above 15, the
    special registers among them, are ignored and reads of them are empty. *)
Theorem registers_roundtrip r reg reg' v addr data :
  regs_ok r -> 0 <= reg -> 0 <= reg' -> is_u64 v -> addr_ok addr ->
  Reg_Get (Reg_Set r reg data) reg' = (if decide (reg' = reg /\ reg <= R15) then data else Reg_Get r reg') /\
  (reg <= R15 -> GetUint64 (SetUint64 r reg v) reg = v) /\
  (reg <= R15 -> GetAddress (SetAddress r reg addr) reg = inr addr) /\
  (R15 < reg -> Reg_Set r reg data = r /\ SetUint64 r reg v = r /\ Reg_Get r reg = [] /\ GetUint64 r reg = 0) /\
  Forall (fun special => R15 < special) [SP; BP; PC; GP; MP].
Proof.
  intros Hok H0 H0' Hv Ha. split_and!.
  - by apply Reg_Get_Set.
  - intros Hr. rewrite SetUint64_Set, GetUint64_Get. cbv zeta. rewrite Reg_Get_Set by done.
    destruct (decide _) as [_|[]]; [|done]. unfold uint64ToBytes at 1. rewrite be_bytes_length. simpl.
    rewrite slice_full by apply be_bytes_length. by apply bytesToUint64_bytes.
  - intros Hr. unfold GetAddress, SetAddress. rewrite Reg_Get_Set by done.
    destruct (decide _) as [_|[]]; [|done]. rewrite Bytes_length.
    change (negb (Z.of_nat 14 =? 14)) with false. cbv iota. by rewrite FromBytes_Bytes.
  - intros Hr. unfold Reg_Set, SetUint64, Reg_Get, GetUint64. destruct (Z.leb_spec reg R15); [lia|done].
  - repeat (apply Forall_cons; split); [by vm_compute..|apply Forall_nil_2].
Qed.

Lemma registers_roundtrip_witness :
  GetUint64 (SetUint64 NewRegisters 3 258) 3 = 258 /\
  GetAddress (SetAddress NewRegisters 3 (NewAddress 2 0 40)) 3 = inr (NewAddress 2 0 40).
Proof.
  destruct (registers_roundtrip NewRegisters 3 3 258 (NewAddress 2 0 40) []) as (_ & H1 & H2 & _).
  - apply NewRegisters_ok.
  - lia.
  - lia.
  - by vm_compute.
  - by vm_compute.
  - split; [apply H1 | apply H2]; by vm_compute.
Defined.
