(* ===== verification/Instructions.v ===== *)
(** * Instructions (internal/vm/opcodes.go, instructions.go)

    The decoder works on the exact bytes of one instruction.  An operand's value
    is an [interface{}]; its dynamic type is the constructor. *)
From S2P Require Import Prelude Words Address Errors Registers.
From stdpp Require Import strings.
#[local] Open Scope Z_scope.

Definition OP_NOP : Z := 0x00.
Definition OP_MLOAD3D : Z := 0x10.
Definition OP_MSTORE3D : Z := 0x11.
Definition OP_MALLOC3D : Z := 0x12.
Definition OP_MFREE3D : Z := 0x13.
Definition OP_MCOPY3D : Z := 0x14.
Definition OP_MSIZE3D : Z := 0x15.
Definition OP_MQUERY3D : Z := 0x16.
Definition OP_MCOMPACT3D : Z := 0x17.
Definition OP_MDEFRAG3D : Z := 0x18.
Definition OP_MLOADBATCH3D : Z := 0x19.
Definition OP_MSTOREBATCH3D : Z := 0x1A.
Definition OP_MGAS3D : Z := 0x1B.
Definition OP_MREFUND3D : Z := 0x1C.
Definition OP_JUMP3D : Z := 0x20.
Definition OP_CALL3D : Z := 0x21.
Definition OP_RET3D : Z := 0x22.
Definition OP_MOV3D : Z := 0x30.
Definition OP_ADD3D : Z := 0x31.
Definition OP_SUB3D : Z := 0x32.
Definition OP_HALT3D : Z := 0xFF.

Inductive OperandType := OT_IMMEDIATE | OT_REGISTER | OT_ADDRESS | OT_ADDRESS_OFFSET | OT_SIZE | OT_FLAGS.

Inductive value :=
| VAddress (a : Address3D)
| VUint32 (n : Z)
| VRegister (r : Z)
| VRegionType (t : Z)
| VFlags (f : Z)
| VByte (b : Z).

Record Operand := mkOperand { op_Type : OperandType; op_Value : value }.

Record Instruction3D := mkInstruction {
  in_Opcode : Z; in_Operands : list Operand; in_Size : Z; in_PC : Z; in_GasLimit : Z }.

(** [data[i]]; the decoders check the length first. *)
Definition byte_at (data : list Z) (i : nat) : Z := default 0 (data !! i).

(** The address operand at offset 1: X on 8 bytes, Y on 4, Z on 2. *)
Definition address_at (data : list Z) : Address3D :=
  NewAddress (be_val (slice 1 9 data)) (be_val (slice 9 13 data)) (be_val (slice 13 15 data)).

(** [opcode(1)][destReg(1)][srcReg1(1)][srcReg2(1)] *)
Definition decodeSub3D (data : list Z) : error + Instruction3D :=
  if negb (Z.of_nat (length data) =? 4) then inl (ErrText "SUB3D requires 4 bytes")
  else
    let srcType1 := byte_at data 2 in
    let srcType2 := byte_at data 3 in
    let destType := byte_at data 1 in
    inr {| in_Opcode := OP_SUB3D; in_Operands := [mkOperand OT_REGISTER (VRegister destType);
      mkOperand OT_REGISTER (VRegister srcType1); mkOperand OT_REGISTER (VRegister srcType2)]; in_Size := 4; in_PC := 0; in_GasLimit := 0 |}.

(** [opcode(1)][destReg(1)][srcReg1(1)][srcReg2(1)] *)
Definition decodeAdd3D (data : list Z) : error + Instruction3D :=
  if negb (Z.of_nat (length data) =? 4) then inl (ErrText "ADD3D requires 4 bytes")
  else
    let srcType1 := byte_at data 2 in
    let srcType2 := byte_at data 3 in
    let destType := byte_at data 1 in
    inr {| in_Opcode := OP_ADD3D; in_Operands := [mkOperand OT_REGISTER (VRegister destType);
      mkOperand OT_REGISTER (VRegister srcType1); mkOperand OT_REGISTER (VRegister srcType2)]; in_Size := 4; in_PC := 0; in_GasLimit := 0 |}.

(** [opcode(1)][srcX(8)][srcY(2)][srcZ(2)][dstX(4)][dstY(2)][size(1)] *)
Definition decodeMCopy3D (data : list Z) : error + Instruction3D :=
  if negb (Z.of_nat (length data) =? 20) then inl (ErrText "MCOPY3D requires 20 bytes")
  else
    let srcX := be_val (slice 1 9 data) in
    let srcY := be_val (slice 9 11 data) in
    let srcZ := be_val (slice 11 13 data) in
    let dstX := be_val (slice 13 17 data) in
    let dstY := be_val (slice 17 19 data) in
    let size := byte_at data 19 in
    inr {| in_Opcode := OP_MCOPY3D; in_Operands := [mkOperand OT_ADDRESS (VAddress (NewAddress srcX srcY srcZ));
      mkOperand OT_ADDRESS (VAddress (NewAddress dstX dstY 0)); mkOperand OT_SIZE (VUint32 size)]; in_Size := 20; in_PC := 0; in_GasLimit := 0 |}.

(** [opcode(1)][x(8)][y(4)][z(2)] *)
Definition decodeMFree3D (data : list Z) : error + Instruction3D :=
  if negb (Z.of_nat (length data) =? 15) then inl (ErrText "MFREE3D requires 15 bytes")
  else
    inr {| in_Opcode := OP_MFREE3D; in_Operands := [mkOperand OT_ADDRESS (VAddress (address_at data))]; in_Size := 15; in_PC := 0; in_GasLimit := 0 |}.

(** [opcode(1)][size(4)][regionType(1)][flags(1)][destReg(1)][padding(6)] *)
Definition decodeMAlloc3D (data : list Z) : error + Instruction3D :=
  if negb (Z.of_nat (length data) =? 14) then inl (ErrText "MALLOC3D requires 14 bytes")
  else
    let size := be_val (slice 1 5 data) in
    let regionType := byte_at data 5 in
    let flags := byte_at data 6 in
    inr {| in_Opcode := OP_MALLOC3D; in_Operands := [mkOperand OT_SIZE (VUint32 size);
      mkOperand OT_FLAGS (VRegionType regionType); mkOperand OT_FLAGS (VFlags flags)]; in_Size := 14; in_PC := 0; in_GasLimit := 0 |}.

(** [opcode(1)][x(8)][y(4)][z(2)][size(4)][reg(1)] *)
Definition decodeMLoad3D (data : list Z) : error + Instruction3D :=
  if negb (Z.of_nat (length data) =? 20) then inl (ErrText "MLOAD3D requires 20 bytes")
  else
    let size := be_val (slice 15 19 data) in
    let reg := byte_at data 19 in
    inr {| in_Opcode := OP_MLOAD3D; in_Operands := [mkOperand OT_ADDRESS (VAddress (address_at data));
      mkOperand OT_SIZE (VUint32 size); mkOperand OT_REGISTER (VRegister reg)]; in_Size := 20; in_PC := 0; in_GasLimit := 0 |}.

(** [opcode(1)][x(8)][y(4)][z(2)][reg(1)][size(4)] *)
Definition decodeMStore3D (data : list Z) : error + Instruction3D :=
  if negb (Z.of_nat (length data) =? 20) then inl (ErrText "MSTORE3D requires 20 bytes")
  else
    let reg := byte_at data 15 in
    let size := be_val (slice 16 20 data) in
    inr {| in_Opcode := OP_MSTORE3D; in_Operands := [mkOperand OT_ADDRESS (VAddress (address_at data));
      mkOperand OT_REGISTER (VRegister reg); mkOperand OT_SIZE (VUint32 size)]; in_Size := 20; in_PC := 0; in_GasLimit := 0 |}.

(** [opcode(1)][destReg(1)][srcReg(1)][padding(5)] *)
Definition decodeMov3D (data : list Z) : error + Instruction3D :=
  if negb (Z.of_nat (length data) =? 8) then inl (ErrText "MOV3D requires 8 bytes")
  else
    let destReg := byte_at data 1 in
    let srcReg := byte_at data 2 in
    inr {| in_Opcode := OP_MOV3D; in_Operands := [mkOperand OT_REGISTER (VRegister destReg);
      mkOperand OT_REGISTER (VRegister srcReg)]; in_Size := 8; in_PC := 0; in_GasLimit := 0 |}.

(** [opcode(1)][x(8)][y(4)][z(2)][destReg(1)] *)
Definition decodeMSize3D (data : list Z) : error + Instruction3D :=
  if negb (Z.of_nat (length data) =? 16) then inl (ErrText "MSIZE3D requires 16 bytes")
  else
    let destReg := byte_at data 15 in
    inr {| in_Opcode := OP_MSIZE3D; in_Operands := [mkOperand OT_ADDRESS (VAddress (address_at data));
      mkOperand OT_REGISTER (VRegister destReg)]; in_Size := 16; in_PC := 0; in_GasLimit := 0 |}.

Definition DecodeInstruction (data : list Z) : error + Instruction3D :=
  match data with
  | [] => inl (ErrText "empty instruction")
  | opcode :: _ =>
      if opcode =? OP_MLOAD3D then decodeMLoad3D data
      else if opcode =? OP_MSTORE3D then decodeMStore3D data
      else if opcode =? OP_MALLOC3D then decodeMAlloc3D data
      else if opcode =? OP_MFREE3D then decodeMFree3D data
      else if opcode =? OP_MCOPY3D then decodeMCopy3D data
      else if opcode =? OP_ADD3D then decodeAdd3D data
      else if opcode =? OP_SUB3D then decodeSub3D data
      else if opcode =? OP_MOV3D then decodeMov3D data
      else if opcode =? OP_MSIZE3D then decodeMSize3D data
      else if opcode =? OP_NOP then
        inr {| in_Opcode := OP_NOP; in_Operands := []; in_Size := 1; in_PC := 0; in_GasLimit := 0 |}
      else if opcode =? OP_HALT3D then
        inr {| in_Opcode := OP_HALT3D; in_Operands := []; in_Size := 1; in_PC := 0; in_GasLimit := 0 |}
      else inl (ErrUnknownOpcode opcode)
  end.

(** ** Assembly *)

(** The instructions a program can contain, with the fields of their encodings. *)
Inductive asm :=
| ILoad (a : Address3D) (size reg : Z)
| IStore (a : Address3D) (reg size : Z)
| IAlloc (size regionType flags : Z)
| IFree (a : Address3D)
| ICopy (src dst : Address3D) (size : Z)
| IAdd (dest src1 src2 : Z)
| ISub (dest src1 src2 : Z)
| IMov (dest src : Z)
| ISize (a : Address3D) (dest : Z)
| INop
| IHalt.

#[export] Instance asm_eq_dec : EqDecision asm.
Proof. solve_decision. Defined.

(** The fields fit their encodings; MCOPY has 16 bits for Y, and for the
    destination 32 bits for X and none for Z. *)
Definition asm_ok (i : asm) : Prop :=
  match i with
  | ILoad a size reg => addr_ok a /\ is_u32 size /\ is_u8 reg
  | IStore a reg size => addr_ok a /\ is_u8 reg /\ is_u32 size
  | IAlloc size rt flags => is_u32 size /\ is_u8 rt /\ is_u8 flags
  | IFree a => addr_ok a
  | ICopy src dst size => (is_u64 (aX src) /\ is_u16 (aY src) /\ is_u16 (aZ src)) /\
      (is_u32 (aX dst) /\ is_u16 (aY dst) /\ aZ dst = 0) /\ is_u8 size
  | IAdd d s1 s2 | ISub d s1 s2 => is_u8 d /\ is_u8 s1 /\ is_u8 s2
  | IMov d s => is_u8 d /\ is_u8 s
  | ISize a d => addr_ok a /\ is_u8 d
  | INop | IHalt => True
  end.

Definition address_bytes (a : Address3D) : list Z :=
  be_bytes 8 (aX a) ++ be_bytes 4 (aY a) ++ be_bytes 2 (aZ a).

Definition encode (i : asm) : list Z :=
  match i with
  | ILoad a size reg => [OP_MLOAD3D] ++ address_bytes a ++ be_bytes 4 size ++ [reg]
  | IStore a reg size => [OP_MSTORE3D] ++ address_bytes a ++ [reg] ++ be_bytes 4 size
  | IAlloc size rt flags => [OP_MALLOC3D] ++ be_bytes 4 size ++ [rt; flags] ++ replicate 7 0
  | IFree a => [OP_MFREE3D] ++ address_bytes a
  | ICopy src dst size => [OP_MCOPY3D] ++ be_bytes 8 (aX src) ++ be_bytes 2 (aY src) ++ be_bytes 2 (aZ src) ++
      be_bytes 4 (aX dst) ++ be_bytes 2 (aY dst) ++ [size]
  | IAdd d s1 s2 => [OP_ADD3D; d; s1; s2]
  | ISub d s1 s2 => [OP_SUB3D; d; s1; s2]
  | IMov d s => [OP_MOV3D; d; s] ++ replicate 5 0
  | ISize a d => [OP_MSIZE3D] ++ address_bytes a ++ [d]
  | INop => [OP_NOP]
  | IHalt => [OP_HALT3D]
  end.

(** The instruction an encoding stands for. *)
Definition instr_of (i : asm) : Instruction3D :=
  let mk op args size := {| in_Opcode := op; in_Operands := args; in_Size := size; in_PC := 0; in_GasLimit := 0 |} in
  let addr a := mkOperand OT_ADDRESS (VAddress a) in
  let reg r := mkOperand OT_REGISTER (VRegister r) in
  let sz n := mkOperand OT_SIZE (VUint32 n) in
  match i with
  | ILoad a size r => mk OP_MLOAD3D [addr a; sz size; reg r] 20
  | IStore a r size => mk OP_MSTORE3D [addr a; reg r; sz size] 20
  | IAlloc size rt flags =>
      mk OP_MALLOC3D [sz size; mkOperand OT_FLAGS (VRegionType rt); mkOperand OT_FLAGS (VFlags flags)] 14
  | IFree a => mk OP_MFREE3D [addr a] 15
  | ICopy src dst size => mk OP_MCOPY3D [addr src; addr dst; sz size] 20
  | IAdd d s1 s2 => mk OP_ADD3D [reg d; reg s1; reg s2] 4
  | ISub d s1 s2 => mk OP_SUB3D [reg d; reg s1; reg s2] 4
  | IMov d s => mk OP_MOV3D [reg d; reg s] 8
  | ISize a d => mk OP_MSIZE3D [addr a; reg d] 16
  | INop => mk OP_NOP [] 1
  | IHalt => mk OP_HALT3D [] 1
  end.

Lemma be_val_slice pre n v post lo hi :
  length pre = lo -> hi = (lo + n)%nat -> 0 <= v < 256 ^ Z.of_nat n ->
  be_val (slice lo hi (pre ++ be_bytes n v ++ post)) = v.
Proof.
  intros Hl -> Hv. unfold slice. rewrite drop_app_length' by done.
  replace (lo + n - lo)%nat with n by lia. rewrite take_app_length' by (by rewrite be_bytes_length).
  rewrite be_val_bytes. by apply Z.mod_small.
Qed.

Lemma address_at_bytes op a post : addr_ok a -> address_at ([op] ++ address_bytes a ++ post) = a.
Proof.
  intros (Hx & Hy & Hz). unfold address_at, address_bytes. destruct a as [x y z]. cbn [aX aY aZ] in *. f_equal.
  - by apply (be_val_slice [op] 8 x (be_bytes 4 y ++ be_bytes 2 z ++ post)).
  - by apply (be_val_slice ([op] ++ be_bytes 8 x) 4 y (be_bytes 2 z ++ post)).
  - by apply (be_val_slice ([op] ++ be_bytes 8 x ++ be_bytes 4 y) 2 z post).
Qed.

(** Enter the decoder of one opcode, whose length check succeeds. *)
Ltac enter_decoder dec n :=
  match goal with |- DecodeInstruction ?d = ?r =>
    change (dec d = r); unfold dec;
    change (negb (Z.of_nat (length d) =? n)) with false; cbv iota zeta end.

Lemma decode_copy src dst size : asm_ok (ICopy src dst size) ->
  DecodeInstruction (encode (ICopy src dst size)) = inr (instr_of (ICopy src dst size)).
Proof.
  intros ((Hx & Hy & Hz) & (Hdx & Hdy & Hdz) & Hs). destruct src as [x y z], dst as [dx dy dz].
  cbn [aX aY aZ] in *. subst dz. enter_decoder decodeMCopy3D 20.
  set (data := encode _). set (op := [OP_MCOPY3D]).
  assert (be_val (slice 1 9 data) = x) as ->
    by (by apply (be_val_slice op 8 x (be_bytes 2 y ++ be_bytes 2 z ++ be_bytes 4 dx ++ be_bytes 2 dy ++ [size]))).
  assert (be_val (slice 9 11 data) = y) as ->
    by (by apply (be_val_slice (op ++ be_bytes 8 x) 2 y (be_bytes 2 z ++ be_bytes 4 dx ++ be_bytes 2 dy ++ [size]))).
  assert (be_val (slice 11 13 data) = z) as ->
    by (by apply (be_val_slice (op ++ be_bytes 8 x ++ be_bytes 2 y) 2 z (be_bytes 4 dx ++ be_bytes 2 dy ++ [size]))).
  assert (be_val (slice 13 17 data) = dx) as ->
    by (by apply (be_val_slice (op ++ be_bytes 8 x ++ be_bytes 2 y ++ be_bytes 2 z) 4 dx (be_bytes 2 dy ++ [size]))).
  assert (be_val (slice 17 19 data) = dy) as ->
    by (by apply (be_val_slice (op ++ be_bytes 8 x ++ be_bytes 2 y ++ be_bytes 2 z ++ be_bytes 4 dx) 2 dy [size])).
  reflexivity.
Qed.

Lemma decode_encode i : asm_ok i -> DecodeInstruction (encode i) = inr (instr_of i).
Proof.
  destruct i as [a size reg|a reg size|size rt flags|a|src dst size|d s1 s2|d s1 s2|d s|a d| |]; intros Hok;
    try reflexivity.
  - destruct Hok as (Ha & Hs & Hr). enter_decoder decodeMLoad3D 20. set (data := encode _).
    assert (address_at data = a) as -> by (by apply (address_at_bytes OP_MLOAD3D a (be_bytes 4 size ++ [reg]))).
    assert (be_val (slice 15 19 data) = size) as ->
      by (by apply (be_val_slice ([OP_MLOAD3D] ++ address_bytes a) 4 size [reg])). reflexivity.
  - destruct Hok as (Ha & Hr & Hs). enter_decoder decodeMStore3D 20. set (data := encode _).
    assert (address_at data = a) as -> by (by apply (address_at_bytes OP_MSTORE3D a ([reg] ++ be_bytes 4 size))).
    assert (be_val (slice 16 20 data) = size) as ->
      by (by apply (be_val_slice ([OP_MSTORE3D] ++ address_bytes a ++ [reg]) 4 size [])). reflexivity.
  - destruct Hok as (Hs & Hr & Hf). enter_decoder decodeMAlloc3D 14. set (data := encode _).
    assert (be_val (slice 1 5 data) = size) as ->
      by (by apply (be_val_slice [OP_MALLOC3D] 4 size ([rt; flags] ++ replicate 7 0))). reflexivity.
  - enter_decoder decodeMFree3D 15. set (data := encode _).
    assert (address_at data = a) as -> by (by apply (address_at_bytes OP_MFREE3D a [])). reflexivity.
  - by apply decode_copy.
  - destruct Hok as (Ha & Hd). enter_decoder decodeMSize3D 16. set (data := encode _).
    assert (address_at data = a) as -> by (by apply (address_at_bytes OP_MSIZE3D a [d])). reflexivity.
Qed.

(** ** What the decoder can produce *)

Lemma byte_at_range data i : Forall is_u8 data -> is_u8 (byte_at data i).
Proof.
  intros Hd. unfold byte_at. destruct (data !! i) eqn:E; [|by vm_compute].
  rewrite Forall_lookup in Hd. by eapply Hd.
Qed.

Lemma slice_val_range lo hi data n :
  Forall is_u8 data -> (hi <= length data)%nat -> (lo <= hi)%nat -> n = (hi - lo)%nat ->
  0 <= be_val (slice lo hi data) < 256 ^ Z.of_nat n.
Proof.
  intros Hd Hl Hlo ->. unfold slice.
  assert (length (take (hi - lo) (drop lo data)) = (hi - lo)%nat) as E by (rewrite length_take, length_drop; lia).
  pose proof (be_val_range (take (hi - lo) (drop lo data))) as Hr. rewrite E in Hr.
  apply Hr, Forall_take, Forall_drop, Hd.
Qed.

Lemma address_at_ok data : Forall is_u8 data -> (15 <= length data)%nat -> addr_ok (address_at data).
Proof.
  intros Hd Hl. unfold address_at, addr_ok. cbn [aX aY aZ].
  pose proof (slice_val_range 1 9 data 8 Hd ltac:(lia) ltac:(lia) eq_refl).
  pose proof (slice_val_range 9 13 data 4 Hd ltac:(lia) ltac:(lia) eq_refl).
  pose proof (slice_val_range 13 15 data 2 Hd ltac:(lia) ltac:(lia) eq_refl). done.
Qed.

(** Every instruction the decoder accepts is one of the assembly instructions. *)
Lemma decode_sound data inst :
  Forall is_u8 data -> DecodeInstruction data = inr inst ->
  exists i, asm_ok i /\ inst = instr_of i /\ in_Size inst <= Z.of_nat (length data) /\ 1 <= in_Size inst <= 20.
Proof.
  intros Hd H. destruct data as [|op rest] eqn:E; [done|]. unfold DecodeInstruction in H. rewrite <- E in *.
  assert (1 <= length data)%nat as Hne by (rewrite E; simpl; lia).
  repeat match type of H with (if ?b then _ else _) = _ => destruct b end; try discriminate H;
    unfold decodeMLoad3D, decodeMStore3D, decodeMAlloc3D, decodeMFree3D, decodeMCopy3D, decodeAdd3D,
      decodeSub3D, decodeMov3D, decodeMSize3D in H;
    try (match type of H with (if negb (?x =? ?y) then _ else _) = _ =>
      destruct (Z.eqb_spec x y) as [Hlen|]; [cbn [negb] in H; cbv zeta in H|discriminate H] end);
    injection H as <-.
  - exists (ILoad (address_at data) (be_val (slice 15 19 data)) (byte_at data 19)). simpl.
    split_and!; try lia; try done; [apply address_at_ok; [done|lia] | | by apply byte_at_range].
    exact (slice_val_range 15 19 data 4 Hd ltac:(lia) ltac:(lia) eq_refl).
  - exists (IStore (address_at data) (byte_at data 15) (be_val (slice 16 20 data))). simpl.
    split_and!; try lia; try done; [apply address_at_ok; [done|lia] | by apply byte_at_range |].
    exact (slice_val_range 16 20 data 4 Hd ltac:(lia) ltac:(lia) eq_refl).
  - exists (IAlloc (be_val (slice 1 5 data)) (byte_at data 5) (byte_at data 6)). simpl.
    split_and!; try lia; try done; [| by apply byte_at_range ..].
    exact (slice_val_range 1 5 data 4 Hd ltac:(lia) ltac:(lia) eq_refl).
  - exists (IFree (address_at data)). simpl. split_and!; try lia; try done. apply address_at_ok; [done|lia].
  - exists (ICopy (NewAddress (be_val (slice 1 9 data)) (be_val (slice 9 11 data)) (be_val (slice 11 13 data)))
      (NewAddress (be_val (slice 13 17 data)) (be_val (slice 17 19 data)) 0) (byte_at data 19)). simpl.
    pose proof (slice_val_range 1 9 data 8 Hd ltac:(lia) ltac:(lia) eq_refl).
    pose proof (slice_val_range 9 11 data 2 Hd ltac:(lia) ltac:(lia) eq_refl).
    pose proof (slice_val_range 11 13 data 2 Hd ltac:(lia) ltac:(lia) eq_refl).
    pose proof (slice_val_range 13 17 data 4 Hd ltac:(lia) ltac:(lia) eq_refl).
    pose proof (slice_val_range 17 19 data 2 Hd ltac:(lia) ltac:(lia) eq_refl).
    pose proof (byte_at_range data 19 Hd). split_and!; try lia; try done.
  - exists (IAdd (byte_at data 1) (byte_at data 2) (byte_at data 3)). simpl.
    split_and!; try lia; try done; by apply byte_at_range.
  - exists (ISub (byte_at data 1) (byte_at data 2) (byte_at data 3)). simpl.
    split_and!; try lia; try done; by apply byte_at_range.
  - exists (IMov (byte_at data 1) (byte_at data 2)). simpl. split_and!; try lia; try done; by apply byte_at_range.
  - exists (ISize (address_at data) (byte_at data 15)). simpl.
    split_and!; try lia; try done; [apply address_at_ok; [done|lia] | by apply byte_at_range].
  - exists INop. simpl. split_and!; try lia; done.
  - exists IHalt. simpl. split_and!; try lia; done.
Qed.

(** The opcodes that are declared but that no program can contain. *)
Definition undecoded : list Z :=
  [OP_MQUERY3D; OP_MCOMPACT3D; OP_MDEFRAG3D; OP_MLOADBATCH3D; OP_MSTOREBATCH3D; OP_MGAS3D; OP_MREFUND3D; OP_JUMP3D;
   OP_CALL3D; OP_RET3D].

Lemma undecoded_refused op rest : op ∈ undecoded -> DecodeInstruction (op :: rest) = inl (ErrUnknownOpcode op).
Proof.
  intros Hop. assert (Forall (fun op => DecodeInstruction (op :: rest) = inl (ErrUnknownOpcode op)) undecoded) as Hall.
  { repeat (apply Forall_cons; split); [reflexivity..|apply Forall_nil_2]. }
  rewrite Forall_forall in Hall. by apply Hall.
Qed.

(** C24. The decoder is exact: the encoding of every instruction with fields in
    range decodes to that instruction, and whatever bytes the decoder accepts
    stand for one of these instructions, with a size between 1 and 20 that does
    not exceed the bytes it was given.  The ten opcodes declared without decoder are
    refused as unknown, whatever follows them. *)
Theorem decoder_exact :
  (forall i, asm_ok i -> DecodeInstruction (encode i) = inr (instr_of i) /\
     in_Size (instr_of i) = Z.of_nat (length (encode i))) /\
  (forall data inst, Forall is_u8 data -> DecodeInstruction data = inr inst ->
     exists i, asm_ok i /\ inst = instr_of i /\ in_Size inst <= Z.of_nat (length data) /\ 1 <= in_Size inst <= 20) /\
  (forall op rest, op ∈ undecoded -> DecodeInstruction (op :: rest) = inl (ErrUnknownOpcode op)).
Proof.
  split; [intros i Hi; split; [by apply decode_encode | by destruct i]|]. split; [apply decode_sound | apply undecoded_refused].
Qed.
