(* ===== verification/MemoryManager.v ===== *)
(** * The memory manager (internal/vm/memory_manager.go)

    The manager shares the allocator and the allocation objects with the VM: its
    map holds locations of the heap, and its stores write into the data of the
    allocator's planes. *)
From S2P Require Import Prelude Words Float64 Address Errors Bitmap Plane Region Allocator.
From S2P Require Import AllocatorInv YPromotionInv AllocatorSpec AllocatorEdge.
From stdpp Require Import strings.
#[local] Open Scope Z_scope.

Record RegionStats := mkRegionStats {
  rs_TotalAllocations : Z; rs_TotalFrees : Z; rs_CurrentUsage : Z; rs_MaxUsage : Z; rs_AccessCount : Z }.

Inductive AccessType := AccessRead | AccessWrite | AccessAlloc | AccessFree.

Record AccessEntry := mkAccess { ae_Address : Address3D; ae_Time : Z; ae_Type : AccessType; ae_Size : Z }.

Record MemoryManager := mkMM {
  mm_allocations : gmap Address3D loc;
  mm_regions : gmap Z RegionStats;
  mm_accessLog : list AccessEntry;
}.

Definition NewMemoryManager : MemoryManager :=
  {| mm_allocations := ∅; mm_regions := ∅; mm_accessLog := [] |}.

Definition with_allocations (m : gmap Address3D loc) (mm : MemoryManager) : MemoryManager :=
  {| mm_allocations := m; mm_regions := mm_regions mm; mm_accessLog := mm_accessLog mm |}.

Definition with_region_stats (m : gmap Z RegionStats) (mm : MemoryManager) : MemoryManager :=
  {| mm_allocations := mm_allocations mm; mm_regions := m; mm_accessLog := mm_accessLog mm |}.

(** Append an entry; past 10000 entries the oldest 1000 are dropped. *)
Definition logAccess (now : Z) (mm : MemoryManager) (addr : Address3D) (accessType : AccessType) (size : Z)
    : MemoryManager :=
  let log := mm_accessLog mm ++ [mkAccess addr now accessType size] in
  {| mm_allocations := mm_allocations mm; mm_regions := mm_regions mm;
     mm_accessLog := if 10000 <? Z.of_nat (length log) then drop 1000 log else log |}.

Definition UpdateAccess `{GoRuntime} (h : Heap) (mm : MemoryManager) (addr : Address3D) : res Heap :=
  match mm_allocations mm !! addr with
  | None => Ret h
  | Some l =>
      alloc ← deref (heap_get h l);
      Ret (heap_set h l (Allocation_UpdateAccess (rt_now 4) alloc 0))
  end.

(** A fragment that holds the offset of the address on its plane. *)
Definition in_fragment (addr : Address3D) (frag : Fragment) : bool :=
  (aY addr =? fr_PlaneID frag) && (fr_StartZ frag <=? aZ addr) &&
  (aZ addr <? u16 (fr_StartZ frag + fr_Size frag)).

Fixpoint find_fragment (h : Heap) (m : gmap Address3D loc) (addr : Address3D) (keys : list Address3D)
    : res (option loc) :=
  match keys with
  | [] => Ret None
  | k :: keys =>
      l ← deref (m !! k);
      alloc ← deref (heap_get h l);
      if IsYPromoted alloc && existsb (in_fragment addr) (al_Fragments alloc) then Ret (Some l)
      else find_fragment h m addr keys
  end.

Definition getAllocationLocked `{GoRuntime} (h : Heap) (mm : MemoryManager) (addr : Address3D) : res (option loc) :=
  match mm_allocations mm !! addr with
  | Some l => Ret (Some l)
  | None => find_fragment h (mm_allocations mm) addr (rt_range 2 (mm_allocations mm))
  end.

Definition getAllocation `{GoRuntime} (h : Heap) (mm : MemoryManager) (addr : Address3D) : res (option loc) :=
  match mm_allocations mm !! addr with
  | Some l => Ret (Some l)
  | None => find_fragment h (mm_allocations mm) addr (rt_range 2 (mm_allocations mm))
  end.

(** [planeStart:planeEnd] of a slice; Go panics when the bounds are reversed. *)
Definition go_slice (d : list Z) (lo hi : Z) : res (list Z) :=
  if (hi <? lo) || (Z.of_nat (length d) <? hi) then Panic
  else Ret (slice (Z.to_nat lo) (Z.to_nat hi) d).

Definition Load3D `{GoRuntime} (h : Heap) (a : Allocator3D) (mm : MemoryManager) (addr : Address3D) (size : Z)
    : res (MemoryManager * (error + list Z)) :=
  o ← getAllocationLocked h mm addr;
  match o with
  | None => Ret (mm, inl (ErrAddressNotAllocated addr))
  | Some l =>
      alloc ← deref (heap_get h l);
      let relStart := u16 (aZ addr - aZ (al_Address alloc)) in
      let endOffset := u16 (relStart + u16 size) in
      if u16 (al_Size alloc) <? endOffset then Ret (mm, inl (ErrText "read out of bounds"))
      else match GetRegion a (aX addr) with
      | None => Ret (mm, inl (ErrRegionNotFound (aX addr)))
      | Some region =>
          match GetPlane region (aY addr) with
          | None => Ret (mm, inl (ErrPlaneNotFound (aY addr)))
          | Some plane =>
              let planeStart := aZ addr in
              let planeEnd := u32 (planeStart + size) in
              if u32 (Z.of_nat (length (pl_Data plane))) <? planeEnd
              then Ret (mm, inl (ErrText "plane read out of bounds"))
              else
                data ← go_slice (pl_Data plane) planeStart planeEnd;
                let mm := logAccess (rt_now 5) mm addr AccessRead size in
                let mm := match mm_regions mm !! aX addr with
                  | None => mm
                  | Some st => with_region_stats (<[aX addr := {| rs_TotalAllocations := rs_TotalAllocations st;
                      rs_TotalFrees := rs_TotalFrees st; rs_CurrentUsage := rs_CurrentUsage st;
                      rs_MaxUsage := rs_MaxUsage st; rs_AccessCount := u64 (rs_AccessCount st + 1) |}]>
                      (mm_regions mm)) mm
                  end in
                Ret (mm, inr data)
          end
      end
  end.

(** [copy(d[lo:], data)] for data that fits. *)
Definition write_at (d : list Z) (lo : nat) (data : list Z) : list Z :=
  take lo d ++ data ++ drop (lo + length data) d.

(** Replace the data of one plane of one region. *)
Definition set_plane_data (a : Allocator3D) (region : Region) (y : Z) (d : list Z) : Allocator3D :=
  match plane_index y (rg_Planes region) with
  | None => a
  | Some i => set_region (with_Planes (alter (with_Data d) i (rg_Planes region)) region) a
  end.

Definition Store3D `{GoRuntime} (h : Heap) (a : Allocator3D) (mm : MemoryManager) (addr : Address3D)
    (data : list Z) : res (Heap * Allocator3D * MemoryManager * option error) :=
  let size := u32 (Z.of_nat (length data)) in
  o ← getAllocationLocked h mm addr;
  match o with
  | None => Ret (h, a, mm, Some (ErrAddressNotAllocated addr))
  | Some l =>
      alloc ← deref (heap_get h l);
      let relStart := u16 (aZ addr - aZ (al_Address alloc)) in
      let endOffset := u16 (relStart + u16 size) in
      if u16 (al_Size alloc) <? endOffset then Ret (h, a, mm, Some (ErrText "write out of bounds"))
      else match GetRegion a (aX addr) with
      | None => Ret (h, a, mm, Some (ErrRegionNotFound (aX addr)))
      | Some region =>
          match GetPlane region (aY addr) with
          | None => Ret (h, a, mm, Some (ErrPlaneNotFound (aY addr)))
          | Some plane =>
              let planeStart := aZ addr in
              let planeEnd := u32 (planeStart + size) in
              if u32 (Z.of_nat (length (pl_Data plane))) <? planeEnd
              then Ret (h, a, mm, Some (ErrText "plane write out of bounds"))
              else
                _ ← go_slice (pl_Data plane) planeStart planeEnd;
                let a := set_plane_data a region (aY addr)
                  (write_at (pl_Data plane) (Z.to_nat planeStart)
                     (take (Z.to_nat (planeEnd - planeStart)) data)) in
                let mm := logAccess (rt_now 5) mm addr AccessWrite size in
                let h := heap_set h l (Allocation_UpdateAccess (rt_now 6) alloc 0) in
                Ret (h, a, mm, None)
          end
      end
  end.

Definition trackAllocation `{GoRuntime} (h : Heap) (mm : MemoryManager) (l : loc) : res MemoryManager :=
  alloc ← deref (heap_get h l);
  let x := aX (al_Address alloc) in
  let mm := with_allocations (<[al_Address alloc := l]> (mm_allocations mm)) mm in
  let st := default (mkRegionStats 0 0 0 0 0) (mm_regions mm !! x) in
  let usage := u64 (rs_CurrentUsage st + al_Size alloc) in
  let st := {| rs_TotalAllocations := u64 (rs_TotalAllocations st + 1); rs_TotalFrees := rs_TotalFrees st;
               rs_CurrentUsage := usage; rs_MaxUsage := if rs_MaxUsage st <? usage then usage else rs_MaxUsage st;
               rs_AccessCount := rs_AccessCount st |} in
  let mm := with_region_stats (<[x := st]> (mm_regions mm)) mm in
  Ret (logAccess (rt_now 5) mm (al_Address alloc) AccessAlloc (al_Size alloc)).

Definition untrackAllocation `{GoRuntime} (h : Heap) (mm : MemoryManager) (addr : Address3D) : res MemoryManager :=
  match mm_allocations mm !! addr with
  | None => Ret mm
  | Some l =>
      alloc ← deref (heap_get h l);
      let mm := match mm_regions mm !! aX addr with
        | None => mm
        | Some st => with_region_stats (<[aX addr := {| rs_TotalAllocations := rs_TotalAllocations st;
            rs_TotalFrees := u64 (rs_TotalFrees st + 1);
            rs_CurrentUsage := sub_idiom32 (rs_CurrentUsage st) (al_Size alloc);
            rs_MaxUsage := rs_MaxUsage st; rs_AccessCount := rs_AccessCount st |}]> (mm_regions mm)) mm
        end in
      let mm := with_allocations (delete addr (mm_allocations mm)) mm in
      Ret (logAccess (rt_now 5) mm addr AccessFree (al_Size alloc))
  end.

(** The counter is read from the allocator's region; a region with statistics but
    no counterpart in the allocator would be a nil dereference. *)
Definition GetFreeMemory (a : Allocator3D) (mm : MemoryManager) (regionX : Z) : res Z :=
  match mm_regions mm !! regionX with
  | None => Ret 0
  | Some _ => region ← deref (GetRegion a regionX); Ret (rg_FreeBytes region)
  end.

Definition GetFragmentation (a : Allocator3D) (regionX : Z) : res float64 :=
  region ← deref (GetRegion a regionX); Ret (Region_Fragmentation region).

Definition RelocateAllocation `{GoRuntime} (h : Heap) (mm : MemoryManager) (oldAddr newAddr : Address3D)
    : res (Heap * MemoryManager * option error) :=
  match mm_allocations mm !! oldAddr with
  | None => Ret (h, mm, Some (ErrAllocationNotFound oldAddr))
  | Some l =>
      match mm_allocations mm !! newAddr with
      | Some _ => Ret (h, mm, Some (ErrDestinationOccupied newAddr))
      | None =>
          alloc ← deref (heap_get h l);
          let h := heap_set h l (with_Address newAddr alloc) in
          let mm := with_allocations (<[newAddr := l]> (delete oldAddr (mm_allocations mm))) mm in
          Ret (h, logAccess (rt_now 5) mm newAddr AccessAlloc (al_Size alloc), None)
      end
  end.

Definition GetAllAllocations `{GoRuntime} (mm : MemoryManager) : list loc :=
  omap (fun addr => mm_allocations mm !! addr) (rt_range 0 (mm_allocations mm)).

Definition UpdateAllocationAddress (h : Heap) (mm : MemoryManager) (oldAddr newAddr : Address3D) (l : loc)
    : res (Heap * MemoryManager) :=
  let mm := with_allocations (<[newAddr := l]> (delete oldAddr (mm_allocations mm))) mm in
  alloc ← deref (heap_get h l);
  Ret (heap_set h l (with_Address newAddr alloc), mm).

(** ** What the invariants see of an allocation object *)

Definition shape (al : Allocation) : Address3D * Z * list Fragment * Z :=
  (al_Address al, al_Size al, al_Fragments al, al_RegionType al).

(** The heaps differ only in access statistics. *)
Definition heap_shape (h h' : Heap) : Prop := forall l, shape <$> heap_get h' l = shape <$> heap_get h l.

Lemma heap_shape_get h h' l al' : heap_shape h h' -> heap_get h' l = Some al' ->
  exists al, heap_get h l = Some al /\ shape al' = shape al.
Proof.
  intros Hs Hl. specialize (Hs l). rewrite Hl in Hs. destruct (heap_get h l) as [al|]; [|done].
  exists al. split; [done|]. simpl in Hs. congruence.
Qed.

Lemma heap_shape_get2 h h' l al : heap_shape h h' -> heap_get h l = Some al ->
  exists al', heap_get h' l = Some al' /\ shape al' = shape al.
Proof.
  intros Hs Hl. specialize (Hs l). rewrite Hl in Hs. destruct (heap_get h' l) as [al'|]; [|done].
  exists al'. split; [done|]. simpl in Hs. congruence.
Qed.

Lemma shape_extents al al' : shape al' = shape al -> al_extents al' = al_extents al.
Proof. unfold shape, al_extents. intros [= -> -> -> _]. done. Qed.

Lemma heap_set_shape h l al al' :
  heap_get h l = Some al -> shape al' = shape al -> heap_shape h (heap_set h l al').
Proof.
  intros Hl Hs l0. unfold heap_get, heap_set in *. simpl. destruct (decide (l0 = l)) as [->|Hne].
  - rewrite lookup_insert_eq, Hl. simpl. by f_equal.
  - by rewrite lookup_insert_ne.
Qed.

Lemma heap_set_ok h l al al' : heap_ok h -> heap_get h l = Some al -> heap_ok (heap_set h l al').
Proof.
  intros Hok Hl l0 a. unfold heap_get, heap_set in *. simpl. intros H.
  apply lookup_insert_Some in H as [[<- _]|[_ H]]; by eapply Hok.
Qed.

Lemma region_allocs_shape h h' ps : heap_shape h h' ->
  al_extents <$> region_allocs h' ps = al_extents <$> region_allocs h ps.
Proof.
  intros Hs. rewrite !region_allocs_locs. induction (region_locs ps) as [|l ls IH]; [done|].
  cbn [omap list_omap]. specialize (Hs l). destruct (heap_get h' l), (heap_get h l); try done.
  rewrite !fmap_cons, IH. f_equal. apply shape_extents. simpl in Hs. congruence.
Qed.

Lemma extents_on_fmap y als : extents_on y als = (al_extents <$> als) ≫= on_plane y.
Proof. induction als as [|al als IH]; [done|]. rewrite extents_on_cons, fmap_cons, bind_cons. by rewrite IH. Qed.

Lemma region_inv_shape h h' r : heap_shape h h' -> region_inv h r -> region_inv h' r.
Proof.
  intros Hs Hr. pose proof (region_allocs_shape h h' (rg_Planes r) Hs) as Hx.
  constructor; try apply Hr.
  - eapply Forall_impl; [apply (ri_tracks h r Hr)|]. simpl. intros p. by rewrite !extents_on_fmap, Hx.
  - intros p z l Hp Hz. destruct (ri_entries h r Hr p z l Hp Hz) as (al & Hl & Ha & Hf & Hsum & Hids).
    destruct (heap_shape_get2 h h' l al Hs Hl) as (al' & Hl' & Hsh). exists al'.
    rewrite (shape_extents _ _ Hsh). injection Hsh as -> -> _ _. done.
  - rewrite (ri_count h r Hr). apply (f_equal length) in Hx. rewrite !length_fmap in Hx. by rewrite Hx.
Qed.

Lemma alloc_inv_shape h h' a : heap_shape h h' -> heap_ok h' -> alloc_inv h a -> alloc_inv h' a.
Proof.
  intros Hs Hok [H1 H2 H3 H4 H5 H6 H7]. constructor; try done. intros k r Hk.
  destruct (H2 k r Hk) as [? ?]. split; [done|]. by eapply region_inv_shape.
Qed.

(** ** Writing plane data *)

Section WriteData.
Context (h : Heap) (r : Region) (i : nat) (p : Plane) (d : list Z).
Hypothesis Hr : region_inv h r.
Hypothesis Hi : rg_Planes r !! i = Some p.
Hypothesis Hd : length d = length (pl_Data p).

Let ps' := <[i := with_Data d p]> (rg_Planes r).

Lemma data_fmap {A} (f : Plane -> A) : f (with_Data d p) = f p -> f <$> ps' = f <$> rg_Planes r.
Proof. intros Hf. unfold ps'. rewrite list_fmap_insert, Hf. apply list_insert_id. by rewrite list_lookup_fmap, Hi. Qed.

Lemma data_elem q : q ∈ ps' -> exists q0, q0 ∈ rg_Planes r /\ pl_ID q = pl_ID q0 /\ pl_Size q = pl_Size q0 /\
  pl_FreeMap q = pl_FreeMap q0 /\ pl_Allocations q = pl_Allocations q0 /\ length (pl_Data q) = length (pl_Data q0).
Proof.
  intros [j Hj]%list_elem_of_lookup. apply list_lookup_insert_Some in Hj as [(<- & <- & _)|[_ Hj]].
  - exists p. split; [by eapply list_elem_of_lookup_2|]. simpl. done.
  - exists q. split; [by eapply list_elem_of_lookup_2|]. done.
Qed.

Lemma data_bind {B} (f : Plane -> list B) : f (with_Data d p) = f p -> ps' ≫= f = rg_Planes r ≫= f.
Proof.
  intros Hf. assert (forall qs, qs ≫= f = concat (f <$> qs)) as Hb.
  { intros qs. induction qs as [|q qs IH]; [done|]. rewrite fmap_cons, bind_cons. simpl. by rewrite <- IH. }
  by rewrite !Hb, (data_fmap f Hf).
Qed.

Lemma region_inv_data : region_inv h (with_Planes ps' r).
Proof.
  assert (region_allocs h ps' = region_allocs h (rg_Planes r)) as Hal by (by apply data_bind).
  constructor; simpl; rewrite ?Hal.
  - rewrite (data_fmap pl_ID eq_refl). apply Hr.
  - apply Forall_forall. intros q Hq. destruct (data_elem q Hq) as (q0 & Hq0 & E1 & E2 & E3 & E4 & E5).
    pose proof (ri_shape h r Hr) as Hs. rewrite Forall_forall in Hs. specialize (Hs q0 Hq0).
    unfold plane_shape in *. by rewrite E2, E3, E5.
  - apply Forall_forall. intros q Hq. destruct (data_elem q Hq) as (q0 & Hq0 & E1 & E2 & E3 & E4 & E5).
    pose proof (ri_tracks h r Hr) as Ht. rewrite Forall_forall in Ht. rewrite E1, E3. by apply Ht.
  - intros q z l Hq Hz. destruct (data_elem q Hq) as (q0 & Hq0 & E1 & E2 & E3 & E4 & E5). rewrite E4 in Hz.
    rewrite (data_fmap pl_ID eq_refl). destruct (ri_entries h r Hr q0 z l Hq0 Hz) as (al & ?).
    exists al. by rewrite E1.
  - rewrite (ri_free h r Hr), !(sumZ_fmap Plane_FreeBytes). by rewrite (data_fmap Plane_FreeBytes eq_refl).
  - rewrite (ri_total h r Hr), !(sumZ_fmap pl_Size). by rewrite (data_fmap pl_Size eq_refl).
  - rewrite (sumZ_fmap pl_Size), (data_fmap pl_Size eq_refl), <- (sumZ_fmap pl_Size). apply Hr.
  - apply Hr.
Qed.

Lemma data_locs : region_locs ps' = region_locs (rg_Planes r).
Proof. by apply data_bind. Qed.
End WriteData.

(** ** The manager's map *)

(** Every tracked address is the address of a live block in one piece. *)
Definition mm_inv (h : Heap) (a : Allocator3D) (mm : MemoryManager) : Prop :=
  forall addr l, mm_allocations mm !! addr = Some l ->
    live a l /\ exists al, heap_get h l = Some al /\ al_Address al = addr /\ IsYPromoted al = false.

Lemma find_fragment_None h (m : gmap Address3D loc) addr keys :
  Forall (fun k => exists l al, m !! k = Some l /\ heap_get h l = Some al /\ IsYPromoted al = false) keys ->
  find_fragment h m addr keys = Ret None.
Proof.
  induction 1 as [|k keys (l & al & Hk & Hl & Hy) Hks IH]; [done|]. cbn [find_fragment].
  rewrite Hk. cbn [deref mbind res_bind]. rewrite Hl. cbn [deref mbind res_bind]. by rewrite Hy.
Qed.

(** Without promoted blocks the lookup is the map, whatever the iteration order. *)
Lemma getAllocation_spec `{GoRuntime} h a mm addr :
  mm_inv h a mm -> getAllocationLocked h mm addr = Ret (mm_allocations mm !! addr).
Proof.
  intros Hm. unfold getAllocationLocked. destruct (mm_allocations mm !! addr) as [l|] eqn:E; [done|].
  apply find_fragment_None, Forall_forall. intros k. rewrite rt_range_perm.
  intros ([k' l] & -> & Hk)%list_elem_of_fmap. apply elem_of_map_to_list in Hk. simpl.
  destruct (Hm k' l Hk) as (_ & al & ? & _ & ?). eauto.
Qed.

(** The block behind a tracked address: its region, its plane and its bounds. *)
Record block_at (h : Heap) (a : Allocator3D) (addr : Address3D) (l : loc) (al : Allocation) (r : Region)
    (i : nat) (p : Plane) : Prop := {
  bk_obj : heap_get h l = Some al;
  bk_addr : al_Address al = addr;
  bk_region : ac_regions a !! aX addr = Some r;
  bk_id : rg_ID r = aX addr;
  bk_inv : region_inv h r;
  bk_index : plane_index (aY addr) (rg_Planes r) = Some i;
  bk_plane : rg_Planes r !! i = Some p;
  bk_pid : pl_ID p = aY addr;
  bk_extents : al_extents al = [(pl_ID p, (aZ addr, al_Size al))];
  bk_bounds : 0 <= aZ addr /\ 0 < al_Size al /\ aZ addr + al_Size al <= pl_Size p /\ pl_Size p < 65536 /\
    Z.of_nat (length (pl_Data p)) = pl_Size p;
}.

Lemma tracked_block h a mm addr l :
  alloc_inv h a -> mm_inv h a mm -> mm_allocations mm !! addr = Some l ->
  exists al r i p, block_at h a addr l al r i p.
Proof.
  intros Ha Hm Hl. destruct (Hm addr l Hl) as (Hlive & al & Hal & Haddr & Hy).
  destruct (live_entry h a l Ha Hlive) as (k & r & i & p & z & al0 & Hk & Hr & Hid & Hi & Hz & Hal0 & Ha0).
  assert (al0 = al) as -> by congruence. rewrite Haddr in Ha0. subst addr. exists al, r, i, p.
  pose proof (release_extents h r i p z l al Hr Hi Hz Hal Hy) as He.
  pose proof (release_tracks_old h r i p z l al Hr Hi Hz Hal Hy) as Ht.
  pose proof (tr_bounds _ _ Ht) as Hb. apply Forall_cons in Hb as [(B1 & B2 & B3) _]. simpl in B1, B2, B3.
  pose proof (ri_shape h r Hr) as Hsh. rewrite Forall_lookup in Hsh. destruct (Hsh i p Hi) as (Hsz & Hpos & Hlen).
  pose proof (wf_size _ (tr_wf _ _ Ht)) as Hw. unfold is_u16 in Hw.
  constructor; rewrite ?Ha0; cbn [aX aY aZ]; try done.
  - by apply (plane_index_lookup _ _ i p (ri_nodup h r Hr) Hi).
  - lia.
Qed.

Lemma write_at_length d lo data :
  (lo + length data <= length d)%nat -> length (write_at d lo data) = length d.
Proof. intros H. unfold write_at. rewrite !length_app, length_take, length_drop. lia. Qed.

Lemma write_at_slice d lo data :
  (lo + length data <= length d)%nat -> slice lo (lo + length data) (write_at d lo data) = data.
Proof.
  intros H. unfold slice, write_at. rewrite drop_app_length' by (rewrite length_take; lia).
  replace (lo + length data - lo)%nat with (length data) by lia. by rewrite take_app_length' by lia.
Qed.

Lemma write_at_lookup d lo data j :
  (lo + length data <= length d)%nat -> (j < lo \/ lo + length data <= j)%nat ->
  write_at d lo data !! j = d !! j.
Proof.
  intros H Hj. unfold write_at. destruct Hj as [Hj|Hj].
  - rewrite lookup_app_l by (rewrite length_take; lia). by apply lookup_take_lt.
  - rewrite lookup_app_r by (rewrite length_take; lia). rewrite length_take, Nat.min_l by lia.
    rewrite lookup_app_r by lia. rewrite lookup_drop. f_equal. lia.
Qed.

(** The state after a store of [data] at the start of a block. *)
Definition stored `{GoRuntime} (h : Heap) (a : Allocator3D) (mm : MemoryManager) (addr : Address3D)
    (l : loc) (al : Allocation) (r : Region) (i : nat) (p : Plane) (data : list Z)
    : Heap * Allocator3D * MemoryManager :=
  (heap_set h l (Allocation_UpdateAccess (rt_now 6) al 0),
   set_region (with_Planes (<[i := with_Data (write_at (pl_Data p) (Z.to_nat (aZ addr)) data) p]> (rg_Planes r)) r) a,
   logAccess (rt_now 5) mm addr AccessWrite (Z.of_nat (length data))).

Lemma block_GetPlane h a addr l al r i p : block_at h a addr l al r i p -> GetPlane r (aY addr) = Some p.
Proof. intros Hb. unfold GetPlane. rewrite (bk_index _ _ _ _ _ _ _ _ Hb). apply Hb. Qed.

(** The refusal of an access longer than its block: the first check compares 16-bit
    lengths, the second one the end of the plane. *)
Definition bounds_error (what : string) (blockSize n : Z) : error :=
  ErrText (if blockSize <? u16 n then what +:+ " out of bounds" else "plane " +:+ what +:+ " out of bounds").

Lemma Store3D_spec `{GoRuntime} h a mm addr l al r i p data :
  mm_inv h a mm -> mm_allocations mm !! addr = Some l -> block_at h a addr l al r i p ->
  Z.of_nat (length data) < 4294967296 ->
  if Z.of_nat (length data) <=? al_Size al then
    Store3D h a mm addr data = Ret (stored h a mm addr l al r i p data, None)
  else Store3D h a mm addr data = Ret (h, a, mm, Some (bounds_error "write" (al_Size al) (Z.of_nat (length data)))).
Proof.
  intros Hm Hl Hb Hlen. pose proof (block_GetPlane _ _ _ _ _ _ _ _ Hb) as Hgp.
  destruct Hb as [B1 B2 B3 B4 B5 B6 B7 B8 B9 (C1 & C2 & C3 & C4 & C5)].
  unfold Store3D. rewrite (getAllocation_spec h a) by done. rewrite Hl. cbn [mbind res_bind].
  rewrite B1. cbn [deref mbind res_bind]. rewrite B2, Z.sub_diag. set (n := Z.of_nat (length data)) in *.
  assert (0 <= n) as Hn0 by lia. change (u16 0) with 0. rewrite Z.add_0_l.
  rewrite (u32_small n) by (unfold is_u32; lia). rewrite (u16_small (al_Size al)) by (unfold is_u16; lia).
  assert (u16 (u16 n) = u16 n) as -> by (apply u16_small, u16_range). unfold GetRegion. rewrite B3, Hgp.
  rewrite (u32_small (Z.of_nat (length (pl_Data p)))) by (unfold is_u32; lia). rewrite C5.
  destruct (Z.leb_spec n (al_Size al)) as [Hle|Hgt].
  - rewrite (u16_small n) by (unfold is_u16; lia). rewrite (u32_small (aZ addr + n)) by (unfold is_u32; lia).
    destruct (Z.ltb_spec (al_Size al) n); [lia|]. destruct (Z.ltb_spec (pl_Size p) (aZ addr + n)); [lia|].
    unfold go_slice. rewrite C5. destruct (Z.ltb_spec (aZ addr + n) (aZ addr)); [lia|].
    destruct (Z.ltb_spec (pl_Size p) (aZ addr + n)); [lia|]. cbn [orb mbind res_bind].
    unfold set_plane_data. rewrite B6, (list_alter_insert _ _ _ p) by done.
    rewrite firstn_all2 by lia. done.
  - unfold bounds_error. destruct (Z.ltb_spec (al_Size al) (u16 n)) as [Ho|Ho]; [done|].
    assert (65536 <= n) as Hbig.
    { destruct (decide (65536 <= n)); [done|]. rewrite (u16_small n) in Ho by (unfold is_u16; lia). lia. }
    assert (65536 <= u32 (aZ addr + n)) as Hend.
    { unfold u16 in Ho. pose proof (Z.div_mod n 65536 ltac:(lia)) as Hdm.
      rewrite u32_small; [lia|]. unfold is_u32. assert (n / 65536 < 65536) by (apply Z.div_lt_upper_bound; lia). lia. }
    destruct (Z.ltb_spec (pl_Size p) (u32 (aZ addr + n))); [done|lia].
Qed.

(** The bytes a read of [n] bytes at an address sees. *)
Definition bytes_at (a : Allocator3D) (addr : Address3D) (n : Z) : option (list Z) :=
  r ← GetRegion a (aX addr);
  p ← GetPlane r (aY addr);
  Some (slice (Z.to_nat (aZ addr)) (Z.to_nat (aZ addr + n)) (pl_Data p)).

Lemma Load3D_spec `{GoRuntime} h a mm addr l al r i p n :
  mm_inv h a mm -> mm_allocations mm !! addr = Some l -> block_at h a addr l al r i p ->
  0 <= n < 4294967296 ->
  if n <=? al_Size al then
    exists mm' d, Load3D h a mm addr n = Ret (mm', inr d) /\ bytes_at a addr n = Some d /\
      mm_allocations mm' = mm_allocations mm
  else Load3D h a mm addr n = Ret (mm, inl (bounds_error "read" (al_Size al) n)).
Proof.
  intros Hm Hl Hb Hn. pose proof (block_GetPlane _ _ _ _ _ _ _ _ Hb) as Hgp.
  destruct Hb as [B1 B2 B3 B4 B5 B6 B7 B8 B9 (C1 & C2 & C3 & C4 & C5)].
  unfold Load3D, bytes_at. rewrite (getAllocation_spec h a) by done. rewrite Hl. cbn [mbind res_bind].
  rewrite B1. cbn [deref mbind res_bind]. rewrite B2, Z.sub_diag. change (u16 0) with 0. rewrite Z.add_0_l.
  rewrite (u16_small (al_Size al)) by (unfold is_u16; lia).
  assert (u16 (u16 n) = u16 n) as -> by (apply u16_small, u16_range). unfold GetRegion. rewrite B3, Hgp.
  rewrite (u32_small (Z.of_nat (length (pl_Data p)))) by (unfold is_u32; lia). rewrite C5.
  destruct (Z.leb_spec n (al_Size al)) as [Hle|Hgt].
  - rewrite (u16_small n) by (unfold is_u16; lia). rewrite (u32_small (aZ addr + n)) by (unfold is_u32; lia).
    destruct (Z.ltb_spec (al_Size al) n); [lia|]. destruct (Z.ltb_spec (pl_Size p) (aZ addr + n)); [lia|].
    unfold go_slice. rewrite C5. destruct (Z.ltb_spec (aZ addr + n) (aZ addr)); [lia|].
    destruct (Z.ltb_spec (pl_Size p) (aZ addr + n)); [lia|]. cbn [orb mbind res_bind].
    eexists _, _. split; [done|]. simpl. rewrite Hgp. split; [done|].
    by destruct (mm_regions mm !! aX addr).
  - unfold bounds_error. destruct (Z.ltb_spec (al_Size al) (u16 n)) as [Ho|Ho]; [done|].
    assert (65536 <= n) as Hbig.
    { destruct (decide (65536 <= n)); [done|]. rewrite (u16_small n) in Ho by (unfold is_u16; lia). lia. }
    assert (65536 <= u32 (aZ addr + n)) as Hend.
    { unfold u16 in Ho. pose proof (Z.div_mod n 65536 ltac:(lia)) as Hdm.
      rewrite u32_small; [lia|]. unfold is_u32. assert (n / 65536 < 65536) by (apply Z.div_lt_upper_bound; lia). lia. }
    destruct (Z.ltb_spec (pl_Size p) (u32 (aZ addr + n))); [done|lia].
Qed.

Lemma slice_write_disjoint d lo data lo2 hi2 :
  (lo + length data <= length d)%nat -> (lo2 <= hi2)%nat -> (hi2 <= lo \/ lo + length data <= lo2)%nat ->
  slice lo2 hi2 (write_at d lo data) = slice lo2 hi2 d.
Proof.
  intros H H2 Hd. unfold slice. apply list_eq. intros j. destruct (decide (j < hi2 - lo2)%nat) as [Hj|Hj].
  - rewrite !lookup_take_lt, !lookup_drop by lia. apply write_at_lookup; lia.
  - rewrite !lookup_take_ge by lia. done.
Qed.

Section Stored.
Context `{GoRuntime} (h : Heap) (a : Allocator3D) (mm : MemoryManager) (addr : Address3D).
Context (l : loc) (al : Allocation) (r : Region) (i : nat) (p : Plane) (data : list Z).
Hypothesis Ha : alloc_inv h a.
Hypothesis Hm : mm_inv h a mm.
Hypothesis Hl : mm_allocations mm !! addr = Some l.
Hypothesis Hb : block_at h a addr l al r i p.
Hypothesis Hd : Z.of_nat (length data) <= al_Size al.

Let st := stored h a mm addr l al r i p data.
Let h' := st.1.1.
Let a' := st.1.2.
Let mm' := st.2.
Let d' := write_at (pl_Data p) (Z.to_nat (aZ addr)) data.
Let r' := with_Planes (<[i := with_Data d' p]> (rg_Planes r)) r.

Lemma stored_fits : (Z.to_nat (aZ addr) + length data <= length (pl_Data p))%nat.
Proof. pose proof (bk_bounds _ _ _ _ _ _ _ _ Hb). lia. Qed.

Lemma stored_shape : heap_shape h h' /\ heap_ok h'.
Proof.
  pose proof (bk_obj _ _ _ _ _ _ _ _ Hb) as Hal. split.
  - by eapply heap_set_shape.
  - eapply heap_set_ok; [apply Ha | exact Hal].
Qed.

Lemma stored_live l0 : live a' l0 <-> live a l0.
Proof.
  apply (live_set_region_same a r' (aX addr) r); [apply Hb | apply Hb |].
  apply data_locs. apply Hb.
Qed.

Lemma stored_inv : alloc_inv h' a' /\ mm_inv h' a' mm'.
Proof.
  destruct stored_shape as [Hs Hok]. split.
  - apply (alloc_inv_shape h); [done..|]. unfold a', st. simpl.
    eapply (set_region_inv h h a _ (aX addr) r); [done | apply Ha | apply heap_extends_refl | apply Hb | apply Hb |].
    apply region_inv_data; [apply Hb | apply Hb |]. by rewrite write_at_length by apply stored_fits.
  - intros addr0 l0 H0. destruct (Hm addr0 l0 H0) as (Hlv & al0 & Hal0 & Hd0 & Hy0). split; [by apply stored_live|].
    destruct (heap_shape_get2 h h' l0 al0 Hs Hal0) as (al1 & Hal1 & Hsh). exists al1. split; [done|].
    unfold IsYPromoted in *. injection Hsh as -> _ -> _. done.
Qed.

Lemma stored_GetPlane y : GetPlane r' y = if decide (y = aY addr) then Some (with_Data d' p) else GetPlane r y.
Proof.
  pose proof (bk_index _ _ _ _ _ _ _ _ Hb) as Hi. pose proof (bk_plane _ _ _ _ _ _ _ _ Hb) as Hp.
  assert (forall qs j, qs !! j = Some p -> plane_index y (<[j := with_Data d' p]> qs) = plane_index y qs) as Hix.
  { induction qs as [|q qs IH]; intros [|j] Hj; simplify_eq/=; [done|]. by rewrite IH. }
  unfold GetPlane, r'. simpl. rewrite Hix by done. destruct (decide (y = aY addr)) as [->|Hne].
  - rewrite Hi. simpl. apply list_lookup_insert_eq. by eapply lookup_lt_Some.
  - destruct (plane_index y (rg_Planes r)) as [j|] eqn:Ej; [|done]. simpl. apply list_lookup_insert_ne.
    intros <-. destruct (plane_index_Some _ _ _ Ej) as (q & Hq & <-). destruct (plane_index_Some _ _ _ Hi) as (q' & Hq' & Hy).
    congruence.
Qed.

Lemma stored_bytes : bytes_at a' addr (Z.of_nat (length data)) = Some data.
Proof.
  unfold bytes_at, GetRegion, a', st. simpl. rewrite (bk_id _ _ _ _ _ _ _ _ Hb), lookup_insert_eq.
  cbn [mbind option_bind]. fold d' r'. rewrite stored_GetPlane, decide_True by done. cbn [mbind option_bind]. f_equal.
  pose proof (bk_bounds _ _ _ _ _ _ _ _ Hb). simpl. unfold d'.
  replace (Z.to_nat (aZ addr + Z.of_nat (length data))) with (Z.to_nat (aZ addr) + length data)%nat by lia.
  apply write_at_slice, stored_fits.
Qed.

(** Another tracked block keeps its bytes. *)
Lemma stored_other addr2 l2 al2 r2 i2 p2 n :
  mm_allocations mm !! addr2 = Some l2 -> block_at h a addr2 l2 al2 r2 i2 p2 -> addr2 <> addr ->
  0 <= n <= al_Size al2 -> bytes_at a' addr2 n = bytes_at a addr2 n.
Proof.
  intros Hl2 Hb2 Hne Hn. unfold bytes_at, GetRegion, a', st. simpl. rewrite (bk_id _ _ _ _ _ _ _ _ Hb).
  destruct (decide (aX addr2 = aX addr)) as [HX|HX]; [|by rewrite lookup_insert_ne by done].
  rewrite HX, lookup_insert_eq, (bk_region _ _ _ _ _ _ _ _ Hb). cbn [mbind option_bind]. fold d' r'.
  rewrite stored_GetPlane. destruct (decide (aY addr2 = aY addr)) as [HY|HY]; [|done].
  rewrite HY, (block_GetPlane _ _ _ _ _ _ _ _ Hb). cbn [mbind option_bind]. f_equal. simpl.
  assert (r2 = r) as ->.
  { pose proof (bk_region _ _ _ _ _ _ _ _ Hb2) as E2. rewrite HX, (bk_region _ _ _ _ _ _ _ _ Hb) in E2. congruence. }
  assert (p2 = p) as ->.
  { pose proof (block_GetPlane _ _ _ _ _ _ _ _ Hb2) as E2. rewrite HY, (block_GetPlane _ _ _ _ _ _ _ _ Hb) in E2.
    congruence. }
  pose proof (bk_bounds _ _ _ _ _ _ _ _ Hb) as Bd. pose proof (bk_bounds _ _ _ _ _ _ _ _ Hb2) as Bd2.
  assert (aZ addr2 + al_Size al2 <= aZ addr \/ aZ addr + al_Size al <= aZ addr2) as Hdis.
  { destruct (decide (aZ addr2 + al_Size al2 <= aZ addr \/ aZ addr + al_Size al <= aZ addr2)) as [?|Hov]; [done|exfalso].
    assert (l2 <> l) as Hll.
    { intros ->. apply Hne. rewrite <- (bk_addr _ _ _ _ _ _ _ _ Hb), <- (bk_addr _ _ _ _ _ _ _ _ Hb2).
      pose proof (bk_obj _ _ _ _ _ _ _ _ Hb). pose proof (bk_obj _ _ _ _ _ _ _ _ Hb2). congruence. }
    destruct (Hm addr l Hl) as [Lv _]. destruct (Hm addr2 l2 Hl2) as [Lv2 _].
    eapply (extents_disjoint h r p l2 l al2 al _ _ (Z.max (aZ addr) (aZ addr2))); try apply Hb; try apply Hb2; try done.
    - eapply list_elem_of_lookup_2. apply Hb.
    - rewrite (live_region_locs h a (aX addr)); [|done|apply Hb]. split; [done|].
      exists al2. split; [apply Hb2|]. by rewrite (bk_addr _ _ _ _ _ _ _ _ Hb2).
    - rewrite (live_region_locs h a (aX addr)); [|done|apply Hb]. split; [done|].
      exists al. split; [apply Hb|]. by rewrite (bk_addr _ _ _ _ _ _ _ _ Hb).
    - rewrite (bk_extents _ _ _ _ _ _ _ _ Hb2). by left.
    - rewrite (bk_extents _ _ _ _ _ _ _ _ Hb). by left.
    - apply covers_true. simpl. lia.
    - apply covers_true. simpl. lia. }
  unfold d'. apply slice_write_disjoint; [apply stored_fits | lia | lia].
Qed.
End Stored.

(** ** Tracking *)

Lemma trackAllocation_inv `{GoRuntime} h a mm l al :
  mm_inv h a mm -> live a l -> heap_get h l = Some al -> IsYPromoted al = false ->
  exists mm', trackAllocation h mm l = Ret mm' /\ mm_inv h a mm' /\
    mm_allocations mm' = <[al_Address al := l]> (mm_allocations mm).
Proof.
  intros Hm Hl Hal Hy. unfold trackAllocation. rewrite Hal. cbn [deref mbind res_bind].
  eexists. split; [done|]. split; [|done]. intros addr l0 H0. simpl in H0.
  apply lookup_insert_Some in H0 as [[<- <-]|[_ H0]]; [|by apply Hm]. split; [done|]. by exists al.
Qed.

Lemma untrackAllocation_inv `{GoRuntime} h a a' mm addr l :
  mm_inv h a mm -> mm_allocations mm !! addr = Some l -> (forall l0, live a' l0 <-> live a l0 /\ l0 <> l) ->
  exists mm', untrackAllocation h mm addr = Ret mm' /\ mm_inv h a' mm' /\
    mm_allocations mm' = delete addr (mm_allocations mm).
Proof.
  intros Hm Hl Hlive. unfold untrackAllocation. rewrite Hl. destruct (Hm addr l Hl) as (_ & al & Hal & Haddr & _).
  rewrite Hal. cbn [deref mbind res_bind]. eexists. split; [done|]. split; [|by destruct (mm_regions mm !! aX addr)].
  intros addr0 l0 H0. simpl in H0. assert (delete addr (mm_allocations mm) !! addr0 = Some l0) as H1.
  { by destruct (mm_regions mm !! aX addr). }
  apply lookup_delete_Some in H1 as [Hne H1]. destruct (Hm addr0 l0 H1) as (Hlv & al0 & Hal0 & Haddr0 & Hy0).
  split; [|by exists al0]. apply Hlive. split; [done|]. intros ->. apply Hne. congruence.
Qed.

(** ** Theorems *)

(** C16. A store inside a tracked block succeeds, preserves the invariants, and is
    what the next load of that block returns; loads of every other tracked block
    return what they returned before. *)
Theorem store_then_load `{GoRuntime} h a mm addr l al data :
  alloc_inv h a -> mm_inv h a mm -> mm_allocations mm !! addr = Some l -> heap_get h l = Some al ->
  Z.of_nat (length data) <= al_Size al ->
  exists h' a' mm', Store3D h a mm addr data = Ret (h', a', mm', None) /\ alloc_inv h' a' /\ mm_inv h' a' mm' /\
    (exists mm'', Load3D h' a' mm' addr (Z.of_nat (length data)) = Ret (mm'', inr data)) /\
    (forall addr2 l2 al2 n d mm2, addr2 <> addr -> mm_allocations mm !! addr2 = Some l2 ->
       heap_get h l2 = Some al2 -> 0 <= n <= al_Size al2 ->
       Load3D h a mm addr2 n = Ret (mm2, inr d) -> exists mm3, Load3D h' a' mm' addr2 n = Ret (mm3, inr d)).
Proof.
  intros Ha Hm Hl Hal Hlen. destruct (tracked_block h a mm addr l Ha Hm Hl) as (al0 & r & i & p & Hb).
  assert (al0 = al) as -> by (pose proof (bk_obj _ _ _ _ _ _ _ _ Hb); congruence).
  pose proof (bk_bounds _ _ _ _ _ _ _ _ Hb) as Bd.
  pose proof (Store3D_spec h a mm addr l al r i p data Hm Hl Hb ltac:(lia)) as Hst.
  destruct (Z.leb_spec (Z.of_nat (length data)) (al_Size al)); [|lia].
  destruct (stored_inv h a mm addr l al r i p data Ha Hm Hb Hlen) as [Ha' Hm'].
  eexists _, _, _. split; [exact Hst|]. split; [exact Ha'|]. split; [exact Hm'|].
  assert (forall addr0 l0, mm_allocations mm !! addr0 = Some l0 ->
    exists al' r' i' p', block_at (stored h a mm addr l al r i p data).1.1 (stored h a mm addr l al r i p data).1.2
      addr0 l0 al' r' i' p' /\ exists al0, heap_get h l0 = Some al0 /\ al_Size al' = al_Size al0) as Hblk.
  { intros addr0 l0 Hx0. destruct (tracked_block _ _ _ addr0 l0 Ha' Hm' Hx0) as (al' & r' & i' & p' & Hb').
    exists al', r', i', p'. split; [done|].
    destruct (heap_shape_get h _ l0 al' (proj1 (stored_shape h a mm addr l al r i p data Ha Hb)) (bk_obj _ _ _ _ _ _ _ _ Hb'))
      as (al0 & Hal0 & Hsh). exists al0. split; [done|]. by injection Hsh. }
  split.
  - destruct (Hblk addr l Hl) as (al' & r' & i' & p' & Hb' & al0 & Hal0 & Hsz).
    pose proof (Load3D_spec _ _ _ addr l al' r' i' p' (Z.of_nat (length data)) Hm' Hl Hb' ltac:(lia)) as Hld.
    assert (al0 = al) as -> by congruence. rewrite Hsz in Hld.
    destruct (Z.leb_spec (Z.of_nat (length data)) (al_Size al)); [|lia].
    destruct Hld as (mm'' & d & Hld & Hd & _). rewrite (stored_bytes h a mm addr l al r i p data Hb Hlen) in Hd.
    injection Hd as <-. by exists mm''.
  - intros addr2 l2 al2 n d mm2 Hne Hl2 Hal2 Hn Hld.
    destruct (tracked_block h a mm addr2 l2 Ha Hm Hl2) as (al2' & r2 & i2 & p2 & Hb2).
    assert (al2' = al2) as -> by (pose proof (bk_obj _ _ _ _ _ _ _ _ Hb2); congruence).
    pose proof (bk_bounds _ _ _ _ _ _ _ _ Hb2) as Bd2.
    pose proof (Load3D_spec h a mm addr2 l2 al2 r2 i2 p2 n Hm Hl2 Hb2 ltac:(lia)) as Hold.
    destruct (Z.leb_spec n (al_Size al2)); [|lia]. destruct Hold as (mmx & dx & Hx & Hbx & _).
    rewrite Hld in Hx. injection Hx as <- <-.
    destruct (Hblk addr2 l2 Hl2) as (al' & r' & i' & p' & Hb' & al0 & Hal0 & Hsz).
    pose proof (Load3D_spec _ _ _ addr2 l2 al' r' i' p' n Hm' Hl2 Hb' ltac:(lia)) as Hnew.
    assert (al0 = al2) as -> by congruence. rewrite Hsz in Hnew.
    destruct (Z.leb_spec n (al_Size al2)); [|lia]. destruct Hnew as (mm3 & d3 & Hnew & Hb3 & _).
    rewrite (stored_other h a mm addr l al r i p data Ha Hm Hl Hb Hlen addr2 l2 al2 r2 i2 p2 n Hl2 Hb2 Hne Hn), Hbx in Hb3.
    injection Hb3 as <-. by exists mm3.
Qed.

(** Both blocks of the scenario, tracked. *)
Definition tracked_two : MemoryManager :=
  with_allocations (<[NewAddress 2 0 40 := 1]> (<[NewAddress 2 0 0 := 0]> ∅)) NewMemoryManager.

Lemma tracked_two_inv : mm_inv two_blocks.1 two_blocks.2 tracked_two.
Proof.
  intros addr l Hl. simpl in Hl.
  apply lookup_insert_Some in Hl as [[<- <-]|[_ Hl]];
    [|apply lookup_insert_Some in Hl as [[<- <-]|[_ Hl]]; [|by rewrite lookup_empty in Hl]].
  - split; [apply (bool_decide_unpack _); by vm_compute|]. exists (block_of two_blocks 1).
    split_and!; vm_compute; reflexivity.
  - split; [apply (bool_decide_unpack _); by vm_compute|]. exists (block_of two_blocks 0).
    split_and!; vm_compute; reflexivity.
Qed.

Lemma store_then_load_witness :
  exists h' a' mm' mm'', @Store3D (runtime_fwd 0) two_blocks.1 two_blocks.2 tracked_two (NewAddress 2 0 40) [7; 8; 9]
      = Ret (h', a', mm', None) /\
    @Load3D (runtime_fwd 0) h' a' mm' (NewAddress 2 0 40) 3 = Ret (mm'', inr [7; 8; 9]).
Proof.
  destruct (@store_then_load (runtime_fwd 0) two_blocks.1 two_blocks.2 tracked_two (NewAddress 2 0 40) 1
    (block_of two_blocks 1) [7; 8; 9]) as (h' & a' & mm' & Hs & _ & _ & [mm'' Hl] & _).
  - apply two_blocks_inv.
  - apply tracked_two_inv.
  - vm_compute. reflexivity.
  - vm_compute. reflexivity.
  - vm_compute. discriminate.
  - exists h', a', mm', mm''. split; [exact Hs | exact Hl].
Defined.

(** C17. The manager never touches memory outside a tracked block: a store or load
    at an address that is not the start of a tracked block is refused as not
    allocated, one that is longer than the block is refused as out of bounds, and
    a refused store changes nothing. *)
Theorem store_load_bounds `{GoRuntime} h a mm addr data n :
  alloc_inv h a -> mm_inv h a mm -> Z.of_nat (length data) < 4294967296 -> 0 <= n < 4294967296 ->
  match mm_allocations mm !! addr with
  | None => Store3D h a mm addr data = Ret (h, a, mm, Some (ErrAddressNotAllocated addr)) /\
      Load3D h a mm addr n = Ret (mm, inl (ErrAddressNotAllocated addr))
  | Some l => exists al, heap_get h l = Some al /\
      (al_Size al < Z.of_nat (length data) -> Store3D h a mm addr data =
         Ret (h, a, mm, Some (bounds_error "write" (al_Size al) (Z.of_nat (length data))))) /\
      (al_Size al < n -> Load3D h a mm addr n = Ret (mm, inl (bounds_error "read" (al_Size al) n)))
  end.
Proof.
  intros Ha Hm Hd Hn. destruct (mm_allocations mm !! addr) as [l|] eqn:Hl.
  - destruct (tracked_block h a mm addr l Ha Hm Hl) as (al & r & i & p & Hb). exists al. split; [apply Hb|]. split.
    + intros Hlt. pose proof (Store3D_spec h a mm addr l al r i p data Hm Hl Hb Hd) as Hst.
      destruct (Z.leb_spec (Z.of_nat (length data)) (al_Size al)); [lia|done].
    + intros Hlt. pose proof (Load3D_spec h a mm addr l al r i p n Hm Hl Hb Hn) as Hld.
      destruct (Z.leb_spec n (al_Size al)); [lia|done].
  - unfold Store3D, Load3D. rewrite (getAllocation_spec h a) by done. by rewrite Hl.
Qed.

Lemma store_load_bounds_witness :
  @Load3D (runtime_fwd 0) two_blocks.1 two_blocks.2 tracked_two (NewAddress 2 0 40) 11
    = Ret (tracked_two, inl (ErrText "read out of bounds")).
Proof.
  destruct (@store_load_bounds (runtime_fwd 0) two_blocks.1 two_blocks.2 tracked_two (NewAddress 2 0 40) [] 11
    two_blocks_inv tracked_two_inv ltac:(by vm_compute) ltac:(lia)) as (al & Hal & _ & Hload).
  vm_compute in Hal. injection Hal as <-. apply Hload. vm_compute. reflexivity.
Defined.
