(* ===== verification/VM.v ===== *)
(** * The virtual machine (internal/vm/executor.go, vm.go)

    The state of the VM is a record; each [execute*] handler takes the whole
    state and returns it with the error the Go method returns.  The byte slices
    shared between registers, cache and tree are never written in place, so they
    are plain lists.  The fields [stack], [callStack] and [haltChan] of the struct
    are never used by its methods and are left out. *)
From S2P Require Import Prelude Words Float64 Address Errors Bitmap Plane Region Allocator.
From S2P Require Import Gas Sha256 Merkle Spatial Registers Instructions MemoryManager.
From stdpp Require Import strings.
#[local] Open Scope Z_scope.

(** Kept in the configuration; nothing reads it. *)
Definition LogLevelSilent : Z := 0.
Definition LogLevelError : Z := 1.
Definition LogLevelWarn : Z := 2.
Definition LogLevelInfo : Z := 3.
Definition LogLevelDebug : Z := 4.

Record VMConfig := mkVMConfig {
  vc_MemorySize : Z; vc_GasLimit : Z; vc_EnableProof : bool; vc_EnableCompaction : bool;
  vc_MaxInstructions : Z; vc_LogLevel : Z }.

Record VMStats := mkVMStats {
  vs_InstructionsExecuted : Z; vs_TotalGasUsed : Z; vs_Allocations : Z; vs_MemoryUsage : Z;
  vs_YPromotions : Z; vs_StartTime : Z; vs_RunTime : Z }.

Record VM3D := mkVM {
  vm_heap : Heap; (* the allocation objects *)
  vm_allocator : Allocator3D;
  vm_gasAccount : GasAccountant3D;
  vm_merkleTree : option Tree3D;
  vm_registers : Registers;
  vm_memory : MemoryManager;
  vm_cache : SpatialCache;
  vm_pc : Z;
  vm_halted : bool;
  vm_stats : VMStats;
  vm_latency : list Z; (* metrics.InstructionLatency *)
  vm_config : VMConfig;
  vm_paused : bool;
}.

(** ** Field updates *)

Definition set_memory (h : Heap) (a : Allocator3D) (mm : MemoryManager) (v : VM3D) : VM3D :=
  mkVM h a (vm_gasAccount v) (vm_merkleTree v) (vm_registers v) mm (vm_cache v) (vm_pc v) (vm_halted v)
    (vm_stats v) (vm_latency v) (vm_config v) (vm_paused v).

Definition set_gas (g : GasAccountant3D) (v : VM3D) : VM3D :=
  mkVM (vm_heap v) (vm_allocator v) g (vm_merkleTree v) (vm_registers v) (vm_memory v) (vm_cache v) (vm_pc v)
    (vm_halted v) (vm_stats v) (vm_latency v) (vm_config v) (vm_paused v).

Definition set_tree (t : option Tree3D) (v : VM3D) : VM3D :=
  mkVM (vm_heap v) (vm_allocator v) (vm_gasAccount v) t (vm_registers v) (vm_memory v) (vm_cache v) (vm_pc v)
    (vm_halted v) (vm_stats v) (vm_latency v) (vm_config v) (vm_paused v).

Definition set_registers (r : Registers) (v : VM3D) : VM3D :=
  mkVM (vm_heap v) (vm_allocator v) (vm_gasAccount v) (vm_merkleTree v) r (vm_memory v) (vm_cache v) (vm_pc v)
    (vm_halted v) (vm_stats v) (vm_latency v) (vm_config v) (vm_paused v).

Definition set_cache (c : SpatialCache) (v : VM3D) : VM3D :=
  mkVM (vm_heap v) (vm_allocator v) (vm_gasAccount v) (vm_merkleTree v) (vm_registers v) (vm_memory v) c (vm_pc v)
    (vm_halted v) (vm_stats v) (vm_latency v) (vm_config v) (vm_paused v).

Definition set_control (pc : Z) (halted : bool) (stats : VMStats) (latency : list Z) (v : VM3D) : VM3D :=
  mkVM (vm_heap v) (vm_allocator v) (vm_gasAccount v) (vm_merkleTree v) (vm_registers v) (vm_memory v) (vm_cache v)
    pc halted stats latency (vm_config v) (vm_paused v).

Definition set_stats (stats : VMStats) (v : VM3D) : VM3D :=
  set_control (vm_pc v) (vm_halted v) stats (vm_latency v) v.

Definition count_allocation (yPromoted : bool) (s : VMStats) : VMStats :=
  mkVMStats (vs_InstructionsExecuted s) (vs_TotalGasUsed s) (u64 (vs_Allocations s + 1)) (vs_MemoryUsage s)
    (if yPromoted then u64 (vs_YPromotions s + 1) else vs_YPromotions s) (vs_StartTime s) (vs_RunTime s).

(** What a handler returns. *)
Notation outcome := (res (VM3D * option error)) (only parsing).

Definition fail (v : VM3D) (msg : string) : outcome := Ret (v, Some (ErrText msg)).

(** Update the tree when there is one. *)
Definition tree_update `{GoRuntime} (v : VM3D) (addr : Address3D) (data : list Z) : VM3D :=
  match vm_merkleTree v with
  | None => v
  | Some t => set_tree (Some (Update t addr data)) v
  end.

(** ** Handlers *)

Definition executeMLoad3D `{GoRuntime} (v : VM3D) (inst : Instruction3D) : outcome :=
  match in_Operands inst with
  | [o0; o1; o2] =>
      match op_Value o0 with
      | VAddress addr =>
          match op_Value o1 with
          | VUint32 size =>
              match op_Value o2 with
              | VRegister reg =>
                  '(cache, hit) ← Cache_Get (vm_cache v) addr;
                  let v := set_cache cache v in
                  let load :=
                    '(mm, r) ← Load3D (vm_heap v) (vm_allocator v) (vm_memory v) addr size;
                    let v := set_memory (vm_heap v) (vm_allocator v) mm v in
                    match r with
                    | inl err => Ret (v, Some (ErrWrap "MLOAD3D failed" err))
                    | inr data =>
                        let v := set_cache (Put (vm_cache v) addr data) v in
                        let v := set_registers (Reg_Set (vm_registers v) reg data) v in
                        h ← UpdateAccess (vm_heap v) (vm_memory v) addr;
                        Ret (set_memory h (vm_allocator v) (vm_memory v) v, None)
                    end in
                  match hit with
                  | Some data =>
                      if size <=? u32 (Z.of_nat (length data))
                      then Ret (set_registers (Reg_Set (vm_registers v) reg (take (Z.to_nat size) data)) v, None)
                      else load
                  | None => load
                  end
              | _ => fail v "invalid register operand"
              end
          | _ => fail v "invalid size operand"
          end
      | _ => fail v "invalid address operand"
      end
  | _ => fail v "MLOAD3D requires 3 operands"
  end.

Definition executeMStore3D `{GoRuntime} (v : VM3D) (inst : Instruction3D) : outcome :=
  match in_Operands inst with
  | [o0; o1; o2] =>
      match op_Value o0 with
      | VAddress addr =>
          match op_Value o1 with
          | VRegister reg =>
              match op_Value o2 with
              | VUint32 size =>
                  let data := Reg_Get (vm_registers v) reg in
                  if u32 (Z.of_nat (length data)) <? size then fail v "register data too small"
                  else
                    let data := take (Z.to_nat size) data in
                    '(h, a, mm, err) ← Store3D (vm_heap v) (vm_allocator v) (vm_memory v) addr data;
                    let v := set_memory h a mm v in
                    match err with
                    | Some err => Ret (v, Some (ErrWrap "MSTORE3D failed" err))
                    | None =>
                        let v := set_cache (Put (vm_cache v) addr data) v in
                        let v := tree_update v addr data in
                        h ← UpdateAccess (vm_heap v) (vm_memory v) addr;
                        Ret (set_memory h (vm_allocator v) (vm_memory v) v, None)
                    end
              | _ => fail v "invalid size operand"
              end
          | _ => fail v "invalid register operand"
          end
      | _ => fail v "invalid address operand"
      end
  | _ => fail v "MSTORE3D requires 3 operands"
  end.

Definition executeMAlloc3D `{GoRuntime} (v : VM3D) (inst : Instruction3D) : outcome :=
  match in_Operands inst with
  | [o0; o1; o2] =>
      match op_Value o0 with
      | VUint32 size =>
          match op_Value o1 with
          | VRegionType regionType =>
              let flags := match op_Value o2 with VFlags f => f | _ => 0 end in
              '(h, a, r) ← Allocate false (vm_heap v) (vm_allocator v) size regionType flags;
              let v := set_memory h a (vm_memory v) v in
              match r with
              | inl err => Ret (v, Some (ErrWrap "MALLOC3D failed" err))
              | inr l =>
                  alloc ← deref (heap_get (vm_heap v) l);
                  let v := set_registers (SetAddress (vm_registers v) R0 (al_Address alloc)) v in
                  mm ← trackAllocation (vm_heap v) (vm_memory v) l;
                  let v := set_memory (vm_heap v) (vm_allocator v) mm v in
                  Ret (set_stats (count_allocation (IsYPromoted alloc) (vm_stats v)) v, None)
              end
          | _ => fail v "invalid region type operand"
          end
      | _ => fail v "invalid size operand"
      end
  | _ => fail v "MALLOC3D requires 3 operands"
  end.

Definition executeMFree3D `{GoRuntime} (v : VM3D) (inst : Instruction3D) : outcome :=
  match in_Operands inst with
  | [o0] =>
      match op_Value o0 with
      | VAddress addr =>
          o ← getAllocation (vm_heap v) (vm_memory v) addr;
          match o with
          | None => fail v "allocation not found"
          | Some l =>
              '(a, err) ← Free (vm_heap v) (vm_allocator v) l;
              let v := set_memory (vm_heap v) a (vm_memory v) v in
              match err with
              | Some err => Ret (v, Some (ErrWrap "MFREE3D failed" err))
              | None =>
                  mm ← untrackAllocation (vm_heap v) (vm_memory v) addr;
                  let v := set_memory (vm_heap v) (vm_allocator v) mm v in
                  Ret (set_cache (Invalidate (vm_cache v) addr) v, None)
              end
          end
      | _ => fail v "invalid address operand"
      end
  | _ => fail v "MFREE3D requires 1 operand"
  end.

Definition executeMCopy3D `{GoRuntime} (v : VM3D) (inst : Instruction3D) : outcome :=
  match in_Operands inst with
  | [o0; o1; o2] =>
      match op_Value o0 with
      | VAddress srcAddr =>
          match op_Value o1 with
          | VAddress dstAddr =>
              match op_Value o2 with
              | VUint32 size =>
                  '(mm, r) ← Load3D (vm_heap v) (vm_allocator v) (vm_memory v) srcAddr size;
                  let v := set_memory (vm_heap v) (vm_allocator v) mm v in
                  match r with
                  | inl err => Ret (v, Some (ErrWrap "MCOPY3D failed to load source" err))
                  | inr data =>
                      '(h, a, mm, err) ← Store3D (vm_heap v) (vm_allocator v) (vm_memory v) dstAddr data;
                      let v := set_memory h a mm v in
                      match err with
                      | Some err => Ret (v, Some (ErrWrap "MCOPY3D failed to store destination" err))
                      | None =>
                          let v := set_cache (Put (vm_cache v) srcAddr data) v in
                          Ret (set_cache (Put (vm_cache v) dstAddr data) v, None)
                      end
                  end
              | _ => fail v "invalid size operand"
              end
          | _ => fail v "invalid destination address"
          end
      | _ => fail v "invalid source address"
      end
  | _ => fail v "MCOPY3D requires 3 operands"
  end.

Definition QueryFreeMemory : Z := 0.
Definition QueryFragmentation : Z := 1.
Definition QueryAllocationInfo : Z := 2.
Definition QueryGasRemaining : Z := 3. (* these two have no case *)
Definition QueryMemoryUsage : Z := 4.

Definition float64ToBytes (f : float64) : list Z := be_bytes 8 (Float64bits f).

Definition allocInfoToBytes (alloc : Allocation) : list Z :=
  be_bytes 8 (al_ID alloc) ++ be_bytes 4 (al_Size alloc) ++ [u8 (al_Flags alloc)] ++
  [if IsYPromoted alloc then 1 else 0] ++ replicate 18 0.

Definition executeMQuery3D `{GoRuntime} (v : VM3D) (inst : Instruction3D) : outcome :=
  match in_Operands inst with
  | [o0; o1; o2] =>
      match op_Value o0 with
      | VByte queryType =>
          match op_Value o1 with
          | VAddress addr =>
              match op_Value o2 with
              | VRegister reg =>
                  let finish result := Ret (set_registers (Reg_Set (vm_registers v) reg result) v, None) in
                  if queryType =? QueryFreeMemory then
                    free ← GetFreeMemory (vm_allocator v) (vm_memory v) (aX addr);
                    finish (uint64ToBytes free)
                  else if queryType =? QueryFragmentation then
                    frag ← GetFragmentation (vm_allocator v) (aX addr);
                    finish (float64ToBytes frag)
                  else if queryType =? QueryAllocationInfo then
                    o ← getAllocation (vm_heap v) (vm_memory v) addr;
                    match o with
                    | None => finish (replicate 32 0)
                    | Some l => alloc ← deref (heap_get (vm_heap v) l); finish (allocInfoToBytes alloc)
                    end
                  else Ret (v, Some (ErrUnknownQueryType queryType))
              | _ => fail v "invalid register"
              end
          | _ => fail v "invalid address"
          end
      | _ => fail v "invalid query type"
      end
  | _ => fail v "MQUERY3D requires 3 operands"
  end.

Definition executeNOP (v : VM3D) : outcome := Ret (v, None).

Definition executeAdd3D (v : VM3D) (inst : Instruction3D) : outcome :=
  match in_Operands inst with
  | [o0; o1; o2] =>
      match op_Value o0 with
      | VRegister destReg =>
          match op_Value o1 with
          | VRegister srcReg1 =>
              match op_Value o2 with
              | VRegister srcReg2 =>
                  let result := u64 (GetUint64 (vm_registers v) srcReg1 + GetUint64 (vm_registers v) srcReg2) in
                  Ret (set_registers (SetUint64 (vm_registers v) destReg result) v, None)
              | _ => fail v "invalid source register 2 operand"
              end
          | _ => fail v "invalid source register 1 operand"
          end
      | _ => fail v "invalid destination register operand"
      end
  | _ => fail v "ADD3D requires 3 operands"
  end.

Definition executeSub3D (v : VM3D) (inst : Instruction3D) : outcome :=
  match in_Operands inst with
  | [o0; o1; o2] =>
      match op_Value o0 with
      | VRegister destReg =>
          match op_Value o1 with
          | VRegister srcReg1 =>
              match op_Value o2 with
              | VRegister srcReg2 =>
                  let result := u64 (GetUint64 (vm_registers v) srcReg1 - GetUint64 (vm_registers v) srcReg2) in
                  Ret (set_registers (SetUint64 (vm_registers v) destReg result) v, None)
              | _ => fail v "invalid source register 2 operand"
              end
          | _ => fail v "invalid source register 1 operand"
          end
      | _ => fail v "invalid destination register operand"
      end
  | _ => fail v "SUB3D requires 3 operands"
  end.

Definition executeMov3D (v : VM3D) (inst : Instruction3D) : outcome :=
  match in_Operands inst with
  | [o0; o1] =>
      match op_Value o0 with
      | VRegister destReg =>
          match op_Value o1 with
          | VRegister srcReg =>
              Ret (set_registers (Reg_Set (vm_registers v) destReg (Reg_Get (vm_registers v) srcReg)) v, None)
          | _ => fail v "invalid source register operand"
          end
      | _ => fail v "invalid destination register operand"
      end
  | _ => fail v "MOV3D requires 2 operands"
  end.

Definition executeMSize3D `{GoRuntime} (v : VM3D) (inst : Instruction3D) : outcome :=
  match in_Operands inst with
  | [o0; o1] =>
      match op_Value o0 with
      | VAddress addr =>
          match op_Value o1 with
          | VRegister destReg =>
              o ← getAllocation (vm_heap v) (vm_memory v) addr;
              match o with
              | None => Ret (set_registers (SetUint64 (vm_registers v) destReg 0) v, None)
              | Some l =>
                  alloc ← deref (heap_get (vm_heap v) l);
                  Ret (set_registers (SetUint64 (vm_registers v) destReg (al_Size alloc)) v, None)
              end
          | _ => fail v "invalid destination register operand"
          end
      | _ => fail v "invalid address operand"
      end
  | _ => fail v "MSIZE3D requires 2 operands"
  end.

(** Halting only sets the flag the loop tests. *)
Definition executeHalt3D (v : VM3D) : outcome :=
  Ret (set_control (vm_pc v) true (vm_stats v) (vm_latency v) v, None).

(** Compaction moves nothing: it refunds gas for the blocks that could move. *)
Definition executeMCompact3D `{GoRuntime} (v : VM3D) : outcome :=
  let config := DefaultCompactionConfig in
  allocsToMove ← AnalyzeCompaction (vm_heap v) (vm_allocator v) config;
  match allocsToMove with
  | [] => Ret (v, None)
  | _ =>
      let compactedSize := u64 (100 * Z.of_nat (length allocsToMove)) in
      let gasRefund := f64_to_u64 (f64_mul (f64_of_Z compactedSize) (cc_GasRefundPercentage config)) in
      g ← (if 0 <? gasRefund then Refund (vm_gasAccount v) gasRefund else Ret (vm_gasAccount v));
      let v := set_gas g v in
      let s := vm_stats v in
      if compactedSize <? vs_MemoryUsage s then
        Ret (set_stats (mkVMStats (vs_InstructionsExecuted s) (vs_TotalGasUsed s) (vs_Allocations s)
          (u64 (vs_MemoryUsage s + not64 (u64 (compactedSize - 1)))) (vs_YPromotions s) (vs_StartTime s)
          (vs_RunTime s)) v, None)
      else Ret (v, None)
  end.

(** ** Gas of an instruction *)

Definition baseCost (opcode : Z) : Z :=
  if opcode =? OP_MLOAD3D then 10
  else if opcode =? OP_MSTORE3D then 15
  else if opcode =? OP_MALLOC3D then 20
  else if opcode =? OP_MFREE3D then 5
  else if opcode =? OP_MCOPY3D then 25
  else if opcode =? OP_MQUERY3D then 8
  else if opcode =? OP_MCOMPACT3D then 30
  else if opcode =? OP_NOP then 1
  else if opcode =? OP_ADD3D then 3
  else if opcode =? OP_SUB3D then 3
  else if opcode =? OP_MOV3D then 2
  else if opcode =? OP_MSIZE3D then 5
  else if opcode =? OP_HALT3D then 1
  else 0.

Definition calculateGasCost (inst : Instruction3D) : Z :=
  foldl (fun cost operand =>
    match op_Type operand, op_Value operand with
    | OT_SIZE, VUint32 size => u64 (cost + u64 (size * 2))
    | _, _ => cost
    end) (baseCost (in_Opcode inst)) (in_Operands inst).

Definition executeInstruction `{GoRuntime} (v : VM3D) (inst : Instruction3D) : outcome :=
  let gasCost := calculateGasCost inst in
  '(g, err) ← Consume (vm_gasAccount v) gasCost;
  let v := set_gas g v in
  match err with
  | Some err => Ret (v, Some err)
  | None =>
      let op := in_Opcode inst in
      if op =? OP_MLOAD3D then executeMLoad3D v inst
      else if op =? OP_MSTORE3D then executeMStore3D v inst
      else if op =? OP_MALLOC3D then executeMAlloc3D v inst
      else if op =? OP_MFREE3D then executeMFree3D v inst
      else if op =? OP_MCOPY3D then executeMCopy3D v inst
      else if op =? OP_MQUERY3D then executeMQuery3D v inst
      else if op =? OP_MCOMPACT3D then executeMCompact3D v
      else if op =? OP_NOP then executeNOP v
      else if op =? OP_ADD3D then executeAdd3D v inst
      else if op =? OP_SUB3D then executeSub3D v inst
      else if op =? OP_MOV3D then executeMov3D v inst
      else if op =? OP_MSIZE3D then executeMSize3D v inst
      else if op =? OP_HALT3D then executeHalt3D v
      else Ret (v, Some (ErrUnsupportedOpcode op))
  end.

(** ** Fetch and execute *)

Definition fetchInstruction (pc : Z) (program : list Z) : error + Instruction3D :=
  let remaining := u64 (Z.of_nat (length program) - pc) in
  if remaining <? 1 then inl (ErrText "no more instructions")
  else
    let opcode := byte_at program (Z.to_nat pc) in
    let instSize :=
      if (opcode =? OP_MLOAD3D) || (opcode =? OP_MSTORE3D) || (opcode =? OP_MCOPY3D) then 20
      else if opcode =? OP_MALLOC3D then 14
      else if opcode =? OP_MFREE3D then 15
      else if opcode =? OP_MSIZE3D then 16
      else if opcode =? OP_MOV3D then 8
      else if (opcode =? OP_ADD3D) || (opcode =? OP_SUB3D) then 4
      else 1 in
    if remaining <? instSize then inl (ErrText "incomplete instruction")
    else DecodeInstruction (slice (Z.to_nat pc) (Z.to_nat (pc + instSize)) program).

(** The statistics after one more instruction. *)
Definition count_instruction (s : VMStats) : VMStats :=
  mkVMStats (u64 (vs_InstructionsExecuted s + 1)) (vs_TotalGasUsed s) (vs_Allocations s) (vs_MemoryUsage s)
    (vs_YPromotions s) (vs_StartTime s) (vs_RunTime s).

Definition with_times (start run : Z) (s : VMStats) : VMStats :=
  mkVMStats (vs_InstructionsExecuted s) (vs_TotalGasUsed s) (vs_Allocations s) (vs_MemoryUsage s)
    (vs_YPromotions s) start run.

(** The loop of [Execute]; [rt k] is the run time during the [k]-th round, so that
    clocks and iteration orders may differ from one instruction to the next.
    [None] when the fuel ends before the loop does.  A paused VM waits for a
    signal that nothing sends. *)
Fixpoint exec_loop (rt : nat -> GoRuntime) (fuel k : nat) (v : VM3D) (program : list Z) : option outcome :=
  match fuel with
  | O => None
  | S fuel =>
      if (vm_pc v <? Z.of_nat (length program)) && negb (vm_halted v) then
        if vm_paused v then Some Hang
        else match fetchInstruction (vm_pc v) program with
        | inl err => Some (Ret (v, Some (ErrFetch (vm_pc v) err)))
        | inr inst =>
            match @executeInstruction (rt k) v inst with
            | Ret (v, err) =>
                let v := set_control (vm_pc v) (vm_halted v) (count_instruction (vm_stats v))
                           (vm_latency v ++ [@rt_now (rt k) 8 - @rt_now (rt k) 7]) v in
                match err with
                | Some err => Some (Ret (v, Some (ErrExecution (vm_pc v) err)))
                | None =>
                    if Remaining (vm_gasAccount v) =? 0 then Some (fail v "gas exhausted")
                    else if vc_MaxInstructions (vm_config v) <=? vs_InstructionsExecuted (vm_stats v)
                    then Some (fail v "instruction limit exceeded")
                    else exec_loop rt fuel (S k)
                      (set_control (u64 (vm_pc v + in_Size inst)) (vm_halted v) (vm_stats v) (vm_latency v) v) program
                end
            | Panic => Some Panic
            | Hang => Some Hang
            end
        end
      else
        let s := vm_stats v in
        Some (Ret (set_stats (with_times (vs_StartTime s) (@rt_now (rt k) 9 - vs_StartTime s) s) v, None))
  end.

(** One round per byte of the program is enough. *)
Definition Execute (rt : nat -> GoRuntime) (v : VM3D) (program : list Z) : outcome :=
  let v := set_control 0 false (with_times (@rt_now (rt O) 10) (vs_RunTime (vm_stats v)) (vm_stats v))
             (vm_latency v) v in
  default Hang (exec_loop rt (S (length program)) 0 v program).

(** ** Construction and the API of the VM *)

Definition NewVM3D `{GoRuntime} (config : VMConfig) : VM3D := {|
  vm_heap := empty_heap;
  vm_allocator := NewAllocator3D (mkConfig PlaneSize 1024 8 4 false false);
  vm_gasAccount := NewAccountant (vc_GasLimit config);
  vm_merkleTree := if vc_EnableProof config then Some NewTree3D else None;
  vm_registers := NewRegisters;
  vm_memory := NewMemoryManager;
  vm_cache := NewSpatialCache;
  vm_pc := 0; vm_halted := false;
  vm_stats := mkVMStats 0 0 0 0 0 (rt_now 0) 0;
  vm_latency := []; vm_config := config; vm_paused := false |}.

Definition IsAllocatorConcurrent (v : VM3D) : bool := IsConcurrent (vm_allocator v).

Definition GetMerkleProof (v : VM3D) (addr : Address3D) : error + list (list Z) :=
  match vm_merkleTree v with
  | None => inl (ErrText "merkle tree not enabled")
  | Some t => inr (GenerateProof t addr)
  end.

Definition VerifyMemoryState (v : VM3D) (addr : Address3D) (data : list Z) (proof : list (list Z)) : error + bool :=
  match vm_merkleTree v with
  | None => inl (ErrText "merkle tree not enabled")
  | Some t => inr (VerifyProof t addr proof data)
  end.

Definition GetMerkleRoot (v : VM3D) : option (list Z) := GetRoot <$> vm_merkleTree v.

Definition GetStats (v : VM3D) : VMStats := vm_stats v.
Definition GetGasRemaining (v : VM3D) : Z := Remaining (vm_gasAccount v).
Definition GetGasUsed (v : VM3D) : Z := Used (vm_gasAccount v).

(** Accessors to shared parts; what a caller does with them are updates of the VM. *)
Definition GetMemoryManager (v : VM3D) : MemoryManager := vm_memory v.
Definition GetRegisters (v : VM3D) : Registers := vm_registers v.

(** [NewMerkleTree]: a tree of its own, not that of a VM. *)
Definition NewMerkleTree : Tree3D := NewTree3D.

Definition VM_Load3D `{GoRuntime} (v : VM3D) (addr : Address3D) (size : Z) : res (VM3D * (error + list Z)) :=
  '(mm, r) ← Load3D (vm_heap v) (vm_allocator v) (vm_memory v) addr size;
  Ret (set_memory (vm_heap v) (vm_allocator v) mm v, r).

(** The end of [Store3D]: cache, tree, statistics and gas. *)
Definition store_finish `{GoRuntime} (v : VM3D) (addr : Address3D) (data : list Z) : outcome :=
  let v := set_cache (Put (vm_cache v) addr data) v in
  let v := tree_update v addr data in
  h ← UpdateAccess (vm_heap v) (vm_memory v) addr;
  let v := set_memory h (vm_allocator v) (vm_memory v) v in
  '(g, err) ← Consume (vm_gasAccount v) (u64 (15 * Z.of_nat (length data)));
  Ret (set_gas g v, err).

Definition VM_Store3D `{GoRuntime} (v : VM3D) (addr : Address3D) (data : list Z) : outcome :=
  '(h, a, mm, err) ← Store3D (vm_heap v) (vm_allocator v) (vm_memory v) addr data;
  let v := set_memory h a mm v in
  match err with
  | None => store_finish v addr data
  | Some err =>
      if decide (err = ErrAddressNotAllocated addr) then
        '(h, a, r) ← Allocate false (vm_heap v) (vm_allocator v) (u32 (Z.of_nat (length data))) RegionTypeHeap 0;
        let v := set_memory h a (vm_memory v) v in
        match r with
        | inl aerr => Ret (v, Some aerr)
        | inr l =>
            mm ← trackAllocation (vm_heap v) (vm_memory v) l;
            let v := set_memory (vm_heap v) (vm_allocator v) mm v in
            alloc ← deref (heap_get (vm_heap v) l);
            let addr := al_Address alloc in
            '(h, a, mm, serr) ← Store3D (vm_heap v) (vm_allocator v) (vm_memory v) addr data;
            let v := set_memory h a mm v in
            match serr with
            | Some serr => Ret (v, Some serr)
            | None => store_finish v addr data
            end
        end
      else Ret (v, Some err)
  end.

Definition AllocateMemory `{GoRuntime} (v : VM3D) (size regionType : Z) : res (VM3D * (error + Address3D)) :=
  '(h, a, r) ← Allocate false (vm_heap v) (vm_allocator v) size regionType 0;
  let v := set_memory h a (vm_memory v) v in
  match r with
  | inl err => Ret (v, inl err)
  | inr l =>
      mm ← trackAllocation (vm_heap v) (vm_memory v) l;
      let v := set_memory (vm_heap v) (vm_allocator v) mm v in
      alloc ← deref (heap_get (vm_heap v) l);
      Ret (v, inr (al_Address alloc))
  end.

Definition VM_GetCompactionReport (v : VM3D) : gmap Z CompactionReport :=
  Allocator_GetCompactionReport (vm_allocator v).

Definition VM_AnalyzeCompaction `{GoRuntime} (v : VM3D) (config : CompactionConfig) : res (list Z) :=
  AnalyzeCompaction (vm_heap v) (vm_allocator v) config.

Definition ExecuteCompactInstruction `{GoRuntime} (v : VM3D) (inst : Instruction3D) : outcome := executeMCompact3D v.
