(* ===== verification/Progress.v ===== *)
(** * No call blocks

    A small program logic for [res]: [ends m P] says that the call [m] does not
    block and that its result, when it returns one, satisfies [P].  With it the
    allocator, the memory manager and the handlers of the VM are shown to keep the
    allocator's configuration and never to wait for a lock or a worker, whatever
    the state they start from: the only waiting calls need a concurrent
    configuration, which the VM never makes. *)
From S2P Require Import Prelude Words Float64 Address Errors Bitmap Plane Region Allocator AllocatorInv.
From S2P Require Import Gas Sha256 Merkle Spatial Registers Instructions MemoryManager VM.
From stdpp Require Import strings.
#[local] Open Scope Z_scope.

Definition ends {A} (m : res A) (P : A -> Prop) : Prop :=
  match m with Ret a => P a | Panic => True | Hang => False end.

Lemma ends_mono {A} (m : res A) (P Q : A -> Prop) : ends m P -> (forall a, P a -> Q a) -> ends m Q.
Proof. destruct m; simpl; auto. Qed.

Lemma ends_bind {A B} (m : res A) (f : A -> res B) P :
  ends m (fun a => ends (f a) P) -> ends (m ≫= f) P.
Proof. by destruct m. Qed.

(** A call of which only termination matters. *)
Lemma ends_call {A B} (m : res A) (f : A -> res B) P :
  ends m (fun _ => True) -> (forall a, ends (f a) P) -> ends (m ≫= f) P.
Proof. destruct m; simpl; auto. Qed.

Lemma ends_deref {A} (o : option A) : ends (deref o) (fun _ => True).
Proof. by destruct o. Qed.

Create HintDb ends.
#[export] Hint Resolve ends_deref : ends.

(** Follow the code: sequence, branch, return. *)
Ltac follow :=
  repeat match goal with
  | |- ends (_ ≫= _) _ => apply ends_call; [solve [eauto with ends] | intros ?]
  | |- ends (Ret _) _ => cbn [ends]; try solve [auto | done]
  | |- ends Panic _ => exact I
  | |- ends (let '(_, _) := ?x in _) _ => destruct x eqn:?
  | |- ends (match ?x with _ => _ end) _ => destruct x eqn:?
  | |- ends _ (fun _ => True) => solve [eauto with ends]
  end.

(** ** Bitmap, plane *)

Lemma range_mask_ends s e si ei wj : ends (range_mask s e si ei wj) (fun _ => True).
Proof. unfold range_mask. cbv zeta. follow. Qed.
#[export] Hint Resolve range_mask_ends : ends.

Lemma range_free_ends bits s e si ei n wj : ends (range_free bits s e si ei n wj) (fun _ => True).
Proof. revert wj. induction n as [|n IH]; intros wj; cbn [range_free]; follow. Qed.
#[export] Hint Resolve range_free_ends : ends.

Lemma scan_word_ends fuel b size wi fb : ends (scan_word fuel b size wi fb) (fun _ => True).
Proof. revert fb. induction fuel as [|fuel IH]; intros fb; cbn [scan_word]; cbv zeta; follow. Qed.
#[export] Hint Resolve scan_word_ends : ends.

Lemma scan_words_ends b size ws wi : ends (scan_words b size ws wi) (fun _ => True).
Proof. revert wi. induction ws as [|w ws IH]; intros wi; cbn [scan_words]; follow. Qed.
#[export] Hint Resolve scan_words_ends : ends.

Lemma Plane_Allocate_ends p size : ends (Plane_Allocate p size) (fun _ => True).
Proof.
  unfold Plane_Allocate. apply ends_call; [unfold FindContiguous; follow|].
  intros [z found]. follow.
Qed.
#[export] Hint Resolve Plane_Allocate_ends : ends.

Lemma Plane_Free_ends h p z : ends (Plane_Free h p z) (fun _ => True).
Proof. unfold Plane_Free. follow. Qed.
#[export] Hint Resolve Plane_Free_ends : ends.

(** ** Allocator: the configuration stays *)

Definition config_is (c : Config) {A} : Heap * Allocator3D * A -> Prop := fun '(h, a, _) => ac_config a = c.

Lemma alloc_in_planes_ends size ps : ends (alloc_in_planes size ps) (fun _ => True).
Proof. induction ps as [|p ps IH]; cbn [alloc_in_planes]; cbv zeta; follow. Qed.
#[export] Hint Resolve alloc_in_planes_ends : ends.

Lemma record_allocation_config now h a r i p z size rt fl :
  config_is (ac_config a) (record_allocation now h a r i p z size rt fl).
Proof. unfold record_allocation. destruct (heap_new _ _) as [h' l]. cbn [config_is]. by rewrite promote_config. Qed.

Lemma fast_lru_ends now h a size rt lru :
  ends (fast_lru now h a size rt lru) (fun o => match o with Some x => config_is (ac_config a) x | None => True end).
Proof.
  induction lru as [|id lru IH]; cbn [fast_lru]; follow; try done. apply record_allocation_config.
Qed.

Lemma best_region_ends m size rt n ks best bf : ends (best_region m size rt n ks best bf) (fun _ => True).
Proof. revert best bf. induction ks as [|k ks IH]; intros best bf; cbn [best_region]; follow. Qed.
#[export] Hint Resolve best_region_ends : ends.

Lemma alloc_fragments_ends ps cands frags n : ends (alloc_fragments ps cands frags n) (fun _ => True).
Proof.
  revert ps frags n. induction cands as [|i cands IH]; intros ps frags n; cbn [alloc_fragments]; cbv zeta; follow.
Qed.
#[export] Hint Resolve alloc_fragments_ends : ends.

Section Alloc.
Context `{GoRuntime}.

Lemma tryYPromotion_ends h a size rt fl : ends (tryYPromotion h a size rt fl) (config_is (ac_config a)).
Proof.
  unfold tryYPromotion. cbv zeta. follow; try done. cbn [config_is with_counts ac_config]. by rewrite promote_config.
Qed.

Lemma allocateNewRegion_ends h a size rt fl : ends (allocateNewRegion h a size rt fl) (config_is (ac_config a)).
Proof.
  unfold allocateNewRegion. cbv zeta. follow; try done.
  match goal with E : record_allocation ?n ?h ?a ?r ?i ?p ?z ?s ?t ?f = _ |- _ =>
    pose proof (record_allocation_config n h a r i p z s t f) as Hc; rewrite E in Hc end.
  exact Hc.
Qed.

Lemma allocateSync_ends h a size rt fl : ends (allocateSync h a size rt fl) (config_is (ac_config a)).
Proof.
  unfold allocateSync, tryFastAllocation. apply ends_bind. eapply ends_mono; [apply fast_lru_ends|].
  intros [[[h1 a1] l]|]; [done|]. intros _. apply ends_bind. eapply ends_mono; [apply tryYPromotion_ends|].
  intros [[h1 a1] [l|]] Hc; [done|]. cbn [config_is] in Hc. rewrite <- Hc. apply allocateNewRegion_ends.
Qed.

Lemma Allocate_ends q h a size rt fl :
  cf_EnableConcurrent (ac_config a) = false -> ends (Allocate q h a size rt fl) (config_is (ac_config a)).
Proof. unfold Allocate. intros ->. apply allocateSync_ends. Qed.

Lemma free_fragments_ends h ps frags : ends (free_fragments h ps frags) (fun _ => True).
Proof. revert ps. induction frags as [|f frags IH]; intros ps; cbn [free_fragments]; follow. Qed.
#[local] Hint Resolve free_fragments_ends : ends.

Lemma Free_ends h a l : ends (Free h a l) (fun '(a', _) => ac_config a' = ac_config a).
Proof. unfold Free, freeConcurrent, freeSync. cbv zeta. follow. Qed.

(** ** Memory manager, cache, gas *)

Lemma find_fragment_ends h m addr ks : ends (find_fragment h m addr ks) (fun _ => True).
Proof. induction ks as [|k ks IH]; cbn [find_fragment]; follow. Qed.
#[local] Hint Resolve find_fragment_ends : ends.

Lemma getAllocation_ends h mm addr : ends (getAllocation h mm addr) (fun _ => True).
Proof. unfold getAllocation. follow. Qed.

Lemma go_slice_ends d lo hi : ends (go_slice d lo hi) (fun _ => True).
Proof. unfold go_slice. follow. Qed.
#[local] Hint Resolve getAllocation_ends go_slice_ends : ends.

Lemma Load3D_ends h a mm addr size : ends (Load3D h a mm addr size) (fun _ => True).
Proof. unfold Load3D, getAllocationLocked. cbv zeta. apply ends_call; [apply getAllocation_ends|]. intros o. follow. Qed.

Lemma set_plane_data_config a r y d : ac_config (set_plane_data a r y d) = ac_config a.
Proof. unfold set_plane_data. by case_match. Qed.

Lemma Store3D_ends h a mm addr data :
  ends (Store3D h a mm addr data) (fun '(_, a', _, _) => ac_config a' = ac_config a).
Proof.
  unfold Store3D, getAllocationLocked. cbv zeta. apply ends_call; [apply getAllocation_ends|]. intros o. follow.
  apply set_plane_data_config.
Qed.

Lemma track_ends h mm l : ends (trackAllocation h mm l) (fun _ => True).
Proof. unfold trackAllocation. cbv zeta. follow. Qed.

Lemma untrack_ends h mm addr : ends (untrackAllocation h mm addr) (fun _ => True).
Proof. unfold untrackAllocation. cbv zeta. follow. Qed.

Lemma UpdateAccess_ends h mm addr : ends (UpdateAccess h mm addr) (fun _ => True).
Proof. unfold UpdateAccess. follow. Qed.

Lemma Cache_Get_ends c addr : ends (Cache_Get c addr) (fun _ => True).
Proof. unfold Cache_Get. cbv zeta. follow. Qed.

Lemma Consume_ends g cost : ends (Consume g cost) (fun _ => True).
Proof. unfold Consume. cbv zeta. apply ends_call; [unfold getBucket; cbv zeta; follow|]. intros [g' b]. follow. Qed.
#[local] Hint Resolve Load3D_ends track_ends untrack_ends UpdateAccess_ends Cache_Get_ends Consume_ends : ends.

(** ** Handlers of the VM *)

(** The state keeps the configuration of its allocator. *)
Definition keeps (v : VM3D) : VM3D * option error -> Prop :=
  fun '(v', _) => ac_config (vm_allocator v') = ac_config (vm_allocator v).

Lemma tree_update_allocator v addr d : vm_allocator (tree_update v addr d) = vm_allocator v.
Proof. unfold tree_update. by destruct (vm_merkleTree v). Qed.

Lemma load_ends v inst : ends (executeMLoad3D v inst) (keeps v).
Proof. unfold executeMLoad3D, fail. cbv zeta. follow; done. Qed.

Lemma store_ends v inst : ends (executeMStore3D v inst) (keeps v).
Proof.
  unfold executeMStore3D, fail. cbv zeta.
  follow; try done. apply ends_bind. eapply ends_mono; [apply Store3D_ends|].
  intros [[[h' a'] mm'] e] Hc. follow; cbn [keeps set_memory vm_allocator]; rewrite ?tree_update_allocator; done.
Qed.

Lemma alloc_ends v inst :
  cf_EnableConcurrent (ac_config (vm_allocator v)) = false -> ends (executeMAlloc3D v inst) (keeps v).
Proof.
  intros Hc. unfold executeMAlloc3D, fail. cbv zeta.
  follow; try done. all: apply ends_bind; eapply ends_mono; [by apply Allocate_ends|]; intros [[h' a'] e] Hc'; follow.
Qed.

Lemma free_ends v inst : ends (executeMFree3D v inst) (keeps v).
Proof.
  unfold executeMFree3D, fail. cbv zeta. follow; try done.
  apply ends_bind; eapply ends_mono; [apply Free_ends|]; intros [a' e] Hc; follow.
Qed.

Lemma copy_ends v inst : ends (executeMCopy3D v inst) (keeps v).
Proof.
  unfold executeMCopy3D, fail. cbv zeta. follow; try done.
  apply ends_bind; eapply ends_mono; [apply Store3D_ends|]; intros [[[h' a'] mm'] e] Hc; follow.
Qed.

Lemma size_ends v inst : ends (executeMSize3D v inst) (keeps v).
Proof. unfold executeMSize3D, fail. cbv zeta. follow. Qed.

Lemma registers_ends v inst : ends (executeAdd3D v inst) (keeps v) /\ ends (executeSub3D v inst) (keeps v) /\
  ends (executeMov3D v inst) (keeps v) /\ ends (executeNOP v) (keeps v) /\ ends (executeHalt3D v) (keeps v).
Proof.
  unfold executeAdd3D, executeSub3D, executeMov3D, executeNOP, executeHalt3D, fail. cbv zeta. split_and!; follow.
Qed.

(** Every instruction the decoder can produce ends. *)
Lemma executeInstruction_ends v i :
  cf_EnableConcurrent (ac_config (vm_allocator v)) = false -> ends (executeInstruction v (instr_of i)) (keeps v).
Proof.
  intros Hc. unfold executeInstruction. cbv zeta. apply ends_call; [apply Consume_ends|].
  intros [g [err|]]; [done|]. destruct (registers_ends (set_gas g v) (instr_of i)) as (H1 & H2 & H3 & H4 & H5).
  destruct i; cbn [instr_of in_Opcode].
  - apply (load_ends (set_gas g v)).
  - apply (store_ends (set_gas g v)).
  - by apply (alloc_ends (set_gas g v)).
  - apply (free_ends (set_gas g v)).
  - apply (copy_ends (set_gas g v)).
  - exact H1.
  - exact H2.
  - exact H3.
  - apply (size_ends (set_gas g v)).
  - exact H4.
  - exact H5.
Qed.
End Alloc.
