(* ===== verification/VMFrame.v ===== *)
(** * Control flow and gas of the virtual machine

    What no handler changes, what [fetchInstruction] can return, termination of the
    loop of [Execute] and the account of gas along it. *)
From S2P Require Import Prelude Words Float64 Address Errors Bitmap Plane Region Allocator.
From S2P Require Import AllocatorInv YPromotionInv AllocatorSpec AllocatorEdge.
From S2P Require Import Gas Sha256 Merkle Spatial Registers Instructions MemoryManager VM Progress.
From stdpp Require Import strings.
#[local] Open Scope Z_scope.

(** Take apart a hypothesis that says a sequence of calls returned. *)
Ltac inv_res :=
  repeat match goal with
  | H : Ret _ = Ret _ |- _ => injection H as ?; subst
  | H : Panic = Ret _ |- _ => discriminate H
  | H : Hang = Ret _ |- _ => discriminate H
  | H : fail _ _ = Ret _ |- _ => unfold fail in H
  | H : (?m ≫= _) = Ret _ |- _ => apply bind_Ret_inv in H as (? & ? & H)
  | H : (let '(_, _) := ?x in _) = Ret _ |- _ => destruct x
  | H : match ?x with _ => _ end = Ret _ |- _ => destruct x eqn:?
  end.

(** ** Frames of the handlers *)

(** What no instruction handler changes. *)
Definition control (v : VM3D) : Z * VMConfig * bool * list Z := (vm_pc v, vm_config v, vm_paused v, vm_latency v).

Lemma tree_update_control `{GoRuntime} v addr data :
  control (tree_update v addr data) = control v /\ vm_gasAccount (tree_update v addr data) = vm_gasAccount v.
Proof. unfold tree_update. by destruct (vm_merkleTree v). Qed.

(** The opcodes a decoded instruction can have: all but compaction leave the gas
    account alone after their cost was taken. *)
Lemma handler_frame `{GoRuntime} v inst v' e :
  (executeMLoad3D v inst = Ret (v', e) \/ executeMStore3D v inst = Ret (v', e) \/
   executeMAlloc3D v inst = Ret (v', e) \/ executeMFree3D v inst = Ret (v', e) \/
   executeMCopy3D v inst = Ret (v', e) \/ executeMQuery3D v inst = Ret (v', e) \/
   executeNOP v = Ret (v', e) \/ executeAdd3D v inst = Ret (v', e) \/ executeSub3D v inst = Ret (v', e) \/
   executeMov3D v inst = Ret (v', e) \/ executeMSize3D v inst = Ret (v', e) \/ executeHalt3D v = Ret (v', e)) ->
  control v' = control v /\ vm_gasAccount v' = vm_gasAccount v.
Proof.
  intros Hx.
  unfold executeMLoad3D, executeMStore3D, executeMAlloc3D, executeMFree3D, executeMCopy3D, executeMQuery3D,
    executeNOP, executeAdd3D, executeSub3D, executeMov3D, executeMSize3D, executeHalt3D in Hx.
  repeat destruct Hx as [Hx|Hx]; inv_res; try done;
    match goal with |- context [tree_update ?v ?a ?d] =>
      destruct (tree_update_control v a d) as [E1 E2]; unfold control in *; simpl in *; split; congruence end.
Qed.

(** The opcode of a decodable instruction is one that the executor handles, and
    is not compaction. *)
Lemma executeInstruction_frame `{GoRuntime} v i v' e :
  executeInstruction v (instr_of i) = Ret (v', e) ->
  control v' = control v /\
  exists ce, Consume (vm_gasAccount v) (calculateGasCost (instr_of i)) = Ret (vm_gasAccount v', ce) /\
    (ce <> None -> e = ce).
Proof.
  unfold executeInstruction. intros Hx. apply bind_Ret_inv in Hx as ([g ce] & Hc & Hx).
  destruct ce as [err|].
  { inv_res. split; [done|]. exists (Some err). done. }
  assert (control v' = control (set_gas g v) /\ vm_gasAccount v' = vm_gasAccount (set_gas g v)) as [E1 E2].
  { cbv zeta in Hx. repeat match type of Hx with (if ?b then _ else _) = _ => destruct b eqn:? end;
      try (apply (handler_frame _ (instr_of i) _ e); tauto); destruct i; discriminate. }
  split; [exact E1|]. exists None. split; [|done]. by rewrite E2.
Qed.

(** ** Fetching *)

Lemma slice_length {A} lo hi (l : list A) :
  (lo <= hi)%nat -> (hi <= length l)%nat -> length (slice lo hi l) = (hi - lo)%nat.
Proof. intros. unfold slice. rewrite length_take, length_drop. lia. Qed.

Lemma slice_bytes lo hi l : Forall is_u8 l -> Forall is_u8 (slice lo hi l).
Proof. intros Hl. by apply Forall_take, Forall_drop. Qed.

(** A fetched instruction is an assembly instruction, and lies inside the program. *)
Lemma fetch_spec pc program inst :
  Forall is_u8 program -> 0 <= pc < Z.of_nat (length program) ->
  Z.of_nat (length program) < 18446744073709551616 ->
  fetchInstruction pc program = inr inst ->
  exists i, asm_ok i /\ inst = instr_of i /\ 1 <= in_Size inst /\ pc + in_Size inst <= Z.of_nat (length program).
Proof.
  intros Hb Hpc Hlen. unfold fetchInstruction. rewrite u64_small by (unfold is_u64; lia).
  destruct (Z.ltb_spec (Z.of_nat (length program) - pc) 1); [done|].
  set (n := if _ || _ || _ then _ else _). assert (1 <= n) as Hn by (unfold n; repeat case_match; lia). clearbody n.
  destruct (Z.ltb_spec (Z.of_nat (length program) - pc) n); [done|]. intros Hdec.
  pose proof (slice_bytes (Z.to_nat pc) (Z.to_nat (pc + n)) program Hb) as Hsb.
  destruct (decode_sound _ _ Hsb Hdec) as (i & Hok & -> & Hsz & Hsz1). exists i.
  rewrite slice_length in Hsz by lia. split_and!; [done | done | lia | lia].
Qed.

(** ** Termination *)

Section Termination.
Context (rt : nat -> GoRuntime) (program : list Z).
Hypothesis Hbytes : Forall is_u8 program.
Hypothesis Hlen : Z.of_nat (length program) < 18446744073709551616.

Lemma exec_loop_terminates fuel k v :
  0 <= vm_pc v <= Z.of_nat (length program) -> Z.of_nat (length program) - vm_pc v < Z.of_nat fuel ->
  exists o, (forall more, exec_loop rt (fuel + more) k v program = Some o) /\
    (vm_paused v = false -> cf_EnableConcurrent (ac_config (vm_allocator v)) = false -> o <> Hang).
Proof.
  revert k v. induction fuel as [|fuel IH]; intros k v Hpc Hf; [lia|]. cbn [Nat.add exec_loop].
  destruct ((vm_pc v <? Z.of_nat (length program)) && negb (vm_halted v)) eqn:Hc; [|by eexists].
  apply andb_true_iff in Hc as [Hlt _]. apply Z.ltb_lt in Hlt.
  destruct (vm_paused v) eqn:Hp; [by eexists|].
  destruct (fetchInstruction (vm_pc v) program) as [err|inst] eqn:Hfe; [by eexists|].
  destruct (fetch_spec (vm_pc v) program inst Hbytes ltac:(lia) Hlen Hfe) as (i & Hok & -> & Hs1 & Hs2).
  pose proof (@executeInstruction_ends (rt k) v i) as Hends.
  destruct (executeInstruction v (instr_of i)) as [[v' e]| |] eqn:Hx; [|by eexists|by eexists; split; [|tauto]].
  destruct (executeInstruction_frame v i v' e Hx) as [Hctl _]. unfold control in Hctl. injection Hctl as Hpc' _ Hp' _.
  destruct e as [err|]; [by eexists|]. cbv zeta. cbn [vm_gasAccount vm_config vm_stats vm_pc set_control].
  destruct (Remaining _ =? 0); [by eexists|]. destruct (_ <=? _); [by eexists|]. rewrite Hpc'.
  edestruct IH as (o & Ho & Hh); [| |exists o; split; [exact Ho|]];
    cbn [vm_pc vm_paused vm_allocator set_control]; rewrite ?u64_small by (unfold is_u64; lia); [lia..|].
  intros _ Hcc. apply Hh; cbn [vm_paused vm_allocator set_control]; [by rewrite Hp'|].
  specialize (Hends Hcc). cbn [ends keeps] in Hends. by rewrite Hends.
Qed.
End Termination.

(** ** Gas *)

(** The account after any number of paid instructions: one bucket, whose
    remaining and used gas add up to the limit. *)
Definition gas_inv (limit : Z) (g : GasAccountant3D) : Prop :=
  exists b, ga_buckets g = [b] /\ 0 <= gb_remaining b /\ 0 <= gb_used b /\ gb_remaining b + gb_used b = limit.

Lemma consume_spec limit g cost :
  is_u64 limit -> gas_inv limit g -> 0 <= cost ->
  exists g' e, Consume g cost = Ret (g', e) /\ gas_inv limit g' /\
    match e with
    | None => Used g' = Used g + cost /\ cost <= limit - Used g
    | Some err => err = ErrInsufficientGas /\ Used g' = Used g /\ limit - Used g < cost
    end.
Proof.
  intros Hl (b & Hb & Hr & Hu & Hs) Hc. unfold is_u64 in Hl.
  destruct (Consume_single g b cost Hb) as (g' & -> & Hg').
  rewrite (Used_single g b) by (done || (unfold is_u64; lia)). eexists _, _. split; [done|].
  destruct (Z.ltb_spec (gb_remaining b) cost).
  - rewrite (Used_single g' b) by (done || (unfold is_u64; lia)). split; [by exists b|]. split_and!; [done | done | lia].
  - rewrite u64_small in Hg' by (unfold is_u64; lia).
    rewrite (Used_single g' _ Hg') by (unfold is_u64; simpl; lia). simpl. split; [|lia].
    eexists. split; [exact Hg'|]. simpl. lia.
Qed.

Lemma calculateGasCost_pos inst : 0 <= calculateGasCost inst.
Proof.
  unfold calculateGasCost. assert (0 <= baseCost (in_Opcode inst)) as H0.
  { unfold baseCost. repeat case_match; lia. }
  revert H0. generalize (baseCost (in_Opcode inst)). induction (in_Operands inst) as [|o os IH]; intros c Hc; [done|].
  cbn [foldl]. apply IH. destruct (op_Type o), (op_Value o); try done. apply u64_range.
Qed.

Lemma executeInstruction_gas `{GoRuntime} limit v i v' e :
  is_u64 limit -> gas_inv limit (vm_gasAccount v) -> executeInstruction v (instr_of i) = Ret (v', e) ->
  gas_inv limit (vm_gasAccount v') /\
  (e = None -> Used (vm_gasAccount v') = Used (vm_gasAccount v) + calculateGasCost (instr_of i)).
Proof.
  intros Hl Hg Hx. destruct (executeInstruction_frame v i v' e Hx) as (_ & ce & Hc & Hce).
  destruct (consume_spec limit (vm_gasAccount v) (calculateGasCost (instr_of i)) Hl Hg (calculateGasCost_pos _))
    as (g' & e' & Hc' & Hg' & He'). rewrite Hc in Hc'. injection Hc' as <- <-. split; [done|].
  intros ->. destruct ce as [err|]; [specialize (Hce ltac:(done)); discriminate Hce|]. apply He'.
Qed.

Lemma exec_loop_gas rt limit program fuel k v v' e :
  is_u64 limit -> Forall is_u8 program -> Z.of_nat (length program) < 18446744073709551616 ->
  0 <= vm_pc v <= Z.of_nat (length program) -> gas_inv limit (vm_gasAccount v) ->
  exec_loop rt fuel k v program = Some (Ret (v', e)) -> gas_inv limit (vm_gasAccount v').
Proof.
  intros Hl Hb Hlen. revert k v. induction fuel as [|fuel IH]; intros k v Hpc Hg Hx; [done|].
  cbn [exec_loop] in Hx.
  destruct ((vm_pc v <? Z.of_nat (length program)) && negb (vm_halted v)) eqn:Hc; [|by simplify_eq/=].
  apply andb_true_iff in Hc as [Hlt _]. apply Z.ltb_lt in Hlt. destruct (vm_paused v); [done|].
  destruct (fetchInstruction (vm_pc v) program) as [err|inst] eqn:Hfe; [by simplify_eq/=|].
  destruct (fetch_spec (vm_pc v) program inst Hb ltac:(lia) Hlen Hfe) as (i & Hok & -> & Hs1 & Hs2).
  destruct (executeInstruction v (instr_of i)) as [[v1 e1]| |] eqn:Hx1; [|done..].
  destruct (executeInstruction_frame v i v1 e1 Hx1) as [Hctl _]. unfold control in Hctl. injection Hctl as Hpc' _ _ _.
  destruct (executeInstruction_gas limit v i v1 e1 Hl Hg Hx1) as [Hg1 _].
  destruct e1 as [err|]; [by simplify_eq/=|]. cbv zeta in Hx. cbn [vm_gasAccount vm_config vm_stats vm_pc set_control] in Hx.
  destruct (Remaining _ =? 0); [by unfold fail in Hx; simplify_eq/=|].
  destruct (_ <=? _); [by unfold fail in Hx; simplify_eq/=|].
  eapply IH; [| |exact Hx]; [|done]. cbn [vm_pc set_control]. rewrite u64_small by (unfold is_u64; lia). lia.
Qed.
