(* ===== verification/BlockMachine.v ===== *)
(** * The abstract machine

    What a program means without planes, bitmaps, cache, log or statistics: memory is
    a finite map from addresses to blocks of bytes, which appear and disappear as a
    whole; instructions read and write prefixes of blocks.  The only choice left
    open is where MALLOC puts a block and what the block contains (the program does
    not clear it).  The theorems in Refinement say that the virtual machine
    implements this machine. *)
From S2P Require Import Prelude Words Address Errors Registers Instructions Allocator MemoryManager VM.
From stdpp Require Import strings.
#[local] Open Scope Z_scope.

Record machine := mkMachine {
  mc_blocks : gmap Address3D (list Z);
  mc_registers : Registers;
  mc_gas : Z; (* left *)
}.

Definition with_blocks (bs : gmap Address3D (list Z)) (m : machine) : machine :=
  mkMachine bs (mc_registers m) (mc_gas m).
Definition with_registers (r : Registers) (m : machine) : machine := mkMachine (mc_blocks m) r (mc_gas m).
Definition with_gas (g : Z) (m : machine) : machine := mkMachine (mc_blocks m) (mc_registers m) g.

(** What a read and a write mean for the blocks. *)
Definition read_block (m : gmap Address3D (list Z)) (addr : Address3D) (n : Z) : error + list Z :=
  match m !! addr with
  | None => inl (ErrAddressNotAllocated addr)
  | Some b =>
      if n <=? Z.of_nat (length b) then inr (take (Z.to_nat n) b)
      else inl (bounds_error "read" (Z.of_nat (length b)) n)
  end.

Definition write_block (m : gmap Address3D (list Z)) (addr : Address3D) (d : list Z)
    : error + gmap Address3D (list Z) :=
  match m !! addr with
  | None => inl (ErrAddressNotAllocated addr)
  | Some b =>
      if Z.of_nat (length d) <=? Z.of_nat (length b) then inr (<[addr := d ++ drop (length d) b]> m)
      else inl (bounds_error "write" (Z.of_nat (length b)) (Z.of_nat (length d)))
  end.

(** ** One instruction *)

(** Every instruction but MALLOC is a function of the state. *)
Definition perform_det (i : asm) (m : machine) : machine * option error :=
  let get := Reg_Get (mc_registers m) in
  let num := GetUint64 (mc_registers m) in
  let put reg d := with_registers (Reg_Set (mc_registers m) reg d) m in
  match i with
  | ILoad addr size reg =>
      match read_block (mc_blocks m) addr size with
      | inl err => (m, Some (ErrWrap "MLOAD3D failed" err))
      | inr d => (put reg d, None)
      end
  | IStore addr reg size =>
      if u32 (Z.of_nat (length (get reg))) <? size then (m, Some (ErrText "register data too small"))
      else match write_block (mc_blocks m) addr (take (Z.to_nat size) (get reg)) with
      | inl err => (m, Some (ErrWrap "MSTORE3D failed" err))
      | inr bs => (with_blocks bs m, None)
      end
  | IFree addr =>
      match mc_blocks m !! addr with
      | None => (m, Some (ErrText "allocation not found"))
      | Some _ => (with_blocks (delete addr (mc_blocks m)) m, None)
      end
  | ICopy src dst size =>
      match read_block (mc_blocks m) src size with
      | inl err => (m, Some (ErrWrap "MCOPY3D failed to load source" err))
      | inr d => match write_block (mc_blocks m) dst d with
        | inl err => (m, Some (ErrWrap "MCOPY3D failed to store destination" err))
        | inr bs => (with_blocks bs m, None)
        end
      end
  | IAdd d s1 s2 => (put d (uint64ToBytes (u64 (num s1 + num s2))), None)
  | ISub d s1 s2 => (put d (uint64ToBytes (u64 (num s1 - num s2))), None)
  | IMov d s => (put d (get s), None)
  | ISize addr d =>
      (put d (uint64ToBytes (match mc_blocks m !! addr with None => 0 | Some b => Z.of_nat (length b) end)), None)
  | IAlloc _ _ _ | INop | IHalt => (m, None)
  end.

(** MALLOC fails on requests above one plane; otherwise a new block of the size asked
    for appears at an address that had none, and the address is put into R0. *)
Definition perform (i : asm) (m m' : machine) (e : option error) : Prop :=
  match i with
  | IAlloc size _ _ =>
      if size <=? PlaneSize then
        e = None /\ exists addr b, mc_blocks m !! addr = None /\ Z.of_nat (length b) = size /\
          m' = mkMachine (<[addr := b]> (mc_blocks m)) (SetAddress (mc_registers m) R0 addr) (mc_gas m)
      else m' = m /\ e = Some (ErrWrap "MALLOC3D failed" (ErrInsufficientMemory size))
  | _ => (m', e) = perform_det i m
  end.

Definition cost (i : asm) : Z := calculateGasCost (instr_of i).

(** Pay, then perform; an instruction that cannot be paid has no effect. *)
Definition mstep (i : asm) (m m' : machine) (e : option error) : Prop :=
  if mc_gas m <? cost i then m' = m /\ e = Some ErrInsufficientGas
  else perform i (with_gas (mc_gas m - cost i) m) m' e.

(** The error an instruction reports, in the order of the checks: gas; then whether the
    address is the start of a block, whether the access stays inside, whether the
    register holds enough bytes, whether the request fits a plane. *)
Definition instr_error (m : machine) (i : asm) : option error :=
  let wrap {A} (what : string) (r : error + A) :=
    match r with inl err => Some (ErrWrap what err) | inr _ => None end in
  if mc_gas m <? cost i then Some ErrInsufficientGas
  else match i with
  | ILoad addr size _ => wrap "MLOAD3D failed" (read_block (mc_blocks m) addr size)
  | IStore addr reg size =>
      let data := Reg_Get (mc_registers m) reg in
      if u32 (Z.of_nat (length data)) <? size then Some (ErrText "register data too small")
      else wrap "MSTORE3D failed" (write_block (mc_blocks m) addr (take (Z.to_nat size) data))
  | IAlloc size _ _ => if size <=? PlaneSize then None else Some (ErrWrap "MALLOC3D failed" (ErrInsufficientMemory size))
  | IFree addr => match mc_blocks m !! addr with None => Some (ErrText "allocation not found") | Some _ => None end
  | ICopy src dst size =>
      match read_block (mc_blocks m) src size with
      | inl err => Some (ErrWrap "MCOPY3D failed to load source" err)
      | inr d => wrap "MCOPY3D failed to store destination" (write_block (mc_blocks m) dst d)
      end
  | IAdd _ _ _ | ISub _ _ _ | IMov _ _ | ISize _ _ | INop | IHalt => None
  end.

(** ** Programs *)

(** [prun limit n pc m l m' e]: the instructions [l], found at offset [pc] after [n]
    executed ones, lead from [m] to [m'] and end with [e]. *)
Inductive prun (limit : Z) : Z -> Z -> machine -> list asm -> machine -> option error -> Prop :=
| prun_end n pc m : prun limit n pc m [] m None
| prun_fail n pc m i l m' err :
    mstep i m m' (Some err) -> prun limit n pc m (i :: l) m' (Some (ErrExecution pc err))
| prun_gas n pc m i l m' :
    mstep i m m' None -> mc_gas m' = 0 -> prun limit n pc m (i :: l) m' (Some (ErrText "gas exhausted"))
| prun_limit n pc m i l m' :
    mstep i m m' None -> mc_gas m' <> 0 -> limit <= n + 1 ->
    prun limit n pc m (i :: l) m' (Some (ErrText "instruction limit exceeded"))
| prun_halt n pc m l m' :
    mstep IHalt m m' None -> mc_gas m' <> 0 -> n + 1 < limit -> prun limit n pc m (IHalt :: l) m' None
| prun_next n pc m i l m1 m' e :
    mstep i m m1 None -> mc_gas m1 <> 0 -> n + 1 < limit -> i <> IHalt ->
    prun limit (n + 1) (pc + Z.of_nat (length (encode i))) m1 l m' e -> prun limit n pc m (i :: l) m' e.

(** ** Facts about the abstract machine *)

Lemma write_read bs addr d bs' : write_block bs addr d = inr bs' ->
  read_block bs' addr (Z.of_nat (length d)) = inr d.
Proof.
  unfold write_block, read_block. destruct (bs !! addr) as [b|]; [|done].
  destruct (Z.leb_spec (Z.of_nat (length d)) (Z.of_nat (length b))); [|done]. intros [= <-].
  rewrite lookup_insert_eq, length_app. destruct (Z.leb_spec (Z.of_nat (length d)) (Z.of_nat (length d + length (drop (length d) b)))); [|lia].
  by rewrite Nat2Z.id, take_app_length.
Qed.

(** What is stored from a register is what a load puts into one; gas in between may differ. *)
Lemma perform_store_load m1 m1' m2 m2' addr reg size reg2 :
  length (General (mc_registers m1')) = 16%nat -> is_u32 size -> 0 <= reg2 <= R15 ->
  perform (IStore addr reg size) m1 m1' None -> perform (ILoad addr size reg2) m2 m2' None ->
  mc_blocks m2 = mc_blocks m1' -> mc_registers m2 = mc_registers m1' ->
  Reg_Get (mc_registers m2') reg2 = take (Z.to_nat size) (Reg_Get (mc_registers m1) reg).
Proof.
  intros Hok Hs Hr2 P1 P2 Eb Er. unfold is_u32 in Hs. cbn [perform perform_det] in P1, P2.
  destruct (Z.ltb_spec (u32 (Z.of_nat (length (Reg_Get (mc_registers m1) reg)))) size) as [|Hge]; [done|].
  destruct (write_block _ addr _) as [err|bs] eqn:Ew; [done|]. injection P1 as ->.
  assert (Z.of_nat (length (take (Z.to_nat size) (Reg_Get (mc_registers m1) reg))) = size) as Hlen.
  { rewrite length_take. unfold u32 in Hge.
    pose proof (Z.mod_le (Z.of_nat (length (Reg_Get (mc_registers m1) reg))) 4294967296 ltac:(lia) ltac:(lia)). lia. }
  apply write_read in Ew. rewrite Hlen in Ew. rewrite Eb in P2. cbn [mc_blocks with_blocks] in P2.
  rewrite Ew in P2. injection P2 as ->. cbn [mc_registers with_registers]. rewrite Er.
  cbn [mc_registers with_blocks] in *. unfold Reg_Get at 1, Reg_Set. destruct (Z.leb_spec reg2 R15); [|lia].
  cbn [General]. unfold R15 in *. by rewrite list_lookup_insert_eq by lia.
Qed.

(** A step reports exactly [instr_error], and a step with an error changes nothing
    but the gas it has paid. *)
Lemma mstep_error i m m' e : mstep i m m' e ->
  e = instr_error m i /\
  (e <> None -> mc_blocks m' = mc_blocks m /\ mc_registers m' = mc_registers m /\
     mc_gas m' = mc_gas m - (if mc_gas m <? cost i then 0 else cost i)).
Proof.
  unfold mstep, instr_error. destruct (mc_gas m <? cost i).
  { intros [-> ->]. split; [done|]. intros _. split_and!; [done | done | lia]. }
  set (m1 := with_gas (mc_gas m - cost i) m). destruct i as [a n r|a r n|n t f|a|s d n|d x y|d x y|d x|a d| |];
    cbn [perform perform_det m1 mc_blocks mc_registers with_gas].
  - destruct (read_block _ a n); intros [= -> ->]; [done|]. split; [done | congruence].
  - destruct (_ <? _); [by intros [= -> ->]|]. destruct (write_block _ a _); intros [= -> ->]; [done|].
    split; [done | congruence].
  - destruct (n <=? PlaneSize); [intros [-> _]; split; [done | congruence] | by intros [-> ->]].
  - destruct (mc_blocks m !! a); intros [= -> ->]; [split; [done | congruence] | done].
  - destruct (read_block _ s n) as [|b]; [by intros [= -> ->]|].
    destruct (write_block _ d b); intros [= -> ->]; [done|]. split; [done | congruence].
  - intros [= -> ->]. split; [done | congruence].
  - intros [= -> ->]. split; [done | congruence].
  - intros [= -> ->]. split; [done | congruence].
  - intros [= -> ->]. split; [done | congruence].
  - intros [= -> ->]. split; [done | congruence].
  - intros [= -> ->]. split; [done | congruence].
Qed.
