(* ===== verification/VMMemory.v ===== *)
(** * The memory side of the virtual machine

    Allocator, memory manager and cache together: their invariant [mem_inv], the
    blocks a program sees through them, and what loads, stores, allocations and
    releases do to both. *)
From S2P Require Import Prelude Words Float64 Address Errors Bitmap Plane Region Allocator.
From S2P Require Import AllocatorInv YPromotionInv AllocatorSpec AllocatorEdge.
From S2P Require Import Gas Sha256 Merkle Spatial Registers Instructions MemoryManager VM Progress.
From S2P Require Import VMFrame BlockMachine.
From stdpp Require Import strings.
#[local] Open Scope Z_scope.

(** ** The invariant of the memory side of the VM *)

(** Every cached value is the current content of a tracked block. *)
Definition coherent (h : Heap) (a : Allocator3D) (mm : MemoryManager) (c : SpatialCache) : Prop :=
  forall addr d, view c addr = Some d ->
    exists l al, mm_allocations mm !! addr = Some l /\ heap_get h l = Some al /\
      Z.of_nat (length d) <= al_Size al /\ bytes_at a addr (Z.of_nat (length d)) = Some d.

(** No region has a second plane, so no block is ever promoted. *)
Definition one_plane (a : Allocator3D) : Prop :=
  forall k r, ac_regions a !! k = Some r -> (length (rg_Planes r) <= 1)%nat.

Record mem_inv (h : Heap) (a : Allocator3D) (mm : MemoryManager) (c : SpatialCache) : Prop := {
  mi_alloc : alloc_inv h a;
  mi_mm : mm_inv h a mm;
  mi_cache : cache_inv c;
  mi_capacity : 0 < sc_capacity c;
  mi_coherent : coherent h a mm c;
  mi_one : one_plane a;
  mi_sync : cf_EnableConcurrent (ac_config a) = false;
  mi_size : cf_PlaneSize (ac_config a) = PlaneSize;
}.

Record vm_inv (v : VM3D) : Prop := {
  vi_mem : mem_inv (vm_heap v) (vm_allocator v) (vm_memory v) (vm_cache v);
  vi_regs : regs_ok (vm_registers v);
  vi_gas : ga_buckets (vm_gasAccount v) <> [];
}.

(** *** Frames of the allocator *)

Lemma frame_plane_index (ps ps' : list Plane) y :
  plane_frame <$> ps' = plane_frame <$> ps -> plane_index y ps' = plane_index y ps.
Proof.
  revert ps. induction ps' as [|p' ps' IH]; intros [|p ps] E; try done. rewrite !fmap_cons in E.
  assert (plane_frame p' = plane_frame p) as Hp by congruence.
  assert (plane_frame <$> ps' = plane_frame <$> ps) as E2 by congruence.
  cbn [plane_index]. rewrite (IH ps E2). by destruct (plane_frame_ids p p' Hp) as (-> & _).
Qed.

Lemma frame_bytes a a' addr n r :
  frame a a' -> ac_regions a !! aX addr = Some r -> bytes_at a' addr n = bytes_at a addr n.
Proof.
  intros Hf Hr. destruct (Hf _ r Hr) as (r' & Hr' & (_ & _ & _ & Hps)).
  unfold bytes_at, GetRegion, GetPlane. rewrite Hr, Hr'. cbn [mbind option_bind].
  rewrite (frame_plane_index _ _ _ Hps). destruct (plane_index (aY addr) (rg_Planes r)) as [i|]; [|done].
  cbn [mbind option_bind].
  assert ((plane_frame <$> rg_Planes r') !! i = (plane_frame <$> rg_Planes r) !! i) as E by (by rewrite Hps).
  rewrite !list_lookup_fmap in E. destruct (rg_Planes r' !! i) as [q'|], (rg_Planes r !! i) as [q|]; try done.
  cbn [mbind option_bind]. assert (plane_frame q' = plane_frame q) as Eq by (cbn in E; congruence).
  by destruct (plane_frame_ids q q' Eq) as (_ & _ & -> & _).
Qed.

Lemma frame_one_plane a a' : one_plane a -> frame a a' ->
  (forall k r', ac_regions a' !! k = Some r' -> ac_regions a !! k = None -> length (rg_Planes r') = 1%nat) ->
  one_plane a'.
Proof.
  intros Ho Hf Hnew k r' Hk'. destruct (ac_regions a !! k) as [r|] eqn:Hk; [|by rewrite (Hnew k r')].
  destruct (Hf k r Hk) as (r2 & Hk2 & (_ & _ & _ & Hps)). assert (r2 = r') as -> by congruence.
  apply (f_equal length) in Hps. rewrite !length_fmap in Hps. rewrite Hps. by eapply Ho.
Qed.

Lemma tracked_region h a mm addr l : alloc_inv h a -> mm_inv h a mm -> mm_allocations mm !! addr = Some l ->
  exists r, ac_regions a !! aX addr = Some r.
Proof. intros Ha Hm Hl. destruct (tracked_block h a mm addr l Ha Hm Hl) as (al & r & i & p & Hb). exists r. apply Hb. Qed.

(** The allocator grows or shrinks around the tracked blocks. *)
Lemma mem_frame h a mm c h' a' mm' :
  mem_inv h a mm c -> alloc_inv h' a' -> mm_inv h' a' mm' -> frame a a' -> heap_extends h h' -> one_plane a' ->
  ac_config a' = ac_config a ->
  (forall addr d, view c addr = Some d -> mm_allocations mm' !! addr = mm_allocations mm !! addr) ->
  mem_inv h' a' mm' c.
Proof.
  intros [M1 M2 M3 M4 M5 M6 M7 M8] Ha Hm Hf He Ho Hc Hsame. constructor; try done; [|by rewrite Hc..].
  intros addr d Hd. destruct (M5 addr d Hd) as (l & al & Hl & Hal & Hlen & Hb). exists l, al.
  destruct (tracked_region h a mm addr l M1 M2 Hl) as [r Hr].
  split_and!; [by rewrite (Hsame addr d) | by rewrite He by eauto | done | by rewrite (frame_bytes a a' addr _ r)].
Qed.

(** *** Blocks of the VM are in one piece *)

Lemma alloc_fragments_length ps cands fs rem ps' fs' rem' :
  alloc_fragments ps cands fs rem = Ret (ps', fs', rem') -> (length fs' <= length fs + length cands)%nat.
Proof.
  revert ps fs rem. induction cands as [|i cands IH]; intros ps fs rem Hx; cbn [alloc_fragments] in Hx.
  { simplify_eq. lia. }
  inv_res; try lia; match goal with H : alloc_fragments _ _ _ _ = _ |- _ => apply IH in H end;
    rewrite ?length_app in *; simpl in *; lia.
Qed.

Lemma heap_new_get_new h al l al' : heap_get (heap_new h al).1 l = Some al' -> l = (heap_new h al).2 -> al' = al.
Proof. intros Hg ->. rewrite heap_new_self in Hg. congruence. Qed.

Lemma record_single now h a r i p z size rt flags h' a' l al :
  record_allocation now h a r i p z size rt flags = (h', a', l) -> heap_get h' l = Some al -> IsYPromoted al = false.
Proof.
  intros Hx Hal. destruct (record_object _ _ _ _ _ _ _ _ _ _ _ _ _ Hx) as (al1 & Hal1 & Hy & _). congruence.
Qed.

Lemma fast_lru_single now h a size rt lru h' a' l al :
  fast_lru now h a size rt lru = Ret (Some (h', a', l)) -> heap_get h' l = Some al -> IsYPromoted al = false.
Proof.
  induction lru as [|k lru IH]; intros Hx Hal; [done|]. cbn [fast_lru] in Hx.
  apply bind_Ret_inv in Hx as (r & _ & Hx). destruct (negb _); [by apply IH|]. destruct (_ <? _); [by apply IH|].
  apply bind_Ret_inv in Hx as (o & _ & Hx). destruct o as [[[i p] z]|]; [|by apply IH].
  assert (record_allocation now h a r i p z size rt 0 = (h', a', l)) as Hrec by congruence.
  by eapply record_single.
Qed.

Lemma tryYPromotion_single `{GoRuntime} h a size rt flags h' a' l al :
  one_plane a -> tryYPromotion h a size rt flags = Ret (h', a', Some l) -> heap_get h' l = Some al ->
  IsYPromoted al = false.
Proof.
  intros Ho Hx Hal. unfold tryYPromotion in Hx. destruct (_ =? 0); [done|]. cbv zeta in Hx.
  destruct (_ <? _); [done|]. apply bind_Ret_inv in Hx as (o & _ & Hx). destruct o as [k|]; [|done].
  apply bind_Ret_inv in Hx as (r & Hr & Hx). apply bind_Ret_inv in Hx as ([[ps fs] rem] & Hfr & Hx).
  destruct (ac_regions a !! k) as [r0|] eqn:Hk; [|done]. injection Hr as ->.
  apply alloc_fragments_length in Hfr. destruct (0 <? rem); [done|].
  destruct (first_fragment (rg_ID r) fs) as [[y z] ad] eqn:Eff. set (al0 := {| al_ID := _ |}) in Hx.
  destruct (heap_new h al0) as [h1 l1] eqn:En. injection Hx as <- _ <-.
  pose proof (heap_new_self h al0) as Hs. rewrite En in Hs. simpl in Hs. rewrite Hs in Hal. injection Hal as <-.
  unfold IsYPromoted. simpl. apply Z.ltb_ge.
  assert (length (candidates (rg_Planes r)) <= length (rg_Planes r))%nat as Hc.
  { unfold candidates. etrans; [apply List.filter_length_le|]. by rewrite length_seq. }
  specialize (Ho k r Hk). simpl in Hfr. lia.
Qed.

Lemma allocateSync_single `{GoRuntime} h a size rt flags h' a' l al :
  one_plane a -> allocateSync h a size rt flags = Ret (h', a', inr l) -> heap_get h' l = Some al ->
  IsYPromoted al = false.
Proof.
  intros Ho Hx Hal. unfold allocateSync in Hx. apply bind_Ret_inv in Hx as (o & Hf & Hx).
  destruct o as [[[h1 a1] l1]|].
  { injection Hx as -> -> ->. by eapply fast_lru_single. }
  apply bind_Ret_inv in Hx as ([[h1 a1] o1] & Hy & Hx). destruct o1 as [l1|].
  { injection Hx as -> -> ->. by eapply tryYPromotion_single. }
  unfold allocateNewRegion in Hx. cbv zeta in Hx. destruct (_ <=? _); [|done].
  apply bind_Ret_inv in Hx as ([[p z] ok] & _ & Hx). destruct ok; [|done]. cbn [negb] in Hx.
  destruct (record_allocation _ _ _ _ _ _ _ _ _ _) as [[h2 a2] l2] eqn:Er. injection Hx as -> -> ->.
  by eapply record_single.
Qed.

(** *** The blocks a program sees *)

(** Every tracked address with the bytes of its block. *)
Definition blocks (h : Heap) (a : Allocator3D) (mm : MemoryManager) : gmap Address3D (list Z) :=
  map_imap (fun addr l => al ← heap_get h l; bytes_at a addr (al_Size al)) (mm_allocations mm).

Lemma blocks_lookup h a mm addr :
  blocks h a mm !! addr = (l ← mm_allocations mm !! addr; al ← heap_get h l; bytes_at a addr (al_Size al)).
Proof. unfold blocks. by rewrite map_lookup_imap. Qed.

Lemma bytes_at_take a addr m n d : 0 <= aZ addr -> 0 <= n <= m ->
  bytes_at a addr m = Some d -> bytes_at a addr n = Some (take (Z.to_nat n) d).
Proof.
  intros Hz Hn. unfold bytes_at. destruct (GetRegion a (aX addr)) as [r|]; [|done]. cbn [mbind option_bind].
  destruct (GetPlane r (aY addr)) as [p|]; [|done]. cbn [mbind option_bind]. intros [= <-]. f_equal.
  unfold slice. rewrite take_take. f_equal. lia.
Qed.

(** A tracked block is there, with its full length, and its prefixes are what is read. *)
Lemma blocks_tracked h a mm addr l al : alloc_inv h a -> mm_inv h a mm ->
  mm_allocations mm !! addr = Some l -> heap_get h l = Some al ->
  exists b, blocks h a mm !! addr = Some b /\ Z.of_nat (length b) = al_Size al /\
    0 < al_Size al <= PlaneSize /\
    forall n, 0 <= n <= al_Size al -> bytes_at a addr n = Some (take (Z.to_nat n) b).
Proof.
  intros Ha Hm Hl Hal. destruct (tracked_block h a mm addr l Ha Hm Hl) as (al' & r & i & p & Hb).
  pose proof (bk_bounds _ _ _ _ _ _ _ _ Hb) as Bd. pose proof (bk_obj _ _ _ _ _ _ _ _ Hb) as Ho.
  assert (al' = al) as -> by congruence.
  assert (exists b, bytes_at a addr (al_Size al) = Some b /\ Z.of_nat (length b) = al_Size al) as (b & Hby & Hlen).
  { unfold bytes_at, GetRegion. rewrite (bk_region _ _ _ _ _ _ _ _ Hb). cbn [mbind option_bind].
    rewrite (block_GetPlane _ _ _ _ _ _ _ _ Hb). cbn [mbind option_bind]. eexists. split; [done|].
    rewrite slice_length; lia. }
  exists b. rewrite blocks_lookup, Hl. cbn [mbind option_bind]. rewrite Hal. cbn [mbind option_bind].
  split_and!; [done | done | lia | unfold PlaneSize; lia |]. intros n Hn. by apply (bytes_at_take _ _ (al_Size al)); [lia..|].
Qed.

Lemma blocks_None h a mm addr : mm_allocations mm !! addr = None -> blocks h a mm !! addr = None.
Proof. intros Hl. by rewrite blocks_lookup, Hl. Qed.

Lemma blocks_mm h a mm mm' : mm_allocations mm' = mm_allocations mm -> blocks h a mm' = blocks h a mm.
Proof. unfold blocks. by intros ->. Qed.

Lemma blocks_shape h h' a mm : heap_shape h h' -> blocks h' a mm = blocks h a mm.
Proof.
  intros Hs. apply map_eq. intros addr. rewrite !blocks_lookup.
  destruct (mm_allocations mm !! addr) as [l|]; [|done]. cbn [mbind option_bind]. specialize (Hs l).
  destruct (heap_get h' l) as [al'|], (heap_get h l) as [al|]; try done. cbn [mbind option_bind].
  cbn in Hs. assert (al_Size al' = al_Size al) as -> by (unfold shape in Hs; congruence). done.
Qed.

(** *** Operations on the memory side *)

Lemma mem_get h a mm c addr : mem_inv h a mm c ->
  exists c', Cache_Get c addr = Ret (c', view c addr) /\ mem_inv h a mm c'.
Proof.
  intros [M1 M2 M3 M4 M5 M6 M7 M8]. destruct (Cache_Get_spec c addr M3) as (c' & He & Hi & Hv & _ & Hc).
  exists c'. split; [done|]. constructor; try done; [by rewrite Hc|]. intros ad d. rewrite Hv. apply M5.
Qed.

Lemma mem_shape h h' a mm c : heap_shape h h' -> heap_ok h' -> mem_inv h a mm c -> mem_inv h' a mm c.
Proof.
  intros Hs Hok [M1 M2 M3 M4 M5 M6 M7 M8]. constructor; try done.
  - by apply (alloc_inv_shape h).
  - intros addr l Hl. destruct (M2 addr l Hl) as (Hlv & al & Hal & Ha & Hy). split; [done|].
    destruct (heap_shape_get2 h h' l al Hs Hal) as (al' & Hal' & Hsh). exists al'. split; [done|].
    unfold IsYPromoted in *. injection Hsh as -> _ -> _. done.
  - intros addr d Hd. destruct (M5 addr d Hd) as (l & al & Hl & Hal & Hlen & Hb).
    destruct (heap_shape_get2 h h' l al Hs Hal) as (al' & Hal' & Hsh). exists l, al'.
    injection Hsh as _ -> _ _. done.
Qed.

Lemma mem_mm h a mm mm' c : mm_allocations mm' = mm_allocations mm -> mem_inv h a mm c -> mem_inv h a mm' c.
Proof.
  intros E [M1 M2 M3 M4 M5 M6 M7 M8]. constructor; try done.
  - intros addr l. rewrite E. apply M2.
  - intros addr d. rewrite E. apply M5.
Qed.

Lemma mem_put h a mm c addr d l al : mem_inv h a mm c ->
  mm_allocations mm !! addr = Some l -> heap_get h l = Some al -> Z.of_nat (length d) <= al_Size al ->
  bytes_at a addr (Z.of_nat (length d)) = Some d -> mem_inv h a mm (Put c addr d).
Proof.
  intros [M1 M2 M3 M4 M5 M6 M7 M8] Hl Hal Hlen Hb. constructor; try done.
  - by apply Put_inv.
  - unfold Put. by destruct (sc_cache c !! addr).
  - intros ad x. rewrite Put_view by done. destruct (decide (ad = addr)) as [->|]; [|apply M5].
    intros [= <-]. by exists l, al.
Qed.

Lemma mem_touch `{GoRuntime} h a mm c addr : mem_inv h a mm c ->
  exists h', UpdateAccess h mm addr = Ret h' /\ mem_inv h' a mm c /\ blocks h' a mm = blocks h a mm.
Proof.
  intros Hm. unfold UpdateAccess. destruct (mm_allocations mm !! addr) as [l|] eqn:Hl; [|by exists h].
  destruct (mi_mm _ _ _ _ Hm addr l Hl) as (_ & al & Hal & _). rewrite Hal. cbn [deref mbind res_bind].
  set (h' := heap_set h l _). assert (heap_shape h h') as Hs by (by eapply heap_set_shape).
  exists h'. split; [done|]. split; [|by apply blocks_shape]. apply (mem_shape h); [done| |done].
  eapply heap_set_ok; [apply Hm | exact Hal].
Qed.

Lemma bytes_at_length h a mm addr l al n d : alloc_inv h a -> mm_inv h a mm ->
  mm_allocations mm !! addr = Some l -> heap_get h l = Some al -> 0 <= n <= al_Size al ->
  bytes_at a addr n = Some d -> Z.of_nat (length d) = n.
Proof.
  intros Ha Hm Hl Hal Hn Hb. destruct (tracked_block h a mm addr l Ha Hm Hl) as (al' & r & i & p & Hbk).
  pose proof (bk_bounds _ _ _ _ _ _ _ _ Hbk) as Bd. pose proof (bk_obj _ _ _ _ _ _ _ _ Hbk) as Ho.
  assert (al' = al) as -> by congruence. unfold bytes_at, GetRegion in Hb.
  rewrite (bk_region _ _ _ _ _ _ _ _ Hbk) in Hb. cbn [mbind option_bind] in Hb.
  rewrite (block_GetPlane _ _ _ _ _ _ _ _ Hbk) in Hb. cbn [mbind option_bind] in Hb. injection Hb as <-.
  rewrite slice_length; lia.
Qed.

Lemma mem_load `{GoRuntime} h a mm c addr n : mem_inv h a mm c -> is_u32 n ->
  exists mm', Load3D h a mm addr n = Ret (mm', read_block (blocks h a mm) addr n) /\
    mm_allocations mm' = mm_allocations mm /\
    forall d, read_block (blocks h a mm) addr n = inr d ->
      exists l al, mm_allocations mm !! addr = Some l /\ heap_get h l = Some al /\
        Z.of_nat (length d) = n /\ n <= al_Size al /\ bytes_at a addr n = Some d.
Proof.
  intros Hmi Hn. pose proof (mi_alloc _ _ _ _ Hmi) as Ha. pose proof (mi_mm _ _ _ _ Hmi) as Hm. unfold is_u32 in Hn.
  unfold read_block. destruct (mm_allocations mm !! addr) as [l|] eqn:Hl; cycle 1.
  { rewrite blocks_None by done. exists mm. split; [|done]. unfold Load3D.
    rewrite (getAllocation_spec h a) by done. by rewrite Hl. }
  destruct (tracked_block h a mm addr l Ha Hm Hl) as (al & r & i & p & Hb).
  pose proof (bk_obj _ _ _ _ _ _ _ _ Hb) as Hal.
  destruct (blocks_tracked h a mm addr l al Ha Hm Hl Hal) as (b & Hbl & Hlen & Hsz & Hby). rewrite Hbl, Hlen.
  pose proof (Load3D_spec h a mm addr l al r i p n Hm Hl Hb Hn) as Hs. destruct (Z.leb_spec n (al_Size al)) as [Hle|Hgt].
  - destruct Hs as (mm' & d & -> & Hd & E). rewrite Hby in Hd by lia. injection Hd as <-. exists mm'.
    split; [done|]. split; [done|]. intros d [= <-]. exists l, al.
    split_and!; [done | done | rewrite length_take; lia | done | by apply Hby; lia].
  - rewrite Hs. by exists mm.
Qed.

(** A value that may be cached after a store of [d] at [addr]: [d] itself, what was
    cached for another address, or [d] for another address that holds it. *)
Definition cacheable (h : Heap) (a : Allocator3D) (mm : MemoryManager) (c : SpatialCache) (addr : Address3D)
    (d : list Z) (ad : Address3D) (v : list Z) : Prop :=
  ad = addr /\ v = d \/
  ad <> addr /\ exists l al, mm_allocations mm !! ad = Some l /\ heap_get h l = Some al /\
    Z.of_nat (length v) <= al_Size al /\ bytes_at a ad (Z.of_nat (length v)) = Some v.

Lemma slice_write_prefix (old : list Z) lo d n : (lo + n <= length old)%nat -> (length d <= n)%nat ->
  slice lo (lo + n) (write_at old lo d) = d ++ drop (length d) (slice lo (lo + n) old).
Proof.
  intros H1 H2. unfold slice, write_at. replace (lo + n - lo)%nat with n by lia.
  rewrite drop_app_length' by (rewrite length_take; lia). rewrite firstn_app, (take_ge d) by lia. f_equal.
  by rewrite skipn_firstn_comm, drop_drop.
Qed.

Section StoredMem.
Context `{GoRuntime} (h : Heap) (a : Allocator3D) (mm : MemoryManager) (c : SpatialCache) (addr : Address3D).
Context (l : loc) (al : Allocation) (r : Region) (i : nat) (p : Plane) (d : list Z).
Hypothesis Hmi : mem_inv h a mm c.
Hypothesis Hl : mm_allocations mm !! addr = Some l.
Hypothesis Hb : block_at h a addr l al r i p.
Hypothesis Hle : Z.of_nat (length d) <= al_Size al.

Let st := stored h a mm addr l al r i p d.

Lemma stored_one_plane : one_plane st.1.2.
Proof.
  intros k r0 Hk. simpl in Hk. pose proof (mi_one _ _ _ _ Hmi) as Ho.
  apply lookup_insert_Some in Hk as [[_ <-]|[_ Hk]]; [|by eapply Ho].
  simpl. rewrite length_insert. eapply Ho. apply Hb.
Qed.

Lemma stored_mem c' : cache_inv c' -> 0 < sc_capacity c' ->
  (forall ad v, view c' ad = Some v -> cacheable h a mm c addr d ad v) -> mem_inv st.1.1 st.1.2 st.2 c'.
Proof.
  intros Hci Hcap Hview. pose proof Hmi as [M1 M2 M3 M4 M5 M6 M7 M8].
  destruct (stored_inv h a mm addr l al r i p d M1 M2 Hb Hle) as [Ha' Hm'].
  destruct (stored_shape h a mm addr l al r i p d M1 Hb) as [Hsh _].
  constructor; try done; [|apply stored_one_plane].
  intros ad v Hv. destruct (Hview ad v Hv) as [[-> ->]|(Hne & l2 & al2 & Hl2 & Hal2 & Hlen2 & Hb2)].
  - destruct (heap_shape_get2 h _ l al Hsh (bk_obj _ _ _ _ _ _ _ _ Hb)) as (al' & Hal' & Hsh'). exists l, al'.
    split; [done|]. split; [done|]. injection Hsh' as _ -> _ _. split; [done|].
    exact (stored_bytes h a mm addr l al r i p d Hb Hle).
  - destruct (heap_shape_get2 h _ l2 al2 Hsh Hal2) as (al3 & Hal3 & Hsh3). exists l2, al3.
    destruct (tracked_block h a mm ad l2 M1 M2 Hl2) as (al4 & r4 & i4 & p4 & Hb4).
    assert (al4 = al2) as -> by (pose proof (bk_obj _ _ _ _ _ _ _ _ Hb4); congruence).
    split; [done|]. split; [done|]. split; [by injection Hsh3 as _ -> _ _|]. rewrite <- Hb2.
    apply (stored_other h a mm addr l al r i p d M1 M2 Hl Hb Hle ad l2 al2 r4 i4 p4); (done || lia).
Qed.

Lemma cacheable_old ad v : ad <> addr -> view c ad = Some v -> cacheable h a mm c addr d ad v.
Proof. intros Hne Hv. right. split; [done|]. exact (mi_coherent _ _ _ _ Hmi ad v Hv). Qed.

Lemma stored_blocks : exists b, blocks h a mm !! addr = Some b /\ Z.of_nat (length b) = al_Size al /\
  blocks st.1.1 st.1.2 st.2 = <[addr := d ++ drop (length d) b]> (blocks h a mm).
Proof.
  pose proof (mi_alloc _ _ _ _ Hmi) as Ha. pose proof (mi_mm _ _ _ _ Hmi) as Hm.
  pose proof (bk_obj _ _ _ _ _ _ _ _ Hb) as Hal. pose proof (bk_bounds _ _ _ _ _ _ _ _ Hb) as Bd.
  destruct (blocks_tracked h a mm addr l al Ha Hm Hl Hal) as (b & Hbl & Hlen & Hsz & Hby).
  exists b. split; [done|]. split; [done|].
  destruct (stored_shape h a mm addr l al r i p d Ha Hb) as [Hsh _].
  rewrite (blocks_shape h st.1.1) by done. apply map_eq. intros ad. destruct (decide (ad = addr)) as [->|Hne].
  - rewrite lookup_insert_eq, blocks_lookup. change (mm_allocations st.2) with (mm_allocations mm).
    rewrite Hl. cbn [mbind option_bind]. rewrite Hal. cbn [mbind option_bind].
    specialize (Hby (al_Size al) ltac:(lia)). rewrite take_ge in Hby by lia.
    unfold bytes_at, GetRegion in *. rewrite (bk_region _ _ _ _ _ _ _ _ Hb) in Hby. cbn [mbind option_bind] in Hby.
    rewrite (block_GetPlane _ _ _ _ _ _ _ _ Hb) in Hby. cbn [mbind option_bind] in Hby.
    unfold st, stored. cbn [fst snd]. cbn [ac_regions set_region with_regions rg_ID with_Planes].
    rewrite (bk_id _ _ _ _ _ _ _ _ Hb), lookup_insert_eq. cbn [mbind option_bind].
    rewrite (stored_GetPlane h a addr l al r i p d Hb), decide_True by done. cbn [mbind option_bind]. f_equal.
    cbn [pl_Data with_Data]. injection Hby as <-.
    replace (Z.to_nat (aZ addr + al_Size al)) with (Z.to_nat (aZ addr) + Z.to_nat (al_Size al))%nat by lia.
    apply slice_write_prefix; lia.
  - rewrite lookup_insert_ne by done. rewrite !blocks_lookup. change (mm_allocations st.2) with (mm_allocations mm).
    destruct (mm_allocations mm !! ad) as [l2|] eqn:Hl2; [|done]. cbn [mbind option_bind].
    destruct (tracked_block h a mm ad l2 Ha Hm Hl2) as (al2 & r2 & i2 & p2 & Hb2).
    rewrite (bk_obj _ _ _ _ _ _ _ _ Hb2). cbn [mbind option_bind]. pose proof (bk_bounds _ _ _ _ _ _ _ _ Hb2).
    apply (stored_other h a mm addr l al r i p d Ha Hm Hl Hb Hle ad l2 al2 r2 i2 p2); (done || lia).
Qed.

Lemma stored_put : mem_inv st.1.1 st.1.2 st.2 (Put c addr d).
Proof.
  pose proof (mi_cache _ _ _ _ Hmi) as Hc. pose proof (mi_capacity _ _ _ _ Hmi) as Hcap.
  apply stored_mem; [by apply Put_inv | by rewrite Put_capacity|]. intros ad v. rewrite Put_view by done.
  destruct (decide (ad = addr)) as [->|Hne]; [intros [= <-]; by left | by apply cacheable_old].
Qed.

(** Caching the data also under another block that holds it. *)
Lemma stored_put2 src l2 al2 : mm_allocations mm !! src = Some l2 -> heap_get h l2 = Some al2 ->
  Z.of_nat (length d) <= al_Size al2 -> bytes_at a src (Z.of_nat (length d)) = Some d ->
  mem_inv st.1.1 st.1.2 st.2 (Put (Put c src d) addr d).
Proof.
  intros Hl2 Hal2 Hlen2 Hb2. pose proof (mi_cache _ _ _ _ Hmi) as Hc. pose proof (mi_capacity _ _ _ _ Hmi) as Hcap.
  pose proof (Put_inv c src d Hcap Hc) as Hc1.
  apply stored_mem; [apply Put_inv; [by rewrite Put_capacity | done] | by rewrite !Put_capacity|].
  intros ad v. rewrite Put_view by done. destruct (decide (ad = addr)) as [->|Hna]; [intros [= <-]; by left|].
  rewrite Put_view by done. destruct (decide (ad = src)) as [->|Hns]; [|by apply cacheable_old].
  intros [= <-]. right. split; [done|]. by exists l2, al2.
Qed.
End StoredMem.

(** A store followed by caching the data, possibly also under the address it was
    read from. *)
Lemma mem_store `{GoRuntime} h a mm c addr d : mem_inv h a mm c -> Z.of_nat (length d) < 4294967296 ->
  match write_block (blocks h a mm) addr d with
  | inl err => Store3D h a mm addr d = Ret (h, a, mm, Some err)
  | inr bs => exists h' a' mm', Store3D h a mm addr d = Ret (h', a', mm', None) /\ blocks h' a' mm' = bs /\
      mem_inv h' a' mm' (Put c addr d) /\ mm_allocations mm' = mm_allocations mm /\
      bytes_at a' addr (Z.of_nat (length d)) = Some d /\
      forall src l al, mm_allocations mm !! src = Some l -> heap_get h l = Some al ->
        Z.of_nat (length d) <= al_Size al -> bytes_at a src (Z.of_nat (length d)) = Some d ->
        mem_inv h' a' mm' (Put (Put c src d) addr d)
  end.
Proof.
  intros Hmi Hd. pose proof Hmi as [M1 M2 M3 M4 M5 M6 M7 M8]. unfold write_block.
  destruct (mm_allocations mm !! addr) as [l|] eqn:Hl; cycle 1.
  { rewrite blocks_None by done. unfold Store3D. rewrite (getAllocation_spec h a) by done. by rewrite Hl. }
  destruct (tracked_block h a mm addr l M1 M2 Hl) as (al & r & i & p & Hb).
  destruct (blocks_tracked h a mm addr l al M1 M2 Hl (bk_obj _ _ _ _ _ _ _ _ Hb)) as (b & Hbl & Hlen & _). rewrite Hbl, Hlen.
  pose proof (Store3D_spec h a mm addr l al r i p d M2 Hl Hb Hd) as Hs.
  destruct (Z.leb_spec (Z.of_nat (length d)) (al_Size al)) as [Hle|Hgt]; [|done].
  rewrite Hs. destruct (stored_blocks h a mm c addr l al r i p d Hmi Hl Hb Hle) as (b' & Hb' & _ & Hbs).
  assert (b' = b) as -> by congruence.
  eexists _, _, _. split; [done|]. split; [exact Hbs|]. split_and!.
  - by apply stored_put.
  - done.
  - exact (stored_bytes h a mm addr l al r i p d Hb Hle).
  - intros src l2 al2 Hl2 Hal2 Hlen2 Hb2. by eapply stored_put2.
Qed.

(** The address of a live block identifies it. *)
Lemma live_addr_inj h a l1 l2 al1 al2 : alloc_inv h a -> live a l1 -> live a l2 ->
  heap_get h l1 = Some al1 -> heap_get h l2 = Some al2 -> al_Address al1 = al_Address al2 -> l1 = l2.
Proof.
  intros Ha L1 L2 H1 H2 Heq.
  destruct (live_entry h a l1 Ha L1) as (k1 & r1 & i1 & p1 & z1 & b1 & K1 & R1 & _ & I1 & Z1 & G1 & A1).
  destruct (live_entry h a l2 Ha L2) as (k2 & r2 & i2 & p2 & z2 & b2 & K2 & _ & _ & I2 & Z2 & G2 & A2).
  assert (b1 = al1) as -> by congruence. assert (b2 = al2) as -> by congruence.
  rewrite A1, A2 in Heq. injection Heq as -> Hp ->. assert (r2 = r1) as -> by congruence.
  assert (i1 = i2) as ->; [|congruence].
  apply (NoDup_lookup (pl_ID <$> rg_Planes r1) i1 i2 (pl_ID p1)); [apply R1 | |].
  - by rewrite list_lookup_fmap, I1.
  - rewrite list_lookup_fmap, I2. simpl. congruence.
Qed.

(** Blocks that stay tracked keep their bytes when the allocator works around them. *)
Lemma blocks_frame h a mm h' a' mm' addr : alloc_inv h a -> mm_inv h a mm -> frame a a' -> heap_extends h h' ->
  mm_allocations mm' !! addr = mm_allocations mm !! addr -> blocks h' a' mm' !! addr = blocks h a mm !! addr.
Proof.
  intros Ha Hm Hf He Hs. rewrite !blocks_lookup, Hs. destruct (mm_allocations mm !! addr) as [l|] eqn:Hl; [|done].
  cbn [mbind option_bind]. destruct (Hm addr l Hl) as (_ & al & Hal & _). rewrite He by eauto. rewrite Hal.
  cbn [mbind option_bind]. destruct (tracked_region h a mm addr l Ha Hm Hl) as [r Hr]. by apply (frame_bytes a a' addr _ r).
Qed.

Lemma mem_alloc `{GoRuntime} h a mm c size rt flags :
  mem_inv h a mm c -> 0 < size < 4294967296 -> alloc_safe a size -> ids_left a ->
  exists h' a' o, Allocate false h a size rt flags = Ret (h', a', o) /\
    match o with
    | inl e => h' = h /\ e = ErrInsufficientMemory size /\ PlaneSize < size /\ mem_inv h a' mm c /\
        blocks h a' mm = blocks h a mm
    | inr l => exists al mm' b, heap_get h' l = Some al /\ al_Size al = size /\ IsYPromoted al = false /\
        trackAllocation h' mm l = Ret mm' /\ mm_allocations mm !! al_Address al = None /\
        mm_allocations mm' = <[al_Address al := l]> (mm_allocations mm) /\ mem_inv h' a' mm' c /\
        size <= PlaneSize /\ Z.of_nat (length b) = size /\
        blocks h' a' mm' = <[al_Address al := b]> (blocks h a mm)
    end.
Proof.
  intros Hmi Hsz Hsafe Hids. pose proof Hmi as [M1 M2 M3 M4 M5 M6 M7 M8].
  rewrite Allocate_sync by (by left).
  destruct (allocateSync_spec h a size rt flags M1 Hids Hsz Hsafe) as (h' & a' & o & Heq & Ho).
  exists h', a', o. split; [done|]. destruct o as [e|l].
  - destruct Ho as (-> & Hbig & -> & ->). destruct (add_region_inv h a rt M1 Hids) as (Hi & Hn & _ & Hlv & Hfr).
    split; [done|]. split; [done|]. split; [by rewrite <- M8|]. split; [|apply map_eq; intros addr;
      by apply blocks_frame; [..|apply heap_extends_refl|]]. apply (mem_frame h a mm c h _ mm Hmi Hi); try done.
    + intros addr l Hl. destruct (M2 addr l Hl) as [? ?]. split; [by apply Hlv | done].
    + apply (frame_one_plane a); [done..|]. intros k r' Hk Hk'. by apply (add_region_new h a rt k r').
  - destruct Ho as [R1 R2 R3 (al & Hal & Hs & _ & _) R5 R6 R7 R8 R9].
    pose proof (allocateSync_single h a size rt flags h' a' l al M6 Heq Hal) as Hy.
    assert (mm_inv h' a' mm) as Hm.
    { intros addr l0 Hl0. destruct (M2 addr l0 Hl0) as (Hlv & al0 & Hal0 & ?). split; [apply R5; by right|].
      exists al0. rewrite R2 by eauto. done. }
    destruct (trackAllocation_inv h' a' mm l al Hm) as (mm' & Htr & Hm' & Hmap); [apply R5; by left | done | done |].
    assert (mm_allocations mm' !! al_Address al = Some l) as Hl' by (by rewrite Hmap, lookup_insert_eq).
    destruct (blocks_tracked h' a' mm' (al_Address al) l al R1 Hm' Hl' Hal) as (b & Hb & Hlen & Hmax & _).
    exists al, mm', b. split; [done|]. split; [done|]. split; [done|]. split; [done|].
    assert (mm_allocations mm !! al_Address al = None) as Hnone.
    { destruct (mm_allocations mm !! al_Address al) as [l0|] eqn:E; [exfalso|done].
      destruct (Hm _ _ E) as (Hlv & al0 & Hal0 & Haddr0 & _).
      assert (l0 = l) as -> by (eapply (live_addr_inj h' a'); [done | done | apply R5; by left | done..]).
      destruct (M2 _ _ E) as (_ & al1 & Hal1 & _). congruence. }
    split; [done|]. split; [done|]. split; cycle 1.
    { split; [lia|]. split; [lia|]. apply map_eq. intros ad. destruct (decide (ad = al_Address al)) as [->|Hne].
      - by rewrite Hb, lookup_insert_eq.
      - rewrite lookup_insert_ne by done. apply blocks_frame; try done. by rewrite Hmap, lookup_insert_ne. }
    apply (mem_frame h a mm c h' a' mm' Hmi); try done.
    + apply (frame_one_plane a); [done..|]. intros k r' Hk Hk'. by apply (R9 k r').
    + intros addr d Hd. destruct (M5 addr d Hd) as (l0 & _ & Hl0 & _). rewrite Hmap.
      rewrite lookup_insert_ne; [done|]. congruence.
Qed.

Lemma mem_free `{GoRuntime} h a mm c addr l :
  mem_inv h a mm c -> mm_allocations mm !! addr = Some l ->
  exists a' mm', Free h a l = Ret (a', None) /\ untrackAllocation h mm addr = Ret mm' /\
    mem_inv h a' mm' (Invalidate c addr) /\ mm_allocations mm' = delete addr (mm_allocations mm) /\
    blocks h a' mm' = delete addr (blocks h a mm).
Proof.
  intros Hmi Hl. pose proof Hmi as [M1 M2 M3 M4 M5 M6 M7 M8]. destruct (M2 addr l Hl) as (Hlv & al & Hal & Haddr & Hy).
  destruct (freeSync_spec h a l al M1 Hlv Hal Hy) as (a' & Hf & [F1 F2 F3 F4 F5 F6]).
  destruct (untrackAllocation_inv h a a' mm addr l M2 Hl F2) as (mm' & Hu & Hm' & Hmap).
  exists a', mm'. rewrite Free_sync. split_and!; try done; cycle 1.
  { apply map_eq. intros ad. destruct (decide (ad = addr)) as [->|Hne].
    - rewrite lookup_delete_eq. apply blocks_None. by rewrite Hmap, lookup_delete_eq.
    - rewrite lookup_delete_ne by done. apply blocks_frame; [done..|apply heap_extends_refl|].
      by rewrite Hmap, lookup_delete_ne. }
  assert (mem_inv h a mm (Invalidate c addr)) as Hmi'.
  { constructor; try done; [by apply Invalidate_inv | by rewrite Invalidate_capacity |].
    intros ad d. rewrite Invalidate_view. destruct (decide _); [done|]. apply M5. }
  apply (mem_frame h a mm _ h a' mm' Hmi'); try done.
  - apply (frame_one_plane a); [done..|]. intros k r' Hk Hk'. rewrite F6 in Hk by done. done.
  - intros ad d. rewrite Invalidate_view. destruct (decide (ad = addr)) as [|Hne]; [done|]. intros _.
    by rewrite Hmap, lookup_delete_ne.
Qed.
