(* ===== verification/VMSpec.v ===== *)
(** * What the virtual machine guarantees

    Every handler simulates its abstract instruction and keeps the invariant of
    VMMemory.v; termination of [Execute], exact gas accounting, and the programs
    that leave the safe states. *)
From S2P Require Import Prelude Words Float64 Address Errors Bitmap Plane Region Allocator.
From S2P Require Import AllocatorInv YPromotionInv AllocatorSpec AllocatorEdge.
From S2P Require Import Gas Sha256 Merkle Spatial Registers Instructions MemoryManager VM Progress.
From S2P Require Import VMFrame BlockMachine VMMemory.
From stdpp Require Import strings.
#[local] Open Scope Z_scope.

(** ** One instruction *)

(** Projections of updated VM states. *)
Ltac vm_simpl :=
  cbn [mbind res_bind deref vm_heap vm_allocator vm_gasAccount vm_merkleTree vm_registers vm_memory vm_cache vm_pc
       vm_halted vm_stats vm_latency vm_config vm_paused set_memory set_gas set_tree set_registers set_cache
       set_control set_stats].

(** What the allocator needs of a request: a size, no 16-bit wrap-around in the
    search, and a region counter that can grow. *)
Definition safe_instr (v : VM3D) (i : asm) : Prop :=
  match i with
  | IAlloc size _ _ => 0 < size /\ alloc_safe (vm_allocator v) size /\ ids_left (vm_allocator v)
  | _ => True
  end.

(** The abstract state behind a state of the VM. *)
Definition gas_left (g : GasAccountant3D) : Z :=
  match ga_buckets g with [] => 0 | b :: _ => gb_remaining b end.

Definition machine_of (v : VM3D) : machine :=
  mkMachine (blocks (vm_heap v) (vm_allocator v) (vm_memory v)) (vm_registers v) (gas_left (vm_gasAccount v)).

Section Instructions.
Context `{GoRuntime} (v : VM3D).
Hypothesis Hv : vm_inv v.

(** A handler answers as the abstract machine does, and keeps the invariant. *)
Definition simulates (i : asm) (o : res (VM3D * option error)) : Prop :=
  exists v' e, o = Ret (v', e) /\ vm_inv v' /\ perform i (machine_of v) (machine_of v') e.

(** A new state with the memory side, the registers and the gas in order. *)
Lemma vm_inv_intro v' :
  mem_inv (vm_heap v') (vm_allocator v') (vm_memory v') (vm_cache v') -> regs_ok (vm_registers v') ->
  vm_gasAccount v' = vm_gasAccount v -> vm_inv v'.
Proof. intros Hm Hr Hg. constructor; [done | done|]. rewrite Hg. apply Hv. Qed.

Lemma machine_of_intro v' bs r :
  blocks (vm_heap v') (vm_allocator v') (vm_memory v') = bs -> vm_registers v' = r ->
  vm_gasAccount v' = vm_gasAccount v -> machine_of v' = mkMachine bs r (gas_left (vm_gasAccount v)).
Proof. unfold machine_of. by intros -> -> ->. Qed.

(** A load that goes to memory. *)
Lemma load_from_memory addr size reg c' : is_u32 size ->
  mem_inv (vm_heap v) (vm_allocator v) (vm_memory v) c' ->
  simulates (ILoad addr size reg)
    ('(mm, r) ← Load3D (vm_heap v) (vm_allocator v) (vm_memory v) addr size;
     let v := set_memory (vm_heap v) (vm_allocator v) mm (set_cache c' v) in
     match r with
     | inl err => Ret (v, Some (ErrWrap "MLOAD3D failed" err))
     | inr data =>
         let v := set_cache (Put (vm_cache v) addr data) v in
         let v := set_registers (Reg_Set (vm_registers v) reg data) v in
         h ← UpdateAccess (vm_heap v) (vm_memory v) addr;
         Ret (set_memory h (vm_allocator v) (vm_memory v) v, None)
     end).
Proof.
  intros Hs Hm'. pose proof Hv as [Hm Hr Hg]. unfold simulates. cbn [perform perform_det].
  destruct (mem_load _ _ _ _ addr size Hm' Hs) as (mm' & -> & Hmm & Hr'). cbn [mbind res_bind].
  pose proof (mem_mm _ _ _ mm' _ Hmm Hm') as Hm2. cbn [machine_of mc_blocks].
  destruct (read_block _ addr size) as [err|d] eqn:Erd.
  - eexists _, _. split; [done|]. split; [by apply vm_inv_intro|]. f_equal.
    apply machine_of_intro; [|done..]. by apply blocks_mm.
  - destruct (Hr' d eq_refl) as (l & al & Hl & Hal & Hlen & Hle & Hb). cbv zeta. vm_simpl.
    assert (mem_inv (vm_heap v) (vm_allocator v) mm' (Put c' addr d)) as Hm3.
    { eapply mem_put; [done | by rewrite Hmm | done | lia | by rewrite Hlen]. }
    destruct (mem_touch _ _ _ _ addr Hm3) as (h' & -> & Hm4 & Hb4). vm_simpl.
    eexists _, _. split; [done|]. split; [apply vm_inv_intro; [done | by (apply Reg_Set_ok) | done]|]. f_equal.
    apply machine_of_intro; [|done..]. vm_simpl. rewrite Hb4. by apply blocks_mm.
Qed.

Lemma step_load addr size reg : is_u32 size ->
  simulates (ILoad addr size reg) (executeMLoad3D v (instr_of (ILoad addr size reg))).
Proof.
  intros Hs. pose proof Hv as [Hm Hr Hg]. unfold executeMLoad3D. cbn [instr_of in_Operands op_Value].
  destruct (mem_get _ _ _ _ addr Hm) as (c' & -> & Hm'). cbn [mbind res_bind].
  pose proof (load_from_memory addr size reg c' Hs Hm') as Hload.
  destruct (view (vm_cache v) addr) as [data|] eqn:Hview; [|exact Hload].
  destruct (Z.leb_spec size (u32 (Z.of_nat (length data)))) as [Hsz|Hsz]; [|exact Hload]. clear Hload.
  destruct (mi_coherent _ _ _ _ Hm addr data Hview) as (l & al & Hl & Hal & Hlen & Hb).
  destruct (blocks_tracked _ _ _ _ _ _ (mi_alloc _ _ _ _ Hm) (mi_mm _ _ _ _ Hm) Hl Hal) as (b & Hbl & Hbn & Hmax & Hby).
  unfold is_u32, PlaneSize in *. rewrite u32_small in Hsz by (unfold is_u32; lia).
  rewrite Hby in Hb by lia. injection Hb as Hb.
  eexists _, _. split; [done|]. split; [apply vm_inv_intro; [done | by (apply Reg_Set_ok) | done]|].
  cbn [perform perform_det machine_of mc_blocks]. unfold read_block. rewrite Hbl.
  destruct (Z.leb_spec size (Z.of_nat (length b))); [|lia]. f_equal. apply machine_of_intro; [done| |done]. vm_simpl.
  f_equal. rewrite <- Hb, take_take. f_equal. lia.
Qed.

Lemma step_store addr reg size : is_u32 size ->
  simulates (IStore addr reg size) (executeMStore3D v (instr_of (IStore addr reg size))).
Proof.
  intros Hs. unfold is_u32 in Hs. pose proof Hv as [Hm Hr Hg]. unfold executeMStore3D, simulates.
  cbn [instr_of in_Operands op_Value perform perform_det machine_of mc_registers mc_blocks].
  set (data := Reg_Get (vm_registers v) reg). cbv zeta.
  destruct (Z.ltb_spec (u32 (Z.of_nat (length data))) size) as [Hlt|Hge]; [by eexists _, _|].
  set (d := take (Z.to_nat size) data).
  assert (Z.of_nat (length d) <= size) as Hlen by (unfold d; rewrite length_take; lia).
  pose proof (mem_store _ _ _ _ addr d Hm ltac:(lia)) as He.
  destruct (write_block _ addr d) as [err|bs].
  { rewrite He. eexists _, _. split; [done|]. split; [by apply vm_inv_intro | done]. }
  destruct He as (h' & a' & mm' & -> & Hbs & Hm' & _). cbn [mbind res_bind].
  set (v1 := tree_update (set_cache _ _) addr d).
  assert (vm_heap v1 = h' /\ vm_allocator v1 = a' /\ vm_memory v1 = mm' /\ vm_cache v1 = Put (vm_cache v) addr d /\
    vm_registers v1 = vm_registers v /\ vm_gasAccount v1 = vm_gasAccount v) as (E1 & E2 & E3 & E4 & E5 & E6).
  { unfold v1, tree_update. by destruct (vm_merkleTree _). }
  rewrite E1, E3. destruct (mem_touch _ _ _ _ addr Hm') as (h2 & -> & Hm2 & Hb2). vm_simpl.
  eexists _, _. split; [done|]. split; [apply vm_inv_intro; vm_simpl; [by rewrite E2, E4 | by rewrite E5 | done]|].
  f_equal. apply machine_of_intro; vm_simpl; [by rewrite E2, Hb2 | done | done].
Qed.

Lemma step_alloc size rt flags : 0 < size < 4294967296 -> alloc_safe (vm_allocator v) size -> ids_left (vm_allocator v) ->
  simulates (IAlloc size rt flags) (executeMAlloc3D v (instr_of (IAlloc size rt flags))).
Proof.
  intros Hsz Hsafe Hids. pose proof Hv as [Hm Hr Hg]. unfold executeMAlloc3D, simulates.
  cbn [instr_of in_Operands op_Value perform].
  destruct (mem_alloc _ _ _ _ size rt flags Hm Hsz Hsafe Hids) as (h' & a' & o & -> & Ho). cbn [mbind res_bind].
  destruct o as [err|l].
  - destruct Ho as (-> & -> & Hbig & Hm' & Hbs). eexists _, _. split; [done|]. split; [by apply vm_inv_intro|].
    destruct (Z.leb_spec size PlaneSize); [lia|]. split; [|done]. by apply machine_of_intro.
  - destruct Ho as (al & mm' & b & Hal & Hs & Hy & Htr & Hnone & Hmap & Hm' & Hmax & Hlen & Hbs).
    vm_simpl. rewrite Hal. vm_simpl. rewrite Htr. vm_simpl.
    eexists _, _. split; [done|]. split; [apply vm_inv_intro; vm_simpl; [done | by (apply Reg_Set_ok) | done]|].
    destruct (Z.leb_spec size PlaneSize); [|lia]. split; [done|]. exists (al_Address al), b.
    split; [by apply blocks_None|]. split; [done|]. by apply machine_of_intro.
Qed.

(** Looking up the allocation at an address. *)
Lemma find_block addr : getAllocation (vm_heap v) (vm_memory v) addr = Ret (mm_allocations (vm_memory v) !! addr).
Proof. exact (getAllocation_spec _ (vm_allocator v) _ addr (mi_mm _ _ _ _ (vi_mem v Hv))). Qed.

Lemma step_free addr : simulates (IFree addr) (executeMFree3D v (instr_of (IFree addr))).
Proof.
  pose proof Hv as [Hm Hr Hg]. unfold executeMFree3D, simulates.
  cbn [instr_of in_Operands op_Value perform perform_det machine_of mc_blocks]. rewrite find_block. cbn [mbind res_bind].
  destruct (mm_allocations (vm_memory v) !! addr) as [l|] eqn:Hl; [|rewrite blocks_None by done; by eexists _, _].
  destruct (mi_mm _ _ _ _ Hm addr l Hl) as (_ & al & Hal & _).
  destruct (blocks_tracked _ _ _ _ _ _ (mi_alloc _ _ _ _ Hm) (mi_mm _ _ _ _ Hm) Hl Hal) as (b & Hbl & _). rewrite Hbl.
  destruct (mem_free _ _ _ _ addr l Hm Hl) as (a' & mm' & -> & Hu & Hm' & Hmap & Hbs). vm_simpl. rewrite Hu. vm_simpl.
  eexists _, _. split; [done|]. split; [by apply vm_inv_intro|]. f_equal. by apply machine_of_intro.
Qed.

Lemma step_copy src dst size : is_u8 size ->
  simulates (ICopy src dst size) (executeMCopy3D v (instr_of (ICopy src dst size))).
Proof.
  intros Hs. unfold is_u8 in Hs. pose proof Hv as [Hm Hr Hg]. unfold executeMCopy3D, simulates.
  cbn [instr_of in_Operands op_Value perform perform_det machine_of mc_blocks].
  destruct (mem_load _ _ _ _ src size Hm) as (mm' & -> & Hmm & Hr'); [unfold is_u32; lia|]. cbn [mbind res_bind].
  pose proof (mem_mm _ _ _ mm' _ Hmm Hm) as Hm2. pose proof (blocks_mm (vm_heap v) (vm_allocator v) _ _ Hmm) as Hbm.
  destruct (read_block _ src size) as [err|d].
  { eexists _, _. split; [done|]. split; [by apply vm_inv_intro|]. f_equal. by apply machine_of_intro. }
  destruct (Hr' d eq_refl) as (l & al & Hl & Hal & Hlen & Hle & Hb). vm_simpl.
  pose proof (mem_store _ _ _ _ dst d Hm2 ltac:(lia)) as He. rewrite Hbm in He.
  destruct (write_block _ dst d) as [err|bs].
  { rewrite He. eexists _, _. split; [done|]. split; [by apply vm_inv_intro|]. f_equal. by apply machine_of_intro. }
  destruct He as (h' & a' & mm2 & -> & Hbs & _ & _ & _ & Hput2). eexists _, _. split; [done|]. split.
  - apply vm_inv_intro; vm_simpl; [|done|done]. apply (Hput2 src l al); [by rewrite Hmm | done | lia | by rewrite Hlen].
  - f_equal. by apply machine_of_intro.
Qed.

Lemma step_size addr reg : simulates (ISize addr reg) (executeMSize3D v (instr_of (ISize addr reg))).
Proof.
  pose proof Hv as [Hm Hr Hg]. unfold executeMSize3D, simulates.
  cbn [instr_of in_Operands op_Value perform perform_det machine_of mc_blocks]. rewrite find_block. cbn [mbind res_bind].
  destruct (mm_allocations (vm_memory v) !! addr) as [l|] eqn:Hl.
  - destruct (mi_mm _ _ _ _ Hm addr l Hl) as (_ & al & Hal & _). rewrite Hal. vm_simpl.
    destruct (blocks_tracked _ _ _ _ _ _ (mi_alloc _ _ _ _ Hm) (mi_mm _ _ _ _ Hm) Hl Hal) as (b & Hbl & Hbn & _). rewrite Hbl.
    eexists _, _. split; [done|]. split; [apply vm_inv_intro; vm_simpl; [done | by (apply Reg_Set_ok) | done]|].
    f_equal. apply machine_of_intro; [done| |done]. vm_simpl. by rewrite Hbn.
  - rewrite blocks_None by done.
    eexists _, _. split; [done|]. split; [apply vm_inv_intro; vm_simpl; [done | by (apply Reg_Set_ok) | done] | done].
Qed.

(** Every handler simulates its instruction. *)
Lemma step_handler i : asm_ok i -> safe_instr v i -> simulates i
  (if in_Opcode (instr_of i) =? OP_MLOAD3D then executeMLoad3D v (instr_of i)
   else if in_Opcode (instr_of i) =? OP_MSTORE3D then executeMStore3D v (instr_of i)
   else if in_Opcode (instr_of i) =? OP_MALLOC3D then executeMAlloc3D v (instr_of i)
   else if in_Opcode (instr_of i) =? OP_MFREE3D then executeMFree3D v (instr_of i)
   else if in_Opcode (instr_of i) =? OP_MCOPY3D then executeMCopy3D v (instr_of i)
   else if in_Opcode (instr_of i) =? OP_MQUERY3D then executeMQuery3D v (instr_of i)
   else if in_Opcode (instr_of i) =? OP_MCOMPACT3D then executeMCompact3D v
   else if in_Opcode (instr_of i) =? OP_NOP then executeNOP v
   else if in_Opcode (instr_of i) =? OP_ADD3D then executeAdd3D v (instr_of i)
   else if in_Opcode (instr_of i) =? OP_SUB3D then executeSub3D v (instr_of i)
   else if in_Opcode (instr_of i) =? OP_MOV3D then executeMov3D v (instr_of i)
   else if in_Opcode (instr_of i) =? OP_MSIZE3D then executeMSize3D v (instr_of i)
   else if in_Opcode (instr_of i) =? OP_HALT3D then executeHalt3D v
   else Ret (v, Some (ErrUnsupportedOpcode (in_Opcode (instr_of i))))).
Proof.
  intros Hok Hs. destruct i as [a size reg|a reg size|size rt flags|a|src dst size|d s1 s2|d s1 s2|d s|a d| |];
    cbn [asm_ok safe_instr] in Hok, Hs.
  - apply step_load, Hok.
  - apply step_store, Hok.
  - destruct Hok as (Hz & _). destruct Hs as (Hpos & Hsafe & Hids). unfold is_u32 in Hz. apply step_alloc; [lia | done..].
  - apply step_free.
  - apply step_copy, Hok.
  - eexists _, _. split; [done|]. split; [apply vm_inv_intro; [apply Hv | apply Reg_Set_ok, Hv | done] | done].
  - eexists _, _. split; [done|]. split; [apply vm_inv_intro; [apply Hv | apply Reg_Set_ok, Hv | done] | done].
  - eexists _, _. split; [done|]. split; [apply vm_inv_intro; [apply Hv | apply Reg_Set_ok, Hv | done] | done].
  - apply step_size.
  - eexists _, _. split; [done|]. split; done.
  - eexists _, _. split; [done|]. split; [apply vm_inv_intro; [apply Hv | apply Hv | done] | done].
Qed.
End Instructions.

Lemma vm_inv_gas v g : vm_inv v -> ga_buckets g <> [] -> vm_inv (set_gas g v).
Proof. intros [Hm Hr _] Hg. by constructor. Qed.

Lemma Consume_buckets g cost : ga_buckets g <> [] ->
  exists g' e, Consume g cost = Ret (g', e) /\ ga_buckets g' <> [].
Proof.
  intros Hne. unfold Consume. destruct (getBucket_spec g Hne) as (g1 & b & -> & Hg & Hb). cbn [mbind res_bind].
  destruct (lookup_lt_is_Some_2 (ga_buckets g) b Hb) as [bucket Hbk]. rewrite Hg, Hbk. cbn [deref mbind res_bind].
  destruct (_ <? _); eexists _, _; (split; [done|]); [by rewrite Hg|]. simpl.
  intros E. apply (f_equal length) in E. rewrite length_insert in E. simpl in E. destruct (ga_buckets g); [done|simpl in E; lia].
Qed.

(** Taking the cost, as the abstract machine sees it. *)
Lemma Consume_gas limit g n : is_u64 limit -> gas_inv limit g -> 0 <= n ->
  exists g' , Consume g n = Ret (g', if gas_left g <? n then Some ErrInsufficientGas else None) /\
    gas_inv limit g' /\ gas_left g' = if gas_left g <? n then gas_left g else gas_left g - n.
Proof.
  intros Hl (b & Hb & Hr & Hu & Hs) Hn. unfold is_u64 in Hl. destruct (Consume_single g b n Hb) as (g' & -> & Hg').
  exists g'. unfold gas_left. rewrite Hb. destruct (Z.ltb_spec (gb_remaining b) n).
  - split; [done|]. rewrite Hg'. split; [by exists b | done].
  - rewrite u64_small in Hg' by (unfold is_u64; lia). split; [done|]. rewrite Hg'. split; [|done].
    eexists. split; [exact Hg'|]. simpl. lia.
Qed.

Lemma instruction_refines_lemma `{GoRuntime} limit v i :
  is_u64 limit -> gas_inv limit (vm_gasAccount v) -> vm_inv v -> asm_ok i -> safe_instr v i ->
  exists v' e, executeInstruction v (instr_of i) = Ret (v', e) /\ vm_inv v' /\
    mstep i (machine_of v) (machine_of v') e.
Proof.
  intros Hl Hgas Hv Hok Hs. unfold executeInstruction, mstep. cbv zeta.
  destruct (Consume_gas limit (vm_gasAccount v) (cost i) Hl Hgas (calculateGasCost_pos _)) as (g & Hc & Hg & Hgl).
  unfold cost in Hc at 1. rewrite Hc. cbn [mbind res_bind].
  assert (vm_inv (set_gas g v)) as Hv1 by (apply vm_inv_gas; [done|]; destruct Hg as (b & -> & _); done).
  cbn [machine_of mc_gas]. destruct (gas_left (vm_gasAccount v) <? cost i).
  - eexists _, _. split; [done|]. split; [done|]. split; [|done]. unfold machine_of. vm_simpl. by rewrite Hgl.
  - destruct (step_handler (set_gas g v) Hv1 i Hok Hs) as (v' & e & Hx & Hv' & Hp). exists v', e. split; [exact Hx|].
    split; [done|]. assert (machine_of (set_gas g v) = with_gas (gas_left (vm_gasAccount v) - cost i) (machine_of v)) as <-.
    { unfold machine_of, with_gas. vm_simpl. by rewrite Hgl. }
    done.
Qed.

(** Every instruction a program can contain is safe: on a VM state that satisfies the
    invariant it returns, without panic or deadlock, a state that satisfies it again,
    whether it succeeds or fails. *)
Theorem instruction_safe `{GoRuntime} v i :
  vm_inv v -> asm_ok i -> safe_instr v i ->
  exists v' e, executeInstruction v (instr_of i) = Ret (v', e) /\ vm_inv v'.
Proof.
  intros Hv Hok Hs. unfold executeInstruction. cbv zeta.
  destruct (Consume_buckets (vm_gasAccount v) (calculateGasCost (instr_of i)) (vi_gas v Hv)) as (g & ce & -> & Hg).
  cbn [mbind res_bind]. pose proof (vm_inv_gas v g Hv Hg) as Hv1. destruct ce as [err|]; [by eexists _, _|].
  destruct (step_handler (set_gas g v) Hv1 i Hok Hs) as (v' & e & Hx & Hv' & _). by exists v', e.
Qed.

Lemma NewVM3D_inv `{GoRuntime} cfg : vm_inv (NewVM3D cfg).
Proof.
  constructor; [|done|done]. constructor; try done.
  - by apply NewAllocator3D_inv.
  - apply (cache_run_spec []).
Qed.

(** ** Theorems *)

Definition start_state (rt : nat -> GoRuntime) (v : VM3D) : VM3D :=
  set_control 0 false (with_times (@rt_now (rt O) 10) (vs_RunTime (vm_stats v)) (vm_stats v)) (vm_latency v) v.

(** C12. [Execute] ends on every program: from a VM that is not paused and whose
    allocator is not concurrent, as every new VM is, it returns or stops with a
    run-time panic but never blocks; one round per program byte is enough fuel, and
    more fuel does not change the outcome. *)
Theorem execute_terminates rt v program :
  Forall is_u8 program -> Z.of_nat (length program) < 18446744073709551616 ->
  vm_paused v = false -> cf_EnableConcurrent (ac_config (vm_allocator v)) = false ->
  Execute rt v program <> Hang /\
  forall more, exec_loop rt (S (length program) + more) 0 (start_state rt v) program = Some (Execute rt v program).
Proof.
  intros Hb Hlen Hp Hcc.
  destruct (exec_loop_terminates rt program Hb Hlen (S (length program)) 0 (start_state rt v)) as (o & Ho & Hh);
    [simpl; lia | simpl; lia|].
  unfold Execute. fold (start_state rt v). pose proof (Ho 0%nat) as Ho0. rewrite Nat.add_0_r in Ho0.
  rewrite Ho0. split; [by apply Hh|]. intros more. by rewrite (Ho more).
Qed.

Definition demo_config : VMConfig := mkVMConfig 0 1000000 true true 1000 0.
Definition demo_vm : VM3D := @NewVM3D (runtime_fwd 0) demo_config.
Definition assemble (l : list asm) : list Z := l ≫= encode.

Lemma execute_terminates_witness :
  Execute (fun _ => runtime_fwd 0) demo_vm (assemble [IAlloc 10 4 0; IHalt]) <> Hang /\ forall more,
  exec_loop (fun _ => runtime_fwd 0) (16 + more) 0 (start_state (fun _ => runtime_fwd 0) demo_vm) (assemble [IAlloc 10 4 0; IHalt])
    = Some (Execute (fun _ => runtime_fwd 0) demo_vm (assemble [IAlloc 10 4 0; IHalt])).
Proof.
  apply (execute_terminates (fun _ => runtime_fwd 0) demo_vm (assemble [IAlloc 10 4 0; IHalt])).
  - apply (bool_decide_unpack _). by vm_compute.
  - by vm_compute.
  - reflexivity.
  - reflexivity.
Defined.

(** C13. A program never spends more gas than the limit of its VM, and at every end
    of [Execute], normal or with an error, used plus remaining gas is the limit, for
    limits below 2^63.  The remaining gas is reported as a signed number: while 2^63
    units or more are left, it is reported as 0. *)
Theorem execute_gas_exact `{GoRuntime} rt cfg program v' e :
  is_u64 (vc_GasLimit cfg) -> Forall is_u8 program -> Z.of_nat (length program) < 18446744073709551616 ->
  Execute rt (NewVM3D cfg) program = Ret (v', e) ->
  0 <= GetGasUsed v' <= vc_GasLimit cfg /\
  (vc_GasLimit cfg < 9223372036854775808 -> GetGasUsed v' + GetGasRemaining v' = vc_GasLimit cfg) /\
  (9223372036854775808 <= vc_GasLimit cfg - GetGasUsed v' -> GetGasRemaining v' = 0).
Proof.
  intros Hl Hb Hlen Hx. unfold Execute in Hx. fold (start_state rt (NewVM3D cfg)) in Hx.
  destruct (exec_loop rt (S (length program)) 0 (start_state rt (NewVM3D cfg)) program) as [o|] eqn:Ho; [|done].
  simpl in Hx. subst o. unfold is_u64 in *.
  edestruct (exec_loop_gas rt (vc_GasLimit cfg) program) as (b & Hbk & H1 & H2 & H3); [done.. | | | exact Ho |].
  - simpl. lia.
  - exists (mkBucket (vc_GasLimit cfg) 0 0 0). split; [by apply NewAccountant_eq|]. simpl. lia.
  - unfold GetGasUsed, GetGasRemaining. rewrite (Used_single _ b Hbk) by (unfold is_u64; lia). split; [lia|].
    unfold Remaining. rewrite Hbk. cbn [foldl]. rewrite Z.add_0_l. split; intros Hs; cycle 1.
    { assert (gb_remaining b <? 9223372036854775808 = false) as E by (apply Z.ltb_ge; lia).
      assert (to_int64 (gb_remaining b) = gb_remaining b - 18446744073709551616) as ->.
      { unfold to_int64. rewrite u64_small by (unfold is_u64; lia). by rewrite E. }
      unfold to_int64. assert (u64 (gb_remaining b - 18446744073709551616) = gb_remaining b) as ->.
      { unfold u64. rewrite <- (Z_mod_plus_full _ 1), Z.mod_small; lia. }
      rewrite E. by solve_bool. }
    assert (to_int64 (gb_remaining b) = gb_remaining b) as E.
    { unfold to_int64. rewrite u64_small by (unfold is_u64; lia). destruct (Z.ltb_spec (gb_remaining b) 9223372036854775808); lia. }
    rewrite !E. destruct (Z.ltb_spec (gb_remaining b) 0); lia.
Qed.

Definition demo_run (l : list asm) : VM3D :=
  match Execute (fun _ => runtime_fwd 0) demo_vm (assemble l) with Ret (v, _) => v | _ => demo_vm end.

Lemma demo_run_ok l :
  match Execute (fun _ => runtime_fwd 0) demo_vm (assemble l) with Ret (_, None) => true | _ => false end = true ->
  Execute (fun _ => runtime_fwd 0) demo_vm (assemble l) = Ret (demo_run l, None).
Proof. unfold demo_run. by destruct (Execute _ _ _) as [[v [e|]]| |]. Qed.

Lemma execute_gas_exact_witness :
  GetGasUsed (demo_run [IAlloc 10 4 0; IHalt]) + GetGasRemaining (demo_run [IAlloc 10 4 0; IHalt]) = 1000000.
Proof.
  apply (@execute_gas_exact (runtime_fwd 0) (fun _ => runtime_fwd 0) demo_config (assemble [IAlloc 10 4 0; IHalt])
    (demo_run [IAlloc 10 4 0; IHalt]) None).
  - by vm_compute.
  - apply (bool_decide_unpack _). by vm_compute.
  - by vm_compute.
  - apply demo_run_ok. vm_compute. reflexivity.
  - by vm_compute.
Defined.

(** What MSTORE writes, MLOAD reads: after a successful MSTORE of the first
    [size] bytes of a register, a successful MLOAD of that address puts exactly
    these bytes into its register, whether the cache answers or memory does. *)
Theorem mstore_mload `{GoRuntime} v addr reg size reg2 v1 v2 :
  vm_inv v -> addr_ok addr -> is_u32 size -> 0 <= reg2 <= R15 ->
  executeInstruction v (instr_of (IStore addr reg size)) = Ret (v1, None) ->
  executeInstruction v1 (instr_of (ILoad addr size reg2)) = Ret (v2, None) ->
  Reg_Get (vm_registers v2) reg2 = take (Z.to_nat size) (Reg_Get (vm_registers v) reg) /\ vm_inv v2.
Proof.
  intros Hv Ha Hs Hr2 H1 H2. unfold executeInstruction in H1, H2. cbv zeta in H1, H2.
  destruct (Consume_buckets (vm_gasAccount v) (calculateGasCost (instr_of (IStore addr reg size))) (vi_gas v Hv))
    as (g1 & c1 & E1 & Hg1). rewrite E1 in H1. cbn [mbind res_bind] in H1. destruct c1; [done|].
  destruct (step_store _ (vm_inv_gas v g1 Hv Hg1) addr reg size Hs) as (w1 & e1 & X1 & V1 & P1).
  assert (executeMStore3D (set_gas g1 v) (instr_of (IStore addr reg size)) = Ret (v1, None)) as H1' by exact H1.
  rewrite X1 in H1'. injection H1' as -> ->.
  destruct (Consume_buckets (vm_gasAccount v1) (calculateGasCost (instr_of (ILoad addr size reg2))) (vi_gas v1 V1))
    as (g2 & c2 & E2 & Hg2). rewrite E2 in H2. cbn [mbind res_bind] in H2. destruct c2; [done|].
  destruct (step_load _ (vm_inv_gas v1 g2 V1 Hg2) addr size reg2 Hs) as (w2 & e2 & X2 & V2 & P2).
  assert (executeMLoad3D (set_gas g2 v1) (instr_of (ILoad addr size reg2)) = Ret (v2, None)) as H2' by exact H2.
  rewrite X2 in H2'. injection H2' as -> ->. split; [|done].
  exact (perform_store_load (machine_of (set_gas g1 v)) (machine_of v1) (machine_of (set_gas g2 v1)) (machine_of v2)
    addr reg size reg2 (proj1 (vi_regs v1 V1)) Hs Hr2 P1 P2 eq_refl eq_refl).
Qed.

(** The state after one successful instruction. *)
Definition after (v : VM3D) (i : asm) : VM3D :=
  match @executeInstruction (runtime_fwd 0) v (instr_of i) with Ret (v', None) => v' | _ => v end.

Lemma after_ok v i :
  match @executeInstruction (runtime_fwd 0) v (instr_of i) with Ret (_, None) => true | _ => false end = true ->
  @executeInstruction (runtime_fwd 0) v (instr_of i) = Ret (after v i, None).
Proof. unfold after. by destruct (@executeInstruction _ v _) as [[v' [e|]]| |]. Qed.

Lemma after_inv v i : vm_inv v -> asm_ok i -> safe_instr v i -> vm_inv (after v i).
Proof.
  intros Hv Hok Hs. destruct (@instruction_safe (runtime_fwd 0) v i Hv Hok Hs) as (v' & e & Hx & Hv').
  unfold after. rewrite Hx. by destruct e.
Qed.

Lemma safe_first_alloc `{GoRuntime} cfg size t f : 0 < size -> safe_instr (NewVM3D cfg) (IAlloc size t f).
Proof.
  intros Hs. split; [done|]. split; [|by vm_compute]. intros k r p n Hk. simpl in Hk. by rewrite lookup_empty in Hk.
Qed.

Definition demo_alloc : VM3D := after demo_vm (IAlloc 14 4 0).
Definition demo_store : VM3D := after demo_alloc (IStore (NewAddress 2 0 0) 0 14).
Definition demo_load : VM3D := after demo_store (ILoad (NewAddress 2 0 0) 14 5).

Lemma mstore_mload_witness :
  Reg_Get (vm_registers demo_load) 5 = take 14 (Reg_Get (vm_registers demo_alloc) 0) /\ vm_inv demo_load.
Proof.
  apply (@mstore_mload (runtime_fwd 0) demo_alloc (NewAddress 2 0 0) 0 14 5 demo_store demo_load).
  - apply after_inv; [apply NewVM3D_inv | by vm_compute | by apply safe_first_alloc].
  - by vm_compute.
  - by vm_compute.
  - by vm_compute.
  - apply after_ok. vm_compute. reflexivity.
  - apply after_ok. vm_compute. reflexivity.
Defined.

(** ** Whole programs *)

(** One round of [Execute] that goes on: round number and state before and after. *)
Inductive vstep (rt : nat -> GoRuntime) (program : list Z) : nat * VM3D -> nat * VM3D -> Prop :=
| vstep_round k v inst v1 :
    vm_pc v < Z.of_nat (length program) -> vm_halted v = false -> vm_paused v = false ->
    fetchInstruction (vm_pc v) program = inr inst ->
    @executeInstruction (rt k) v inst = Ret (v1, None) ->
    Remaining (vm_gasAccount v1) <> 0 ->
    vs_InstructionsExecuted (count_instruction (vm_stats v1)) < vc_MaxInstructions (vm_config v1) ->
    vstep rt program (k, v)
      (S k, set_control (u64 (vm_pc v1 + in_Size inst)) (vm_halted v1) (count_instruction (vm_stats v1))
        (vm_latency v1 ++ [@rt_now (rt k) 8 - @rt_now (rt k) 7]) v1).

Lemma vm_inv_control v pc halted stats lat : vm_inv v -> vm_inv (set_control pc halted stats lat v).
Proof. by intros [? ? ?]. Qed.

Section Programs.
Context (rt : nat -> GoRuntime) (program : list Z) (v0 : VM3D).
Hypothesis Hbytes : Forall is_u8 program.
Hypothesis Hlen : Z.of_nat (length program) < 18446744073709551616.

(** Every MALLOC the run arrives at is a safe one. *)
Definition mallocs_safe : Prop :=
  forall k v i, rtc (vstep rt program) (O, v0) (k, v) -> vm_halted v = false ->
    fetchInstruction (vm_pc v) program = inr (instr_of i) -> safe_instr v i.

(** What holds at the head of the loop. *)
Definition loop_inv (v : VM3D) : Prop :=
  vm_inv v /\ vm_paused v = false /\ 0 <= vm_pc v <= Z.of_nat (length program).

Lemma exec_loop_safe fuel k v o :
  mallocs_safe -> rtc (vstep rt program) (O, v0) (k, v) -> loop_inv v ->
  exec_loop rt fuel k v program = Some o -> exists v' e, o = Ret (v', e) /\ vm_inv v'.
Proof.
  intros Hsafe. revert k v. induction fuel as [|fuel IH]; intros k v Hr (Hv & Hp & Hpc); [done|]. cbn [exec_loop].
  destruct ((vm_pc v <? Z.of_nat (length program)) && negb (vm_halted v)) eqn:Hc.
  2: { intros [= <-]. eexists _, _. split; [done|]. by apply vm_inv_control. }
  apply andb_true_iff in Hc as [Hlt Hh]. apply Z.ltb_lt in Hlt. apply negb_true_iff in Hh. rewrite Hp.
  destruct (fetchInstruction (vm_pc v) program) as [err|inst] eqn:Hfe; [intros [= <-]; by eexists _, _|].
  destruct (fetch_spec (vm_pc v) program inst Hbytes ltac:(lia) Hlen Hfe) as (i & Hok & -> & Hs1 & Hs2).
  destruct (@instruction_safe (rt k) v i Hv Hok (Hsafe k v i Hr Hh Hfe)) as (v' & e & Hx & Hv'). rewrite Hx.
  destruct (executeInstruction_frame v i v' e Hx) as [Hctl _]. unfold control in Hctl. injection Hctl as Hpc' Hcf Hp' _.
  cbv zeta. destruct e as [err|]; [intros [= <-]; eexists _, _; split; [done|]; by apply vm_inv_control|].
  cbn [vm_gasAccount vm_config vm_stats vm_pc vm_halted vm_latency set_control].
  destruct (Z.eqb_spec (Remaining (vm_gasAccount v')) 0) as [|Hg].
  { intros [= <-]. eexists _, _; split; [done|]; by apply vm_inv_control. }
  destruct (Z.leb_spec (vc_MaxInstructions (vm_config v')) (vs_InstructionsExecuted (count_instruction (vm_stats v')))) as [|Hm].
  { intros [= <-]. eexists _, _; split; [done|]; by apply vm_inv_control. }
  apply IH.
  - eapply rtc_r; [exact Hr|]. exact (vstep_round rt program k v (instr_of i) v' Hlt Hh Hp Hfe Hx Hg Hm).
  - split; [by apply vm_inv_control, vm_inv_control|]. cbn [vm_paused vm_pc set_control]. split; [by rewrite Hp'|].
    rewrite Hpc', u64_small by (unfold is_u64; lia). lia.
Qed.
End Programs.

(** Memory safety of whole programs: on a new VM, every program whose MALLOCs
    are safe at the states where they are reached runs to a normal end or an error,
    never to a panic or a wait, and leaves a state that satisfies the invariant:
    live blocks disjoint and inside their planes, counters exact, cached data equal
    to memory. *)
Theorem execute_safe `{GoRuntime} rt cfg program :
  Forall is_u8 program -> Z.of_nat (length program) < 18446744073709551616 ->
  mallocs_safe rt program (start_state rt (NewVM3D cfg)) ->
  exists v' e, Execute rt (NewVM3D cfg) program = Ret (v', e) /\ vm_inv v'.
Proof.
  intros Hb Hlen Hsafe.
  destruct (exec_loop_terminates rt program Hb Hlen (S (length program)) 0 (start_state rt (NewVM3D cfg))) as (o & Ho & _);
    [simpl; lia | simpl; lia|]. specialize (Ho 0%nat). rewrite Nat.add_0_r in Ho.
  unfold Execute. fold (start_state rt (NewVM3D cfg)). rewrite Ho.
  eapply exec_loop_safe; [exact Hb | exact Hlen | exact Hsafe | reflexivity | | exact Ho].
  split; [apply vm_inv_control, NewVM3D_inv|]. simpl. lia.
Qed.

(** ** Programs that go wrong *)

(** A five-instruction program is enough to leave the safe states.  With MFREE
    making a hole before a live byte, the 16-bit sum in the search of MALLOC wraps:
    the first program returns normally with the address (2,0,11) of a block that
    would end at offset 65536 of a plane of 65535 bytes; the second one stops the
    VM with a panic. *)
Theorem vm_plane_overflow :
  (let v := demo_run [IAlloc 10 4 0; IAlloc 1 4 0; IFree (NewAddress 2 0 0); IAlloc 65525 4 0; IHalt] in
   match Execute (fun _ => runtime_fwd 0) demo_vm
     (assemble [IAlloc 10 4 0; IAlloc 1 4 0; IFree (NewAddress 2 0 0); IAlloc 65525 4 0; IHalt]) with
   | Ret (_, None) => True | _ => False end /\
   GetAddress (vm_registers v) R0 = inr (NewAddress 2 0 11) /\ PlaneSize < 11 + 65525) /\
  Execute (fun _ => runtime_fwd 0) demo_vm
    (assemble [IAlloc 4 4 0; IAlloc 1 4 0; IFree (NewAddress 2 0 0); IAlloc 65534 4 0; IHalt]) = Panic.
Proof. cbv zeta. split_and!; vm_compute; reflexivity || exact I. Qed.

(** MCOPY writes memory without telling the tree: the copied block has no proof,
    while the block that MSTORE wrote has one that verifies. *)
Theorem mcopy_not_in_tree :
  let src := NewAddress 2 0 0 in
  let dst := NewAddress 3 0 0 in
  let v := demo_run [IAlloc 14 4 0; IStore src 0 14; IAlloc 14 3 0; ICopy src dst 14; IHalt] in
  let d := Reg_Get (vm_registers demo_alloc) 0 in
  bytes_at (vm_allocator v) src 14 = Some d /\ bytes_at (vm_allocator v) dst 14 = Some d /\
  (exists p, GetMerkleProof v src = inr p /\ VerifyMemoryState v src d p = inr true) /\
  (exists p, GetMerkleProof v dst = inr p /\ VerifyMemoryState v dst d p = inr false).
Proof.
  cbv zeta. split_and!; [vm_compute; reflexivity | vm_compute; reflexivity | eexists; split; [vm_compute; reflexivity | vm_compute; reflexivity]..].
Qed.
