(* ===== verification/Typing.v ===== *)
(** * Well-formed states

    The shape of the whole state of the VM, as an invariant of every program, safe or
    not: sizes of planes, free maps and register file, bounds of the LRU list, the
    access log and the cache list, agreement of keys and identifiers, and, since
    integers are [Z] in this development, the ranges of the Go types. *)
From S2P Require Import Prelude Words Float64 Address Errors Bitmap Plane Region Allocator.
From S2P Require Import AllocatorInv YPromotionInv AllocatorSpec AllocatorEdge.
From S2P Require Import Gas Sha256 Merkle Spatial Registers Instructions MemoryManager VM Progress.
From S2P Require Import VMFrame BlockMachine VMMemory VMSpec.
From stdpp Require Import strings.
#[local] Open Scope Z_scope.

Notation bytes := (Forall is_u8).

(** ** Typing of the parts *)

(** A free map of 1024 words for the 65535 bytes of a plane. *)
Definition words_ok (b : Bitmap) : Prop :=
  Forall is_u64 (bm_bits b) /\ numWords b = 1024 /\ bm_size b = PlaneSize.

Record plane_typed (p : Plane) : Prop := {
  pt_data : bytes (pl_Data p);
  pt_words : words_ok (pl_FreeMap p);
  pt_size : pl_Size p = PlaneSize;
  pt_len : Z.of_nat (length (pl_Data p)) = PlaneSize;
}.

(** Programs never add planes to a region. *)
Definition planes_typed (ps : list Plane) : Prop := Forall plane_typed ps /\ length ps = 1%nat.

Record region_typed (r : Region) : Prop := {
  rt_planes : planes_typed (rg_Planes r);
  rt_count : is_u64 (rg_AllocCount r);
  rt_free : is_u64 (rg_FreeBytes r);
  rt_total : is_u64 (rg_TotalBytes r);
}.

Record alloc_typed (a : Allocator3D) : Prop := {
  at_regions : forall k r, ac_regions a !! k = Some r -> region_typed r;
  at_ids : forall k r, ac_regions a !! k = Some r -> rg_ID r = k;
  at_size : cf_PlaneSize (ac_config a) = PlaneSize;
  at_lru_live : Forall (fun k => is_Some (ac_regions a !! k)) (ac_regionLRU a);
  at_lru_nodup : NoDup (ac_regionLRU a);
  at_lru_len : (length (ac_regionLRU a) <= 100)%nat;
  at_region_id : is_u64 (ac_nextRegionID a);
  at_alloc_id : is_u64 (ac_nextAllocID a);
  at_frees : is_u64 (st_Frees (ac_stats a));
  at_promotions : is_u64 (st_YPromotions (ac_stats a));
}.

Definition object_typed (al : Allocation) : Prop :=
  is_u64 (al_ID al) /\ is_u32 (al_Size al) /\ is_u64 (al_AccessCount al) /\ is_u64 (al_GasUsed al).

Definition heap_typed (h : Heap) : Prop := forall l al, heap_get h l = Some al -> object_typed al.

Definition stats_typed (s : RegionStats) : Prop :=
  is_u64 (rs_TotalAllocations s) /\ is_u64 (rs_TotalFrees s) /\ is_u64 (rs_CurrentUsage s) /\
  is_u64 (rs_MaxUsage s) /\ is_u64 (rs_AccessCount s).

(** The access log is cut when it passes 10000 entries. *)
Definition mm_typed (mm : MemoryManager) : Prop :=
  (forall x s, mm_regions mm !! x = Some s -> stats_typed s) /\ Z.of_nat (length (mm_accessLog mm)) <= 10000.

Definition regs_typed (r : Registers) : Prop :=
  Forall bytes (General r) /\ length (General r) = 16%nat /\ length (Special r) = 5%nat.

(** The recency list has at most 1000 elements, without duplicates, and every cached
    address an element of its own. *)
Definition cache_typed (c : SpatialCache) : Prop :=
  (forall e d, sc_elems c !! e = Some d -> bytes d) /\ cache_inv c /\ sc_capacity c = 1000.

Definition gas_typed (g : GasAccountant3D) : Prop :=
  Forall (fun b => is_u64 (gb_remaining b) /\ is_u64 (gb_used b)) (ga_buckets g).

Record vm_typed (v : VM3D) : Prop := {
  vt_heap : heap_typed (vm_heap v);
  vt_alloc : alloc_typed (vm_allocator v);
  vt_mm : mm_typed (vm_memory v);
  vt_regs : regs_typed (vm_registers v);
  vt_cache : cache_typed (vm_cache v);
  vt_gas : gas_typed (vm_gasAccount v);
  vt_pc : is_u64 (vm_pc v);
  vt_executed : is_u64 (vs_InstructionsExecuted (vm_stats v));
  vt_allocations : is_u64 (vs_Allocations (vm_stats v));
  vt_usage : is_u64 (vs_MemoryUsage (vm_stats v));
}.

Create HintDb typed.
#[export] Hint Resolve u64_range : typed.

(** ** Planes *)

Lemma shl64_range x n : is_u64 (shl64 x n).
Proof. apply u64_range. Qed.

Lemma alter_words b f i : words_ok b -> (forall w, is_u64 w -> is_u64 (f w)) ->
  words_ok {| bm_bits := alter f i (bm_bits b); bm_size := bm_size b |}.
Proof.
  intros (H1 & H2 & H3) Hf. split_and!; [|unfold numWords; cbn [bm_bits]; by rewrite length_alter | done].
  cbn [bm_bits]. apply Forall_alter; [done|]. intros w _ Hw. by apply Hf.
Qed.

Lemma Set_words b p : words_ok b -> words_ok (Bitmap.Set_ b p).
Proof.
  intros Hb. unfold Bitmap.Set_. destruct (_ || _); [done|]. cbv zeta. destruct (_ <=? _); [done|].
  apply alter_words; [done|]. intros w Hw. apply lor_range; [done | apply shl64_range].
Qed.

Lemma Clear_words b p : words_ok b -> words_ok (Bitmap.Clear b p).
Proof.
  intros Hb. unfold Bitmap.Clear. destruct (_ || _); [done|]. cbv zeta. destruct (_ <=? _); [done|].
  apply alter_words; [done|]. intros w Hw. by apply ldiff_range.
Qed.

Lemma range_words f b s e : (forall b p, words_ok b -> words_ok (f b p)) -> words_ok b -> words_ok (for_range s e f b).
Proof.
  intros Hf. unfold for_range. generalize (seqZ s (e - s)) as l. intros l. revert b.
  induction l as [|p l IH]; intros b Hb; [done|]. cbn [foldl]. by apply IH, Hf.
Qed.

Lemma typed_set p s e : plane_typed p -> plane_typed (with_FreeMap (SetRange (pl_FreeMap p) s e) p).
Proof. intros [H1 H2 H3 H4]. constructor; try done. apply range_words; [apply Set_words | done]. Qed.

Lemma typed_clear p s e : plane_typed p -> plane_typed (with_FreeMap (ClearRange (pl_FreeMap p) s e) p).
Proof. intros [H1 H2 H3 H4]. constructor; try done. apply range_words; [apply Clear_words | done]. Qed.

Lemma typed_allocations p m : plane_typed p -> plane_typed (with_Allocations m p).
Proof. by intros [? ? ? ?]. Qed.

Lemma typed_new id rid : plane_typed (NewPlane id rid PlaneSize).
Proof.
  constructor.
  - apply Forall_replicate. by vm_compute.
  - split_and!; [apply Forall_replicate; by vm_compute | vm_compute; reflexivity | done].
  - done.
  - cbn [NewPlane pl_Data]. change (PlaneSize =? 0) with false. cbv iota. rewrite length_replicate. unfold PlaneSize. lia.
Qed.

Lemma typed_pool a id rid : cf_PlaneSize (ac_config a) = PlaneSize -> plane_typed (getPlaneFromPool a id rid).
Proof.
  intros Hs. unfold getPlaneFromPool. rewrite Hs. destruct (cf_EnablePooling _); [|apply typed_new].
  destruct (typed_new 0 0) as [H1 H2 H3 H4]. constructor; [exact H1 | exact H2 | exact H3 | exact H4].
Qed.

Lemma planes_insert ps i p : planes_typed ps -> plane_typed p -> planes_typed (<[i := p]> ps).
Proof. intros [H1 H2] Hp. split; [by apply Forall_insert | by rewrite length_insert]. Qed.

Lemma planes_alter ps i f : planes_typed ps -> (forall p, plane_typed p -> plane_typed (f p)) -> planes_typed (alter f i ps).
Proof. intros [H1 H2] Hf. split; [apply Forall_alter; [done | intros p _; apply Hf] | by rewrite length_alter]. Qed.

Lemma planes_lookup ps i p : planes_typed ps -> ps !! i = Some p -> plane_typed p.
Proof. intros [H1 _] Hi. by eapply Forall_lookup_1. Qed.

#[export] Hint Resolve typed_set typed_clear typed_allocations typed_pool : typed.

Lemma Plane_Allocate_typed p n p' z ok : plane_typed p -> Plane_Allocate p n = Ret (p', z, ok) -> plane_typed p'.
Proof. intros Hp Hx. unfold Plane_Allocate in Hx. inv_res; auto with typed. Qed.

Lemma Plane_Free_typed h p z p' ok : plane_typed p -> Plane_Free h p z = Ret (p', ok) -> plane_typed p'.
Proof. intros Hp Hx. unfold Plane_Free in Hx. inv_res; auto with typed. Qed.

Lemma alloc_in_planes_typed size ps i p z :
  Forall plane_typed ps -> alloc_in_planes size ps = Ret (Some (i, p, z)) -> plane_typed p.
Proof.
  intros Hps. revert i. induction Hps as [|q ps Hq Hps IH]; intros i Hx; [done|]. cbn [alloc_in_planes] in Hx. cbv zeta in Hx.
  assert (forall r, (r ← alloc_in_planes size ps; Ret (match r with Some (i, p, z) => Some (S i, p, z) | None => None end))
    = Ret r -> r = Some (i, p, z) -> plane_typed p) as Hnext.
  { intros r Hr ->. apply bind_Ret_inv in Hr as (o & Ho & Hr). destruct o as [[[j p1] z1]|]; [|done].
    injection Hr as <- <- <-. by eapply IH. }
  destruct (_ <=? _); [|by eapply Hnext]. apply bind_Ret_inv in Hx as ([[p1 z1] ok] & Ho & Hx).
  destruct ok; [|by eapply Hnext]. injection Hx as <- <- <-. by eapply Plane_Allocate_typed.
Qed.

Lemma alloc_fragments_typed ps cands fs rem ps' fs' rem' :
  planes_typed ps -> alloc_fragments ps cands fs rem = Ret (ps', fs', rem') -> planes_typed ps'.
Proof.
  revert ps fs rem. induction cands as [|i cands IH]; intros ps fs rem Hps Hx; cbn [alloc_fragments] in Hx; [by simplify_eq|].
  destruct (rem =? 0); [by simplify_eq|]. apply bind_Ret_inv in Hx as (p & Hp & Hx).
  destruct (ps !! i) as [p0|] eqn:Hi; [|done]. injection Hp as ->. cbv zeta in Hx. destruct (_ =? 0); [by eapply IH|].
  apply bind_Ret_inv in Hx as ([[p' z] ok] & Ho & Hx). destruct ok; cbn [negb] in Hx; [|by eapply IH].
  eapply IH; [|exact Hx]. apply planes_insert; [done|]. eapply Plane_Allocate_typed; [by eapply planes_lookup | done].
Qed.

Lemma rollback_typed ps fs : planes_typed ps -> planes_typed (rollback ps fs).
Proof.
  unfold rollback. revert ps. induction fs as [|f fs IH]; intros ps Hps; [done|]. cbn [foldl]. apply IH.
  unfold rollback_fragment. destruct (plane_index _ ps) as [i|]; [|done]. apply planes_alter; auto with typed.
Qed.

Lemma free_fragments_typed h ps fs ps' : planes_typed ps -> free_fragments h ps fs = Ret ps' -> planes_typed ps'.
Proof.
  revert ps. induction fs as [|f fs IH]; intros ps Hps Hx; cbn [free_fragments] in Hx; [by simplify_eq|].
  destruct (plane_index _ ps) as [i|]; [|by eapply IH]. apply bind_Ret_inv in Hx as (p & Hp & Hx).
  destruct (ps !! i) as [p0|] eqn:Hi; [|done]. injection Hp as ->.
  apply bind_Ret_inv in Hx as ([p' ok] & Hf & Hx). eapply IH; [|exact Hx]. apply planes_insert; [done|].
  eapply Plane_Free_typed; [by eapply planes_lookup | done].
Qed.

(** ** The allocator *)

Lemma sub_idiom32_range c n : is_u64 (sub_idiom32 c n).
Proof. apply u64_range. Qed.
#[export] Hint Resolve sub_idiom32_range : typed.

Lemma typed_region_stats r c f t ps : is_u64 c -> is_u64 f -> is_u64 t -> planes_typed ps ->
  region_typed (with_stats c f t (with_Planes ps r)).
Proof. by constructor. Qed.

Lemma typed_insert_region a r : alloc_typed a -> region_typed r ->
  alloc_typed (with_regions (<[rg_ID r := r]> (ac_regions a)) a).
Proof.
  intros [H1 H2 H3 H4 H5 H6 H7 H8 H9 H10] Hr. constructor; try done; simpl.
  - intros k r' [[_ <-]|[_ Hk]]%lookup_insert_Some; [done | by eapply H1].
  - intros k r' [[<- <-]|[_ Hk]]%lookup_insert_Some; [done | by eapply H2].
  - eapply Forall_impl; [exact H4|]. intros k Hk. simpl. destruct (decide (k = rg_ID r)) as [->|].
    + rewrite lookup_insert_eq. eauto.
    + by rewrite lookup_insert_ne.
Qed.

Lemma typed_set_region a r : alloc_typed a -> region_typed r -> alloc_typed (set_region r a).
Proof. apply typed_insert_region. Qed.

Lemma typed_promote a id : alloc_typed a -> alloc_typed (promoteRegionLRU a id).
Proof.
  intros [H1 H2 H3 H4 H5 H6 H7 H8 H9 H10]. rewrite Forall_forall in H4. destruct (ac_regions a !! id) as [r|] eqn:Hid.
  - rewrite promote_eq by eauto. destruct (promoted_lru_spec (ac_regionLRU a) id H5 H6) as (? & ? & Hsub & _).
    constructor; try done. simpl. apply Forall_forall. intros x [->|Hx]%Hsub; [eauto | by apply H4].
  - unfold promoteRegionLRU. rewrite Hid. cbv zeta. destruct (remove_first_nodup id _ H5) as [? _].
    pose proof (remove_first_length id (ac_regionLRU a)). constructor; try done; simpl; [|lia].
    apply Forall_forall. intros x Hx%remove_first_elem. by apply H4.
Qed.

Lemma typed_next a k n : alloc_typed a -> is_u64 k -> is_u64 n -> alloc_typed (with_next k n a).
Proof. by intros []. Qed.

Lemma typed_counts a f y : alloc_typed a -> is_u64 f -> is_u64 y -> alloc_typed (with_counts f y a).
Proof. by intros []. Qed.

#[export] Hint Resolve typed_region_stats typed_set_region typed_promote typed_next typed_counts rollback_typed : typed.
#[export] Hint Resolve at_region_id at_alloc_id at_frees at_promotions rt_total rt_free rt_count rt_planes : typed.

Lemma heap_new_typed h al : heap_typed h -> object_typed al -> heap_typed (heap_new h al).1.
Proof.
  intros Hh Ha l al' Hl. unfold heap_get in Hl. simpl in Hl. apply lookup_insert_Some in Hl as [[_ <-]|[_ Hl]]; [done | by eapply Hh].
Qed.

Lemma heap_set_typed h l al : heap_typed h -> object_typed al -> heap_typed (heap_set h l al).
Proof.
  intros Hh Ha l' al' Hl. unfold heap_get in Hl. simpl in Hl. apply lookup_insert_Some in Hl as [[_ <-]|[_ Hl]]; [done | by eapply Hh].
Qed.

(** Heap and allocator together. *)
Definition store_typed (h : Heap) (a : Allocator3D) : Prop := heap_typed h /\ alloc_typed a.

Lemma record_typed now h a r i p z size rt flags h' a' l :
  store_typed h a -> region_typed r -> plane_typed p -> is_u32 size ->
  record_allocation now h a r i p z size rt flags = (h', a', l) -> store_typed h' a'.
Proof.
  intros [Hh Ha] Hr Hp Hs Hx. unfold record_allocation in Hx. cbv zeta in Hx. destruct (heap_new _ _) as [h1 l1] eqn:En.
  injection Hx as <- <- <-. split.
  - apply (f_equal fst) in En. cbn [fst] in En. rewrite <- En. apply heap_new_typed; [done|].
    split_and!; simpl; [apply u64_range | done | by vm_compute | by vm_compute].
  - apply typed_promote, typed_set_region; [auto with typed|]. apply typed_region_stats; auto with typed.
    apply planes_insert; auto with typed.
Qed.

Section Allocate.
Context `{GoRuntime} (size : Z).
Hypothesis Hsize : is_u32 size.

Lemma fast_lru_typed now h a rt lru h' a' l :
  store_typed h a -> fast_lru now h a size rt lru = Ret (Some (h', a', l)) -> store_typed h' a'.
Proof.
  intros Ha. induction lru as [|k lru IH]; intros Hx; [done|]. cbn [fast_lru] in Hx.
  apply bind_Ret_inv in Hx as (r & Hr & Hx). destruct (negb _); [by apply IH|]. destruct (_ <? _); [by apply IH|].
  apply bind_Ret_inv in Hx as (o & Ho & Hx). destruct o as [[[i p] z]|]; [|by apply IH].
  destruct (ac_regions a !! k) as [r0|] eqn:Hk; [|done]. injection Hr as ->.
  pose proof (at_regions _ (proj2 Ha) k r Hk) as Hrt.
  assert (record_allocation now h a r i p z size rt 0 = (h', a', l)) as Hrec by congruence.
  eapply record_typed; [done | exact Hrt | | done | exact Hrec]. eapply alloc_in_planes_typed; [apply Hrt | done].
Qed.

Lemma tryYPromotion_typed h a rt flags h' a' o :
  store_typed h a -> tryYPromotion h a size rt flags = Ret (h', a', o) -> store_typed h' a'.
Proof.
  intros [Hh Ha] Hx. unfold tryYPromotion in Hx. cbv zeta in Hx. destruct (_ =? 0); [done|]. destruct (_ <? _); [by simplify_eq|].
  apply bind_Ret_inv in Hx as (best & _ & Hx). destruct best as [k|]; [|by simplify_eq].
  apply bind_Ret_inv in Hx as (r & Hr & Hx). destruct (ac_regions a !! k) as [r0|] eqn:Hk; [|done]. injection Hr as ->.
  pose proof (at_regions _ Ha k r Hk) as Hrt. apply bind_Ret_inv in Hx as ([[ps fs] rem] & Hfr & Hx).
  apply alloc_fragments_typed in Hfr; [|apply Hrt]. destruct (0 <? rem).
  { injection Hx as <- <- <-. split; [done|]. apply typed_set_region; [done|]. destruct Hrt. constructor; try done. by apply rollback_typed. }
  destruct (first_fragment (rg_ID r) fs) as [[y z] ad]. destruct (heap_new _ _) as [h1 l1] eqn:En. injection Hx as <- <- <-. split.
  - apply (f_equal fst) in En. cbn [fst] in En. rewrite <- En. apply heap_new_typed; [done|].
    split_and!; simpl; [apply u64_range | done | by vm_compute | by vm_compute].
  - apply typed_counts; [|simpl; apply (typed_promote (set_region _ _)) | apply u64_range].
    all: apply typed_promote || idtac.
    all: apply typed_set_region; [auto with typed|]; apply typed_region_stats; auto with typed;
      (destruct (plane_index y ps); [|done]); apply planes_alter; auto with typed.
Qed.
Lemma allocateNewRegion_typed h a rt flags h' a' o :
  store_typed h a -> allocateNewRegion h a size rt flags = Ret (h', a', o) -> store_typed h' a'.
Proof.
  intros [Hh Ha] Hx. unfold allocateNewRegion in Hx. cbv zeta in Hx. set (id := u64 (ac_nextRegionID a + 1)) in Hx.
  set (a1 := with_next id (ac_nextAllocID a) a) in Hx.
  set (r := AddPlane (NewRegion (rt_now 2) id rt) (getPlaneFromPool a1 0 id)) in Hx.
  assert (region_typed r) as Hr.
  { constructor; [split; [constructor; [apply typed_pool, Ha | done] | done] | by vm_compute | apply u64_range | apply u64_range]. }
  assert (store_typed h (with_regions (<[id := r]> (ac_regions a1)) a1)) as Hst.
  { split; [done|]. apply (typed_insert_region a1 r); [|done]. apply typed_next; [done | apply u64_range | apply Ha]. }
  destruct (_ <=? _); [|by injection Hx as <- <- <-]. apply bind_Ret_inv in Hx as ([[p z] ok] & Ho & Hx).
  apply Plane_Allocate_typed in Ho; [|apply typed_pool, Ha]. destruct ok; cbn [negb] in Hx; [|by injection Hx as <- <- <-].
  destruct (record_allocation _ _ _ _ _ _ _ _ _ _) as [[h2 a2] l2] eqn:Er. injection Hx as <- <- <-.
  by eapply (record_typed _ _ _ r).
Qed.

Lemma allocateSync_typed h a rt flags h' a' o :
  store_typed h a -> allocateSync h a size rt flags = Ret (h', a', o) -> store_typed h' a'.
Proof.
  intros Ha Hx. unfold allocateSync in Hx. apply bind_Ret_inv in Hx as (f & Hf & Hx).
  destruct f as [[[h1 a1] l1]|]; [injection Hx as <- <- <-; by eapply fast_lru_typed|].
  apply bind_Ret_inv in Hx as ([[h1 a1] o1] & Hy & Hx). apply tryYPromotion_typed in Hy; [|done].
  destruct o1 as [l1|]; [by injection Hx as <- <- <-|]. by eapply allocateNewRegion_typed.
Qed.

Lemma Allocate_typed q h a rt flags h' a' o :
  store_typed h a -> Allocate q h a size rt flags = Ret (h', a', o) -> store_typed h' a'.
Proof.
  intros Ha Hx. unfold Allocate, allocateConcurrent, doAllocate in Hx.
  destruct (cf_EnableConcurrent _); [destruct q; [|destruct (_ <=? _); [done|]]|]; by eapply allocateSync_typed.
Qed.
End Allocate.

Lemma Free_typed h a l a' e : alloc_typed a -> Free h a l = Ret (a', e) -> alloc_typed a'.
Proof.
  intros Ha Hx. rewrite Free_sync in Hx. unfold freeSync in Hx. apply bind_Ret_inv in Hx as (al & _ & Hx).
  destruct (ac_regions a !! aX (al_Address al)) as [r|] eqn:Hk; [|by simplify_eq]. pose proof (at_regions _ Ha _ r Hk) as Hr.
  assert (forall ps, planes_typed ps -> alloc_typed (free_stats a r ps (al_Size al))) as Hst.
  { intros ps Hq. unfold free_stats. apply typed_counts; [|apply u64_range | apply Ha].
    apply typed_set_region; [done|]. apply typed_region_stats; auto with typed. }
  destruct (IsYPromoted al).
  - apply bind_Ret_inv in Hx as (ps & Hf & Hx). injection Hx as <- <-. apply Hst. eapply free_fragments_typed; [apply Hr | done].
  - destruct (plane_index _ _) as [i|]; [|by simplify_eq]. apply bind_Ret_inv in Hx as (p & Hp & Hx).
    destruct (rg_Planes r !! i) as [p0|] eqn:Hi; [|done]. injection Hp as ->.
    apply bind_Ret_inv in Hx as ([p' ok] & Hf & Hx). destruct ok; cbn [negb] in Hx; [|by simplify_eq].
    injection Hx as <- <-. apply Hst, planes_insert; [apply Hr|].
    eapply Plane_Free_typed; [|done]. eapply planes_lookup; [apply Hr | done].
Qed.

(** ** Memory manager, cache, registers, gas *)

Lemma slice_typed lo hi l : bytes l -> bytes (slice lo hi l).
Proof. intros Hl. by apply Forall_take, Forall_drop. Qed.

Lemma write_at_typed d lo data : bytes d -> bytes data -> bytes (write_at d lo data).
Proof. intros H1 H2. apply Forall_app_2; [by apply Forall_take|]. apply Forall_app_2; [done | by apply Forall_drop]. Qed.

Lemma object_touch now al : object_typed al -> object_typed (Allocation_UpdateAccess now al 0).
Proof. intros (H1 & H2 & _). split_and!; simpl; [done..|apply u64_range|apply u64_range]. Qed.

Lemma mm_insert_typed mm x s : mm_typed mm -> stats_typed s -> mm_typed (with_region_stats (<[x := s]> (mm_regions mm)) mm).
Proof.
  intros [Hm Hl] Hs. split; [|done]. intros y s' Hy. simpl in Hy.
  apply lookup_insert_Some in Hy as [[_ <-]|[_ Hy]]; [done | by eapply Hm].
Qed.

Lemma logAccess_typed now mm addr t n : mm_typed mm -> mm_typed (logAccess now mm addr t n).
Proof.
  intros [Hm Hl]. split; [done|]. unfold logAccess. cbn [mm_accessLog]. rewrite length_app. cbn [length].
  destruct (Z.ltb_spec 10000 (Z.of_nat (length (mm_accessLog mm) + 1))); [rewrite length_drop, length_app; cbn [length]; lia|].
  rewrite length_app. cbn [length]. lia.
Qed.

Section Memory.
Context `{GoRuntime}.

Lemma GetPlane_typed a x r y p : alloc_typed a -> GetRegion a x = Some r -> GetPlane r y = Some p -> plane_typed p.
Proof.
  intros Ha Hr Hp. pose proof (at_regions _ Ha x r Hr) as Hrt. unfold GetPlane in Hp.
  destruct (plane_index y (rg_Planes r)) as [i|]; [|done]. cbn [mbind option_bind] in Hp.
  eapply planes_lookup; [apply Hrt | done].
Qed.

Lemma Load3D_typed h a mm addr n mm' r : alloc_typed a -> mm_typed mm -> Load3D h a mm addr n = Ret (mm', r) ->
  mm_typed mm' /\ match r with inr d => bytes d | inl _ => True end.
Proof.
  intros Ha Hm Hx. unfold Load3D in Hx. cbv zeta in Hx. inv_res; try done.
  all: match goal with Hs : go_slice _ _ _ = Ret _ |- _ => unfold go_slice in Hs; inv_res end.
  all: split; [|apply slice_typed; by eapply pt_data, GetPlane_typed].
  destruct (mm_regions _ !! _) as [s|] eqn:E; [|by apply logAccess_typed]. destruct (proj1 Hm _ s E) as (? & ? & ? & ? & ?).
  apply (mm_insert_typed (logAccess _ _ _ _ _)); [by apply logAccess_typed|]. split_and!; simpl; try done. apply u64_range.
Qed.

Lemma Store3D_typed h a mm addr d h' a' mm' e : store_typed h a -> mm_typed mm -> bytes d -> 0 <= aZ addr ->
  Store3D h a mm addr d = Ret (h', a', mm', e) -> store_typed h' a' /\ mm_typed mm'.
Proof.
  intros [Hh Ha] Hm Hd Hz Hx. unfold Store3D in Hx. cbv zeta in Hx. inv_res; try done.
  match goal with E : deref (heap_get h ?l) = Ret ?x |- _ =>
    assert (object_typed x) as Ho by (destruct (heap_get h l) eqn:?; [|done]; injection E as <-; by eapply Hh) end.
  match goal with E : go_slice _ _ _ = Ret _ |- _ => unfold go_slice in E; inv_res end.
  match goal with E : _ || _ = false |- _ => apply orb_false_iff in E as [Hlo%Z.ltb_ge Hhi%Z.ltb_ge] end.
  split; [|by apply logAccess_typed]. split; [by apply heap_set_typed, object_touch|].
  match goal with E : GetRegion a _ = Some ?r, E2 : GetPlane ?r _ = Some ?p |- _ =>
    pose proof (at_regions _ Ha _ r E) as Hr; pose proof (GetPlane_typed a _ r _ p Ha E E2) as [Hp _ _ Hlen] end.
  unfold set_plane_data. destruct (plane_index _ _) as [i|]; [|done]. apply typed_set_region; [done|].
  destruct Hr as [R1 R2 R3 R4]. constructor; try done. apply planes_alter; [done|]. intros q [_ Q2 Q3 _].
  constructor; try done; cbn [with_Data pl_Data].
  - apply write_at_typed; [done | by apply Forall_take].
  - rewrite write_at_length; [done|]. rewrite length_take. lia.
Qed.

Lemma trackAllocation_typed h mm l mm' : mm_typed mm -> trackAllocation h mm l = Ret mm' -> mm_typed mm'.
Proof.
  intros Hm Hx. unfold trackAllocation in Hx. apply bind_Ret_inv in Hx as (al & _ & Hx). cbv zeta in Hx. injection Hx as <-.
  set (st := default _ _). assert (stats_typed st) as (S1 & S2 & S3 & S4 & S5).
  { unfold st. simpl. destruct (mm_regions mm !! _) as [s|] eqn:E; [by eapply (proj1 Hm) | by vm_compute]. }
  apply logAccess_typed, (mm_insert_typed (with_allocations _ mm)); [done|]. split_and!; simpl; try done; try apply u64_range.
  destruct (_ <? _); [apply u64_range | done].
Qed.

Lemma untrackAllocation_typed h mm addr mm' : mm_typed mm -> untrackAllocation h mm addr = Ret mm' -> mm_typed mm'.
Proof.
  intros Hm Hx. unfold untrackAllocation in Hx. destruct (mm_allocations mm !! addr) as [l|]; [|by simplify_eq].
  apply bind_Ret_inv in Hx as (al & _ & Hx). cbv zeta in Hx. injection Hx as <-.
  apply logAccess_typed. set (mm1 := match mm_regions mm !! aX addr with Some _ => _ | None => _ end).
  enough (mm_typed mm1) as Hm1 by exact Hm1. unfold mm1. clear mm1.
  destruct (mm_regions mm !! aX addr) as [s|] eqn:E; [|done]. destruct (proj1 Hm _ s E) as (S1 & S2 & S3 & S4 & S5).
  apply (mm_insert_typed mm); [done|]. split_and!; simpl; try done; apply u64_range.
Qed.

Lemma UpdateAccess_typed h mm addr h' : heap_typed h -> UpdateAccess h mm addr = Ret h' -> heap_typed h'.
Proof.
  intros Hh Hx. unfold UpdateAccess in Hx. destruct (mm_allocations mm !! addr) as [l|]; [|by simplify_eq].
  destruct (heap_get h l) as [al|] eqn:E; [|done]. cbn [deref mbind res_bind] in Hx. injection Hx as <-.
  apply heap_set_typed; [done|]. by apply object_touch, (Hh l).
Qed.
End Memory.

Lemma Put_typed c addr d : cache_typed c -> bytes d -> cache_typed (Put c addr d).
Proof.
  intros (Hc & Hi & Hcap) Hd. split_and!; [| apply Put_inv; [lia | done] | by rewrite Put_capacity].
  intros e x Hx. unfold Put in Hx. destruct (sc_cache c !! addr); simpl in Hx;
    (apply lookup_insert_Some in Hx as [[_ <-]|[_ Hx]]; [done | by eapply Hc]).
Qed.

Lemma Invalidate_typed c addr : cache_typed c -> cache_typed (Invalidate c addr).
Proof.
  intros (Hc & Hi & Hcap). split_and!; [| by apply Invalidate_inv | by rewrite Invalidate_capacity].
  intros e x Hx. unfold Invalidate in Hx. destruct (sc_cache c !! addr); by eapply Hc.
Qed.

Lemma Cache_Get_typed c addr c' o : cache_typed c -> Cache_Get c addr = Ret (c', o) ->
  cache_typed c' /\ match o with Some d => bytes d | None => True end.
Proof.
  intros (Hc & Hi & Hcap) Hx. destruct (Cache_Get_spec c addr Hi) as (c1 & Hg & Hi1 & _ & _ & Hcap1).
  rewrite Hg in Hx. injection Hx as <- <-. split; [split; [|split; [done | congruence]]|].
  - unfold Cache_Get in Hg. destruct (sc_cache c !! addr) as [e|]; [|by simplify_eq]. cbv zeta in Hg.
    apply bind_Ret_inv in Hg as (d & _ & Hg). by injection Hg as <- _.
  - unfold view. destruct (sc_cache c !! addr) as [e|]; [|done]. simpl.
    destruct (sc_elems c !! e) as [d|] eqn:E; [by eapply Hc | done].
Qed.

Lemma Reg_Set_typed r reg d : regs_typed r -> bytes d -> regs_typed (Reg_Set r reg d).
Proof.
  intros (Hr & Hg & Hs) Hd. unfold Reg_Set. destruct (_ <=? _); [|done].
  split_and!; [by apply Forall_insert | simpl; by rewrite length_insert | done].
Qed.

Lemma Reg_Get_typed r reg : regs_typed r -> bytes (Reg_Get r reg).
Proof.
  intros (Hr & _). unfold Reg_Get. destruct (_ <=? _); [|apply Forall_nil_2].
  destruct (General r !! Z.to_nat reg) as [d|] eqn:E; [by eapply (Forall_lookup_1 _ _ _ _ Hr) | apply Forall_nil_2].
Qed.

Lemma Consume_typed g n g' e : gas_typed g -> 0 <= n -> Consume g n = Ret (g', e) -> gas_typed g'.
Proof.
  intros Hg Hn Hx. unfold Consume in Hx. apply bind_Ret_inv in Hx as ([g1 b] & Hb & Hx).
  assert (ga_buckets g1 = ga_buckets g) as Eb.
  { unfold getBucket in Hb. cbn in Hb. destruct (ga_buckets g) eqn:E; [done|]. by injection Hb as <- _. }
  unfold gas_typed in *. rewrite Eb in Hx. destruct (ga_buckets g !! b) as [bk|] eqn:El; [|done]. cbn [deref mbind res_bind] in Hx.
  destruct (Z.ltb_spec (gb_remaining bk) n); injection Hx as <- <-; simpl; [by rewrite Eb|].
  destruct (Forall_lookup_1 _ _ _ _ Hg El) as [H1 H2]. rewrite ?Eb. apply Forall_insert; [done|]. simpl.
  unfold is_u64 in *. split; [lia | apply u64_range].
Qed.

(** ** Instructions *)

Lemma tree_update_typed `{GoRuntime} v addr d : vm_typed v -> vm_typed (tree_update v addr d).
Proof. intros []. unfold tree_update. by destruct (vm_merkleTree v). Qed.

Section Handlers.
Context `{GoRuntime} (v : VM3D).
Hypothesis Hv : vm_typed v.

Lemma typed_memory h a mm : store_typed h a -> mm_typed mm -> vm_typed (set_memory h a mm v).
Proof. destruct Hv. by intros [? ?]. Qed.

Lemma typed_registers r : regs_typed r -> vm_typed (set_registers r v).
Proof. by destruct Hv. Qed.

Lemma typed_cache c : cache_typed c -> vm_typed (set_cache c v).
Proof. by destruct Hv. Qed.

Lemma typed_gas g : gas_typed g -> vm_typed (set_gas g v).
Proof. by destruct Hv. Qed.

Lemma typed_store : store_typed (vm_heap v) (vm_allocator v).
Proof. split; apply Hv. Qed.

Lemma typed_put_register reg d : bytes d -> vm_typed (set_registers (Reg_Set (vm_registers v) reg d) v).
Proof. intros Hd. apply typed_registers, Reg_Set_typed; [apply Hv | done]. Qed.
End Handlers.

Section Instructions.
Context `{GoRuntime}.

Lemma load_typed v addr size reg v' e : vm_typed v ->
  executeMLoad3D v (instr_of (ILoad addr size reg)) = Ret (v', e) -> vm_typed v'.
Proof.
  intros Hv Hx. unfold executeMLoad3D in Hx. cbn [instr_of in_Operands op_Value] in Hx.
  apply bind_Ret_inv in Hx as ([c hit] & Hc & Hx). apply Cache_Get_typed in Hc as [Hc Hd]; [|apply Hv]. cbv zeta in Hx.
  pose proof (typed_cache v Hv c Hc) as Hv1.
  assert (forall v' e, ('(mm, r) ← Load3D (vm_heap (set_cache c v)) (vm_allocator (set_cache c v)) (vm_memory (set_cache c v)) addr size;
     let w := set_memory (vm_heap (set_cache c v)) (vm_allocator (set_cache c v)) mm (set_cache c v) in
     match r with
     | inl err => Ret (w, Some (ErrWrap "MLOAD3D failed" err))
     | inr data =>
         let w := set_cache (Put (vm_cache w) addr data) w in
         let w := set_registers (Reg_Set (vm_registers w) reg data) w in
         h ← UpdateAccess (vm_heap w) (vm_memory w) addr;
         Ret (set_memory h (vm_allocator w) (vm_memory w) w, None)
     end) = Ret (v', e) -> vm_typed v') as Hload.
  { clear Hx. intros w ew Hx. apply bind_Ret_inv in Hx as ([mm r] & Hl & Hx).
    apply Load3D_typed in Hl as [Hm Hr]; [|apply Hv..]. cbv zeta in Hx.
    pose proof (typed_memory _ Hv1 _ _ mm (typed_store _ Hv1) Hm) as Hv2.
    destruct r as [err|d]; [by injection Hx as <- _|]. apply bind_Ret_inv in Hx as (h & Hu & Hx). injection Hx as <- _.
    apply UpdateAccess_typed in Hu; [|apply Hv]. apply typed_memory; [|split; [done | apply Hv] | done].
    apply (typed_put_register (set_cache (Put c addr d) (set_memory (vm_heap v) (vm_allocator v) mm (set_cache c v)))); [|done].
    apply typed_cache; [done|]. by apply Put_typed. }
  destruct hit as [d|]; [|by eapply Hload]. destruct (_ <=? _); [|by eapply Hload]. injection Hx as <- _.
  apply (typed_put_register (set_cache c v)); [done|]. by apply Forall_take.
Qed.

Lemma store_typed_instr v addr reg size v' e : vm_typed v -> 0 <= aZ addr ->
  executeMStore3D v (instr_of (IStore addr reg size)) = Ret (v', e) -> vm_typed v'.
Proof.
  intros Hv Hz Hx. unfold executeMStore3D in Hx. cbn [instr_of in_Operands op_Value] in Hx. cbv zeta in Hx.
  destruct (_ <? _); [by unfold fail in Hx; injection Hx as <- _|]. set (d := take _ _) in Hx.
  assert (bytes d) as Hd by (apply Forall_take, Reg_Get_typed, Hv).
  apply bind_Ret_inv in Hx as ([[[h a] mm] err] & Hs & Hx).
  apply Store3D_typed in Hs as [Hst Hm]; [|by apply typed_store | apply Hv | done | done].
  pose proof (typed_memory _ Hv h a mm Hst Hm) as Hv1. destruct err as [err|]; [by injection Hx as <- _|].
  apply bind_Ret_inv in Hx as (h2 & Hu & Hx). injection Hx as <- _.
  assert (vm_typed (tree_update (set_cache (Put (vm_cache (set_memory h a mm v)) addr d) (set_memory h a mm v)) addr d)) as Hv2.
  { apply tree_update_typed, typed_cache; [done|]. apply Put_typed; [apply Hv | done]. }
  apply UpdateAccess_typed in Hu; [|apply Hv2]. apply typed_memory; [done | split; [done | apply Hv2] | apply Hv2].
Qed.

Lemma alloc_typed_instr v size rt flags v' e : vm_typed v -> is_u32 size ->
  executeMAlloc3D v (instr_of (IAlloc size rt flags)) = Ret (v', e) -> vm_typed v'.
Proof.
  intros Hv Hs Hx. unfold executeMAlloc3D in Hx. cbn [instr_of in_Operands op_Value] in Hx. cbv zeta in Hx.
  apply bind_Ret_inv in Hx as ([[h a] o] & Ha & Hx). apply Allocate_typed in Ha; [|done | by apply typed_store].
  pose proof (typed_memory _ Hv h a (vm_memory v) Ha (vt_mm _ Hv)) as Hv1. destruct o as [err|l]; [by injection Hx as <- _|].
  apply bind_Ret_inv in Hx as (al & Hal & Hx). apply bind_Ret_inv in Hx as (mm & Ht & Hx). injection Hx as <- _.
  apply trackAllocation_typed in Ht; [|apply Hv].
  assert (vm_typed (set_registers (SetAddress (vm_registers v) R0 (al_Address al)) (set_memory h a (vm_memory v) v))) as Hv2.
  { apply (typed_put_register _ Hv1). unfold Bytes. repeat apply Forall_app_2; apply be_bytes_range. }
  destruct (typed_memory _ Hv2 h a mm Ha Ht). constructor; try done. simpl. apply u64_range.
Qed.

Lemma free_typed_instr v addr v' e : vm_typed v ->
  executeMFree3D v (instr_of (IFree addr)) = Ret (v', e) -> vm_typed v'.
Proof.
  intros Hv Hx. unfold executeMFree3D in Hx. cbn [instr_of in_Operands op_Value] in Hx.
  apply bind_Ret_inv in Hx as (o & _ & Hx). destruct o as [l|]; [|by unfold fail in Hx; injection Hx as <- _].
  apply bind_Ret_inv in Hx as ([a err] & Hf & Hx). apply Free_typed in Hf; [|apply Hv]. cbv zeta in Hx.
  destruct err as [err|].
  { injection Hx as <- _. apply typed_memory; [done | split; [apply Hv | done] | apply Hv]. }
  apply bind_Ret_inv in Hx as (mm & Hu & Hx). injection Hx as <- _. apply untrackAllocation_typed in Hu; [|apply Hv].
  apply (typed_cache (set_memory (vm_heap v) a mm v)); [apply typed_memory; [done | split; [apply Hv | done] | done]|].
  apply Invalidate_typed, Hv.
Qed.

Lemma copy_typed_instr v src dst size v' e : vm_typed v -> 0 <= aZ dst ->
  executeMCopy3D v (instr_of (ICopy src dst size)) = Ret (v', e) -> vm_typed v'.
Proof.
  intros Hv Hz Hx. unfold executeMCopy3D in Hx. cbn [instr_of in_Operands op_Value] in Hx.
  apply bind_Ret_inv in Hx as ([mm r] & Hl & Hx). apply Load3D_typed in Hl as [Hm Hr]; [|apply Hv..]. cbv zeta in Hx.
  pose proof (typed_memory _ Hv _ _ mm (typed_store _ Hv) Hm) as Hv1.
  destruct r as [err|d]; [by injection Hx as <- _|]. apply bind_Ret_inv in Hx as ([[[h a] mm2] err] & Hs & Hx).
  apply Store3D_typed in Hs as [Hst Hm2]; [|by apply typed_store | done | done | done].
  pose proof (typed_memory _ Hv h a mm2 Hst Hm2) as Hv2. destruct err as [err|]; [by injection Hx as <- _|]. injection Hx as <- _.
  apply (typed_cache (set_memory h a mm2 v)); [done|]. apply Put_typed; [|done]. apply Put_typed; [apply Hv | done].
Qed.

Lemma size_typed_instr v addr reg v' e : vm_typed v ->
  executeMSize3D v (instr_of (ISize addr reg)) = Ret (v', e) -> vm_typed v'.
Proof.
  intros Hv Hx. unfold executeMSize3D in Hx. cbn [instr_of in_Operands op_Value] in Hx.
  inv_res; apply typed_put_register; try done; apply be_bytes_range.
Qed.

Lemma instruction_typed v i v' e : vm_typed v -> asm_ok i -> executeInstruction v (instr_of i) = Ret (v', e) -> vm_typed v'.
Proof.
  intros Hv Hok Hx. unfold executeInstruction in Hx. cbv zeta in Hx. apply bind_Ret_inv in Hx as ([g ce] & Hc & Hx).
  apply Consume_typed in Hc; [|apply Hv | apply calculateGasCost_pos]. pose proof (typed_gas _ Hv g Hc) as Hv1.
  destruct ce as [err|]; [by injection Hx as <- _|].
  destruct i as [a size reg|a reg size|size rt flags|a|src dst size|d s1 s2|d s1 s2|d s|a d| |]; cbn [asm_ok] in Hok.
  - exact (load_typed _ a size reg v' e Hv1 Hx).
  - exact (store_typed_instr _ a reg size v' e Hv1 ltac:(apply Hok) Hx).
  - destruct Hok as [Hs _]. exact (alloc_typed_instr _ size rt flags v' e Hv1 Hs Hx).
  - exact (free_typed_instr _ a v' e Hv1 Hx).
  - exact (copy_typed_instr _ src dst size v' e Hv1 ltac:(lia) Hx).
  - injection Hx as <- _. apply (typed_put_register (set_gas g v)); [done | apply be_bytes_range].
  - injection Hx as <- _. apply (typed_put_register (set_gas g v)); [done | apply be_bytes_range].
  - injection Hx as <- _. apply (typed_put_register (set_gas g v)); [done | apply Reg_Get_typed, Hv].
  - exact (size_typed_instr _ a d v' e Hv1 Hx).
  - by injection Hx as <- _.
  - injection Hx as <- _. by destruct Hv1.
Qed.
End Instructions.

(** ** Programs *)

Lemma typed_control v pc halted stats lat : vm_typed v -> is_u64 pc -> is_u64 (vs_InstructionsExecuted stats) ->
  vs_Allocations stats = vs_Allocations (vm_stats v) -> vs_MemoryUsage stats = vs_MemoryUsage (vm_stats v) ->
  vm_typed (set_control pc halted stats lat v).
Proof. intros [] Hp Hs E1 E2. constructor; simpl; rewrite ?E1, ?E2; done. Qed.

Lemma exec_loop_typed rt program fuel k v v' e :
  Forall is_u8 program -> Z.of_nat (length program) < 18446744073709551616 ->
  vm_typed v -> exec_loop rt fuel k v program = Some (Ret (v', e)) -> vm_typed v'.
Proof.
  intros Hb Hlen. revert k v. induction fuel as [|fuel IH]; intros k v Hv Hx; [done|]. cbn [exec_loop] in Hx.
  pose proof (vt_pc _ Hv) as Hpc. unfold is_u64 in Hpc.
  destruct ((vm_pc v <? Z.of_nat (length program)) && negb (vm_halted v)) eqn:Hc.
  2: { injection Hx as <- _. apply typed_control; [done | apply Hv | apply Hv | done | done]. }
  apply andb_true_iff in Hc as [Hlt _]. apply Z.ltb_lt in Hlt. destruct (vm_paused v); [done|].
  destruct (fetchInstruction (vm_pc v) program) as [err|inst] eqn:Hfe; [by injection Hx as <- _|].
  destruct (fetch_spec (vm_pc v) program inst Hb ltac:(lia) Hlen Hfe) as (i & Hok & -> & _).
  destruct (executeInstruction v (instr_of i)) as [[v1 e1]| |] eqn:Hx1; [|done..].
  pose proof (instruction_typed v i v1 e1 Hv Hok Hx1) as Hv1. cbv zeta in Hx.
  assert (forall lat, vm_typed (set_control (vm_pc v1) (vm_halted v1) (count_instruction (vm_stats v1)) lat v1)) as Hv2.
  { intros lat. apply typed_control; [done | apply Hv1 | apply u64_range | done | done]. }
  destruct e1 as [err|]; [injection Hx as <- _; apply Hv2|]. destruct (_ =? 0); [injection Hx as <- _; apply Hv2|].
  destruct (_ <=? _); [injection Hx as <- _; apply Hv2|]. eapply IH; [|exact Hx].
  apply typed_control; [apply Hv2 | apply u64_range | apply u64_range | done | done].
Qed.

(** C6. Every run keeps the state well formed, whatever bytes are executed on a new VM: at
    every normal end each region has its own key as identifier and exactly one plane of
    65535 bytes with a free map of 1024 words (no store changes the size of a plane), the
    list of recent regions names existing regions, each once and at most 100, the access
    log has at most 10000 entries, the cache list at most 1000, without duplicates, and
    no two cached addresses share an element, the register file has its sixteen and five
    registers, and every value is in the range of its Go type.  No assumption on the
    program is made, so this also holds for the runs that corrupt the free maps. *)
Theorem execute_well_formed `{GoRuntime} rt cfg program v' e :
  is_u64 (vc_GasLimit cfg) -> Forall is_u8 program -> Z.of_nat (length program) < 18446744073709551616 ->
  Execute rt (NewVM3D cfg) program = Ret (v', e) -> vm_typed v'.
Proof.
  intros Hl Hb Hlen Hx. unfold Execute in Hx. fold (start_state rt (NewVM3D cfg)) in Hx.
  destruct (exec_loop rt (S (length program)) 0 (start_state rt (NewVM3D cfg)) program) as [o|] eqn:Ho; [|done].
  simpl in Hx. subst o. eapply exec_loop_typed; [done | done | | exact Ho].
  constructor; try done.
  - constructor; simpl; try done; try (by constructor); lia.
  - split_and!; [apply Forall_replicate, Forall_nil_2 | done | done].
  - split_and!; [done | | done]. constructor; try done; [simpl; lia | constructor].
  - unfold gas_typed. change (vm_gasAccount _) with (NewAccountant (vc_GasLimit cfg)). rewrite NewAccountant_eq by done. by constructor.
Qed.

Lemma execute_well_formed_witness :
  vm_typed (demo_run [IAlloc 10 4 0; IAlloc 1 4 0; IFree (NewAddress 2 0 0); IAlloc 65525 4 0; IHalt]).
Proof.
  apply (@execute_well_formed (runtime_fwd 0) (fun _ => runtime_fwd 0) demo_config
    (assemble [IAlloc 10 4 0; IAlloc 1 4 0; IFree (NewAddress 2 0 0); IAlloc 65525 4 0; IHalt]) _ None).
  - by vm_compute.
  - apply (bool_decide_unpack _). by vm_compute.
  - by vm_compute.
  - apply demo_run_ok. vm_compute. reflexivity.
Defined.
