(* ===== verification/StaticSafety.v ===== *)
(** * A static condition for safe programs

    Whether a MALLOC is safe depends, in [execute_safe], on the state in which it is
    reached.  Here the condition is read off the program text: first-fit placement
    keeps every plane empty above the sum of the sizes asked for so far, so a program
    whose MALLOCs ask for at most one plane in total never meets a 16-bit wrap. *)
From S2P Require Import Prelude Words Float64 Address Errors Bitmap Plane Region Allocator.
From S2P Require Import AllocatorInv YPromotionInv AllocatorSpec AllocatorEdge.
From S2P Require Import Gas Sha256 Merkle Spatial Registers Instructions MemoryManager VM Progress.
From S2P Require Import VMFrame VMMemory VMSpec.
From stdpp Require Import strings.
#[local] Open Scope Z_scope.

(** ** The high-water mark of a plane *)

(** A plane of full size with nothing marked from [t] on, and sensible keys. *)
Record low (t : Z) (p : Plane) : Prop := {
  lw_wf : bitmap_wf (pl_FreeMap p);
  lw_size : bm_size (pl_FreeMap p) = PlaneSize;
  lw_clear : forall q, 0 <= q -> t <= q -> bit_at (pl_FreeMap p) q = false;
  lw_keys : forall z l, pl_Allocations p !! z = Some l -> 0 <= z;
}.

Lemma low_mono t u p : low t p -> t <= u -> low u p.
Proof. intros [H1 H2 H3 H4] Hle. constructor; [done..| |done]. intros q Hq ?. apply H3; lia. Qed.

Lemma lows_mono t u ps : Forall (low t) ps -> t <= u -> Forall (low u) ps.
Proof. intros Hps Hle. eapply Forall_impl; [exact Hps|]. intros p Hp. by eapply low_mono. Qed.

Lemma low_fits t n p : low t p -> 0 <= t -> t + n <= PlaneSize -> fits (pl_FreeMap p) n t.
Proof. intros [H1 H2 H3 H4] Ht Hn. split_and!; [done | lia |]. intros i Hi. apply H3; lia. Qed.

(** Another free map of the same size whose marks stay below [u]. *)
Lemma low_with_map t u p b : low t p -> bitmap_wf b -> bm_size b = bm_size (pl_FreeMap p) ->
  (forall q, 0 <= q < bm_size b -> u <= q -> bit_at b q = false) -> low u (with_FreeMap b p).
Proof.
  intros [H1 H2 H3 H4] Hw Hs Hb. constructor; simpl; [done | congruence | | done]. intros q Hq Hu.
  destruct (Z.le_gt_cases (bm_size b) q) as [Hge|Hlt]; [by apply (wf_tail _ Hw) | by apply Hb].
Qed.

Lemma low_clear_range t p s e : low t p -> 0 <= s -> low t (with_FreeMap (ClearRange (pl_FreeMap p) s e) p).
Proof.
  intros Hl Hs. destruct (ClearRange_spec (pl_FreeMap p) s e (lw_wf _ _ Hl) Hs) as (W & S & B).
  apply (low_with_map t); [done..|]. intros q Hq Ht. rewrite B by lia. rewrite (lw_clear _ _ Hl) by lia. by case_match.
Qed.

Lemma low_set_range t p s e : low t p -> 0 <= s -> t <= e -> low e (with_FreeMap (SetRange (pl_FreeMap p) s e) p).
Proof.
  intros Hl Hs He. destruct (SetRange_spec (pl_FreeMap p) s e (lw_wf _ _ Hl) Hs) as (W & S & B).
  apply (low_with_map t); [done..|]. intros q Hq Ht. rewrite B by lia. rewrite (lw_clear _ _ Hl) by lia.
  destruct (Z.ltb_spec q e); [lia|]. by rewrite andb_false_r.
Qed.

Lemma low_allocations t p m : low t p -> (forall z l, m !! z = Some l -> 0 <= z) -> low t (with_Allocations m p).
Proof. by intros [H1 H2 H3 _] Hm. Qed.

Lemma low_insert t p z l : low t p -> 0 <= z -> low t (with_Allocations (<[z := l]> (pl_Allocations p)) p).
Proof.
  intros Hl Hz. apply low_allocations; [done|]. intros z' l' Hm.
  apply lookup_insert_Some in Hm as [[<- _]|[_ Hm]]; [done | by eapply Hl].
Qed.

Lemma low_delete t p z : low t p -> low t (with_Allocations (delete z (pl_Allocations p)) p).
Proof. intros Hl. apply low_allocations; [done|]. intros z' l' [_ Hm]%lookup_delete_Some. by eapply Hl. Qed.

Lemma low_new id rid : low 0 (NewPlane id rid PlaneSize).
Proof.
  constructor; simpl; [by apply NewBitmap_wf | done | intros; apply NewBitmap_clear |].
  intros z l Hz. by rewrite lookup_empty in Hz.
Qed.

(** First fit: a request is placed at or below the mark, and raises it by at most
    its size. *)
Lemma Plane_Allocate_low t p n p' z ok :
  low t p -> 0 <= t -> 0 <= n -> t + n <= PlaneSize -> Plane_Allocate p n = Ret (p', z, ok) ->
  low (t + n) p' /\ 0 <= z.
Proof.
  intros Hl Ht Hn Hle Hx. unfold Plane_Allocate in Hx. pose proof (low_fits t n p Hl Ht Hle) as Hfit.
  destruct (FindContiguous_spec (pl_FreeMap p) n (lw_wf _ _ Hl) Hn ltac:(left; eauto)) as (s & o & E & Ho).
  rewrite E in Hx. cbn [mbind res_bind] in Hx. destruct o; cbn [negb] in Hx; injection Hx as <- <- <-.
  - destruct Ho as (_ & (Hs & Hb & _) & Hleast).
    assert (s <= t) by (destruct (Z.le_gt_cases s t); [done | by destruct (Hleast t ltac:(lia))]).
    rewrite u16_small by (unfold is_u16, PlaneSize in *; lia). split; [|done].
    destruct (Z.le_gt_cases t (s + n)).
    + eapply low_mono; [by apply (low_set_range t) | lia].
    + destruct (SetRange_spec (pl_FreeMap p) s (s + n) (lw_wf _ _ Hl) Hs) as (W & S & B).
      apply (low_with_map t); [done..|]. intros q Hq Hu. rewrite B, (lw_clear _ _ Hl) by lia.
      destruct (Z.ltb_spec q (s + n)); [lia|]. by rewrite andb_false_r.
  - split; [eapply low_mono; [done|lia] | lia].
Qed.

(** ** The allocator below the mark *)

Definition alloc_low (t : Z) (a : Allocator3D) : Prop :=
  cf_PlaneSize (ac_config a) = PlaneSize /\
  forall k r, ac_regions a !! k = Some r -> Forall (low t) (rg_Planes r).

Lemma alloc_low_mono t u a : alloc_low t a -> t <= u -> alloc_low u a.
Proof. intros [H1 H2] Hle. split; [done|]. intros k r Hk. eapply lows_mono; [by eapply H2 | done]. Qed.

(** Requests up to the mark's distance from the end of a plane are safe. *)
Lemma alloc_low_safe t a size : alloc_low t a -> 0 <= t -> t + size <= PlaneSize -> alloc_safe a size.
Proof.
  intros [_ Hl] Ht Hle k r p n Hk Hp Hn _. left. exists t. apply low_fits; [|done|lia].
  specialize (Hl k r Hk). rewrite Forall_forall in Hl. by apply Hl.
Qed.

Lemma alloc_low_regions t a a' :
  ac_regions a' = ac_regions a -> ac_config a' = ac_config a -> alloc_low t a -> alloc_low t a'.
Proof. intros E1 E2 [H1 H2]. split; rewrite ?E1, ?E2; done. Qed.

Lemma alloc_low_set t a r : alloc_low t a -> Forall (low t) (rg_Planes r) -> alloc_low t (set_region r a).
Proof.
  intros [H1 H2] Hr. split; [done|]. intros k r' Hk. simpl in Hk.
  apply lookup_insert_Some in Hk as [[_ <-]|[_ Hk]]; [done | by eapply H2].
Qed.

Lemma alloc_low_promote t a id : alloc_low t a -> alloc_low t (promoteRegionLRU a id).
Proof. apply alloc_low_regions; [apply promote_regions | apply promote_config]. Qed.

Lemma alloc_low_counts t a f y : alloc_low t a -> alloc_low t (with_counts f y a).
Proof. by apply alloc_low_regions. Qed.

Lemma record_low t now h a r i p z size rt flags h' a' l :
  alloc_low t a -> Forall (low t) (rg_Planes r) -> low t p -> 0 <= z ->
  record_allocation now h a r i p z size rt flags = (h', a', l) ->
  alloc_low t a' /\ ac_nextRegionID a' = ac_nextRegionID a.
Proof.
  intros Ha Hr Hp Hz Hx. unfold record_allocation in Hx. cbv zeta in Hx.
  destruct (heap_new _ _) as [h1 l1]. injection Hx as <- <- <-. rewrite promote_next. split; [|done].
  apply alloc_low_promote, alloc_low_set; [by apply (alloc_low_regions t a)|]. simpl.
  apply Forall_insert; [done|]. by apply low_insert.
Qed.

(** The marks after an allocation of [size]: raised by the size, one more region at most. *)
Definition raised (t size : Z) (a a' : Allocator3D) : Prop :=
  alloc_low (t + size) a' /\ 0 <= ac_nextRegionID a' <= ac_nextRegionID a + 1.

Section Allocation.
Context `{GoRuntime} (t size : Z).
Hypothesis Ht : 0 <= t.
Hypothesis Hsize : 0 < size.
Hypothesis Hle : t + size <= PlaneSize.

Lemma size_u16 : u16 size = size.
Proof. apply u16_small. unfold is_u16, PlaneSize in *. lia. Qed.

Lemma alloc_in_planes_low ps i p z : Forall (low t) ps -> alloc_in_planes size ps = Ret (Some (i, p, z)) ->
  low (t + size) p /\ 0 <= z.
Proof.
  revert i. induction ps as [|q ps IH]; intros i Hps Hx; [done|]. apply Forall_cons in Hps as [Hq Hps].
  cbn [alloc_in_planes] in Hx. cbv zeta in Hx. rewrite size_u16 in Hx.
  assert (forall r, (r ← alloc_in_planes size ps; Ret (match r with Some (i, p, z) => Some (S i, p, z) | None => None end))
    = Ret r -> r = Some (i, p, z) -> low (t + size) p /\ 0 <= z) as Hnext.
  { intros r Hr ->. apply bind_Ret_inv in Hr as (o & Ho & Hr). destruct o as [[[j p1] z1]|]; [|done].
    injection Hr as <- <- <-. by eapply IH. }
  destruct (_ <=? _); [|by eapply Hnext]. apply bind_Ret_inv in Hx as ([[p1 z1] ok] & Ho & Hx).
  destruct ok; [|by eapply Hnext]. injection Hx as <- <- <-.
  by apply (Plane_Allocate_low t q size p1 z1 true); [..|lia| |].
Qed.

Lemma fast_lru_low now h a rt lru h' a' l :
  alloc_low t a -> 0 <= ac_nextRegionID a -> fast_lru now h a size rt lru = Ret (Some (h', a', l)) -> raised t size a a'.
Proof.
  intros Ha Hn. induction lru as [|k lru IH]; intros Hx; [done|]. cbn [fast_lru] in Hx.
  apply bind_Ret_inv in Hx as (r & Hr & Hx). destruct (negb _); [by apply IH|]. destruct (_ <? _); [by apply IH|].
  apply bind_Ret_inv in Hx as (o & Ho & Hx). destruct o as [[[i p] z]|]; [|by apply IH].
  destruct (ac_regions a !! k) as [r0|] eqn:Hk; [|done]. injection Hr as ->.
  pose proof (proj2 Ha k r Hk) as Hps. destruct (alloc_in_planes_low _ i p z Hps Ho) as [Hp Hz].
  assert (record_allocation now h a r i p z size rt 0 = (h', a', l)) as Hrec by congruence.
  destruct (record_low (t + size) now h a r i p z size rt 0 h' a' l) as [Ha' Hn']; try done.
  - apply (alloc_low_mono t); [done | lia].
  - eapply lows_mono; [done | lia].
  - split; [done|]. lia.
Qed.

(** Each candidate plane gets at most one fragment. *)
Lemma alloc_fragments_low ps cands fs rem ps' fs' rem' :
  NoDup cands -> Forall (low (t + size)) ps -> (forall i p, i ∈ cands -> ps !! i = Some p -> low t p) ->
  0 <= rem <= size -> Forall (fun f => 0 <= fr_StartZ f) fs ->
  alloc_fragments ps cands fs rem = Ret (ps', fs', rem') ->
  Forall (low (t + size)) ps' /\ Forall (fun f => 0 <= fr_StartZ f) fs'.
Proof.
  revert ps fs rem. induction cands as [|i cands IH]; intros ps fs rem Hnd Hps Hc Hrem Hfs Hx;
    cbn [alloc_fragments] in Hx; [by simplify_eq|].
  apply NoDup_cons in Hnd as [Hi Hnd]. destruct (rem =? 0); [by simplify_eq|].
  assert (forall j p, j ∈ cands -> ps !! j = Some p -> low t p) as Hc' by (intros j p Hj; apply Hc; by right).
  apply bind_Ret_inv in Hx as (p & Hp & Hx). destruct (ps !! i) as [p0|] eqn:Hpi; [|done]. injection Hp as ->.
  set (n := u16 (Allocator.min (Plane_FreeBytes p) rem)) in Hx.
  assert (0 <= n <= rem) as Hn.
  { unfold n, Allocator.min. pose proof (u16_range (bm_size (pl_FreeMap p) - u16 (totalSet (pl_FreeMap p)))) as Hf.
    fold (FreeBytes (pl_FreeMap p)) in Hf. fold (Plane_FreeBytes p) in Hf. unfold is_u16 in Hf.
    destruct (Z.ltb_spec (Plane_FreeBytes p) rem);
      rewrite u16_small by (unfold is_u16, PlaneSize in *; lia); lia. }
  destruct (n =? 0); [by eapply IH|]. apply bind_Ret_inv in Hx as ([[p' z] ok] & Ho & Hx).
  destruct ok; cbn [negb] in Hx; [|by eapply IH].
  destruct (Plane_Allocate_low t p n p' z true) as [Hp' Hz]; [apply (Hc i); [by left | done] | done | lia | lia | done|].
  eapply IH; [done | | | | | exact Hx].
  - apply Forall_insert; [done|]. eapply low_mono; [done | lia].
  - intros j q Hj Hq. rewrite list_lookup_insert_ne in Hq by (intros ->; done). by eapply Hc'.
  - rewrite u32_small by (unfold is_u32, PlaneSize in *; lia). lia.
  - apply Forall_app. split; [done|]. by constructor.
Qed.

Lemma rollback_low u ps fs :
  Forall (low u) ps -> Forall (fun f => 0 <= fr_StartZ f) fs -> Forall (low u) (rollback ps fs).
Proof.
  intros Hps Hfs. unfold rollback. revert ps Hps. induction Hfs as [|f fs Hf Hfs IH]; intros ps Hps; [done|].
  cbn [foldl]. apply IH. unfold rollback_fragment. destruct (plane_index _ ps) as [i|]; [|done].
  apply Forall_alter; [done|]. intros p _ Hp. apply low_allocations; [by apply low_clear_range|].
  intros z l [_ Hm]%lookup_delete_Some. by eapply Hp.
Qed.

Lemma tryYPromotion_low h a rt flags h' a' o :
  alloc_low t a -> tryYPromotion h a size rt flags = Ret (h', a', o) ->
  alloc_low (t + size) a' /\ ac_nextRegionID a' = ac_nextRegionID a.
Proof.
  intros Ha Hx. assert (alloc_low (t + size) a) as Ha2 by (apply (alloc_low_mono t); [done | lia]).
  unfold tryYPromotion in Hx. cbv zeta in Hx. destruct (_ =? 0); [done|]. destruct (_ <? _); [by simplify_eq|].
  apply bind_Ret_inv in Hx as (best & _ & Hx). destruct best as [k|]; [|by simplify_eq].
  apply bind_Ret_inv in Hx as (r & Hr & Hx). destruct (ac_regions a !! k) as [r0|] eqn:Hk; [|done]. injection Hr as ->.
  pose proof (proj2 Ha k r Hk) as Hps. apply bind_Ret_inv in Hx as ([[ps fs] rem] & Hfr & Hx).
  destruct (alloc_fragments_low (rg_Planes r) (candidates (rg_Planes r)) [] size ps fs rem (candidates_nodup (rg_Planes r)) (lows_mono t (t + size) _ Hps ltac:(lia))
    ltac:(intros i p _ Hp; by eapply Forall_lookup_1) ltac:(lia) (Forall_nil_2 _) Hfr) as [Hps' Hfs].
  destruct (0 <? rem).
  { injection Hx as <- <- <-. split; [|done]. apply alloc_low_set; [done|]. by apply rollback_low. }
  destruct (first_fragment (rg_ID r) fs) as [[y z] ad] eqn:Eff. destruct (heap_new _ _) as [h1 l1].
  injection Hx as <- <- <-. simpl. rewrite promote_next. split; [|done].
  apply alloc_low_counts, alloc_low_promote, alloc_low_set; [by apply (alloc_low_regions _ a)|]. simpl.
  destruct (plane_index y ps) as [i|]; [|done]. apply Forall_alter; [done|]. intros p _ Hp. apply low_insert; [done|].
  destruct fs as [|f fs]; injection Eff as _ <- _; [done|]. by apply Forall_cons in Hfs as [? _].
Qed.

Lemma allocateNewRegion_low u h a rt flags h' a' o :
  alloc_low u a -> size <= u -> 0 <= ac_nextRegionID a -> allocateNewRegion h a size rt flags = Ret (h', a', o) ->
  alloc_low u a' /\ 0 <= ac_nextRegionID a' <= ac_nextRegionID a + 1.
Proof.
  intros Ha Hu Hn Hx. unfold allocateNewRegion in Hx. cbv zeta in Hx. set (id := u64 (ac_nextRegionID a + 1)) in Hx.
  assert (0 <= id <= ac_nextRegionID a + 1) as Hid.
  { pose proof (u64_range (ac_nextRegionID a + 1)) as Hr. unfold is_u64 in Hr. fold id in Hr.
    split; [lia|]. apply Z.mod_le; lia. }
  set (a1 := with_next id (ac_nextAllocID a) a) in Hx.
  assert (low 0 (getPlaneFromPool a1 0 id)) as Hp0.
  { unfold getPlaneFromPool. cbn [a1 with_next ac_config]. rewrite (proj1 Ha). destruct (cf_EnablePooling _);
      [|apply low_new]. destruct (low_new 0 0) as [H1 H2 H3 H4]. by constructor. }
  assert (forall p, low u p -> alloc_low u
    (with_regions (<[id := AddPlane (NewRegion (rt_now 2) id rt) p]> (ac_regions a1)) a1)) as Hadd.
  { intros p Hp. split; [apply Ha|]. intros k r Hk. simpl in Hk. apply lookup_insert_Some in Hk as [[_ <-]|[_ Hk]].
    - by constructor.
    - by eapply Ha. }
  pose proof (Hadd _ (low_mono 0 u _ Hp0 ltac:(lia))) as Ha2.
  destruct (_ <=? _); [|by injection Hx as <- <- <-]. rewrite size_u16 in Hx.
  apply bind_Ret_inv in Hx as ([[p z] ok] & Ho & Hx).
  destruct (Plane_Allocate_low 0 _ size p z ok Hp0) as [Hp Hz]; [lia | lia | lia | done|].
  destruct ok; cbn [negb] in Hx; [|by injection Hx as <- <- <-].
  destruct (record_allocation _ _ _ _ _ _ _ _ _ _) as [[h2 a2] l2] eqn:Er. injection Hx as <- <- <-.
  eapply record_low in Er as [Ha3 ->]; [done | done | | by apply (low_mono (0 + size)); [|lia] | done].
  constructor; [|done]. by apply (low_mono 0); [|lia].
Qed.

Lemma allocateSync_low h a rt flags h' a' o :
  alloc_low t a -> 0 <= ac_nextRegionID a -> allocateSync h a size rt flags = Ret (h', a', o) -> raised t size a a'.
Proof.
  intros Ha Hn Hx. unfold allocateSync in Hx. apply bind_Ret_inv in Hx as (f & Hf & Hx).
  destruct f as [[[h1 a1] l1]|]; [injection Hx as <- <- <-; by eapply fast_lru_low|].
  apply bind_Ret_inv in Hx as ([[h1 a1] o1] & Hy & Hx). apply tryYPromotion_low in Hy as [Ha1 Hn1]; [|done].
  destruct o1 as [l1|]; [injection Hx as <- <- <-; split; [done | lia]|].
  unfold raised. rewrite <- Hn1. eapply (allocateNewRegion_low (t + size)); [done | lia | lia | done].
Qed.
End Allocation.

(** Free only lowers the marks. *)
Lemma Plane_Free_low t h p z p' ok : low t p -> Plane_Free h p z = Ret (p', ok) -> low t p'.
Proof.
  intros Hp Hx. unfold Plane_Free in Hx. destruct (pl_Allocations p !! z) as [l|] eqn:Hl; [|by simplify_eq].
  apply bind_Ret_inv in Hx as (al & _ & Hx). injection Hx as <- <-. pose proof (lw_keys _ _ Hp z l Hl).
  apply low_allocations; [by apply low_clear_range|]. intros z' l' [_ Hm]%lookup_delete_Some. by eapply Hp.
Qed.

Lemma free_fragments_low t h ps fs ps' : Forall (low t) ps -> free_fragments h ps fs = Ret ps' -> Forall (low t) ps'.
Proof.
  revert ps. induction fs as [|f fs IH]; intros ps Hps Hx; cbn [free_fragments] in Hx; [by simplify_eq|].
  destruct (plane_index _ ps) as [i|]; [|by eapply IH]. apply bind_Ret_inv in Hx as (p & Hp & Hx).
  destruct (ps !! i) as [p0|] eqn:Hi; [|done]. injection Hp as ->.
  apply bind_Ret_inv in Hx as ([p' ok] & Hf & Hx). eapply IH; [|exact Hx]. apply Forall_insert; [done|].
  eapply Plane_Free_low; [by eapply Forall_lookup_1 | done].
Qed.

Lemma Free_low t h a l a' e : alloc_low t a -> Free h a l = Ret (a', e) ->
  alloc_low t a' /\ ac_nextRegionID a' = ac_nextRegionID a.
Proof.
  intros Ha Hx. rewrite Free_sync in Hx. unfold freeSync in Hx. apply bind_Ret_inv in Hx as (al & _ & Hx).
  destruct (ac_regions a !! aX (al_Address al)) as [r|] eqn:Hk; [|by simplify_eq]. pose proof (proj2 Ha _ r Hk) as Hps.
  assert (forall ps, Forall (low t) ps -> alloc_low t (free_stats a r ps (al_Size al))) as Hst.
  { intros ps Hq. by apply alloc_low_counts, alloc_low_set. }
  destruct (IsYPromoted al).
  - apply bind_Ret_inv in Hx as (ps & Hf & Hx). injection Hx as <- <-. split; [|done].
    apply Hst. by eapply free_fragments_low.
  - destruct (plane_index _ _) as [i|]; [|by simplify_eq]. apply bind_Ret_inv in Hx as (p & Hp & Hx).
    destruct (rg_Planes r !! i) as [p0|] eqn:Hi; [|done]. injection Hp as ->.
    apply bind_Ret_inv in Hx as ([p' ok] & Hf & Hx). destruct ok; cbn [negb] in Hx; [|by simplify_eq].
    injection Hx as <- <-. split; [|done]. apply Hst, Forall_insert; [done|].
    eapply Plane_Free_low; [by eapply Forall_lookup_1 | done].
Qed.

(** Stores write data only. *)
Lemma Store3D_low `{GoRuntime} t h a mm addr d h' a' mm' e :
  alloc_low t a -> Store3D h a mm addr d = Ret (h', a', mm', e) ->
  alloc_low t a' /\ ac_nextRegionID a' = ac_nextRegionID a.
Proof.
  intros Ha Hx. unfold Store3D in Hx. cbv zeta in Hx. inv_res; try done.
  unfold set_plane_data. destruct (plane_index _ _) as [i|]; [|done]. split; [|done].
  apply alloc_low_set; [done|]. simpl. apply Forall_alter; [by eapply Ha|]. by intros ? _ [? ? ? ?].
Qed.

(** ** Instructions *)

(** What an instruction asks of the allocator. *)
Definition malloc_size (i : asm) : Z := match i with IAlloc size _ _ => size | _ => 0 end.

Definition mallocs (l : list asm) : Z := sumZ malloc_size l.

(** The marks of the VM's allocator: nothing above [t], at most [n] regions made. *)
Definition vm_low (t n : Z) (v : VM3D) : Prop :=
  alloc_low t (vm_allocator v) /\ 0 <= ac_nextRegionID (vm_allocator v) <= n.

Lemma vm_low_same t n v v' : vm_allocator v' = vm_allocator v -> vm_low t n v -> vm_low t n v'.
Proof. unfold vm_low. by intros ->. Qed.

(** The handlers that never touch the allocator. *)
Lemma quiet_handlers `{GoRuntime} v inst v' e :
  (executeMLoad3D v inst = Ret (v', e) \/ executeMQuery3D v inst = Ret (v', e) \/
   executeNOP v = Ret (v', e) \/ executeAdd3D v inst = Ret (v', e) \/ executeSub3D v inst = Ret (v', e) \/
   executeMov3D v inst = Ret (v', e) \/ executeMSize3D v inst = Ret (v', e) \/ executeHalt3D v = Ret (v', e)) ->
  vm_allocator v' = vm_allocator v.
Proof.
  intros Hx. unfold executeMLoad3D, executeMQuery3D, executeNOP, executeAdd3D, executeSub3D, executeMov3D,
    executeMSize3D, executeHalt3D in Hx.
  repeat destruct Hx as [Hx|Hx]; inv_res; done.
Qed.

Lemma handler_low `{GoRuntime} t n v i v' e :
  0 <= t -> 0 <= malloc_size i -> t + malloc_size i <= PlaneSize -> (forall s r f, i = IAlloc s r f -> 0 < s) ->
  vm_low t n v -> cf_EnableConcurrent (ac_config (vm_allocator v)) = false ->
  executeInstruction v (instr_of i) = Ret (v', e) -> vm_low (t + malloc_size i) (n + malloc_size i) v'.
Proof.
  intros Ht Hm Hle Hpos [Ha Hn] Hcc Hx. unfold executeInstruction in Hx. cbv zeta in Hx.
  apply bind_Ret_inv in Hx as ([g ce] & _ & Hx).
  assert (vm_low (t + malloc_size i) (n + malloc_size i) v) as Hv by (split; [apply (alloc_low_mono t); [done|lia] | lia]).
  destruct ce as [err|]; [by injection Hx as <- <-|]. assert (exists w, w = set_gas g v) as [w Hw] by eauto.
  rewrite <- Hw in Hx. assert (vm_allocator w = vm_allocator v) as Ew by (by rewrite Hw). clear Hw.
  pose proof (quiet_handlers w (instr_of i) v' e) as Hq.
  destruct i as [a s r|a r s|s r f|a|s d n1|d s1 s2|d s1 s2|d s|a d| |];
    try (eapply (vm_low_same _ _ v); [|done]; rewrite <- Ew; apply Hq;
      first [left; exact Hx | do 2 right; repeat (first [exact Hx | left; exact Hx | right])]; fail).
  - clear Hq. change (executeMStore3D w (instr_of (IStore a r s)) = Ret (v', e)) in Hx. unfold executeMStore3D in Hx.
    cbn [instr_of in_Operands op_Value] in Hx. cbv zeta in Hx. rewrite <- Ew in Ha, Hn. inv_res.
    all: try match goal with Hs : Store3D _ _ _ _ _ = Ret _ |- _ => apply (Store3D_low t) in Hs as [Ha' Hn']; [|done] end.
    all: split; cbn [malloc_size]; rewrite ?Z.add_0_r; simpl; rewrite ?tree_update_allocator; simpl; [done | lia].
  - clear Hq. change (executeMAlloc3D w (instr_of (IAlloc s r f)) = Ret (v', e)) in Hx. unfold executeMAlloc3D in Hx.
    cbn [instr_of in_Operands op_Value] in Hx. cbv zeta in Hx. rewrite <- Ew in Ha, Hn, Hcc.
    apply bind_Ret_inv in Hx as ([[h a] o] & Hs & Hx). rewrite Allocate_sync in Hs by (by left). specialize (Hpos s r f eq_refl).
    apply (allocateSync_low t s Ht Hpos Hle) in Hs as [Ha' Hn']; [|done | lia]. cbn [malloc_size].
    inv_res; (split; [done|]); simpl; lia.
  - clear Hq. change (executeMFree3D w (instr_of (IFree a)) = Ret (v', e)) in Hx. unfold executeMFree3D in Hx.
    cbn [instr_of in_Operands op_Value] in Hx. rewrite <- Ew in Ha, Hn. inv_res.
    all: try match goal with Hs : Free _ _ _ = Ret _ |- _ => apply (Free_low t) in Hs as [Ha' Hn']; [|done] end.
    all: split; cbn [malloc_size]; rewrite ?Z.add_0_r; simpl; [done | lia].
  - clear Hq. change (executeMCopy3D w (instr_of (ICopy s d n1)) = Ret (v', e)) in Hx. unfold executeMCopy3D in Hx.
    cbn [instr_of in_Operands op_Value] in Hx. cbv zeta in Hx. rewrite <- Ew in Ha, Hn. inv_res.
    all: try match goal with Hs : Store3D _ _ _ _ _ = Ret _ |- _ => apply (Store3D_low t) in Hs as [Ha' Hn']; [|done] end.
    all: split; cbn [malloc_size]; rewrite ?Z.add_0_r; simpl in *; [done | lia].
Qed.

(** ** Assembled programs *)

Lemma assemble_app l1 l2 : assemble (l1 ++ l2) = assemble l1 ++ assemble l2.
Proof. apply bind_app. Qed.

Lemma assemble_cons i l : assemble (i :: l) = encode i ++ assemble l.
Proof. done. Qed.

Lemma encode_size i : in_Size (instr_of i) = Z.of_nat (length (encode i)).
Proof. by destruct i. Qed.

(** The bytes of an instruction: its opcode first, and as many as [fetchInstruction] takes. *)
Lemma encode_head i : exists b bs, encode i = b :: bs /\
  (if (b =? OP_MLOAD3D) || (b =? OP_MSTORE3D) || (b =? OP_MCOPY3D) then 20
   else if b =? OP_MALLOC3D then 14 else if b =? OP_MFREE3D then 15 else if b =? OP_MSIZE3D then 16
   else if b =? OP_MOV3D then 8 else if (b =? OP_ADD3D) || (b =? OP_SUB3D) then 4 else 1)
  = Z.of_nat (length (encode i)).
Proof. by destruct i; eexists _, _. Qed.

Lemma slice_app_middle {A} (l1 l2 l3 : list A) : slice (length l1) (length l1 + length l2) (l1 ++ l2 ++ l3) = l2.
Proof.
  unfold slice. rewrite drop_app_length. replace (length l1 + length l2 - length l1)%nat with (length l2) by lia.
  by rewrite take_app_length.
Qed.

(** Fetching at the end of a prefix of the program gives the next instruction. *)
Lemma fetch_assembled pre i post :
  asm_ok i -> Z.of_nat (length (assemble (pre ++ i :: post))) < 18446744073709551616 ->
  fetchInstruction (Z.of_nat (length (assemble pre))) (assemble (pre ++ i :: post)) = inr (instr_of i).
Proof.
  intros Hok Hlen. rewrite assemble_app, assemble_cons in *. destruct (encode_head i) as (b & bs & Hb & Hn).
  unfold fetchInstruction. rewrite !length_app in *.
  rewrite u64_small by (unfold is_u64; lia). rewrite Nat2Z.id.
  assert (byte_at (assemble pre ++ encode i ++ assemble post) (length (assemble pre)) = b) as ->.
  { unfold byte_at. rewrite Hb, lookup_app_r, Nat.sub_diag by lia. done. }
  cbv zeta. rewrite Hn. assert (0 < length (encode i))%nat by (rewrite Hb; simpl; lia).
  destruct (Z.ltb_spec (Z.of_nat (length (assemble pre) + (length (encode i) + length (assemble post))) -
    Z.of_nat (length (assemble pre))) 1); [lia|].
  destruct (Z.ltb_spec (Z.of_nat (length (assemble pre) + (length (encode i) + length (assemble post))) -
    Z.of_nat (length (assemble pre))) (Z.of_nat (length (encode i)))); [lia|].
  rewrite <- Nat2Z.inj_add, Nat2Z.id, slice_app_middle. by apply decode_encode.
Qed.

Lemma encode_bytes i : asm_ok i -> Forall is_u8 (encode i).
Proof.
  intros Hok. destruct i; cbn [asm_ok] in Hok; cbn [encode]; unfold address_bytes;
    repeat match goal with
    | |- Forall _ (be_bytes _ _ ++ _) => apply Forall_app_2; [apply be_bytes_range|]
    | |- Forall _ ((_ ++ _) ++ _) => rewrite <- app_assoc
    | |- Forall _ (_ ++ _) => apply Forall_app_2
    | |- Forall _ (be_bytes _ _) => apply be_bytes_range
    | |- Forall _ (replicate _ _) => apply Forall_replicate
    | |- Forall _ (_ :: _) => apply Forall_cons_2
    | |- Forall _ [] => apply Forall_nil_2
    end; tauto || by vm_compute.
Qed.

Lemma assemble_bytes l : Forall asm_ok l -> Forall is_u8 (assemble l).
Proof. induction 1 as [|i l Hi Hl IH]; [constructor|]. rewrite assemble_cons. apply Forall_app_2; [by apply encode_bytes | done]. Qed.

Lemma mallocs_app l1 l2 : mallocs (l1 ++ l2) = mallocs l1 + mallocs l2.
Proof. apply sumZ_app. Qed.

(** Every MALLOC asks for something. *)
Definition malloc_pos (i : asm) : Prop := match i with IAlloc size _ _ => 0 < size | _ => True end.

#[export] Instance malloc_pos_dec i : Decision (malloc_pos i).
Proof. destruct i; apply _. Defined.

Lemma mallocs_nonneg l : Forall malloc_pos l -> 0 <= mallocs l.
Proof.
  induction 1 as [|i l Hi Hl IH]; [done|]. unfold mallocs. cbn [sumZ foldr]. fold (sumZ malloc_size l). fold (mallocs l).
  destruct i; cbn [malloc_size malloc_pos] in *; lia.
Qed.

(** Below the mark a MALLOC that still fits one plane is safe. *)
Lemma low_safe_instr t n v i : vm_low t n v -> malloc_pos i -> 0 <= t -> t + malloc_size i <= PlaneSize ->
  n < 18446744073709551615 -> safe_instr v i.
Proof.
  intros [Ha Hn] Hi H0 Hle Hids. destruct i; try exact I. cbn [malloc_size malloc_pos safe_instr] in *.
  split_and!; [done | by apply (alloc_low_safe t) |]. unfold ids_left, PlaneSize in *. lia.
Qed.

Section Static.
Context (rt : nat -> GoRuntime) (program : list asm).
Hypothesis Hok : Forall asm_ok program.
Hypothesis Hpos : Forall malloc_pos program.
Hypothesis Hlen : Z.of_nat (length (assemble program)) < 18446744073709551616.

(** Before the instruction that follows a prefix [pre] of the program. *)
Definition at_prefix (s : nat * VM3D) : Prop :=
  exists pre post, program = pre ++ post /\ vm_pc s.2 = Z.of_nat (length (assemble pre)) /\
    vm_inv s.2 /\ vm_low (mallocs pre) (1 + mallocs pre) s.2.

(** The instruction fetched there is the next one, and it is safe. *)
Lemma at_prefix_next pre post v inst :
  program = pre ++ post -> vm_pc v = Z.of_nat (length (assemble pre)) -> 
  fetchInstruction (vm_pc v) (assemble program) = inr inst ->
  exists i rest, post = i :: rest /\ inst = instr_of i /\ asm_ok i /\ malloc_pos i /\
    0 <= mallocs pre /\ 0 <= malloc_size i /\ mallocs pre + malloc_size i <= mallocs program.
Proof.
  intros Hp Hpc Hf. destruct post as [|i rest].
  { rewrite app_nil_r in Hp. subst pre. unfold fetchInstruction in Hf. by rewrite Hpc, Z.sub_diag in Hf. }
  rewrite Hp in Hok, Hpos, Hlen. apply Forall_app in Hok as [_ Hok2], Hpos as [Hpos1 Hpos2].
  apply Forall_cons in Hok2 as [Hi _], Hpos2 as [Hpi Hpr].
  rewrite Hpc, Hp, fetch_assembled in Hf by done. injection Hf as <-. exists i, rest.
  rewrite Hp, mallocs_app. change (mallocs (i :: rest)) with (malloc_size i + mallocs rest).
  pose proof (mallocs_nonneg _ Hpos1). pose proof (mallocs_nonneg _ Hpr).
  assert (0 <= malloc_size i) by (destruct i; cbn [malloc_size malloc_pos] in *; lia).
  split_and!; try done. lia.
Qed.

Hypothesis Htotal : mallocs program <= PlaneSize.

Lemma at_prefix_step s1 s2 : at_prefix s1 -> vstep rt (assemble program) s1 s2 -> at_prefix s2.
Proof.
  intros (pre & post & Hp & Hpc & Hv & Hlow) Hs. destruct Hs as [k v inst v1 Hlt Hh Hpa Hf Hx Hg Hm]. cbn [snd] in *.
  destruct (at_prefix_next pre post v inst Hp Hpc Hf) as (i & rest & -> & -> & Hi & Hpi & H0 & H1 & H2).
  assert (safe_instr v i) as Hsafe.
  { apply (low_safe_instr (mallocs pre) (1 + mallocs pre)); [done | done | done | lia | unfold PlaneSize in *; lia]. }
  destruct (@instruction_safe (rt k) v i Hv Hi Hsafe) as (v' & e & Hx' & Hv'). rewrite Hx in Hx'.
  injection Hx' as <- <-. destruct (executeInstruction_frame v i v1 None Hx) as [Hctl _].
  assert (vm_pc v1 = vm_pc v) as Hpc1 by (unfold control in Hctl; congruence).
  assert (mallocs (pre ++ [i]) = mallocs pre + malloc_size i) as Em.
  { rewrite mallocs_app. unfold mallocs at 2. simpl. lia. }
  exists (pre ++ [i]), rest. cbn [snd]. split_and!.
  - by rewrite <- app_assoc.
  - cbn [vm_pc set_control]. rewrite Hpc1, Hpc, encode_size, assemble_app, length_app, assemble_cons, length_app.
    rewrite Hp, assemble_app, assemble_cons, !length_app in Hlen. rewrite u64_small by (unfold is_u64; lia). simpl. lia.
  - by apply vm_inv_control.
  - rewrite Em. replace (1 + (mallocs pre + malloc_size i)) with (1 + mallocs pre + malloc_size i) by lia.
    apply (vm_low_same _ _ v1); [done|]. eapply (@handler_low (rt k)); try done; [lia | | apply Hv].
    intros s r f ->. done.
Qed.

Lemma static_mallocs_safe `{GoRuntime} cfg : mallocs_safe rt (assemble program) (start_state rt (NewVM3D cfg)).
Proof.
  intros k v i Hr Hh Hf.
  assert (at_prefix (k, v)) as (pre & post & Hp & Hpc & Hv & Hlow).
  { refine (rtc_ind_r at_prefix (O, start_state rt (NewVM3D cfg)) _ _ (k, v) Hr).
    - exists [], program. split_and!; [done | done | apply vm_inv_control, NewVM3D_inv |].
      split; [|simpl; lia]. split; [done|]. intros k1 r Hk. simpl in Hk. by rewrite lookup_empty in Hk.
    - intros s1 s2 _ Hs Hat. by eapply at_prefix_step. }
  destruct (at_prefix_next pre post v (instr_of i) Hp Hpc Hf) as (j & rest & -> & Ej & _ & Hpj & H0 & H1 & H2).
  assert (i = j) as -> by (destruct i, j; try discriminate Ej; cbn in Ej; congruence).
  apply (low_safe_instr (mallocs pre) (1 + mallocs pre)); [done | done | done | lia | unfold PlaneSize in *; lia].
Qed.
End Static.

(** C2. Safety read off the program text: a program assembled from instructions with
    fields in range, whose MALLOCs ask for more than zero bytes each and for at most
    one plane (65535 bytes) together, never panics or blocks, whatever it frees,
    stores and copies in between and in whatever order the run time visits its maps;
    it ends in a state with disjoint live blocks and a cache equal to memory. *)
Theorem assembled_program_safe `{GoRuntime} rt cfg program :
  Forall asm_ok program -> Forall malloc_pos program -> mallocs program <= PlaneSize ->
  Z.of_nat (length (assemble program)) < 18446744073709551616 ->
  exists v' e, Execute rt (NewVM3D cfg) (assemble program) = Ret (v', e) /\ vm_inv v'.
Proof.
  intros Hok Hpos Hle Hlen. apply execute_safe; [by apply assemble_bytes | done | by apply static_mallocs_safe].
Qed.

Definition churn_program : list asm :=
  [IAlloc 4 4 0; IAlloc 1 4 0; IFree (NewAddress 2 0 0); IAlloc 65530 4 0; IStore (NewAddress 2 0 5) 0 14; IHalt].

Lemma assembled_program_safe_witness :
  exists v' e, Execute (fun _ => runtime_fwd 0) demo_vm (assemble churn_program) = Ret (v', e) /\ vm_inv v'.
Proof.
  apply (@assembled_program_safe (runtime_fwd 0) (fun _ => runtime_fwd 0) demo_config churn_program).
  - repeat (apply Forall_cons; split); try exact (Forall_nil_2 _); by vm_compute.
  - apply (bool_decide_unpack _). by vm_compute.
  - by vm_compute.
  - by vm_compute.
Defined.
