(* ===== verification/Refinement.v ===== *)
(** * The virtual machine implements the abstract machine

    Instruction by instruction, and for whole programs under the static condition of
    StaticSafety: memory, registers, gas, error and end of the run of [Execute] are
    those of the machine of BlockMachine. *)
From S2P Require Import Prelude Words Float64 Address Errors Bitmap Plane Region Allocator.
From S2P Require Import AllocatorInv YPromotionInv AllocatorSpec AllocatorEdge.
From S2P Require Import Gas Sha256 Merkle Spatial Registers Instructions MemoryManager VM Progress.
From S2P Require Import VMFrame BlockMachine VMMemory VMSpec StaticSafety.
From stdpp Require Import strings.
#[local] Open Scope Z_scope.

(** ** What the loop looks at between two instructions *)

(** No handler counts instructions, and only HALT sets the flag. *)
Definition status (v : VM3D) : bool * Z := (vm_halted v, vs_InstructionsExecuted (vm_stats v)).

Lemma tree_update_status `{GoRuntime} v addr d : status (tree_update v addr d) = status v.
Proof. unfold tree_update. by destruct (vm_merkleTree v). Qed.

Lemma handler_status `{GoRuntime} v inst v' e :
  (executeMLoad3D v inst = Ret (v', e) \/ executeMStore3D v inst = Ret (v', e) \/
   executeMAlloc3D v inst = Ret (v', e) \/ executeMFree3D v inst = Ret (v', e) \/
   executeMCopy3D v inst = Ret (v', e) \/ executeMSize3D v inst = Ret (v', e)) -> status v' = status v.
Proof.
  intros Hx. unfold executeMLoad3D, executeMStore3D, executeMAlloc3D, executeMFree3D, executeMCopy3D, executeMSize3D in Hx.
  repeat destruct Hx as [Hx|Hx]; inv_res; try done;
    match goal with |- context [tree_update ?v ?a ?d] => exact (tree_update_status v a d) end.
Qed.

Lemma executeInstruction_status `{GoRuntime} v i v' :
  executeInstruction v (instr_of i) = Ret (v', None) ->
  status v' = (match i with IHalt => true | _ => vm_halted v end, vs_InstructionsExecuted (vm_stats v)).
Proof.
  unfold executeInstruction. intros Hx. apply bind_Ret_inv in Hx as ([g ce] & _ & Hx).
  destruct ce as [err|]; [done|]. pose proof (handler_status (set_gas g v) (instr_of i) v' None) as Hq.
  change (status (set_gas g v)) with (status v) in Hq. cbv zeta in Hx.
  destruct i.
  - apply Hq. left. exact Hx.
  - apply Hq. right. left. exact Hx.
  - apply Hq. do 2 right. left. exact Hx.
  - apply Hq. do 3 right. left. exact Hx.
  - apply Hq. do 4 right. left. exact Hx.
  - by injection Hx as <-.
  - by injection Hx as <-.
  - by injection Hx as <-.
  - apply Hq. do 5 right. exact Hx.
  - by injection Hx as <-.
  - by injection Hx as <-.
Qed.

Lemma Remaining_gas limit g : 0 <= limit < 9223372036854775808 -> gas_inv limit g -> Remaining g = gas_left g.
Proof.
  intros Hl (b & Hb & Hr & Hu & Hs). unfold Remaining, gas_left. rewrite Hb. cbn [foldl]. rewrite Z.add_0_l.
  assert (to_int64 (gb_remaining b) = gb_remaining b) as E.
  { unfold to_int64. rewrite u64_small by (unfold is_u64; lia).
    destruct (Z.ltb_spec (gb_remaining b) 9223372036854775808); lia. }
  rewrite !E. destruct (Z.ltb_spec (gb_remaining b) 0); lia.
Qed.

(** ** Whole programs *)

Lemma assemble_length l : (length l <= length (assemble l))%nat.
Proof.
  induction l as [|i l IH]; [done|]. rewrite assemble_cons, length_app.
  destruct (encode_head i) as (b & bs & -> & _). simpl. lia.
Qed.

Section Programs.
Context (rt : nat -> GoRuntime) (program : list asm) (limit maxi : Z) (t0 n0 c0 : Z).
Hypothesis Hok : Forall asm_ok program.
Hypothesis Hpos : Forall malloc_pos program.
Hypothesis Hmark : 0 <= t0 /\ t0 + mallocs program <= PlaneSize.
Hypothesis Hids : n0 + PlaneSize < 18446744073709551615.
Hypothesis Hcount : 0 <= c0 /\ c0 + Z.of_nat (length program) < 18446744073709551616.
Hypothesis Hlen : Z.of_nat (length (assemble program)) < 18446744073709551616.
Hypothesis Hlimit : 0 <= limit < 9223372036854775808.

(** The state of the VM when the prefix [pre] has been executed: below the mark it
    had at the start plus what was asked for since. *)
Record executed (pre : list asm) (v : VM3D) : Prop := {
  ex_pc : vm_pc v = Z.of_nat (length (assemble pre));
  ex_inv : vm_inv v;
  ex_low : vm_low (t0 + mallocs pre) (n0 + mallocs pre) v;
  ex_gas : gas_inv limit (vm_gasAccount v);
  ex_status : status v = (false, c0 + Z.of_nat (length pre));
  ex_max : vc_MaxInstructions (vm_config v) = maxi;
  ex_paused : vm_paused v = false;
}.

(** One round: the instruction is executed as the abstract machine does. *)
Lemma round pre i post v k :
  program = pre ++ i :: post -> executed pre v ->
  fetchInstruction (vm_pc v) (assemble program) = inr (instr_of i) /\
  exists v1 e, @executeInstruction (rt k) v (instr_of i) = Ret (v1, e) /\ vm_inv v1 /\
    mstep i (machine_of v) (machine_of v1) e /\ vm_config v1 = vm_config v /\ vm_pc v1 = vm_pc v /\
    (e = None -> i <> IHalt -> forall lat, executed (pre ++ [i])
       (set_control (vm_pc v1 + in_Size (instr_of i)) (vm_halted v1) (count_instruction (vm_stats v1)) lat v1)) /\
    (e = None -> vm_halted v1 = match i with IHalt => true | _ => false end /\
       vs_InstructionsExecuted (count_instruction (vm_stats v1)) = c0 + Z.of_nat (length pre) + 1 /\
       Remaining (vm_gasAccount v1) = mc_gas (machine_of v1)).
Proof.
  intros Hp [Epc Ei El Eg Es Em Ep].
  assert (Forall asm_ok (pre ++ i :: post)) as Hok1 by (by rewrite <- Hp).
  apply Forall_app in Hok1 as [_ [Hi _]%Forall_cons].
  assert (fetchInstruction (vm_pc v) (assemble program) = inr (instr_of i)) as Hf.
  { rewrite Epc, Hp. apply fetch_assembled; [done|]. by rewrite <- Hp. }
  split; [done|].
  destruct (at_prefix_next program Hok Hpos Hlen pre (i :: post) v (instr_of i) Hp Epc Hf)
    as (i' & rest & [= <- <-] & _ & _ & Hpi & H0 & H1 & H2).
  assert (safe_instr v i) as Hsafe.
  { apply (low_safe_instr (t0 + mallocs pre) (n0 + mallocs pre)); [done | done | lia | lia | unfold PlaneSize in *; lia]. }
  destruct (@instruction_refines_lemma (rt k) limit v i ltac:(unfold is_u64; lia) Eg Ei Hi Hsafe) as (v1 & e & Hx & Hv1 & Hm).
  exists v1, e. destruct (executeInstruction_frame v i v1 e Hx) as [Hctl _].
  unfold control in Hctl. injection Hctl as Epc1 Ecf1 Epa1 _.
  destruct (@executeInstruction_gas (rt k) limit v i v1 e ltac:(unfold is_u64; lia) Eg Hx) as [Eg1 _].
  assert (e = None -> status v1 = (match i with IHalt => true | _ => false end, c0 + Z.of_nat (length pre))) as Hst.
  { intros ->. rewrite (executeInstruction_status v i v1 Hx). unfold status in Es. injection Es as -> ->. by destruct i. }
  assert (c0 + Z.of_nat (length pre) + 1 < 18446744073709551616) as Hn.
  { rewrite Hp, length_app in Hcount. simpl in Hcount. lia. }
  do 5 (split; [done|]). split.
  - intros He Hh lat. pose proof (Hst He) as Hs1. assert (status v1 = (false, c0 + Z.of_nat (length pre))) as Hs2.
    { rewrite Hs1. by destruct i. }
    unfold status in Hs2. injection Hs2 as Hs2 Hs3.
    assert (mallocs (pre ++ [i]) = mallocs pre + malloc_size i) as Emm.
    { rewrite mallocs_app. unfold mallocs at 2. simpl. lia. }
    constructor; cbn [vm_pc vm_gasAccount vm_config vm_paused set_control].
    + rewrite Epc1, Epc, encode_size, assemble_app, length_app, assemble_cons, length_app. simpl. lia.
    + by apply vm_inv_control.
    + rewrite Emm, !Z.add_assoc. apply (vm_low_same _ _ v1); [done|].
      eapply (@handler_low (rt k)); try done; [lia | lia | | apply Ei]. intros s r f ->. done.
    + done.
    + unfold status. cbn [vm_halted vm_stats set_control count_instruction vs_InstructionsExecuted].
      rewrite Hs2, Hs3, u64_small by (unfold is_u64; lia). rewrite length_app. simpl. f_equal. lia.
    + congruence.
    + congruence.
  - intros He. specialize (Hst He). unfold status in Hst. injection Hst as Hs2 Hs3. split; [done|]. split.
    + cbn [count_instruction vs_InstructionsExecuted]. rewrite Hs3. apply u64_small. unfold is_u64. lia.
    + by apply (Remaining_gas limit).
Qed.

Lemma loop_refines post pre v k fuel :
  program = pre ++ post -> executed pre v -> (length (assemble post) < fuel)%nat ->
  exists v' e, exec_loop rt fuel k v (assemble program) = Some (Ret (v', e)) /\ vm_inv v' /\
    prun maxi (c0 + Z.of_nat (length pre)) (vm_pc v) (machine_of v) post (machine_of v') e.
Proof.
  revert pre v k fuel. induction post as [|i post IH]; intros pre v k fuel Hp Hex Hf;
    (destruct fuel as [|fuel]; [simpl in Hf; lia|]); cbn [exec_loop].
  { rewrite app_nil_r in Hp. rewrite (ex_pc _ _ Hex), Hp.
    destruct (Z.ltb_spec (Z.of_nat (length (assemble pre))) (Z.of_nat (length (assemble pre)))); [lia|]. cbn [andb].
    eexists _, _. split; [done|]. split; [by apply vm_inv_control, Hex|]. constructor. }
  pose proof Hex as [Epc Ei El Eg Es Em Ep]. unfold status in Es. injection Es as Eh En.
  destruct (encode_head i) as (b & bs & Hb & _).
  assert (vm_pc v <? Z.of_nat (length (assemble program)) = true) as ->.
  { apply Z.ltb_lt. rewrite Epc, Hp, assemble_app, length_app, assemble_cons, Hb. simpl. lia. }
  rewrite Eh, Ep. cbn [negb andb].
  destruct (round pre i post v k Hp Hex) as (-> & v1 & e & -> & Hv1 & Hm & Ecf & Epc1 & Hnext & Hsome).
  cbv zeta. destruct e as [err|].
  { eexists _, _. split; [done|]. split; [by apply vm_inv_control|]. cbn [vm_pc set_control]. rewrite Epc1. by apply prun_fail. }
  destruct (Hsome eq_refl) as (Hh & Hcnt & Hrem). cbn [vm_gasAccount vm_config vm_stats vm_pc vm_halted vm_latency set_control].
  rewrite Hrem, Hcnt, Ecf, Em. destruct (Z.eqb_spec (mc_gas (machine_of v1)) 0) as [Hz|Hz].
  { eexists _, _. split; [done|]. split; [by apply vm_inv_control|]. by apply prun_gas. }
  destruct (Z.leb_spec maxi (c0 + Z.of_nat (length pre) + 1)) as [Hmx|Hmx].
  { eexists _, _. split; [done|]. split; [by apply vm_inv_control|]. by apply prun_limit. }
  assert (u64 (vm_pc v1 + in_Size (instr_of i)) = vm_pc v1 + in_Size (instr_of i)) as ->.
  { rewrite Epc1, Epc, encode_size. apply u64_small. rewrite Hp, assemble_app, assemble_cons, !length_app in Hlen.
    unfold is_u64. lia. }
  destruct (decide (i = IHalt)) as [->|Hne].
  - destruct fuel as [|fuel]; [simpl in Hf; lia|]. cbn [exec_loop]. cbn [vm_pc vm_halted set_control].
    rewrite Hh, andb_false_r. eexists _, _. split; [done|]. split; [by apply vm_inv_control, vm_inv_control, vm_inv_control|].
    by apply prun_halt.
  - match goal with |- context [exec_loop rt fuel (S k) ?w _] => set (v2 := w) end.
    destruct (IH (pre ++ [i]) v2 (S k) fuel) as (v' & e & Hx & Hv' & Hr);
      [by rewrite <- app_assoc | exact (Hnext eq_refl Hne _) | |].
    { rewrite assemble_cons, length_app, Hb in Hf. simpl in Hf. lia. }
    exists v', e. split; [exact Hx|]. split; [done|]. eapply prun_next; [exact Hm | done..|].
    rewrite length_app in Hr. cbn [length vm_pc set_control v2] in Hr. rewrite Epc1, encode_size in Hr.
    replace (c0 + Z.of_nat (length pre) + 1) with (c0 + Z.of_nat (length pre + 1)) by lia. exact Hr.
Qed.
End Programs.

(** [Execute] on any VM that is in order and below a mark that leaves room for the
    program: it may have executed other programs before. *)
Lemma execute_refines rt program v limit t n :
  Forall asm_ok program -> Forall malloc_pos program -> 0 <= t -> t + mallocs program <= PlaneSize ->
  n + PlaneSize < 18446744073709551615 -> Z.of_nat (length (assemble program)) < 18446744073709551616 ->
  0 <= vs_InstructionsExecuted (vm_stats v) ->
  vs_InstructionsExecuted (vm_stats v) + Z.of_nat (length program) < 18446744073709551616 ->
  0 <= limit < 9223372036854775808 ->
  vm_inv v -> vm_low t n v -> gas_inv limit (vm_gasAccount v) -> vm_paused v = false ->
  exists v' e, Execute rt v (assemble program) = Ret (v', e) /\ vm_inv v' /\
    prun (vc_MaxInstructions (vm_config v)) (vs_InstructionsExecuted (vm_stats v)) 0 (machine_of v) program (machine_of v') e.
Proof.
  intros Hok Hpos Ht Hle Hids Hlen Hc0 Hc1 Hg Hv Hlow Hgas Hp.
  destruct (loop_refines rt program limit (vc_MaxInstructions (vm_config v)) t n (vs_InstructionsExecuted (vm_stats v))
    Hok Hpos (conj Ht Hle) Hids (conj Hc0 Hc1) Hlen Hg program [] (start_state rt v) 0 (S (length (assemble program))))
    as (v' & e & Hx & Hv' & Hr); [done | | lia |].
  - constructor; try done.
    + by apply vm_inv_control.
    + unfold mallocs. cbn [sumZ foldr]. rewrite !Z.add_0_r. done.
    + unfold status. cbn [length]. rewrite Z.add_0_r. done.
  - exists v', e. unfold Execute. fold (start_state rt v). rewrite Hx. split; [done|]. split; [done|].
    cbn [length] in Hr. rewrite Z.add_0_r in Hr. exact Hr.
Qed.

(** The abstract machine of a new VM. *)
Definition new_machine (cfg : VMConfig) : machine := mkMachine ∅ NewRegisters (vc_GasLimit cfg).

Lemma machine_of_new `{GoRuntime} cfg : is_u64 (vc_GasLimit cfg) -> machine_of (NewVM3D cfg) = new_machine cfg.
Proof.
  intros Hg. unfold machine_of, new_machine, gas_left. cbn [NewVM3D vm_gasAccount vm_heap vm_allocator vm_memory vm_registers].
  by rewrite NewAccountant_eq.
Qed.

(** C1. The VM implements the abstract machine of blocks: a program whose MALLOCs ask
    for more than zero bytes each and for one plane together runs on a new VM with a
    gas limit below 2^63 to an end
    or an error, and its final blocks, registers and gas, and the error it reports,
    are those of a run of the abstract machine, whatever the order in which the run
    time visits maps.  Planes, first-fit search, regions, cache, log and counters
    cannot be observed by the program except through the addresses MALLOC picks. *)
Theorem program_refines `{GoRuntime} rt cfg program :
  Forall asm_ok program -> Forall malloc_pos program -> mallocs program <= PlaneSize ->
  Z.of_nat (length (assemble program)) < 18446744073709551616 -> 0 <= vc_GasLimit cfg < 9223372036854775808 ->
  exists v' e, Execute rt (NewVM3D cfg) (assemble program) = Ret (v', e) /\
    prun (vc_MaxInstructions cfg) 0 0 (new_machine cfg) program (machine_of v') e.
Proof.
  intros Hok Hpos Hle Hlen Hg. pose proof (assemble_length program) as Hal.
  destruct (execute_refines rt program (NewVM3D cfg) (vc_GasLimit cfg) 0 1) as (v' & e & Hx & _ & Hr);
    try done; try (simpl; lia); [apply NewVM3D_inv | |].
  - exists (mkBucket (vc_GasLimit cfg) 0 0 0). split; [apply NewAccountant_eq; unfold is_u64; lia|]. simpl. lia.
  - exists v', e. split; [done|]. rewrite <- machine_of_new by (unfold is_u64; lia). exact Hr.
Qed.

Lemma program_refines_witness :
  exists v' e, Execute (fun _ => runtime_fwd 0) demo_vm (assemble churn_program) = Ret (v', e) /\
    prun 1000 0 0 (new_machine demo_config) churn_program (machine_of v') e.
Proof.
  apply (@program_refines (runtime_fwd 0) (fun _ => runtime_fwd 0) demo_config churn_program).
  - repeat (apply Forall_cons; split); try exact (Forall_nil_2 _); by vm_compute.
  - apply (bool_decide_unpack _). by vm_compute.
  - by vm_compute.
  - by vm_compute.
  - by vm_compute.
Defined.

(** ** Errors *)

(** C5. Errors are exact: on every state that satisfies the invariant, an instruction
    of a program fails if and only if [instr_error] says so, with that very error,
    and a failed instruction leaves the blocks and registers a program can observe as
    they were and keeps only the gas it was charged (the bookkeeping behind them may
    change: cache order, access log, an empty region after a failed MALLOC).  A MALLOC
    must be for more than zero bytes, with a region number left, and one the allocator
    can search for without 16-bit wrap-around. *)
Theorem instruction_errors `{GoRuntime} limit v i :
  is_u64 limit -> gas_inv limit (vm_gasAccount v) -> vm_inv v -> asm_ok i -> safe_instr v i ->
  exists v', executeInstruction v (instr_of i) = Ret (v', instr_error (machine_of v) i) /\ vm_inv v' /\
    (instr_error (machine_of v) i <> None ->
       mc_blocks (machine_of v') = mc_blocks (machine_of v) /\ vm_registers v' = vm_registers v /\
       gas_left (vm_gasAccount v') =
         gas_left (vm_gasAccount v) - (if gas_left (vm_gasAccount v) <? cost i then 0 else cost i)).
Proof.
  intros Hl Hg Hv Hok Hs. destruct (instruction_refines_lemma limit v i Hl Hg Hv Hok Hs) as (v' & e & Hx & Hv' & Hm).
  destruct (mstep_error _ _ _ _ Hm) as [-> He]. by exists v'.
Qed.

Lemma demo_gas : gas_inv 1000000 (vm_gasAccount demo_vm).
Proof. exists (mkBucket 1000000 0 0 0). by vm_compute. Qed.

Lemma instruction_errors_witness :
  instr_error (machine_of demo_vm) (ILoad (NewAddress 2 0 0) 14 5) =
    Some (ErrWrap "MLOAD3D failed" (ErrAddressNotAllocated (NewAddress 2 0 0))) /\
  exists v', @executeInstruction (runtime_fwd 0) demo_vm (instr_of (ILoad (NewAddress 2 0 0) 14 5)) =
    Ret (v', Some (ErrWrap "MLOAD3D failed" (ErrAddressNotAllocated (NewAddress 2 0 0)))) /\
    gas_left (vm_gasAccount v') = 1000000 - 38.
Proof.
  split; [vm_compute; reflexivity|].
  destruct (@instruction_errors (runtime_fwd 0) 1000000 demo_vm (ILoad (NewAddress 2 0 0) 14 5)) as (v' & Hx & _ & He).
  - by vm_compute.
  - exact demo_gas.
  - apply NewVM3D_inv.
  - by vm_compute.
  - exact I.
  - exists v'. split; [exact Hx|]. destruct He as (_ & _ & Hgas); [vm_compute; discriminate | exact Hgas].
Defined.
