(* ===== verification/VMApi.v ===== *)
(** * The API of the virtual machine (internal/vm/vm.go)

    [AllocateMemory], [Store3D], [Load3D] and [Shutdown], which a host program calls
    directly, in terms of the blocks of the abstract machine: they share memory with
    the programs the VM executes, but not their gas schedule. *)
From S2P Require Import Prelude Words Float64 Address Errors Bitmap Plane Region Allocator.
From S2P Require Import AllocatorInv YPromotionInv AllocatorSpec AllocatorEdge Workers.
From S2P Require Import Gas Sha256 Merkle Spatial Registers Instructions MemoryManager VM Progress.
From S2P Require Import VMFrame BlockMachine VMMemory VMSpec StaticSafety Refinement.
From stdpp Require Import strings.
#[local] Open Scope Z_scope.

(** [Shutdown] closes the channels of the allocator; [closed] says whether that was
    done before, and the result that it is done now. *)
Definition VM_Shutdown (closed : bool) (v : VM3D) : res bool :=
  p ← Shutdown (mkPool (vm_heap v) (vm_allocator v) [] closed [] []);
  Ret (po_closed p).

(** ** Store and load *)

(** What the calls leave alone. *)
Definition host_frame (v v' : VM3D) : Prop :=
  control v' = control v /\ vm_stats v' = vm_stats v /\ vm_registers v' = vm_registers v.

Section Api.
Context `{GoRuntime} (limit : Z) (v : VM3D).
Hypothesis Hlimit : is_u64 limit.
Hypothesis Hgas : gas_inv limit (vm_gasAccount v).
Hypothesis Hv : vm_inv v.

Lemma api_load addr size : is_u32 size ->
  exists v', VM_Load3D v addr size = Ret (v', read_block (mc_blocks (machine_of v)) addr size) /\ vm_inv v' /\
    machine_of v' = machine_of v /\ host_frame v v' /\ vm_gasAccount v' = vm_gasAccount v /\
    vm_allocator v' = vm_allocator v.
Proof.
  intros Hs. pose proof Hv as [Hm Hr Hg]. unfold VM_Load3D.
  destruct (mem_load _ _ _ _ addr size Hm Hs) as (mm' & -> & Hmm & _). cbn [mbind res_bind].
  eexists. split; [done|]. split; [apply (vm_inv_intro v Hv); [by apply (mem_mm _ _ (vm_memory v)) | done..]|].
  split; [|done]. by apply (machine_of_intro v); [apply blocks_mm | ..].
Qed.

Lemma api_allocate size rt : 0 < size < 4294967296 -> alloc_safe (vm_allocator v) size -> ids_left (vm_allocator v) ->
  exists v' r, AllocateMemory v size rt = Ret (v', r) /\ vm_inv v' /\ host_frame v v' /\
    vm_gasAccount v' = vm_gasAccount v /\
    match r with
    | inl err => PlaneSize < size /\ err = ErrInsufficientMemory size /\ machine_of v' = machine_of v
    | inr addr => size <= PlaneSize /\ mc_blocks (machine_of v) !! addr = None /\
        exists b, Z.of_nat (length b) = size /\ mc_blocks (machine_of v') = <[addr := b]> (mc_blocks (machine_of v))
    end.
Proof.
  intros Hsz Hsafe Hids. pose proof Hv as [Hm Hr Hg]. unfold AllocateMemory.
  destruct (mem_alloc _ _ _ _ size rt 0 Hm Hsz Hsafe Hids) as (h' & a' & o & -> & Ho). cbn [mbind res_bind].
  destruct o as [err|l].
  - destruct Ho as (-> & -> & Hbig & Hm' & Hbs). eexists _, _. split; [done|]. split; [by apply (vm_inv_intro v Hv)|].
    do 2 (split; [done|]). split; [done|]. split; [done|]. by apply (machine_of_intro v).
  - destruct Ho as (al & mm' & b & Hal & Hs & Hy & Htr & Hnone & Hmap & Hm' & Hmax & Hlen & Hbs).
    vm_simpl. rewrite Htr. vm_simpl. rewrite Hal. vm_simpl. eexists _, _. split; [done|].
    split; [by apply (vm_inv_intro v Hv)|]. do 2 (split; [done|]). split; [done|].
    split; [by apply blocks_None|]. by exists b.
Qed.
End Api.

(** The end of a store: the data is in memory and in the cache; now the gas. *)
Lemma store_finish_spec `{GoRuntime} limit v addr data :
  is_u64 limit -> gas_inv limit (vm_gasAccount v) -> Z.of_nat (length data) < 4294967296 ->
  regs_ok (vm_registers v) ->
  mem_inv (vm_heap v) (vm_allocator v) (vm_memory v) (Put (vm_cache v) addr data) ->
  let price := 15 * Z.of_nat (length data) in
  exists v', store_finish v addr data =
      Ret (v', if gas_left (vm_gasAccount v) <? price then Some ErrInsufficientGas else None) /\ vm_inv v' /\
    mc_blocks (machine_of v') = mc_blocks (machine_of v) /\ host_frame v v' /\ vm_allocator v' = vm_allocator v /\
    gas_inv limit (vm_gasAccount v') /\
    gas_left (vm_gasAccount v') =
      gas_left (vm_gasAccount v) - (if gas_left (vm_gasAccount v) <? price then 0 else price).
Proof.
  intros Hl Hg Hd Hr Hm price. unfold store_finish. cbv zeta.
  set (v1 := tree_update _ addr data).
  assert (vm_heap v1 = vm_heap v /\ vm_allocator v1 = vm_allocator v /\ vm_memory v1 = vm_memory v /\
    vm_cache v1 = Put (vm_cache v) addr data /\ vm_registers v1 = vm_registers v /\
    vm_gasAccount v1 = vm_gasAccount v /\ control v1 = control v /\ vm_stats v1 = vm_stats v)
    as (E1 & E2 & E3 & E4 & E5 & E6 & E7 & E8).
  { unfold v1, tree_update. by destruct (vm_merkleTree _). }
  rewrite E1, E3. destruct (mem_touch _ _ _ _ addr Hm) as (h2 & -> & Hm2 & Hb2). vm_simpl. rewrite E6.
  rewrite u64_small by (unfold is_u64; lia). fold price.
  destruct (Consume_gas limit (vm_gasAccount v) price Hl Hg ltac:(lia)) as (g & -> & Hg' & Hgl). cbn [mbind res_bind].
  eexists. split; [done|]. split; [|split; [|split; [|split; [|split]]]].
  - constructor; vm_simpl; [by rewrite E2, E4 | by rewrite E5 |]. destruct Hg' as (b & -> & _). done.
  - cbn [machine_of mc_blocks]. vm_simpl. by rewrite E2, Hb2.
  - split; [exact E7|]. split; [exact E8|exact E5].
  - vm_simpl. exact E2.
  - exact Hg'.
  - vm_simpl. rewrite Hgl. destruct (_ <? _); lia.
Qed.

(** Store into a block that exists, then account for it. *)
Lemma store_tracked `{GoRuntime} limit v addr data bs :
  is_u64 limit -> gas_inv limit (vm_gasAccount v) -> vm_inv v -> Z.of_nat (length data) < 4294967296 ->
  write_block (mc_blocks (machine_of v)) addr data = inr bs ->
  let price := 15 * Z.of_nat (length data) in
  exists v', ('(h, a, mm, e) ← Store3D (vm_heap v) (vm_allocator v) (vm_memory v) addr data;
      match e with
      | Some err => Ret (set_memory h a mm v, Some err)
      | None => store_finish (set_memory h a mm v) addr data
      end) = Ret (v', if gas_left (vm_gasAccount v) <? price then Some ErrInsufficientGas else None) /\
    vm_inv v' /\ mc_blocks (machine_of v') = bs /\ host_frame v v' /\ gas_inv limit (vm_gasAccount v') /\
    gas_left (vm_gasAccount v') =
      gas_left (vm_gasAccount v) - (if gas_left (vm_gasAccount v) <? price then 0 else price).
Proof.
  intros Hl Hg Hv Hd Hw price. pose proof Hv as [Hm Hr _].
  pose proof (mem_store _ _ _ _ addr data Hm Hd) as Hs. cbn [machine_of mc_blocks] in Hw. rewrite Hw in Hs.
  destruct Hs as (h' & a' & mm' & -> & Hbs & Hm' & _). cbn [mbind res_bind].
  destruct (store_finish_spec limit (set_memory h' a' mm' v) addr data Hl Hg Hd Hr Hm')
    as (v' & -> & Hv' & Hb' & Hf' & _ & Hg' & Hgl). exists v'. split; [done|]. split; [done|].
  split; [by rewrite Hb'|]. done.
Qed.

(** The blocks are [bs] now, and the bytes are paid for if they can be. *)
Definition paid_store (v : VM3D) (n : Z) (bs : gmap Address3D (list Z)) (v' : VM3D) (e : option error) : Prop :=
  let unpaid := gas_left (vm_gasAccount v) <? 15 * n in
  mc_blocks (machine_of v') = bs /\ e = (if unpaid then Some ErrInsufficientGas else None) /\
  gas_left (vm_gasAccount v') = gas_left (vm_gasAccount v) - (if unpaid then 0 else 15 * n).

Section Store.
Context `{GoRuntime} (limit : Z) (v : VM3D) (addr : Address3D) (data : list Z).
Hypothesis Hlimit : is_u64 limit.
Hypothesis Hgas : gas_inv limit (vm_gasAccount v).
Hypothesis Hv : vm_inv v.
Hypothesis Hdata : 0 < Z.of_nat (length data) < 4294967296.
Notation n := (Z.of_nat (length data)).
Notation bs := (mc_blocks (machine_of v)).

(** The first attempt, at an address with a block. *)
Lemma host_store_block b : bs !! addr = Some b ->
  exists v' e, VM_Store3D v addr data = Ret (v', e) /\ vm_inv v' /\ host_frame v v' /\ gas_inv limit (vm_gasAccount v') /\
    if n <=? Z.of_nat (length b) then
      paid_store v n (<[addr := data ++ drop (length data) b]> bs) v' e /\
      exists v2, VM_Load3D v' addr n = Ret (v2, inr data)
    else e = Some (bounds_error "write" (Z.of_nat (length b)) n) /\ machine_of v' = machine_of v.
Proof.
  intros Hb. pose proof Hv as [Hm Hr _]. pose proof (mem_store _ _ _ _ addr data Hm ltac:(lia)) as Hs.
  destruct (Z.leb_spec n (Z.of_nat (length b))) as [Hle|Hgt].
  - assert (write_block bs addr data = inr (<[addr := data ++ drop (length data) b]> bs)) as Hw.
    { unfold write_block. rewrite Hb. by destruct (Z.leb_spec n (Z.of_nat (length b))); [|lia]. }
    destruct (store_tracked limit v addr data _ Hlimit Hgas Hv ltac:(lia) Hw) as (v' & Hx & Hv' & Hbs & Hf & Hg' & Hgl).
    eexists v', _. split; [|do 3 (split; [done|]); split; [done|]].
    + unfold VM_Store3D. change (blocks (vm_heap v) (vm_allocator v) (vm_memory v)) with bs in Hs.
      rewrite Hw in Hs. destruct Hs as (h' & a' & mm' & E & _). rewrite E in Hx |- *. exact Hx.
    + destruct (api_load v' Hv' addr n) as (v2 & -> & _); [unfold is_u32; lia|]. exists v2.
      by rewrite Hbs, (write_read _ _ _ _ Hw).
  - cbn [machine_of mc_blocks] in Hb. unfold write_block in Hs. rewrite Hb in Hs.
    destruct (Z.leb_spec n (Z.of_nat (length b))) as [|_]; [lia|].
    unfold VM_Store3D. rewrite Hs. cbn [mbind res_bind]. rewrite decide_False by done.
    eexists _, _. split; [done|]. split; [by apply (vm_inv_intro v Hv) | done].
Qed.

(** The second attempt: a new block for the data. *)
Lemma host_store_fresh : bs !! addr = None -> alloc_safe (vm_allocator v) n -> ids_left (vm_allocator v) ->
  exists v' e, VM_Store3D v addr data = Ret (v', e) /\ vm_inv v' /\ host_frame v v' /\ gas_inv limit (vm_gasAccount v') /\
    if n <=? PlaneSize then exists addr', bs !! addr' = None /\ paid_store v n (<[addr' := data]> bs) v' e
    else e = Some (ErrInsufficientMemory n) /\ machine_of v' = machine_of v.
Proof.
  intros Hb Hsafe Hids. pose proof Hv as [Hm Hr _]. pose proof (mem_store _ _ _ _ addr data Hm ltac:(lia)) as Hs.
  cbn [machine_of mc_blocks] in Hb. unfold write_block in Hs. rewrite Hb in Hs.
  unfold VM_Store3D. rewrite Hs. cbn [mbind res_bind]. rewrite decide_True by done. vm_simpl.
  rewrite u32_small by (unfold is_u32; lia).
  destruct (mem_alloc _ _ _ _ n RegionTypeHeap 0 Hm ltac:(lia) Hsafe Hids) as (h' & a' & o & -> & Ho). cbn [mbind res_bind].
  destruct o as [err|l].
  - destruct Ho as (-> & -> & Hbig & Hm' & Hbs). destruct (Z.leb_spec n PlaneSize); [lia|].
    eexists _, _. split; [done|]. split; [by apply (vm_inv_intro v Hv)|]. do 2 (split; [done|]).
    split; [done|]. by apply (machine_of_intro v).
  - destruct Ho as (al & mm' & b & Hal & Hsz & Hy & Htr & Hnone & Hmap & Hm' & Hmax & Hlen & Hbs).
    destruct (Z.leb_spec n PlaneSize); [|lia]. vm_simpl. rewrite Htr. vm_simpl. rewrite Hal. vm_simpl.
    set (v1 := set_memory h' a' mm' v). assert (vm_inv v1) as Hv1 by (by apply (vm_inv_intro v Hv)).
    assert (write_block (mc_blocks (machine_of v1)) (al_Address al) data = inr (<[al_Address al := data]> bs)) as Hw.
    { unfold write_block. change (mc_blocks (machine_of v1)) with (blocks h' a' mm'). rewrite Hbs, lookup_insert_eq.
      destruct (Z.leb_spec n (Z.of_nat (length b))); [|lia]. rewrite drop_ge by lia. rewrite app_nil_r.
      by rewrite insert_insert_eq. }
    destruct (store_tracked limit v1 (al_Address al) data _ Hlimit Hgas Hv1 ltac:(lia) Hw) as (v' & Hx & Hv' & Hb' & Hf & Hg' & Hgl).
    eexists v', _. split; [|do 3 (split; [done|])].
    + unfold v1 in Hx. cbn [vm_heap vm_allocator vm_memory set_memory] in Hx.
      destruct (Store3D _ _ _ _ _) as [[[[h2 a2] mm2] e2]| |]; [|done..].
      cbn [mbind res_bind] in Hx |- *. destruct e2; exact Hx.
    + exists (al_Address al). split; [by apply blocks_None | done].
Qed.
End Store.

(** Allocation by the host raises the high-water mark as MALLOC does. *)
Lemma AllocateMemory_low `{GoRuntime} t n v size rt v' r :
  0 <= t -> 0 < size -> t + size <= PlaneSize -> cf_EnableConcurrent (ac_config (vm_allocator v)) = false ->
  vm_low t n v -> AllocateMemory v size rt = Ret (v', r) -> vm_low (t + size) (n + size) v'.
Proof.
  intros Ht Hs Hle Hcc [Ha Hn] Hx. unfold AllocateMemory in Hx. cbv zeta in Hx.
  apply bind_Ret_inv in Hx as ([[h a] o] & Hal & Hx). rewrite Allocate_sync in Hal by (by left).
  apply (allocateSync_low t size Ht Hs Hle) in Hal as [Ha' Hn']; [|done | lia]. inv_res; (split; [done|]); simpl; lia.
Qed.

(** C14. The host interface stores what it is given (data that is not empty, on a valid VM
    whose allocator can search for its length without a 16-bit wrap): [Store3D] at the
    start of a block
    writes the data over the first bytes of the block, and a following [Load3D]
    returns it; one that is too long is refused without effect; at an address with
    no block the data goes into a new block of its own, at an address the caller is
    not told.  Gas is taken after the write, 15 units per byte where the documentation
    says 15 and 2 per byte: a store that cannot pay reports the error but has been
    done. *)
Theorem host_store `{GoRuntime} limit v addr data :
  is_u64 limit -> gas_inv limit (vm_gasAccount v) -> vm_inv v -> 0 < Z.of_nat (length data) < 4294967296 ->
  alloc_safe (vm_allocator v) (Z.of_nat (length data)) -> ids_left (vm_allocator v) ->
  let n := Z.of_nat (length data) in
  let bs := mc_blocks (machine_of v) in
  exists v' e, VM_Store3D v addr data = Ret (v', e) /\ vm_inv v' /\ vm_registers v' = vm_registers v /\
    match bs !! addr with
    | Some b =>
        if n <=? Z.of_nat (length b) then
          paid_store v n (<[addr := data ++ drop (length data) b]> bs) v' e /\
          exists v2, VM_Load3D v' addr n = Ret (v2, inr data)
        else e = Some (bounds_error "write" (Z.of_nat (length b)) n) /\ machine_of v' = machine_of v
    | None =>
        if n <=? PlaneSize then exists addr', bs !! addr' = None /\ paid_store v n (<[addr' := data]> bs) v' e
        else e = Some (ErrInsufficientMemory n) /\ machine_of v' = machine_of v
    end.
Proof.
  intros Hl Hg Hv Hd Hsafe Hids n bs. destruct (bs !! addr) as [b|] eqn:Hb.
  - destruct (host_store_block limit v addr data Hl Hg Hv Hd b Hb) as (v' & e & Hx & Hv' & Hf & _ & Hr).
    exists v', e. split; [done|]. split; [done|]. split; [apply Hf | exact Hr].
  - destruct (host_store_fresh limit v addr data Hl Hg Hv Hd Hb Hsafe Hids) as (v' & e & Hx & Hv' & Hf & _ & Hr).
    exists v', e. split; [done|]. split; [done|]. split; [apply Hf | exact Hr].
Qed.

Lemma alloc_safe_new `{GoRuntime} cfg n : alloc_safe (vm_allocator (NewVM3D cfg)) n.
Proof. intros k r p m Hk. simpl in Hk. by rewrite lookup_empty in Hk. Qed.

Lemma host_store_witness :
  exists v' e addr', @VM_Store3D (runtime_fwd 0) demo_vm (NewAddress 9 9 9) [1; 2; 3] = Ret (v', e) /\
    paid_store demo_vm 3 {[addr' := [1; 2; 3]]} v' e.
Proof.
  destruct (@host_store (runtime_fwd 0) 1000000 demo_vm (NewAddress 9 9 9) [1; 2; 3]) as (v' & e & Hx & _ & _ & Hr).
  - by vm_compute.
  - exact demo_gas.
  - apply NewVM3D_inv.
  - by vm_compute.
  - apply alloc_safe_new.
  - by vm_compute.
  - destruct Hr as (addr' & _ & Hp). exists v', e, addr'. split; [exact Hx | exact Hp].
Defined.
