(* ===== verification/Main.v ===== *)
(** * The demonstration program (cmd/vm3d/main.go)

    The scenario of [main]: allocate, store, load, compute, check.  The profiling
    server, the profile file and the final sleep are left out; what is printed is the
    value of [main].  Every call has a run time of its own. *)
From S2P Require Import Prelude Words Float64 Address Errors Bitmap Plane Region Allocator.
From S2P Require Import AllocatorInv YPromotionInv AllocatorSpec AllocatorEdge Workers.
From S2P Require Import Gas Sha256 Merkle Spatial Registers Instructions MemoryManager VM Progress.
From S2P Require Import VMFrame BlockMachine VMMemory VMSpec StaticSafety Refinement VMApi.
From stdpp Require Import strings.
From Stdlib Require Import Ascii.
#[local] Open Scope Z_scope.

(** [[]byte(s)] for a text of one-byte characters. *)
Definition bytes_of (s : string) : list Z := (fun c => Z.of_nat (nat_of_ascii c)) <$> String.list_ascii_of_string s.

(** A line of output: a text, or a text with a number. *)
Inductive line := Print (text : string) | Printf (text : string) (n : Z).

Definition buildComplexComputationProgram : list Z :=
  [0x31; R2; R0; R1;
   0x32; R3; R2; R1;
   0xFF].

Definition vmConfig : VMConfig := mkVMConfig (1024 * 1024) 500000 true true 5000 LogLevelSilent.

Definition initialData : list Z := bytes_of "Configuration data for processing".

(** The deferred [Shutdown] on the way out. *)
Definition leave (v : VM3D) (out : list line) : res (list line) := _ ← VM_Shutdown false v; Ret out.

(** From step 5 on: the checks and the statistics. *)
Definition main_report (gasAtStart : Z) (v : VM3D) : list line :=
  let complain (bad : bool) text := if bad then [Print text] else [] in
  let r2Result := GetUint64 (GetRegisters v) R2 in
  let r3Result := GetUint64 (GetRegisters v) R3 in
  let stats := GetStats v in
  let gasAtEnd := GetGasRemaining v in
  complain (negb (150 =? r2Result)) "R2 should be 100 + 50 = 150" ++
  complain (negb (100 =? r3Result)) "R3 should be 150 - 50 = 100" ++
  complain (vs_InstructionsExecuted stats <? 0) "Should execute instructions" ++
  complain (GetGasUsed v <? 0) "Should consume some gas" ++
  complain (gasAtStart <=? gasAtEnd) "Gas should be consumed" ++
  [Printf "Instructions executed" (vs_InstructionsExecuted stats);
   Printf "Gas used" (GetGasUsed v);
   Printf "Memory usage" (vs_MemoryUsage stats)].

Definition main (rt : nat -> GoRuntime) : res (list line) :=
  let v := @NewVM3D (rt 0%nat) vmConfig in
  let gasAtStart := GetGasRemaining v in
  '(v, r) ← @AllocateMemory (rt 1%nat) v 1024 RegionTypeHeap;
  match r with
  | inl err => leave v []
  | inr resultAddr =>
      '(v, err) ← @VM_Store3D (rt 2%nat) v resultAddr initialData;
      match err with
      | Some err => leave v []
      | None =>
          '(v, r) ← @VM_Load3D (rt 3%nat) v resultAddr (u32 (Z.of_nat (length initialData)));
          match r with
          | inl err => leave v []
          | inr retrievedData =>
              let out := if bool_decide (initialData = retrievedData) then []
                         else [Print "Stored and retrieved data should match"] in
              let program := buildComplexComputationProgram in
              let v := set_registers (SetUint64 (GetRegisters v) R0 100) v in
              let v := set_registers (SetUint64 (GetRegisters v) R1 50) v in
              '(v, err) ← Execute (fun k => rt (4 + k)%nat) v program;
              match err with
              | Some err => leave v out
              | None => leave v (out ++ main_report gasAtStart v)
              end
          end
      end
  end.

(** The program in assembly. *)
Definition computation : list asm := [IAdd R2 R0 R1; ISub R3 R2 R1; IHalt].

Lemma computation_bytes : buildComplexComputationProgram = assemble computation.
Proof. reflexivity. Qed.

(** ** The computation *)

(** A register instruction that can be paid. *)
Lemma pay limit g i : 0 <= limit < 9223372036854775808 -> gas_inv limit g -> cost i < gas_left g ->
  exists g', Consume g (calculateGasCost (instr_of i)) = Ret (g', None) /\ gas_inv limit g' /\
    gas_left g' = gas_left g - cost i /\ (Remaining g' =? 0) = false.
Proof.
  intros Hl Hg Hc. destruct (Consume_gas limit g (cost i) ltac:(unfold is_u64; lia) Hg (calculateGasCost_pos _))
    as (g' & Hx & Hg' & Hgl). destruct (Z.ltb_spec (gas_left g) (cost i)); [lia|]. exists g'.
  split; [exact Hx|]. split; [done|]. split; [done|]. rewrite (Remaining_gas limit) by done. apply Z.eqb_neq. lia.
Qed.

Section Paid.
Context `{GoRuntime} (v : VM3D) (g : GasAccountant3D).

Lemma paid_add d s1 s2 : Consume (vm_gasAccount v) (calculateGasCost (instr_of (IAdd d s1 s2))) = Ret (g, None) ->
  executeInstruction v (instr_of (IAdd d s1 s2)) = Ret (set_registers (SetUint64 (vm_registers v) d
    (u64 (GetUint64 (vm_registers v) s1 + GetUint64 (vm_registers v) s2))) (set_gas g v), None).
Proof. intros Hc. unfold executeInstruction. by rewrite Hc. Qed.

Lemma paid_sub d s1 s2 : Consume (vm_gasAccount v) (calculateGasCost (instr_of (ISub d s1 s2))) = Ret (g, None) ->
  executeInstruction v (instr_of (ISub d s1 s2)) = Ret (set_registers (SetUint64 (vm_registers v) d
    (u64 (GetUint64 (vm_registers v) s1 - GetUint64 (vm_registers v) s2))) (set_gas g v), None).
Proof. intros Hc. unfold executeInstruction. by rewrite Hc. Qed.

Lemma paid_halt : Consume (vm_gasAccount v) (calculateGasCost (instr_of IHalt)) = Ret (g, None) ->
  executeInstruction v (instr_of IHalt) =
    Ret (set_control (vm_pc v) true (vm_stats v) (vm_latency v) (set_gas g v), None).
Proof. intros Hc. unfold executeInstruction. by rewrite Hc. Qed.
End Paid.

(** One round of the loop for an instruction that is paid and succeeds: what the
    next round starts from. *)
Lemma paid_round rt fuel k v program i w :
  vm_pc v < Z.of_nat (length program) -> vm_halted v = false -> vm_paused v = false ->
  fetchInstruction (vm_pc v) program = inr (instr_of i) ->
  @executeInstruction (rt k) v (instr_of i) = Ret (w, None) -> (Remaining (vm_gasAccount w) =? 0) = false ->
  vs_InstructionsExecuted (count_instruction (vm_stats w)) < vc_MaxInstructions (vm_config w) ->
  exists v', exec_loop rt (S fuel) k v program = exec_loop rt fuel (S k) v' program /\
    vm_pc v' = u64 (vm_pc w + in_Size (instr_of i)) /\ vm_halted v' = vm_halted w /\ vm_paused v' = vm_paused w /\
    vm_stats v' = count_instruction (vm_stats w) /\ vm_config v' = vm_config w /\
    vm_gasAccount v' = vm_gasAccount w /\ vm_registers v' = vm_registers w.
Proof.
  intros Hpc Hh Hp Hf Hx Hr Hm. apply Z.ltb_lt in Hpc. apply Z.leb_gt in Hm. cbn [exec_loop].
  rewrite Hpc, Hh, Hp, Hf, Hx. cbn [negb andb]. cbv zeta. cbn [vm_gasAccount vm_config vm_stats set_control].
  rewrite Hr, Hm. eexists. split; [reflexivity|]. done.
Qed.

(** What the computation makes of the registers. *)
Definition computed (r : Registers) : Registers :=
  let r := SetUint64 r R2 (u64 (GetUint64 r R0 + GetUint64 r R1)) in
  SetUint64 r R3 (u64 (GetUint64 r R2 - GetUint64 r R1)).

Lemma run_computation rt v limit :
  0 <= limit < 9223372036854775808 -> gas_inv limit (vm_gasAccount v) -> 7 < gas_left (vm_gasAccount v) ->
  vm_paused v = false -> vs_InstructionsExecuted (vm_stats v) = 0 -> 3 < vc_MaxInstructions (vm_config v) ->
  exists v', Execute rt v buildComplexComputationProgram = Ret (v', None) /\
    gas_inv limit (vm_gasAccount v') /\ gas_left (vm_gasAccount v') = gas_left (vm_gasAccount v) - 7 /\
    vs_InstructionsExecuted (vm_stats v') = 3 /\ vs_MemoryUsage (vm_stats v') = vs_MemoryUsage (vm_stats v) /\
    vm_registers v' = computed (vm_registers v).
Proof.
  intros Hl Hg Hgl Hp Hc Hm.
  destruct (pay limit (vm_gasAccount v) (IAdd R2 R0 R1) Hl Hg) as (g1 & X1 & G1 & L1 & E1); [change (cost _) with 3; lia|].
  change (cost (IAdd R2 R0 R1)) with 3 in L1.
  destruct (pay limit g1 (ISub R3 R2 R1) Hl G1) as (g2 & X2 & G2 & L2 & E2); [change (cost _) with 3; lia|].
  change (cost (ISub R3 R2 R1)) with 3 in L2.
  destruct (pay limit g2 IHalt Hl G2) as (g3 & X3 & G3 & L3 & E3); [change (cost _) with 1; lia|].
  change (cost IHalt) with 1 in L3.
  unfold Execute. set (v0 := set_control _ _ _ _ v). change (S (length buildComplexComputationProgram)) with 10%nat.
  destruct (paid_round rt 9 0 v0 buildComplexComputationProgram (IAdd R2 R0 R1) _ eq_refl eq_refl Hp eq_refl
    (@paid_add (rt 0%nat) v0 g1 R2 R0 R1 X1) E1) as (v1 & -> & P1 & H1 & U1 & S1 & C1 & A1 & D1).
  { simpl. rewrite Hc. change (u64 (0 + 1)) with 1. lia. }
  change (u64 _) with 4 in P1. change (vm_gasAccount v1 = g1) in A1. rewrite <- A1 in X2.
  destruct (paid_round rt 8 1 v1 buildComplexComputationProgram (ISub R3 R2 R1) _ ltac:(by rewrite P1) H1
    ltac:(by rewrite U1) ltac:(by rewrite P1) (@paid_sub (rt 1%nat) v1 g2 R3 R2 R1 X2) E2)
    as (v2 & -> & P2 & H2 & U2 & S2 & C2 & A2 & D2).
  { simpl. rewrite S1, C1. simpl. rewrite Hc. change (u64 (u64 (0 + 1) + 1)) with 2. lia. }
  assert (vm_pc v2 = 8) as P2' by (rewrite P2; cbn [vm_pc set_registers set_gas]; by rewrite P1).
  assert (vm_halted v2 = false) as H2' by (rewrite H2; exact H1).
  assert (vm_paused v2 = false) as U2' by (rewrite U2; cbn [vm_paused set_registers set_gas]; by rewrite U1).
  change (vm_gasAccount v2 = g2) in A2. rewrite <- A2 in X3.
  destruct (paid_round rt 7 2 v2 buildComplexComputationProgram IHalt _ ltac:(by rewrite P2') H2' U2' ltac:(by rewrite P2')
    (@paid_halt (rt 2%nat) v2 g3 X3) E3) as (v3 & -> & P3 & H3 & U3 & S3 & C3 & A3 & D3).
  { simpl. rewrite S2, C2. simpl. rewrite S1, C1. simpl. rewrite Hc.
    change (u64 (u64 (u64 (0 + 1) + 1) + 1)) with 3. lia. }
  cbn [exec_loop]. rewrite H3. cbn [vm_halted set_control negb]. rewrite andb_false_r. cbn [default from_option].
  eexists. split; [reflexivity|]. vm_simpl. rewrite A3, D3, S3. simpl. rewrite S2, D2. simpl. rewrite S1, D1. simpl.
  rewrite Hc. split; [done|]. split; [lia|]. done.
Qed.

(** ** The scenario *)

Lemma initial_length : Z.of_nat (length initialData) = 33.
Proof. reflexivity. Qed.

Lemma computed_registers r : regs_ok r ->
  let r := computed (SetUint64 (SetUint64 r R0 100) R1 50) in GetUint64 r R2 = 150 /\ GetUint64 r R3 = 100.
Proof.
  intros [Hl _]. destruct r as [gen sp cache]. simpl in Hl.
  do 17 (destruct gen as [|? gen]; [try discriminate Hl|]); [|discriminate Hl]. split; vm_compute; reflexivity.
Qed.

Lemma Used_gas limit g : is_u64 limit -> gas_inv limit g -> Used g = limit - gas_left g.
Proof.
  intros Hl (b & Hb & Hr & Hu & Hs). unfold is_u64 in Hl. rewrite (Used_single g b Hb) by (unfold is_u64; lia).
  unfold gas_left. rewrite Hb. lia.
Qed.

(** C15. The demonstration program works on every run time: it neither panics nor
    blocks nor returns early, prints none of its complaints (the data read back is the
    data stored, R2 = 150, R3 = 100, gas was consumed), and reports three
    instructions, 502 units of gas (15 for each of the 33 bytes stored, 3 + 3 + 1 for
    the instructions, nothing for the allocation and the load; by the documented prices
    the three calls alone would cost 1201) and no memory usage, although a kilobyte is allocated: nothing
    in the VM ever increases that counter. *)
Theorem main_output rt :
  main rt = Ret [Printf "Instructions executed" 3; Printf "Gas used" 502; Printf "Memory usage" 0].
Proof.
  unfold main. cbv zeta. set (v0 := NewVM3D vmConfig).
  assert (gas_inv 500000 (vm_gasAccount v0)) as G0 by (exists (mkBucket 500000 0 0 0); by vm_compute).
  destruct (@api_allocate (rt 1%nat) v0 (NewVM3D_inv vmConfig) 1024 RegionTypeHeap ltac:(lia)
    (alloc_safe_new vmConfig 1024) ltac:(by vm_compute)) as (v1 & r & -> & V1 & F1 & A1 & Hr). cbn [mbind res_bind].
  destruct r as [err|addr]; [destruct Hr as [Hr _]; by vm_compute in Hr|]. destruct Hr as (_ & _ & b & Hlen & Hbs).
  rewrite <- A1 in G0. destruct F1 as (K1 & T1 & D1).
  destruct (@host_store_block (rt 2%nat) 500000 v1 addr initialData ltac:(by vm_compute) G0 V1 ltac:(by vm_compute) b)
    as (v2 & e2 & -> & V2 & (K2 & T2 & D2) & G2 & H2); [by rewrite Hbs, lookup_insert_eq|]. cbn [mbind res_bind].
  rewrite Hlen in H2. change (Z.of_nat (length initialData) <=? 1024) with true in H2. destruct H2 as ((_ & -> & L2) & Hload).
  rewrite A1 in L2 |- *. change (gas_left (vm_gasAccount v0) <? _) with false in *. cbv iota in L2 |- *.
  change (gas_left (vm_gasAccount v0) - _) with 499505 in L2. change (u32 (Z.of_nat (length initialData))) with 33.
  change (Z.of_nat (length initialData)) with 33 in Hload.
  assert (read_block (mc_blocks (machine_of v2)) addr 33 = inr initialData) as Hrd.
  { destruct Hload as (v' & Hx). destruct (@api_load (rt 2%nat) v2 V2 addr 33 ltac:(done)) as (v'' & Hx' & _).
    rewrite Hx in Hx'. congruence. }
  destruct (@api_load (rt 3%nat) v2 V2 addr 33 ltac:(done)) as (v3 & -> & V3 & M3 & (K3 & T3 & D3) & A3 & _).
  cbn [mbind res_bind]. rewrite Hrd. rewrite bool_decide_true by done. cbn [app].
  assert (control v3 = control v0) as Hctl by congruence. assert (vm_stats v3 = vm_stats v0) as Hst by congruence.
  unfold control in Hctl. injection Hctl as _ Hcf Hpa _. cbn [vm_config vm_paused v0 NewVM3D] in Hcf, Hpa.
  set (v4 := set_registers _ (set_registers _ v3)).
  destruct (run_computation (fun k => rt (4 + k)%nat) v4 500000 ltac:(done)) as (v5 & -> & G5 & L5 & N5 & U5 & R5); 
    cbn [v4 vm_gasAccount vm_stats vm_config vm_paused set_registers]; [by rewrite A3 | rewrite A3, L2; lia | done
    | by rewrite Hst | rewrite Hcf; done |].
  assert (gas_left (vm_gasAccount v5) = 499498) as L5'.
  { rewrite L5. cbn [v4 vm_gasAccount set_registers]. rewrite A3, L2. done. }
  cbn [mbind res_bind]. unfold leave. cbn [VM_Shutdown Shutdown po_closed mbind res_bind app]. do 2 f_equal.
  destruct (computed_registers (vm_registers v3) (vi_regs v3 V3)) as [E2 E3].
  unfold main_report, GetRegisters, GetStats, GetGasRemaining, GetGasUsed. cbv zeta. rewrite R5.
  change (vm_registers v4) with (SetUint64 (SetUint64 (vm_registers v3) R0 100) R1 50). rewrite E2, E3.
  rewrite N5, U5, (Used_gas 500000) by (done || by vm_compute). rewrite (Remaining_gas 500000 (vm_gasAccount v5)) by (done || lia).
  rewrite L5'. change (vm_stats v4) with (vm_stats v3). rewrite Hst. reflexivity.
Qed.
